(* ===== verification/_CoqProject ===== *)
-Q . S2P
Prelude.v
Go.v
Strs.v
Nums.v
Path.v
Store.v
Env.v
Utf8.v
Fmt.v
Json.v
Codec.v
Times.v
Status.v
World.v
Sim.v
Docker.v
TrafficControl.v
Report.v
Wire.v
Plugin.v
Server.v
StoreConc.v
Floats.v
Flags.v
CloudTypes.v
CloudClient.v
CloudCli.v
Cover.v
Runner.v
Parallel.v
