(* ===== verification/Prelude.v ===== *)
(** * Scope network control plugin: a verification library

    The repository holds a plugin for Weave Scope and some tools of its build.
    The plugin lists the containers of a Docker daemon, offers for each of them
    buttons that slow its network down, drop packets or clear such settings,
    and applies them with the tc command inside the network namespace of the
    container. The tools merge coverage profiles and run integration tests on a
    pool of hosts.

    ** The program and its model

    - [src/store.go]: the map of known containers behind a mutex. [Store.v] has
      the data and the methods as whole functions; [StoreConc.v] the same
      methods in small steps, as goroutines interleave them.
    - [src/docker.go]: the goroutine that lists the containers, follows the
      events of the daemon and keeps the store up to date. [Docker.v]: every
      method, and the loop of Start as one step per control point ([Start_step]).
    - [src/main.go], status structs and cache: [Status.v], with pointers, the
      heap and the difference between a nil and an empty map.
    - [src/tc.go]: [TrafficControl.v], every function.
    - [src/report.go]: [Report.v], every function up to the value that is handed
      to json.Marshal, and the lookup of control handlers; [Wire.v], the JSON of
      the structs by their field tags and the bytes that RawReport returns.
    - [src/main.go], variables and decoded requests: [Plugin.v], with the process
      as an interleaving of the Docker goroutine and requests ([sys_step]).
    - [src/main.go], the rest: [Server.v], with the request handlers on a
      response writer, bodies and statuses included, the socket, the signals,
      and the process from its first statement to its exit ([proc_step]).
    - [src/tools/cover/cover.go]: [Cover.v].
    - [src/tools/runner/runner.go]: [Runner.v], with everything that is printed
      and the scheduling service; [Parallel.v], the parallel scheduler as the
      step relation [par_step], written over an interface of slices.
    - [src/tools/cmd/wcloud]: [CloudTypes.v] (types.go: the structs and their
      JSON), [CloudClient.v] (client.go: one request per method and the check of
      its answer), [CloudCli.v] (cli.go: flags, commands, output, exit status).

    ** Shared files

    This file: lemmas on lists, executions of transition systems.
    [Go.v]: what the language does: a function of the program is a state
    transformer whose outcome is a value, a panic, the end of the process or a
    wait that never ends; defer, range loops, parts of a state, frames
    ([Respects]), functions that do not wait ([NonBlocking]) and functions that
    end the process only as log.Fatalf does ([FatalOnly]).
    The standard library of Go, of version 1.6, as far as the sources use it:
    [Strs.v] (strings), [Nums.v] (strconv, 64-bit integers), [Path.v]
    (path/filepath), [Utf8.v] (unicode/utf8), [Fmt.v] (strconv.Quote, texts of
    errors), [Json.v] (the scanner of encoding/json, byte by byte, and the
    printer), [Codec.v] (storing JSON into Go values and back: the class
    [JsonType], with the round trip as the class [JsonLaws]), [Times.v] (dates,
    their formats and the parser of RFC 3339), [Floats.v] (float64), [Flags.v]
    (flag, time.ParseDuration).
    [Env.v]: code and services outside the repository (Docker, kernel, InfluxDB,
    clock, file system) as type classes over an abstract environment, with the few
    laws theorems assume of them ([KernelLaws]: what the link of a network
    namespace reads as; [ClockLaws]: the range of rand.Intn, and that ranging
    over a map visits every entry once). [World.v]: the environment together
    with the variables of the plugin and a trace of the commands it issued.
    [Sim.v]: a scripted environment that satisfies the laws; the witnesses of
    theorems evaluate the program in it. The tools have classes of their own
    ([System] in [Runner.v], [Cloud] in [CloudClient.v]).

    ** What the theorems show

    - Store: refinement of an atomic store under every interleaving, mutual
      exclusion, absence of deadlock, the sequential contract.
    - Docker client: an invariant of every reachable state with progress, the
      store after a listing and after a sequence of events, the crash when a
      listed container vanishes.
    - Traffic control: what is run, in which order, for each control, error
      paths included; the cache as a map under the pointer operations; the
      behaviour on the nil cache; pod names.
    - Reports: nodes, controls, node IDs; failure of a report.
    - Plugin: invariants of the deployed process, what a control request does,
      that only the clear control ever succeeds, that handlers give the mutex
      back and never wait for themselves.
    - Server: what a client reads in the answer to a control request and in a
      report, byte strings included; requests survive encoding, their strings
      are UTF-8; what the process does to its socket; how the process ends.
    - Coverage merger: merging is the addition of partial maps, commutative and
      associative; the output adds up all inputs and does not depend on orders.
    - Test runner: slices behave like lists, hosts are never shared or lost,
      termination under every scheduling, completion when the tests fit,
      no completion when one does not; names, environment, sequential runs with
      the scheduling service.
    - wcloud: at most one request per run; statuses; deployments and
      configurations survive the service; the window of time asked for does not
      overflow; the rows of the table.

    ** Bounds

    Integers of Go are [Z], wrapped to 64 bits where they are added ([int_add],
    [wrap64]). Only [components] of time.ParseDuration has fuel, the length of
    the text: every component consumes a character ([component_spec]), so it
    does not run out ([ParseDuration_spec]). Other loops are structural on lists
    and strings; those that may not end (Start, the schedulers, the store under
    concurrency, the process) are step relations, and termination is a theorem
    about them.

    ** Not modelled

    Log output and what the flag package prints on the standard error. Parameters
    because they are tables or code from outside the repository: which runes
    above Latin-1 are printable ([Unicode]), the local zone and the texts of
    time.ParseError ([LocalZone]), url.Parse, the HTTP transport, YAML, the
    rendering of tables, colour codes, the flag parser of the runner; vendored
    libraries, whose answers are parameters. net/http is modelled as far as the
    handlers see it: the routing is the list of registered patterns (cleaning of
    paths and redirects are not modelled), a panic inside a handler is recovered
    and nothing is sent ([serve]), header fields that the server adds itself are
    not modelled. A date in JSON is taken after its escapes are resolved, where Go
    would refuse one that is written with escapes. A signal is handled between
    the blocks of [proc_step], not in the middle of one. What the tests of a
    parallel run print is not modelled. Scripts in other languages are not
    modelled. A request handler runs as one step of the process in [Plugin.v] and
    [Server.v], so that in these files no handler finds the mutex taken by
    another one, and no event arrives in the middle of a report; that the calls
    of the store are atomic for other goroutines, and that goroutines that
    compete for the mutex do not deadlock, is what [StoreConc.v] shows. Of a panic
    the models keep the kind ([panic] in [Go.v]), not the text. *)

From stdpp Require Export base tactics relations list sorting gmap strings pretty fin_maps.
From Stdlib Require Export ZArith Lia.
From Stdlib Require Export Ascii.

(** ** Lists *)

Section lists.
Context {A : Type}.
Implicit Types (l k : list A) (x : A).

(** Removing the element at a known position is a permutation of taking it
    to the front. *)
Lemma Permutation_delete_middle l k x : l ++ x :: k ≡ₚ x :: l ++ k.
Proof. by rewrite Permutation_middle. Qed.

Lemma Forall_app_middle (P : A → Prop) l k x :
  Forall P (l ++ x :: k) ↔ P x ∧ Forall P (l ++ k).
Proof. rewrite !Forall_app, Forall_cons. tauto. Qed.

(** Two sorted permutations of one list are equal when the order is total
    and antisymmetric: this is why the choice of sorting algorithm does not
    show. *)
Lemma sort_unique (R : relation A) `{!∀ x y, Decision (R x y)}
    `{!Transitive R, !AntiSymm (=) R, !Total R} l k :
  l ≡ₚ k → merge_sort R l = merge_sort R k.
Proof.
  intros Hp. apply (StronglySorted_unique R).
  - by apply (StronglySorted_merge_sort R).
  - by apply (StronglySorted_merge_sort R).
  - by rewrite !(merge_sort_Permutation R).
Qed.
End lists.

(** ** Reachability *)

(** Invariants by induction on the number of steps. *)
Lemma rtc_invariant {A} (R : relation A) (P : A → Prop) :
  (∀ x y, P x → R x y → P y) → ∀ x y, P x → rtc R x y → P y.
Proof. intros Hstep x y Hx Hr. induction Hr; eauto. Qed.

(** Executions of a labelled transition system, with the labels an observer
    sees; a step without a label is silent. *)
Inductive execution {St L : Type} (step : St → option L → St → Prop) : St → list L → St → Prop :=
  | execution_nil s : execution step s [] s
  | execution_silent s s' s'' ls :
      step s None s' → execution step s' ls s'' → execution step s ls s''
  | execution_label s l s' s'' ls :
      step s (Some l) s' → execution step s' ls s'' → execution step s (l :: ls) s''.

Lemma execution_invariant {St L} (step : St → option L → St → Prop) (P : St → Prop) :
  (∀ s l s', P s → step s l s' → P s') →
  ∀ s ls s', execution step s ls s' → P s → P s'.
Proof. intros Hstep s ls s'. induction 1; eauto. Qed.

(** Forward simulation: a step is answered by a step with the same label, or is
    silent and answered by none. *)
Lemma execution_simulation {St St' L} (step : St → option L → St → Prop)
    (step' : St' → option L → St' → Prop) (rel : St → St' → Prop) :
  (∀ s l s1 a, rel s a → step s l s1 →
     ∃ a1, rel s1 a1 ∧ (step' a l a1 ∨ (l = None ∧ a1 = a))) →
  ∀ s ls s', execution step s ls s' → ∀ a, rel s a →
  ∃ a', execution step' a ls a' ∧ rel s' a'.
Proof.
  intros Hsim. induction 1 as [s|s s1 s2 ls Hs He IH|s l s1 s2 ls Hs He IH]; intros a Ha.
  - exists a. by split; [constructor|].
  - destruct (Hsim _ _ _ _ Ha Hs) as (a1 & Ha1 & [Hst|[_ ->]]);
      destruct (IH _ Ha1) as (a' & He' & ?); exists a'; (split; [|done]); [|done].
    by eapply execution_silent.
  - destruct (Hsim _ _ _ _ Ha Hs) as (a1 & Ha1 & [Hst|[? _]]); [|done].
    destruct (IH _ Ha1) as (a' & He' & ?). exists a'. split; [|done]. by eapply execution_label.
Qed.

Definition option_list {A} (o : option A) : list A := match o with Some x => [x] | None => [] end.

(** What relates the ends of an execution to its labels, step by step. *)
Lemma execution_trace {St L} (step : St → option L → St → Prop) (R : St → list L → St → Prop) :
  (∀ s, R s [] s) →
  (∀ s l s', step s l s' → R s (option_list l) s') →
  (∀ s1 s2 s3 ls ls', R s1 ls s2 → R s2 ls' s3 → R s1 (ls ++ ls') s3) →
  ∀ s ls s', execution step s ls s' → R s ls s'.
Proof.
  intros Hrefl Hstep Htrans. induction 1 as [|s s1 s2 ls Hs He IH|s l s1 s2 ls Hs He IH]; [done|..].
  - apply (Htrans s s1 s2 [] ls); [by apply (Hstep s None)|done].
  - apply (Htrans s s1 s2 [l] ls); [by apply (Hstep s (Some l))|done].
Qed.
