(* ===== verification/Go.v ===== *)
(** * The Go runtime the plugin relies on

    Control effects of Go as the source uses them: a statement either returns,
    panics, ends the process ([os.Exit], [log.Fatalf]) or blocks for ever on a
    mutex its own goroutine holds. A function is a state transformer with such
    an outcome, [defer] runs its clean-up on return and on panic, [for ... range]
    loops are folds, and a loop body that can [return] from its function
    is a [for_return]. *)

From S2P Require Import Prelude.

(** The run-time panics that source statements can raise. *)
Inductive panic : Set :=
  | NilMapWrite          (* assignment to entry in nil map *)
  | NilDereference       (* invalid memory address or nil pointer dereference *)
  | IndexOutOfRange
  | SliceOutOfRange
  | TypeAssertion        (* interface conversion *)
  | InvalidRandArgument  (* rand.Intn of a non-positive bound *)
  | ListenFailed         (* httptest.NewServer *)
  | UnlockOfUnlocked     (* sync: unlock of unlocked mutex *)
  | PanicString          (* panic("...") in the source *).

Inductive outcome (A : Type) : Type :=
  | Ret (a : A)
  | Panicked (p : panic)
  | Exited (code : Z)
  | Blocked.
Arguments Ret {A} a.
Arguments Panicked {A} p.
Arguments Exited {A} code.
Arguments Blocked {A}.

#[export] Instance panic_eq_dec : EqDecision panic.
Proof. solve_decision. Defined.

Definition M (S A : Type) : Type := S → outcome A * S.

Section monad.
Context {S : Type}.

#[global] Instance M_ret : MRet (M S) := λ A a s, (Ret a, s).

#[global] Instance M_bind : MBind (M S) := λ A B f m s,
  match m s with
  | (Ret a, s') => f a s'
  | (Panicked p, s') => (Panicked p, s')
  | (Exited c, s') => (Exited c, s')
  | (Blocked, s') => (Blocked, s')
  end.

Definition gopanic {A} (p : panic) : M S A := λ s, (Panicked p, s).
Definition goexit {A} (code : Z) : M S A := λ s, (Exited code, s).
Definition get : M S S := λ s, (Ret s, s).
Definition put (s' : S) : M S unit := λ _, (Ret (), s').
Definition modify (f : S → S) : M S unit := λ s, (Ret (), f s).

(** [x[i]] and the like: an absent value is a panic. *)
Definition or_panic {A} (p : panic) (o : option A) : M S A :=
  match o with Some a => mret a | None => gopanic p end.

(** [defer cleanup()] followed by the rest of the function. The clean-up runs
    when the body returns or panics, not when the process ends. *)
Definition defer {A} (cleanup : M S unit) (body : M S A) : M S A := λ s,
  match body s with
  | (Ret a, s1) =>
      match cleanup s1 with
      | (Ret _, s2) => (Ret a, s2)
      | (Panicked p, s2) => (Panicked p, s2)
      | (Exited c, s2) => (Exited c, s2)
      | (Blocked, s2) => (Blocked, s2)
      end
  | (Panicked p, s1) =>
      match cleanup s1 with
      | (Ret _, s2) => (Panicked p, s2)
      | (Panicked q, s2) => (Panicked q, s2)
      | (Exited c, s2) => (Exited c, s2)
      | (Blocked, s2) => (Blocked, s2)
      end
  | r => r
  end.

(** [for _, x := range xs { f(x) }] *)
Fixpoint for_range {X} (xs : list X) (f : X → M S unit) : M S unit :=
  match xs with
  | [] => mret ()
  | x :: xs => f x ≫= λ _, for_range xs f
  end.

(** A loop whose body may return from the enclosing function: the body gives
    [Some r] for [return r]. *)
Fixpoint for_return {X R} (xs : list X) (f : X → M S (option R)) : M S (option R) :=
  match xs with
  | [] => mret None
  | x :: xs => f x ≫= λ r, match r with Some r => mret (Some r) | None => for_return xs f end
  end.
End monad.

(** ** Parts of a state

    [Part S T]: a [T] is one of the variables of the state [S]; an operation on
    the part runs on the whole state through [zoom]. *)
Class Part (S T : Type) := {
  view : S → T;
  update : T → S → S
}.

Class PartLaws S T `{Part S T} : Prop := {
  view_update t s : view (update t s) = t;
  update_view s : update (view s) s = s;
  update_update t t' s : update t (update t' s) = update t s
}.

Definition zoom {S T A} `{Part S T} (m : M T A) : M S A := λ s,
  let '(o, t) := m (view s) in (o, update t s).

(** ** Equations *)

Section laws.
Context {S : Type}.

Lemma bind_Ret {A B} (m : M S A) (f : A → M S B) s a s' :
  m s = (Ret a, s') → (m ≫= f) s = f a s'.
Proof. intros Hm. unfold mbind, M_bind. by rewrite Hm. Qed.

Lemma bind_Panicked {A B} (m : M S A) (f : A → M S B) s p s' :
  m s = (Panicked p, s') → (m ≫= f) s = (Panicked p, s').
Proof. intros Hm. unfold mbind, M_bind. by rewrite Hm. Qed.

Lemma bind_mret {A B} (a : A) (f : A → M S B) s : (mret a ≫= f) s = f a s.
Proof. done. Qed.

Lemma bind_assoc {A B C} (m : M S A) (f : A → M S B) (g : B → M S C) s :
  ((m ≫= f) ≫= g) s = (m ≫= λ a, f a ≫= g) s.
Proof. unfold mbind, M_bind. by destruct (m s) as [[] ?]. Qed.

Lemma defer_body {A} c (m m' : M S A) s s' :
  m s = m' s' → defer c m s = defer c m' s'.
Proof. intros Hm. unfold defer. by rewrite Hm. Qed.

(** Inversion of a sequence that returned. *)
Lemma bind_Ret_inv {A B} (m : M S A) (f : A → M S B) s b s' :
  (m ≫= f) s = (Ret b, s') → ∃ a s1, m s = (Ret a, s1) ∧ f a s1 = (Ret b, s').
Proof. unfold mbind, M_bind. destruct (m s) as [[] ?]; naive_solver. Qed.

Lemma for_range_app {X} (xs ys : list X) (f : X → M S unit) s :
  for_range (xs ++ ys) f s = (for_range xs f ≫= λ _, for_range ys f) s.
Proof.
  revert s. induction xs as [|x xs IH]; intros s; [done|].
  cbn. rewrite bind_assoc. unfold mbind at 1 2, M_bind at 1 2.
  destruct (f x s) as [[] ?]; [|done..]. apply IH.
Qed.
End laws.

(** ** Relational frames

    [Respects R m]: whatever the outcome, the state after [m] is related by [R]
    to the state before. With a preorder [R] it composes through every
    construct of the monad, so instance search proves that an operation leaves
    a part of the state alone. *)
Class Respects {S A} (R : relation S) (m : M S A) : Prop :=
  respects s : R s (m s).2.

Section respects.
Context {S : Type} (R : relation S) `{!PreOrder R}.

#[global] Instance respects_mret {A} (a : A) : Respects R (mret a).
Proof. intros s. reflexivity. Qed.

#[global] Instance respects_gopanic {A} p : Respects R (gopanic (A:=A) p).
Proof. intros s. reflexivity. Qed.

#[global] Instance respects_goexit {A} c : Respects R (goexit (A:=A) c).
Proof. intros s. reflexivity. Qed.

#[global] Instance respects_get : Respects R get.
Proof. intros s. reflexivity. Qed.

#[global] Instance respects_or_panic {A} p (o : option A) : Respects R (or_panic p o).
Proof. destruct o; apply _. Qed.

#[global] Instance respects_bind {A B} (m : M S A) (f : A → M S B) :
  Respects R m → (∀ a, Respects R (f a)) → Respects R (m ≫= f).
Proof.
  intros Hm Hf s. unfold mbind, M_bind. specialize (Hm s).
  destruct (m s) as [[] s1]; simpl in *; [|done..].
  etrans; [done|apply Hf].
Qed.

#[global] Instance respects_defer {A} c (m : M S A) :
  Respects R c → Respects R m → Respects R (defer c m).
Proof.
  intros Hc Hm s. unfold defer. specialize (Hm s).
  destruct (m s) as [[] s1]; simpl in *; try done.
  all: specialize (Hc s1); destruct (c s1) as [[] s2]; simpl in *; by etrans.
Qed.

#[global] Instance respects_for_range {X} (xs : list X) f :
  (∀ x, Respects R (f x)) → Respects R (for_range xs f).
Proof. intros Hf. induction xs; apply _. Qed.

#[global] Instance respects_for_return {X T} (xs : list X) (f : X → M S (option T)) :
  (∀ x, Respects R (f x)) → Respects R (for_return xs f).
Proof.
  intros Hf. induction xs; [apply _|]. simpl.
  apply respects_bind; [apply _|]. intros []; apply _.
Qed.
End respects.

(** Operations that never block: they take no mutex. *)
Class NonBlocking {S A} (m : M S A) : Prop := non_blocking s : (m s).1 ≠ Blocked.

Section nonblocking.
Context {S : Type}.

#[global] Instance nonblocking_mret {A} (a : A) : NonBlocking (S:=S) (mret a).
Proof. by intros s. Qed.
#[global] Instance nonblocking_gopanic {A} p : NonBlocking (S:=S) (gopanic (A:=A) p).
Proof. by intros s. Qed.
#[global] Instance nonblocking_goexit {A} c : NonBlocking (S:=S) (goexit (A:=A) c).
Proof. by intros s. Qed.
#[global] Instance nonblocking_get : NonBlocking (S:=S) get.
Proof. by intros s. Qed.
#[global] Instance nonblocking_put s' : NonBlocking (S:=S) (put s').
Proof. by intros s. Qed.
#[global] Instance nonblocking_modify f : NonBlocking (S:=S) (modify f).
Proof. by intros s. Qed.
#[global] Instance nonblocking_or_panic {A} p (o : option A) : NonBlocking (S:=S) (or_panic p o).
Proof. destruct o; apply _. Qed.
#[global] Instance nonblocking_bind {A B} (m : M S A) (f : A → M S B) :
  NonBlocking m → (∀ a, NonBlocking (f a)) → NonBlocking (m ≫= f).
Proof.
  intros Hm Hf s. unfold mbind, M_bind. specialize (Hm s).
  destruct (m s) as [[] s1]; simpl in *; [apply Hf|done..].
Qed.
#[global] Instance nonblocking_for_range {X} (xs : list X) (f : X → M S unit) :
  (∀ x, NonBlocking (f x)) → NonBlocking (for_range xs f).
Proof. intros Hf. induction xs; apply _. Qed.
#[global] Instance nonblocking_for_return {X T} (xs : list X) (f : X → M S (option T)) :
  (∀ x, NonBlocking (f x)) → NonBlocking (for_return xs f).
Proof.
  intros Hf. induction xs; [apply _|]. simpl.
  apply nonblocking_bind; [apply _|]. intros []; apply _.
Qed.
End nonblocking.

#[export] Instance nonblocking_defer {S A} (c : M S unit) (m : M S A) :
  NonBlocking c → NonBlocking m → NonBlocking (defer c m).
Proof.
  intros Hc Hm s. unfold defer. specialize (Hm s).
  destruct (m s) as [[] s1]; simpl in *; try done.
  all: specialize (Hc s1); by destruct (c s1) as [[] s2].
Qed.

(** Invariance is the relational frame of an implication. *)
Definition keeps {S} (P : S → Prop) : relation S := λ s s', P s → P s'.

#[export] Instance keeps_preorder {S} (P : S → Prop) : PreOrder (keeps P).
Proof. split; unfold keeps; [by intros ??|naive_solver]. Qed.

(** Local variables that a closure captures and writes: the block runs on the
    state extended with the local, whose final value it hands on. *)
Definition with_local {S L A} (l : L) (m : M (S * L) A) : M S (A * L) := λ s,
  match m (s, l) with
  | (Ret a, (s', l')) => (Ret (a, l'), s')
  | (Panicked p, (s', _)) => (Panicked p, s')
  | (Exited c, (s', _)) => (Exited c, s')
  | (Blocked, (s', _)) => (Blocked, s')
  end.

Definition lift {S L A} (m : M S A) : M (S * L) A := λ sl,
  let '(o, s') := m sl.1 in (o, (s', sl.2)).

(** A variable of the outer state, seen from inside the block. *)
#[export] Instance Part_local {S T L} `{!Part S T} : Part (S * L) T := {
  view sl := view sl.1;
  update t sl := (update t sl.1, sl.2)
}.
#[export] Instance Part_local_laws {S T L} `{!Part S T} `{!PartLaws S T} : PartLaws (S * L) T.
Proof.
  split; simpl.
  - intros t s. apply view_update.
  - intros [s l]. simpl. by rewrite update_view.
  - intros t t' s. by rewrite update_update.
Qed.

#[export] Instance nonblocking_zoom {S T A} `{!Part S T} (m : M T A) :
  NonBlocking m → NonBlocking (S:=S) (zoom m).
Proof. intros Hm s. unfold zoom. specialize (Hm (view s)). by destruct (m (view s)). Qed.

#[export] Instance nonblocking_lift {S L A} (m : M S A) :
  NonBlocking m → NonBlocking (lift (L:=L) m).
Proof. intros Hm [s l]. unfold lift. specialize (Hm s). simpl. by destruct (m s). Qed.

(** A relation on the outer state, inside the block. *)
Definition outer {S L} (R : relation S) : relation (S * L) := λ x y, R x.1 y.1.

#[export] Instance outer_preorder {S L} (R : relation S) : PreOrder R → PreOrder (outer (L:=L) R).
Proof. intros [Hr Ht]. split; unfold outer; [intros x; apply Hr|intros x y z; apply Ht]. Qed.

#[export] Instance respects_lift {S L A} (R : relation S) (m : M S A) :
  Respects R m → Respects (outer (L:=L) R) (lift m).
Proof. intros Hm [s l]. unfold lift. specialize (Hm s). simpl. by destruct (m s). Qed.

#[export] Instance respects_with_local {S L A} (R : relation S) l (m : M (S * L) A) :
  Respects (outer R) m → Respects R (with_local l m).
Proof.
  intros Hm s. unfold with_local. specialize (Hm (s, l)). unfold outer in Hm. simpl in Hm.
  by destruct (m (s, l)) as [[] [s' l']].
Qed.

#[export] Instance respects_set_local {S L} (R : relation S) `{!PreOrder R} (f : S → L → L) :
  Respects (outer R) (modify (λ sl : S * L, (sl.1, f sl.1 sl.2))).
Proof. intros [s l]. unfold outer. simpl. reflexivity. Qed.

Lemma lift_Ret {S L A} (m : M S A) (s : S) (l : L) a s' :
  m s = (Ret a, s') → lift m (s, l) = (Ret a, (s', l)).
Proof. intros Hm. unfold lift. simpl. by rewrite Hm. Qed.

(** Operations that end the process only with status 1, the status of
    [log.Fatalf]. *)
Class FatalOnly {S A} (m : M S A) : Prop := fatal_only s c : (m s).1 = Exited c → c = 1%Z.

Section fatal.
Context {S : Type}.

#[global] Instance fatal_mret {A} (a : A) : FatalOnly (S:=S) (mret a).
Proof. intros s c [=]. Qed.
#[global] Instance fatal_gopanic {A} p : FatalOnly (S:=S) (gopanic (A:=A) p).
Proof. intros s c [=]. Qed.
#[global] Instance fatal_goexit {A} : FatalOnly (S:=S) (goexit (A:=A) 1).
Proof. intros s c [= <-]. done. Qed.
#[global] Instance fatal_get : FatalOnly (S:=S) get.
Proof. intros s c [=]. Qed.
#[global] Instance fatal_put s' : FatalOnly (S:=S) (put s').
Proof. intros s c [=]. Qed.
#[global] Instance fatal_modify f : FatalOnly (S:=S) (modify f).
Proof. intros s c [=]. Qed.
#[global] Instance fatal_or_panic {A} p (o : option A) : FatalOnly (S:=S) (or_panic p o).
Proof. destruct o; apply _. Qed.
#[global] Instance fatal_bind {A B} (m : M S A) (f : A → M S B) :
  FatalOnly m → (∀ a, FatalOnly (f a)) → FatalOnly (m ≫= f).
Proof.
  intros Hm Hf s c. unfold mbind, M_bind. specialize (Hm s c).
  destruct (m s) as [[] s1]; simpl in *; [exact (Hf a s1 c)|intros Hx; simplify_eq; by apply Hm..].
Qed.
#[global] Instance fatal_for_range {X} (xs : list X) (f : X → M S unit) :
  (∀ x, FatalOnly (f x)) → FatalOnly (for_range xs f).
Proof. intros Hf. induction xs; apply _. Qed.
#[global] Instance fatal_for_return {X T} (xs : list X) (f : X → M S (option T)) :
  (∀ x, FatalOnly (f x)) → FatalOnly (for_return xs f).
Proof.
  intros Hf. induction xs; [apply _|]. simpl. apply fatal_bind; [apply _|]. intros []; apply _.
Qed.
#[global] Instance fatal_defer {A} (c : M S unit) (m : M S A) :
  FatalOnly c → FatalOnly m → FatalOnly (defer c m).
Proof.
  intros Hc Hm s x. unfold defer. specialize (Hm s x).
  destruct (m s) as [[] s1]; simpl in *; [..|exact Hm|done].
  all: specialize (Hc s1 x); destruct (c s1) as [[] s2]; simpl in *; intros Hx; simplify_eq; by apply Hc.
Qed.
#[global] Instance fatal_zoom {T A} `{!Part S T} (m : M T A) : FatalOnly m → FatalOnly (S:=S) (zoom m).
Proof. intros Hm s c. unfold zoom. specialize (Hm (view s) c). by destruct (m (view s)). Qed.
#[global] Instance fatal_lift {L A} (m : M S A) : FatalOnly m → FatalOnly (lift (L:=L) m).
Proof. intros Hm [s l] c. unfold lift. specialize (Hm s c). simpl. by destruct (m s). Qed.
#[global] Instance fatal_with_local {L A} l (m : M (S * L) A) : FatalOnly m → FatalOnly (with_local l m).
Proof.
  intros Hm s c. unfold with_local. specialize (Hm (s, l) c).
  destruct (m (s, l)) as [[] [s' l']]; simpl in *; intros Hx; simplify_eq; by apply Hm.
Qed.
End fatal.

(** Prove [Respects R m] by following the structure of [m]. *)
Ltac solve_respects :=
  repeat (cbv zeta; lazymatch goal with
    | |- ∀ _, _ => intros ?
    | |- PreOrder _ => apply _
    | |- Respects _ _ => first [apply _ | apply respects_bind | apply respects_for_range | case_match]
    end).

(** The same for [NonBlocking]. *)
Ltac solve_nonblocking :=
  repeat (cbv zeta; lazymatch goal with
    | |- ∀ _, _ => intros ?
    | |- NonBlocking _ => first [apply _ | apply nonblocking_bind | apply nonblocking_for_range | case_match]
    end).

(** The same for [FatalOnly]. *)
Ltac solve_fatal :=
  repeat (cbv zeta; lazymatch goal with
    | |- ∀ _, _ => intros ?
    | |- FatalOnly _ => first [apply _ | apply fatal_bind | apply fatal_for_range | case_match]
    end).

Lemma zoom_keeps {S T A} `{!Part S T} `{!PartLaws S T} (P : T → Prop) (m : M T A) :
  Respects (keeps P) m → Respects (keeps (λ s : S, P (view s))) (zoom m).
Proof.
  intros Hm s Hs. specialize (Hm (view s) Hs). unfold zoom.
  destruct (m (view s)) as [o t]. simpl in *. by rewrite view_update.
Qed.

Lemma zoom_Ret {S T A} `{Part S T} (m : M T A) s a t :
  m (view s) = (Ret a, t) → zoom m s = (Ret a, update t s).
Proof. intros Hm. unfold zoom. by rewrite Hm. Qed.

(** Equality of a projection. *)
Definition same {S T} (f : S → T) : relation S := λ s s', f s' = f s.

#[export] Instance same_preorder {S T} (f : S → T) : PreOrder (same f).
Proof. split; unfold same; [by intros ?|congruence]. Qed.

