(* ===== verification/Strs.v ===== *)
(** * Go strings

    A Go string is a sequence of bytes: [String.string], whose characters are
    the 256 bytes. This file holds the operations of package [strings] and the
    slice expressions the source applies to strings. *)

From S2P Require Import Prelude Go.

(** ** Slicing *)

Fixpoint take_str (n : nat) (s : string) : string :=
  match n, s with
  | S n, String c s => String c (take_str n s)
  | _, _ => ""
  end.

Fixpoint drop_str (n : nat) (s : string) : string :=
  match n, s with
  | S n, String _ s => drop_str n s
  | _, _ => s
  end.

(** [s[a:b]]; Go panics unless [0 <= a <= b <= len(s)]. *)
Definition slice (s : string) (a b : Z) : option string :=
  if bool_decide (0 ≤ a ≤ b ∧ b ≤ Z.of_nat (String.length s))%Z
  then Some (take_str (Z.to_nat (b - a)) (drop_str (Z.to_nat a) s))
  else None.

(** ** Package strings *)

Definition HasPrefix (s prefix : string) : bool := String.prefix prefix s.

(** len(s) >= len(suffix) && s[len(s)-len(suffix):] == suffix *)
Definition HasSuffix (s suffix : string) : bool :=
  bool_decide (String.length suffix ≤ String.length s) &&
  bool_decide (drop_str (String.length s - String.length suffix) s = suffix).

Definition TrimPrefix (s prefix : string) : string :=
  if HasPrefix s prefix then drop_str (String.length prefix) s else s.

Definition TrimSuffix (s suffix : string) : string :=
  if HasSuffix s suffix then take_str (String.length s - String.length suffix) s else s.

(** [strings.Split] at a one-byte separator, the only kind the source uses. *)
Fixpoint Split (s : string) (sep : ascii) : list string :=
  match s with
  | "" => [""]
  | String c s' =>
      if bool_decide (c = sep) then "" :: Split s' sep
      else match Split s' sep with
           | p :: ps => String c p :: ps
           | [] => [String c ""]
           end
  end.

Fixpoint Join (l : list string) (sep : string) : string :=
  match l with
  | [] => ""
  | [x] => x
  | x :: l => x +:+ sep +:+ Join l sep
  end.

(** [strings.Fields] splits around runs of [unicode.IsSpace] runes. The UTF-8
    encodings of those runes start with a lead byte, which a decoder never
    consumes inside another rune, so matching the byte sequences is exact:
    [space_at s] is the length of the space rune that starts [s], or 0. *)
Definition byte (c : ascii) : N := N_of_ascii c.

Definition space_at (s : string) : nat :=
  match s with
  | String a s1 =>
      if bool_decide (9 ≤ byte a ≤ 13 ∨ byte a = 32)%N then 1 else
      match s1 with
      | String b s2 =>
          if bool_decide (byte a = 194 ∧ (byte b = 133 ∨ byte b = 160))%N then 2 else
          match s2 with
          | String c _ =>
              if bool_decide
                ((byte a = 225 ∧ byte b = 154 ∧ byte c = 128) ∨
                 (byte a = 226 ∧ byte b = 128 ∧
                    (128 ≤ byte c ≤ 138 ∨ byte c = 168 ∨ byte c = 169 ∨ byte c = 175)) ∨
                 (byte a = 226 ∧ byte b = 129 ∧ byte c = 159) ∨
                 (byte a = 227 ∧ byte b = 128 ∧ byte c = 128))%N
              then 3 else 0
          | "" => 0
          end
      | "" => 0
      end
  | "" => 0
  end.

(** [fields_go skip cur s]: [skip] bytes of a space rune are still to be
    dropped; [cur] is the field being read, if any. *)
Fixpoint fields_go (skip : nat) (cur : option string) (s : string) : list string :=
  match s with
  | "" => option_list cur
  | String c s' =>
      match skip with
      | S k => fields_go k cur s'
      | O =>
          match space_at s with
          | S k => option_list cur ++ fields_go k None s'
          | O => fields_go 0 (Some (default "" cur +:+ String c "")) s'
          end
      end
  end.

Definition Fields (s : string) : list string := fields_go 0 None s.

Example Fields_tc : Fields "tc qdisc  replace dev eth0 " = ["tc"; "qdisc"; "replace"; "dev"; "eth0"].
Proof. reflexivity. Qed.

(** ** Laws *)

Lemma append_nil_l s : "" +:+ s = s.
Proof. done. Qed.

Lemma append_cons c s t : String c s +:+ t = String c (s +:+ t).
Proof. done. Qed.

Lemma append_assoc s t u : (s +:+ t) +:+ u = s +:+ t +:+ u.
Proof. induction s; [done|]. rewrite !append_cons. by f_equal. Qed.

Lemma append_nil_r s : s +:+ "" = s.
Proof. induction s; [done|]. rewrite !append_cons. by f_equal. Qed.

Create Rewrite HintDb str.
#[export] Hint Rewrite append_nil_l append_nil_r append_cons append_assoc : str.

Lemma length_append s t : String.length (s +:+ t) = String.length s + String.length t.
Proof. induction s; [done|]. rewrite append_cons. simpl. lia. Qed.

Lemma drop_str_app s t : drop_str (String.length s) (s +:+ t) = t.
Proof. by induction s. Qed.

Lemma take_str_app s t : take_str (String.length s) (s +:+ t) = s.
Proof. induction s; [by destruct t|]. rewrite append_cons. simpl. by f_equal. Qed.

Lemma take_drop_str n s : take_str n s +:+ drop_str n s = s.
Proof. revert s. induction n; intros [|c s]; simpl; [done..|]. rewrite append_cons. by f_equal. Qed.

Lemma length_drop_str n s : String.length (drop_str n s) = String.length s - n.
Proof. revert s. induction n; intros [|c s]; cbn; auto. Qed.

Lemma length_take_str n s : String.length (take_str n s) = Nat.min n (String.length s).
Proof. revert s. induction n; intros [|c s]; cbn; auto. Qed.

Lemma HasPrefix_app p s : HasPrefix (p +:+ s) p = true.
Proof. unfold HasPrefix. induction p as [|c p IH]; [by destruct s|].
  rewrite append_cons. simpl. by destruct (ascii_dec c c). Qed.

Lemma HasPrefix_spec s p : HasPrefix s p = true ↔ ∃ t, s = p +:+ t.
Proof.
  split; [|intros [t ->]; apply HasPrefix_app].
  unfold HasPrefix. revert s. induction p as [|c p IH]; intros s Hs; [by exists s|].
  destruct s as [|d s]; [done|]. simpl in Hs. destruct (ascii_dec c d); [|done]. subst.
  destruct (IH _ Hs) as [t ->]. by exists t.
Qed.

Lemma HasSuffix_app s t : HasSuffix (s +:+ t) t = true.
Proof.
  unfold HasSuffix. rewrite length_append.
  rewrite !bool_decide_true; [done| |lia].
  replace (_ + _ - _) with (String.length s) by lia. apply drop_str_app.
Qed.

Lemma HasSuffix_spec s t : HasSuffix s t = true ↔ ∃ r, s = r +:+ t.
Proof.
  split; [|intros [r ->]; apply HasSuffix_app].
  unfold HasSuffix. rewrite andb_true_iff, !bool_decide_eq_true.
  intros [Hlen Hd]. exists (take_str (String.length s - String.length t) s).
  by rewrite <-Hd at 2; rewrite take_drop_str.
Qed.

Lemma TrimSuffix_app s t : TrimSuffix (s +:+ t) t = s.
Proof.
  unfold TrimSuffix. rewrite HasSuffix_app, length_append.
  replace (_ + _ - _) with (String.length s) by lia. apply take_str_app.
Qed.

Lemma TrimPrefix_app p s : TrimPrefix (p +:+ s) p = s.
Proof. unfold TrimPrefix. by rewrite HasPrefix_app, drop_str_app. Qed.

(** [s[len(p) : len(s)-1]] of [p ++ s ++ one byte] is [s]. *)
Lemma slice_bracket p s c :
  slice (p +:+ s +:+ String c "") (Z.of_nat (String.length p))
    (Z.of_nat (String.length (p +:+ s +:+ String c "")) - 1) = Some s.
Proof.
  unfold slice. rewrite !length_append. simpl.
  rewrite bool_decide_true by lia. f_equal.
  rewrite Nat2Z.id, drop_str_app.
  replace (Z.to_nat _) with (String.length s) by lia. apply take_str_app.
Qed.

(** *** Splitting *)

(** [c] does not occur in [s]. *)
Fixpoint free_of (c : ascii) (s : string) : bool :=
  match s with
  | "" => true
  | String d s => negb (bool_decide (d = c)) && free_of c s
  end.

Lemma Split_nonempty s sep : Split s sep ≠ [].
Proof. destruct s; cbn; [done|]. case_bool_decide; [done|]. by destruct (Split s sep). Qed.

Lemma Split_free s sep : free_of sep s = true → Split s sep = [s].
Proof.
  induction s as [|c s IH]; cbn; [done|]. rewrite andb_true_iff, negb_true_iff.
  intros [Hc Hs]. by rewrite Hc, IH.
Qed.

Lemma Split_app_sep s t sep :
  free_of sep s = true → Split (s +:+ String sep t) sep = s :: Split t sep.
Proof.
  induction s as [|c s IH]; autorewrite with str; cbn.
  - intros _. by rewrite bool_decide_true.
  - rewrite andb_true_iff, negb_true_iff. intros [Hc Hs]. by rewrite Hc, IH.
Qed.

Lemma Split_app s t sep : Split (s +:+ String sep t) sep = Split s sep ++ Split t sep.
Proof.
  induction s as [|c s IH]; autorewrite with str; cbn.
  - by rewrite bool_decide_true.
  - rewrite IH. case_bool_decide; [done|]. pose proof (Split_nonempty s sep).
    by destruct (Split s sep).
Qed.

(** Splitting and joining with the separator are inverse. *)
Lemma Join_Split s sep : Join (Split s sep) (String sep "") = s.
Proof.
  induction s as [|c s IH]; [done|]. cbn. case_bool_decide as Hc.
  - subst. pose proof (Split_nonempty s sep). cbn.
    destruct (Split s sep); [done|]. by rewrite IH.
  - pose proof (Split_nonempty s sep).
    destruct (Split s sep) as [|p ps]; [done|].
    destruct ps; cbn in *; by rewrite <-IH.
Qed.

Lemma Split_Join l sep :
  l ≠ [] → Forall (λ s, free_of sep s = true) l → Split (Join l (String sep "")) sep = l.
Proof.
  intros Hne Hl. induction Hl as [|s l Hs Hl IH]; [done|].
  destruct l as [|t l]; [by apply Split_free|].
  change (Join _ _) with (s +:+ String sep (Join (t :: l) (String sep ""))).
  rewrite Split_app_sep by done. by rewrite IH.
Qed.

(** The first field of a word without spaces is the word itself. *)
Fixpoint no_space (s : string) : bool :=
  match s with
  | "" => true
  | String _ s' => bool_decide (space_at s = 0) && no_space s'
  end.

Lemma fields_go_no_space s cur :
  no_space s = true → s ≠ "" → fields_go 0 cur s = [default "" cur +:+ s].
Proof.
  revert cur. induction s as [|c s IH]; intros cur Hs Hne; [done|].
  cbn [no_space] in Hs. apply andb_true_iff in Hs as [Hc%bool_decide_eq_true Hs].
  cbn [fields_go]. rewrite Hc. destruct s as [|d s]; [done|].
  rewrite IH by done. simpl. by rewrite append_assoc.
Qed.

Lemma Fields_single s : no_space s = true → s ≠ "" → Fields s = [s].
Proof. intros. unfold Fields. by rewrite fields_go_no_space. Qed.

Lemma fields_go_word s t cur :
  no_space s = true → s ≠ "" →
  (∀ c d, space_at (String c (String d (String " " t))) = space_at (String c (String d ""))) →
  (∀ c, space_at (String c (String " " t)) = space_at (String c "")) →
  fields_go 0 cur (s +:+ String " " t) = (default "" cur +:+ s) :: Fields t.
Proof.
  intros Hs Hne Ht2 Ht1. revert cur Hne. induction s as [|c s IH]; intros cur Hne; [done|].
  cbn [no_space] in Hs. apply andb_true_iff in Hs as [Hc%bool_decide_eq_true Hs].
  rewrite append_cons. cbn [fields_go].
  assert (space_at (String c (s +:+ String " " t)) = 0) as ->.
  { destruct s as [|d [|e s]]; [by rewrite append_nil_l, Ht1|by rewrite append_cons, append_nil_l, Ht2|].
    exact Hc. }
  destruct s as [|d s].
  - rewrite append_nil_l. done.
  - rewrite IH by done. simpl. by rewrite append_assoc.
Qed.

(** A first word followed by a blank. *)
Lemma Fields_word s t :
  no_space s = true → s ≠ "" → Fields (s +:+ String " " t) = s :: Fields t.
Proof.
  intros. unfold Fields at 1. rewrite fields_go_word; [done..| |].
  - intros c d. unfold space_at. change (byte " ") with 32%N.
    repeat (case_bool_decide; try done); lia.
  - intros c. unfold space_at. change (byte " ") with 32%N.
    destruct t; repeat (case_bool_decide; try done); lia.
Qed.
