(* ===== verification/Nums.v ===== *)
(** * Machine integers and their decimal forms

    Go's [int] and [int64] on a 64-bit machine, with the wrap-around of
    addition, and the decimal conversions of package [strconv]. *)

From S2P Require Import Prelude Strs.

#[local] Open Scope Z_scope.

(** ** 64-bit integers *)

Definition two64 : Z := 2 ^ 64.
Definition max_int64 : Z := 2 ^ 63 - 1.
Definition min_int64 : Z := - 2 ^ 63.
Definition max_uint64 : Z := 2 ^ 64 - 1.

Definition int64 (z : Z) : Prop := min_int64 ≤ z ≤ max_int64.
#[export] Instance int64_dec z : Decision (int64 z).
Proof. unfold int64. apply _. Defined.

(** The value an [int] variable holds after arithmetic gave [z]. *)
Definition wrap64 (z : Z) : Z := (z + 2 ^ 63) mod two64 - 2 ^ 63.

Definition int_add (x y : Z) : Z := wrap64 (x + y).

Lemma wrap64_int64 z : int64 (wrap64 z).
Proof.
  unfold wrap64, int64, min_int64, max_int64, two64.
  pose proof (Z.mod_pos_bound (z + 2 ^ 63) (2 ^ 64)). lia.
Qed.

Lemma wrap64_id z : int64 z → wrap64 z = z.
Proof.
  unfold wrap64, int64, min_int64, max_int64, two64. intros ?.
  rewrite Z.mod_small; lia.
Qed.

Lemma wrap64_add_l x y : wrap64 (wrap64 x + y) = wrap64 (x + y).
Proof.
  unfold wrap64, two64. f_equal.
  replace ((x + 2 ^ 63) mod 2 ^ 64 - 2 ^ 63 + y + 2 ^ 63)
    with ((x + 2 ^ 63) mod 2 ^ 64 + y) by lia.
  rewrite Zplus_mod_idemp_l. f_equal. lia.
Qed.

Lemma int_add_comm x y : int_add x y = int_add y x.
Proof. unfold int_add. by rewrite Z.add_comm. Qed.

Lemma int_add_assoc x y z : int_add x (int_add y z) = int_add (int_add x y) z.
Proof.
  unfold int_add. rewrite wrap64_add_l, Z.add_comm, wrap64_add_l. f_equal. lia.
Qed.

(** ** strconv.FormatInt(z, 10), strconv.Itoa *)

Definition FormatInt (z : Z) : string := pretty z.
Definition Itoa (z : Z) : string := FormatInt z.

(** ** strconv.ParseInt(s, 10, 64), strconv.Atoi *)

Inductive num_error : Set := ErrSyntax | ErrRange.

Definition digit (c : Ascii.ascii) : option Z :=
  let b := Z.of_N (byte c) in
  if bool_decide (48 ≤ b ≤ 57) then Some (b - 48) else None.

(** The loop of [ParseUint]: [n] is the value read so far. It stops at the first
    digit that overflows 64 bits, before it looks at the rest. *)
Fixpoint parse_uint_loop (n : Z) (s : string) : num_error + Z :=
  match s with
  | EmptyString => inr n
  | String c s =>
      match digit c with
      | None => inl ErrSyntax
      | Some d =>
          let n1 := n * 10 + d in
          if bool_decide (max_uint64 < n1) then inl ErrRange else parse_uint_loop n1 s
      end
  end.

Definition ParseUint (s : string) : num_error + Z :=
  match s with
  | EmptyString => inl ErrSyntax
  | _ => parse_uint_loop 0 s
  end.

(** The value and the error: on a range error the value is the nearest bound,
    on a syntax error it is 0. *)
Definition ParseInt (s : string) : Z * option num_error :=
  let '(neg, s') :=
    match s with
    | String "+" s' => (false, s')
    | String "-" s' => (true, s')
    | _ => (false, s)
    end in
  let bound neg (un : Z) : Z * option num_error :=
    if neg : bool
    then if bool_decide (2 ^ 63 < un) then (- 2 ^ 63, Some ErrRange) else (- un, None)
    else if bool_decide (2 ^ 63 ≤ un) then (2 ^ 63 - 1, Some ErrRange) else (un, None) in
  match s with
  | EmptyString => (0, Some ErrSyntax)
  | _ =>
      match ParseUint s' with
      | inl ErrSyntax => (0, Some ErrSyntax)
      | inl ErrRange => bound neg max_uint64
      | inr un => bound neg un
      end
  end.

Definition Atoi (s : string) : Z * option num_error := ParseInt s.

(** ** The two conversions are inverse *)

Lemma digit_char (x : N) : (x < 10)%N → digit (pretty_N_char x) = Some (Z.of_N x).
Proof.
  intros ?. assert (x = 0 ∨ x = 1 ∨ x = 2 ∨ x = 3 ∨ x = 4 ∨ x = 5 ∨ x = 6 ∨
    x = 7 ∨ x = 8 ∨ x = 9)%N as Hx by lia.
  by repeat (destruct Hx as [->|Hx]); subst.
Qed.

Lemma parse_uint_loop_pretty (x : N) s :
  Z.of_N x ≤ max_uint64 →
  parse_uint_loop 0 (pretty_N_go x s) = parse_uint_loop (Z.of_N x) s.
Proof.
  revert s. induction (N.lt_wf_0 x) as [x _ IH]; intros s Hx.
  destruct (decide (x = 0)%N) as [->|Hne]; [done|].
  rewrite pretty_N_go_step by lia.
  assert (x `div` 10 < x)%N by (apply N.div_lt; lia).
  rewrite IH by lia. cbn [parse_uint_loop].
  rewrite digit_char by (apply N.mod_lt; lia).
  assert (Z.of_N (x `div` 10) * 10 + Z.of_N (x `mod` 10) = Z.of_N x) as ->.
  { pose proof (N.div_mod x 10). lia. }
  by rewrite bool_decide_false by lia.
Qed.

Lemma pretty_N_go_nonempty x s : pretty_N_go x s ≠ EmptyString ∨ (x = 0%N ∧ s = EmptyString).
Proof.
  revert s. induction (N.lt_wf_0 x) as [x _ IH]; intros s.
  destruct (decide (x = 0)%N) as [->|Hne].
  { rewrite pretty_N_go_0. destruct s; [by right|by left]. }
  left. rewrite pretty_N_go_step by lia.
  destruct (IH (x `div` 10)%N) with (s := String (pretty_N_char (x `mod` 10)) s)
    as [?|[_ ?]]; [apply N.div_lt; lia|done..].
Qed.

Lemma ParseUint_pretty (x : N) : Z.of_N x ≤ max_uint64 → ParseUint (pretty x) = inr (Z.of_N x).
Proof.
  intros Hx. unfold pretty, pretty_N, ParseUint. case_decide as H0; [by subst|].
  pose proof (parse_uint_loop_pretty x EmptyString Hx) as Hp.
  destruct (pretty_N_go_nonempty x EmptyString) as [Hne|[? _]]; [|done].
  by destruct (pretty_N_go x EmptyString).
Qed.

(** A decimal form never starts with a sign. *)
Lemma digit_sign c : is_Some (digit c) → c ≠ "+"%char ∧ c ≠ "-"%char.
Proof. intros [? Hd]. split; intros ->; by vm_compute in Hd. Qed.

Lemma ParseUint_first c s n : ParseUint (String c s) = inr n → is_Some (digit c).
Proof. cbn. destruct (digit c); [by eexists|done]. Qed.

Lemma pretty_N_first (x : N) : Z.of_N x ≤ max_uint64 →
  ∃ c s, pretty x = String c s ∧ c ≠ "+"%char ∧ c ≠ "-"%char.
Proof.
  intros Hx. pose proof (ParseUint_pretty x Hx) as Hp.
  destruct (pretty x) as [|c s]; [done|].
  exists c, s. eauto using digit_sign, ParseUint_first.
Qed.

(** A string that does not start with a sign is parsed as an unsigned number. *)
Lemma ParseInt_unsigned s un :
  ParseUint s = inr un → un < 2 ^ 63 → ParseInt s = (un, None).
Proof.
  intros Hs Hun. destruct s as [|c s]; [done|].
  destruct (digit_sign _ (ParseUint_first _ _ _ Hs)) as [Hp Hm].
  assert (ParseInt (String c s) =
    match ParseUint (String c s) with
    | inl ErrSyntax => (0, Some ErrSyntax)
    | inl ErrRange => (2 ^ 63 - 1, Some ErrRange)
    | inr un => if bool_decide (2 ^ 63 ≤ un) then (2 ^ 63 - 1, Some ErrRange) else (un, None)
    end) as ->.
  { destruct c as [[] [] [] [] [] [] [] []]; done. }
  rewrite Hs. by rewrite bool_decide_false by lia.
Qed.

Lemma ParseInt_FormatInt z : int64 z → ParseInt (FormatInt z) = (z, None).
Proof.
  unfold int64, min_int64, max_int64. intros Hz. destruct z as [|p|p].
  - done.
  - apply ParseInt_unsigned; [|lia].
    apply (ParseUint_pretty (Npos p)). unfold max_uint64. lia.
  - unfold FormatInt, pretty, pretty_Z. rewrite append_cons, append_nil_l.
    cbn [ParseInt]. unfold pretty at 1, pretty_positive.
    rewrite ParseUint_pretty by (unfold max_uint64; lia).
    rewrite bool_decide_false by lia. f_equal.
Qed.

Lemma FormatInt_inj x y : FormatInt x = FormatInt y → x = y.
Proof. apply pretty_Z_inj. Qed.

(** Decimal forms are single words, so [Fields] keeps them whole. *)
Lemma no_space_digit_cons c s :
  (48 ≤ byte c ≤ 57)%N → no_space s = true → no_space (String c s) = true.
Proof.
  intros Hc Hs. cbn [no_space]. rewrite Hs, andb_true_r, bool_decide_eq_true.
  unfold space_at. rewrite bool_decide_false by lia.
  destruct s as [|d s]; [done|]. rewrite bool_decide_false by lia.
  destruct s as [|e s]; [done|]. by rewrite bool_decide_false by lia.
Qed.

Lemma byte_pretty_N_char x : (48 ≤ byte (pretty_N_char x) ≤ 57)%N.
Proof. unfold pretty_N_char. by repeat case_match. Qed.

Lemma no_space_pretty_N_go x s : no_space s = true → no_space (pretty_N_go x s) = true.
Proof.
  revert s. induction (N.lt_wf_0 x) as [x _ IH]; intros s Hs.
  destruct (decide (x = 0)%N) as [->|Hne]; [done|].
  rewrite pretty_N_go_step by lia. apply IH; [apply N.div_lt; lia|].
  apply no_space_digit_cons; [apply byte_pretty_N_char|done].
Qed.

Lemma no_space_Itoa z : 0 ≤ z → no_space (Itoa z) = true ∧ Itoa z ≠ EmptyString.
Proof.
  intros Hz. unfold Itoa, FormatInt. destruct z as [|p|p]; [done| |lia].
  unfold pretty, pretty_Z, pretty, pretty_positive, pretty, pretty_N.
  rewrite decide_False by done. split; [by apply no_space_pretty_N_go|].
  destruct (pretty_N_go_nonempty (Npos p) EmptyString) as [?|[? _]]; done.
Qed.

(** A number is free of letters and the like. *)
Lemma free_of_pretty_N_go c x s :
  (57 < byte c)%N → free_of c s = true → free_of c (pretty_N_go x s) = true.
Proof.
  intros Hc. revert s. induction (N.lt_wf_0 x) as [x _ IH]; intros s Hs.
  destruct (decide (x = 0)%N) as [->|Hne]; [done|].
  rewrite pretty_N_go_step by lia. apply IH; [apply N.div_lt; lia|].
  cbn [free_of]. rewrite Hs, bool_decide_false; [done|]. intros <-.
  pose proof (byte_pretty_N_char (x `mod` 10)). lia.
Qed.

Lemma free_of_Itoa c z : (57 < byte c)%N → free_of c (Itoa z) = true.
Proof.
  intros Hc. unfold Itoa, FormatInt.
  assert (∀ d, (byte d <= 57)%N → negb (bool_decide (d = c)) = true) as Hd.
  { intros d Hd. rewrite bool_decide_false; [done|]. intros ->. lia. }
  destruct z as [|p|p]; unfold pretty, pretty_Z, pretty, pretty_positive, pretty, pretty_N.
  - change (negb (bool_decide ("0"%char = c)) && true = true). by rewrite Hd.
  - rewrite decide_False by done. by apply free_of_pretty_N_go.
  - rewrite decide_False, append_cons, append_nil_l by done. cbn [free_of]. rewrite Hd by done.
    by apply free_of_pretty_N_go.
Qed.
