(* ===== verification/Path.v ===== *)
(** * Paths

    Package [path/filepath] on Unix, as the sources use it. *)

From S2P Require Import Prelude Go Strs.

(** One element of a path after the elements [out], newest first. *)
Definition clean_element (rooted : bool) (out : list string) (e : string) : list string :=
  if bool_decide (e = "" ∨ e = ".") then out
  else if bool_decide (e = "..") then
    match out with
    | x :: out' => if bool_decide (x = "..") then ".." :: out else out'
    | [] => if rooted then [] else [".."]
    end
  else e :: out.

Definition Clean (path : string) : string :=
  let rooted := HasPrefix path "/" in
  let out := foldl (clean_element rooted) [] (Split path "/") in
  match (if rooted then "/" else "") +:+ Join (rev out) "/" with
  | "" => "."
  | p => p
  end.

(** The path up to and including the last slash. *)
Fixpoint dir_part (path : string) : string :=
  match path with
  | "" => ""
  | String c s =>
      match dir_part s with
      | "" => if bool_decide (c = "/"%char) then "/" else ""
      | d => String c d
      end
  end.

Definition Dir (path : string) : string := Clean (dir_part path).

(** [filepath.Ext]: from the last dot of the last element on. *)
Fixpoint Ext (path : string) : string :=
  match path with
  | "" => ""
  | String c s =>
      match Ext s with
      | "" => if bool_decide (c = "."%char) && free_of "/" s && free_of "." s then path else ""
      | e => e
      end
  end.

Example Ext_yaml : Ext "conf.d/wcloud.prod.yaml" = ".yaml" ∧ Ext "conf.d/wcloud" = "".
Proof. done. Qed.

Example Clean_dots : Clean "/a/./b//../../../c/" = "/c" ∧ Clean "" = "." ∧ Clean "../x/.." = "..".
Proof. done. Qed.

(** ** Laws *)

(** The extension is the empty string, or starts with the last dot of a last
    element. *)
Lemma Ext_spec stem s :
  free_of "/" s = true → free_of "." s = true → Ext (stem +:+ String "." s) = String "." s.
Proof.
  intros H1 H2. assert (Ext s = "") as Hs.
  { clear H1. revert H2. induction s as [|c s IH]; [done|]. cbn [free_of Ext].
    rewrite andb_true_iff, negb_true_iff. intros [Hc Hs]. rewrite IH by done. by rewrite Hc. }
  induction stem as [|c stem IH].
  - rewrite append_nil_l. cbn [Ext]. rewrite Hs, H1, H2. by rewrite bool_decide_true.
  - rewrite append_cons. cbn [Ext]. by rewrite IH.
Qed.

Lemma Ext_none s : free_of "." s = true → Ext s = "".
Proof.
  induction s as [|c s IH]; [done|]. cbn [free_of Ext].
  rewrite andb_true_iff, negb_true_iff. intros [Hc Hs]. rewrite IH by done. by rewrite Hc.
Qed.
