(* ===== verification/Store.v ===== *)
(** * The container store ([src/store.go])

    The store maps container IDs to the state and PID of the containers the
    plugin knows, behind a mutex. The operations are modelled with the mutex: an
    operation on a store whose mutex is held blocks, and [defer] releases the
    mutex on return and on panic. Section [contract] gives the sequential
    contract (what each operation does on an idle store) that the Docker client
    and the reporter are verified against; [StoreConc.v] shows that concurrent
    callers see the same contract. *)

From S2P Require Import Prelude Go Strs.

(** State is the container internal state *)
Inductive State : Set := Created | Running | Stopped | Destroyed.

#[export] Instance State_eq_dec : EqDecision State.
Proof. solve_decision. Defined.

(** Container data structure *)
Record Container : Set := MkContainer { CState : State; PID : Z }.

#[export] Instance Container_eq_dec : EqDecision Container.
Proof. solve_decision. Defined.

(** The zero value of the struct, what a failed map lookup yields. *)
Definition zero_Container : Container := {| CState := Created; PID := 0 |}.

(** Store data structure *)
Record Store : Set := MkStore { locked : bool; containers : gmap string Container }.

Definition NewStore : Store := {| locked := false; containers := ∅ |}.

(** ** The mutex *)

Definition Lock : M Store unit := λ s,
  if locked s then (Blocked, s)
  else (Ret (), {| locked := true; containers := containers s |}).

Definition Unlock : M Store unit := λ s,
  if locked s then (Ret (), {| locked := false; containers := containers s |})
  else (Panicked UnlockOfUnlocked, s).

(** ** The operations *)

(** [Store.Container]: the field access [s.containers[containerID]] in its
    two-value form. *)
Definition Store_Container (containerID : string) : M Store (Container * bool) :=
  Lock ≫= λ _, defer Unlock (
    get ≫= λ s,
    mret (match containers s !! containerID with
          | Some container => (container, true)
          | None => (zero_Container, false)
          end)).

Definition SetContainer (containerID : string) (container : Container) : M Store unit :=
  Lock ≫= λ _, defer Unlock (
    modify (λ s, {| locked := locked s;
                    containers := <[containerID:=container]> (containers s) |})).

Definition DeleteContainer (containerID : string) : M Store unit :=
  Lock ≫= λ _, defer Unlock (
    modify (λ s, {| locked := locked s;
                    containers := delete containerID (containers s) |})).

(** [Store.ForEach]. The callback is code of the caller, so it runs on the
    caller's state [W], of which the store is a part. [order] is the order in
    which Go enumerates the map, which the language leaves open. *)
Definition ForEach {W} `{Part W Store}
    (order : gmap string Container → M W (list (string * Container)))
    (callback : string → Container → M W unit) : M W unit :=
  zoom Lock ≫= λ _, defer (zoom Unlock) (
    zoom get ≫= λ s,
    order (containers s) ≫= λ es,
    for_range es (λ e, callback e.1 e.2)).

(** ** The sequential contract *)

(** No goroutine holds the mutex. *)
Definition idle (s : Store) : Prop := locked s = false.

Section contract.
Implicit Types (s : Store) (id : string) (c : Container).

Lemma Store_Container_idle id s : idle s →
  Store_Container id s =
    (Ret (match containers s !! id with Some c => (c, true) | None => (zero_Container, false) end), s).
Proof. destruct s as [l m]. unfold idle. simpl. by intros ->. Qed.

Lemma SetContainer_idle id c s : idle s →
  SetContainer id c s =
    (Ret (), {| locked := false; containers := <[id:=c]> (containers s) |}).
Proof. destruct s as [l m]. unfold idle. simpl. by intros ->. Qed.

Lemma DeleteContainer_idle id s : idle s →
  DeleteContainer id s =
    (Ret (), {| locked := false; containers := delete id (containers s) |}).
Proof. destruct s as [l m]. unfold idle. simpl. by intros ->. Qed.

(** Nothing gets past a held mutex. *)
Lemma Lock_held s : locked s = true → Lock s = (Blocked, s).
Proof. unfold Lock. by intros ->. Qed.
End contract.

Section foreach.
Context {W : Type} `{!Part W Store} `{!PartLaws W Store}.
Implicit Types (w : W) (callback : string → Container → M W unit).

(** [ForEach] over an idle store runs the callback on every entry, in the
    order of the enumeration, with the mutex held, and releases the mutex
    afterwards: also when a callback panics. *)
Lemma ForEach_idle order callback w es w1 :
  idle (view w) →
  order (containers (view w)) (update {| locked := true; containers := containers (view w) |} w)
    = (Ret es, w1) →
  ForEach order callback w = defer (zoom Unlock) (for_range es (λ e, callback e.1 e.2)) w1.
Proof.
  intros Hidle Ho. unfold ForEach.
  erewrite bind_Ret; [|by apply zoom_Ret; unfold Lock; rewrite Hidle].
  apply defer_body.
  erewrite bind_Ret; [|by apply zoom_Ret].
  rewrite view_update, update_update. cbn [containers].
  by rewrite (bind_Ret _ _ _ _ _ Ho).
Qed.

Lemma unlock_held w : locked (view w) = true →
  zoom Unlock w = (Ret (), update {| locked := false; containers := containers (view w) |} w).
Proof. intros Hl. apply zoom_Ret. unfold Unlock. by rewrite Hl. Qed.

(** When the enumeration and the callback leave the store alone, so does
    [ForEach], unless the process ends inside the callback. *)
Lemma ForEach_view order callback w :
  (∀ m, Respects (same view) (order m)) →
  (∀ id c, Respects (same view) (callback id c)) →
  idle (view w) →
  match (ForEach order callback w).1 with
  | Ret _ | Panicked _ => view (ForEach order callback w).2 = view w
  | _ => True
  end.
Proof.
  intros Hord Hcb Hidle. unfold ForEach.
  set (w0 := update {| locked := true; containers := containers (view w) |} w).
  erewrite bind_Ret; [|by apply zoom_Ret; unfold Lock; rewrite Hidle]. fold w0.
  set (body := zoom get ≫= _).
  assert (Respects (same view) body) as Hbody.
  { apply respects_bind; [apply _| |].
    - intros w'. unfold zoom. simpl. by rewrite update_view.
    - intros s. apply respects_bind; [apply _..|]. intros es.
      apply respects_for_range; [apply _|]. intros []. apply Hcb. }
  assert (view (body w0).2 = {| locked := true; containers := containers (view w) |}) as Hw1.
  { rewrite (Hbody w0). apply view_update. }
  assert ({| locked := false; containers := containers (view w) |} = view w) as Hres.
  { unfold idle in Hidle. destruct (view w). simpl in *. by subst. }
  unfold defer. destruct (body w0) as [[] w1]; simpl in Hw1; try done.
  all: rewrite unlock_held by (by rewrite Hw1); simpl; by rewrite view_update, Hw1.
Qed.

Lemma ForEach_nonblocking order callback w :
  (∀ m, NonBlocking (order m)) → (∀ id c, NonBlocking (callback id c)) →
  idle (view w) → (ForEach order callback w).1 ≠ Blocked.
Proof.
  intros Hord Hcb Hidle. unfold ForEach.
  erewrite bind_Ret; [|by apply zoom_Ret; unfold Lock; rewrite Hidle].
  apply nonblocking_defer.
  - apply nonblocking_zoom. intros s. unfold Unlock. by destruct (locked s).
  - apply nonblocking_bind; [apply _|]. intros s. apply nonblocking_bind; [apply _|].
    intros es. apply nonblocking_for_range. intros []. apply Hcb.
Qed.
End foreach.
