(* ===== verification/Env.v ===== *)
(** * The outside world

    Everything the plugin talks to and that is not code of the repository: the
    Docker daemon (through go-dockerclient), the kernel (network namespaces,
    processes, symbolic links), InfluxDB (through its client), the clock, the
    pseudo-random generator and the order in which Go enumerates a map. Each
    service is a type class over an abstract environment state [E]: an external
    call takes the environment to an answer and a new environment, so answers
    can depend on everything that happened before. Nothing is assumed of the
    answers except what the laws at the end of the file state. *)

From S2P Require Import Prelude Go Strs Nums Store.

(** The text of an error that external code produced. *)
Inductive ext_error : Set := ExtError (msg : string).

(** ** Docker: the fields of go-dockerclient's structs that the plugin reads *)

Record DockerState : Set := MkDockerState {
  DRunning : bool;
  DPaused : bool;
  DRestarting : bool;
  DOOMKilled : bool;
  DDead : bool;
  DPid : Z
}.

Record DockerContainer : Set := MkDockerContainer { DName : string; DState : DockerState }.

Record APIEvents : Set := MkAPIEvents { EStatus : string; EID : string }.

(** An error of [InspectContainer]: the client has a type of its own for a
    container that does not exist. *)
Inductive inspect_error : Set :=
  | NoSuchContainer (id : string)
  | InspectFailed (e : ext_error).

(** ** InfluxDB: the shape of a response *)

(** A value of type [interface{}], by its dynamic type. *)
Inductive iface : Set :=
  | INil
  | IString (s : string)
  | INumber (s : string)   (* json.Number *)
  | IOther.

Record Row : Set := MkRow { Values : list (list iface) }.
Record InfluxResult : Set := MkInfluxResult { Series : list Row }.
Record Response : Set := MkResponse { Results : list InfluxResult }.

(** ** The clock *)

(** A [time.Time]: seconds since the epoch, nanoseconds, zone offset in minutes. *)
Record Time : Set := MkTime { unix : Z; nano : Z; zone : Z }.

(** ** The services *)

Class Docker (E : Type) := {
  docker_NewClient : string → E → option ext_error * E;
  docker_InspectContainer : string → E → (inspect_error + DockerContainer) * E;
  docker_ListContainers : E → (ext_error + list string) * E;
  docker_AddEventListener : E → option ext_error * E;
  docker_RemoveEventListener : E → option ext_error * E;
  (* the next value of the events channel; [None] when it is closed *)
  docker_receive : E → option APIEvents * E
}.

Class Kernel (E : Type) := {
  (* the part of ns.WithNetNSPath before the closure, and the part after it *)
  netns_enter : string → E → option ext_error * E;
  netns_leave : E → E;
  (* exec.Command(name, arg...).CombinedOutput(), without the output *)
  exec_Command : list string → E → option ext_error * E;
  os_Readlink : string → E → (ext_error + string) * E
}.

Class Influx (E : Type) := {
  httptest_listen : E → bool * E;
  influx_NewClient : E → option ext_error * E;
  influx_Query : string → string → E → (ext_error + Response) * E
}.

Class Clock (E : Type) := {
  time_Now : E → Time * E;
  rand_Seed : Z → E → E;
  rand_Intn : Z → E → Z * E;
  range_order : gmap string Container → E → list (string * Container) * E
}.

(** The file system and the sockets the plugin serves on. *)
Class Files (E : Type) := {
  os_RemoveAll : string → E → option ext_error * E;
  os_MkdirAll : string → Z → E → option ext_error * E;
  net_Listen : string → string → E → option ext_error * E
}.

(** The path of a process's network namespace and, by proc(5), what that
    symbolic link reads as: ["net:[<inode>]"]. *)
Definition netns_path (pid : Z) : string := "/proc/" +:+ Itoa pid +:+ "/ns/net".

Class KernelLaws (E : Type) `{!Kernel E} : Prop := {
  Readlink_netns pid (e : E) t :
    (os_Readlink (netns_path pid) e).1 = inr t → ∃ inode, t = "net:[" +:+ inode +:+ "]"
}.

(** What the documentation of [math/rand] and the Go specification promise. *)
Class ClockLaws (E : Type) `{!Clock E} : Prop := {
  rand_Intn_range n (e : E) : (0 < n)%Z → (0 ≤ (rand_Intn n e).1 < n)%Z;
  range_order_perm m (e : E) : (range_order m e).1 ≡ₚ map_to_list m
}.

(** ** Errors of the plugin

    One constructor per [fmt.Errorf] of the source; the arguments are those of
    the format. A Go [error] is an [option error], [None] being [nil]. *)
Inductive error : Set :=
  (* docker.go *)
  | ErrConnectDocker (e : ext_error)
  | ErrInspect (e : ext_error)
  | ErrDocker (e : ext_error)
  (* tc.go *)
  | ErrExecuteCommand (e : ext_error)
  | ErrEnterNetNS (e : ext_error)
  | ErrPerformTC (err : error)
  | ErrReadlink (path : string) (e : ext_error)
  | ErrNSID (err : error)
  | ErrStatusMissing (pid : Z)
  | ErrInflux (e : ext_error)
  | ErrInfluxData (err : error)
  | ErrDockerName (name : string)
  | ErrFewerParts (name : string) (parts : list string)
  (* report.go *)
  | ErrNoSuffix (nodeID : string)
  | ErrContainerID (nodeID : string) (err : error)
  | ErrContainerNotFound (containerID : string)
  | ErrUnknownControl (controlID nodeID : string)
  | ErrMarshalReport (msg : string)
  (* main.go *)
  | ErrCreateDir (dir : string) (e : ext_error)
  | ErrListen (path : string) (e : ext_error)
  | ErrCreateDocker (err : error)
  | ErrGetHandler (err : error)
  | ErrHandlerFailed (err : error).

#[export] Instance ext_error_eq_dec : EqDecision ext_error.
Proof. solve_decision. Defined.
#[export] Instance error_eq_dec : EqDecision error.
Proof. solve_decision. Defined.
