(* ===== verification/Utf8.v ===== *)
(** * UTF-8

    Package [unicode/utf8] as package [encoding/json] and [strconv] use it: a
    string is read rune by rune, and a byte that is not part of the encoding
    of a rune is an item of its own ([RuneError] of width 1). *)

From S2P Require Import Prelude Go Strs.

#[local] Open Scope N_scope.

(** ** Decoding *)

Inductive item : Set :=
  | Rune (r : N)
  | Bad (b : ascii).

#[export] Instance item_eq_dec : EqDecision item.
Proof. solve_decision. Defined.

Definition cont (b : ascii) : bool := bool_decide (128 ≤ byte b ≤ 191).

(** The encodings of two, three and four bytes; the ranges exclude overlong
    forms, surrogates and values above U+10FFFF. *)
Definition two (a b : ascii) : bool := bool_decide (194 ≤ byte a ≤ 223) && cont b.

Definition three (a b c : ascii) : bool :=
  bool_decide ((byte a = 224 ∧ 160 ≤ byte b) ∨ 225 ≤ byte a ≤ 236 ∨
               (byte a = 237 ∧ byte b ≤ 159) ∨ 238 ≤ byte a ≤ 239) && cont b && cont c.

Definition four (a b c d : ascii) : bool :=
  bool_decide ((byte a = 240 ∧ 144 ≤ byte b) ∨ 241 ≤ byte a ≤ 243 ∨
               (byte a = 244 ∧ byte b ≤ 143)) && cont b && cont c && cont d.

Definition rune2 (a b : ascii) : N := byte a mod 32 * 64 + byte b mod 64.
Definition rune3 (a b c : ascii) : N :=
  byte a mod 16 * 4096 + byte b mod 64 * 64 + byte c mod 64.
Definition rune4 (a b c d : ascii) : N :=
  byte a mod 8 * 262144 + byte b mod 64 * 4096 + byte c mod 64 * 64 + byte d mod 64.

(** Repeated [DecodeRuneInString]. *)
Fixpoint items (s : string) : list item :=
  match s with
  | "" => []
  | String a s1 =>
      if bool_decide (byte a < 128) then Rune (byte a) :: items s1 else
      match s1 with
      | "" => [Bad a]
      | String b s2 =>
          if two a b then Rune (rune2 a b) :: items s2 else
          match s2 with
          | "" => Bad a :: items s1
          | String c s3 =>
              if three a b c then Rune (rune3 a b c) :: items s3 else
              match s3 with
              | "" => Bad a :: items s1
              | String d s4 =>
                  if four a b c d then Rune (rune4 a b c d) :: items s4
                  else Bad a :: items s1
              end
          end
      end
  end.

(** ** Encoding *)

Definition char (n : N) : ascii := ascii_of_N n.

(** [EncodeRune] of a rune that is a Unicode scalar value. *)
Definition encode (r : N) : string :=
  if bool_decide (r < 128) then String (char r) ""
  else if bool_decide (r < 2048) then
    String (char (192 + r / 64)) (String (char (128 + r mod 64)) "")
  else if bool_decide (r < 65536) then
    String (char (224 + r / 4096)) (String (char (128 + r / 64 mod 64))
      (String (char (128 + r mod 64)) ""))
  else
    String (char (240 + r / 262144)) (String (char (128 + r / 4096 mod 64))
      (String (char (128 + r / 64 mod 64)) (String (char (128 + r mod 64)) ""))).

Definition scalar (r : N) : Prop := r < 55296 ∨ 57344 ≤ r < 1114112.

#[export] Instance scalar_dec r : Decision (scalar r).
Proof. unfold scalar. apply _. Defined.

Definition rune_error : N := 65533.

(** [EncodeRune] writes U+FFFD for values that are not scalar. *)
Definition EncodeRune (r : N) : string := encode (if decide (scalar r) then r else rune_error).

Definition item_text (i : item) : string :=
  match i with Rune r => encode r | Bad b => String b "" end.

Fixpoint text (l : list item) : string :=
  match l with [] => "" | i :: l => item_text i +:+ text l end.

(** The rune a range loop yields for an item. *)
Definition item_rune (i : item) : N := match i with Rune r => r | Bad _ => rune_error end.

(** [strings.ToValidUTF8(s, "\uFFFD")], what decoding to runes and encoding
    again makes of a string. *)
Definition coerce (s : string) : string := text (Rune ∘ item_rune <$> items s).

Definition is_rune (i : item) : Prop := match i with Rune _ => True | Bad _ => False end.
#[export] Instance is_rune_dec i : Decision (is_rune i).
Proof. destruct i; apply _. Defined.

(** [utf8.ValidString] *)
Definition valid (s : string) : Prop := Forall is_rune (items s).
#[export] Instance valid_dec s : Decision (valid s).
Proof. unfold valid. apply _. Defined.

(** ** Laws *)

Lemma byte_char n : n < 256 → byte (char n) = n.
Proof. apply N_ascii_embedding. Qed.

Lemma char_byte a : char (byte a) = a.
Proof. apply ascii_N_embedding. Qed.

Lemma byte_bounded a : byte a < 256.
Proof. unfold byte. destruct a as [[] [] [] [] [] [] [] []]; vm_compute; reflexivity. Qed.

Ltac bools := repeat (rewrite ?andb_true_iff, ?andb_false_iff, ?bool_decide_eq_true, ?bool_decide_eq_false in *).

#[local] Ltac Zify.zify_post_hook ::= Z.to_euclidean_division_equations.

Lemma items_1 a s : byte a < 128 → items (String a s) = Rune (byte a) :: items s.
Proof. intros Ha. cbn [items]. by rewrite bool_decide_true. Qed.

Lemma items_2 a b s : two a b = true → items (String a (String b s)) = Rune (rune2 a b) :: items s.
Proof.
  intros H2. cbn [items]. rewrite H2. unfold two, cont in H2. bools.
  by rewrite bool_decide_false by lia.
Qed.

Lemma items_3 a b c s :
  three a b c = true → items (String a (String b (String c s))) = Rune (rune3 a b c) :: items s.
Proof.
  intros H3. cbn [items]. rewrite H3. unfold three, cont in H3. bools.
  assert (two a b = false) as ->.
  { unfold two. apply andb_false_iff. left. apply bool_decide_eq_false. lia. }
  by rewrite bool_decide_false by lia.
Qed.

Lemma items_4 a b c d s :
  four a b c d = true →
  items (String a (String b (String c (String d s)))) = Rune (rune4 a b c d) :: items s.
Proof.
  intros H4. cbn [items]. rewrite H4. unfold four, cont in H4. bools.
  assert (two a b = false) as ->.
  { unfold two. apply andb_false_iff. left. apply bool_decide_eq_false. lia. }
  assert (three a b c = false) as ->.
  { unfold three. rewrite !andb_false_iff. do 2 left. apply bool_decide_eq_false. lia. }
  by rewrite bool_decide_false by lia.
Qed.

Lemma items_encode r s : scalar r → items (encode r +:+ s) = Rune r :: items s.
Proof.
  intros Hr. unfold scalar in Hr. unfold encode.
  repeat case_bool_decide; autorewrite with str.
  - rewrite items_1; rewrite byte_char by lia; [done|lia].
  - rewrite items_2; unfold two, cont, rune2; rewrite !byte_char by lia; bools.
    + do 2 f_equal. lia.
    + lia.
  - rewrite items_3; unfold three, cont, rune3; rewrite !byte_char by lia; bools.
    + do 2 f_equal. lia.
    + lia.
  - rewrite items_4; unfold four, cont, rune4; rewrite !byte_char by lia; bools.
    + do 2 f_equal. lia.
    + lia.
Qed.

Lemma char_eq n a : n = byte a → char n = a.
Proof. intros ->. apply char_byte. Qed.

(** What the decoder yields encodes back to the bytes it read, *)
Lemma encode_one a : byte a < 128 → encode (byte a) = String a "".
Proof. intros Ha. unfold encode. rewrite bool_decide_true by done. by rewrite char_byte. Qed.

Lemma encode_two a b : two a b = true → encode (rune2 a b) = String a (String b "").
Proof.
  intros H2. unfold two, cont in H2. bools. unfold encode, rune2.
  rewrite bool_decide_false, bool_decide_true by lia.
  repeat f_equal; apply char_eq; lia.
Qed.

Lemma encode_three a b c :
  three a b c = true → encode (rune3 a b c) = String a (String b (String c "")).
Proof.
  intros H3. unfold three, cont in H3. bools. unfold encode, rune3.
  rewrite !bool_decide_false, bool_decide_true by lia.
  repeat f_equal; apply char_eq; lia.
Qed.

Lemma encode_four a b c d :
  four a b c d = true → encode (rune4 a b c d) = String a (String b (String c (String d ""))).
Proof.
  intros H4. unfold four, cont in H4. bools. unfold encode, rune4.
  rewrite !bool_decide_false by lia.
  repeat f_equal; apply char_eq; lia.
Qed.

(** and is a scalar value. *)
Lemma rune_scalar2 a b : two a b = true → scalar (rune2 a b).
Proof. intros H2. unfold two, cont in H2. bools. unfold scalar, rune2. lia. Qed.
Lemma rune_scalar3 a b c : three a b c = true → scalar (rune3 a b c).
Proof. intros H3. unfold three, cont in H3. bools. unfold scalar, rune3. lia. Qed.
Lemma rune_scalar4 a b c d : four a b c d = true → scalar (rune4 a b c d).
Proof. intros H4. unfold four, cont in H4. bools. unfold scalar, rune4. lia. Qed.

(** Induction along the decoder. *)
Lemma items_ind (P : string → list item → Prop) :
  P "" [] →
  (∀ a s l, byte a < 128 → P s l → P (String a s) (Rune (byte a) :: l)) →
  (∀ a s l, 128 ≤ byte a → P s l → P (String a s) (Bad a :: l)) →
  (∀ a b s l, two a b = true → P s l → P (String a (String b s)) (Rune (rune2 a b) :: l)) →
  (∀ a b c s l, three a b c = true → P s l →
     P (String a (String b (String c s))) (Rune (rune3 a b c) :: l)) →
  (∀ a b c d s l, four a b c d = true → P s l →
     P (String a (String b (String c (String d s)))) (Rune (rune4 a b c d) :: l)) →
  ∀ s, P s (items s).
Proof.
  intros H0 H1 Hbad H2 H3 H4.
  apply (well_founded_ind (Wf_nat.well_founded_ltof _ String.length)). unfold Wf_nat.ltof.
  intros s IH. destruct s as [|a s1]; [done|]. cbn [items].
  case_bool_decide as Ha; [apply H1; [done|apply IH; simpl; lia]|].
  assert (P (String a s1) (Bad a :: items s1)) as HB.
  { apply Hbad; [lia|]. apply IH. simpl. lia. }
  destruct s1 as [|b s2]; [done|].
  destruct (two a b) eqn:E2; [apply H2; [done|apply IH; simpl; lia]|].
  destruct s2 as [|c s3]; [done|].
  destruct (three a b c) eqn:E3; [apply H3; [done|apply IH; simpl; lia]|].
  destruct s3 as [|d s4]; [done|].
  destruct (four a b c d) eqn:E4; [apply H4; [done|apply IH; simpl; lia]|done].
Qed.

(** The items of a string are its bytes, grouped. *)
Lemma text_items s : text (items s) = s.
Proof.
  apply (items_ind (λ s l, text l = s)); [done|..]; intros; subst; simpl.
  - by rewrite encode_one by done.
  - done.
  - by rewrite encode_two by done.
  - by rewrite encode_three by done.
  - by rewrite encode_four by done.
Qed.

(** Runes are scalar values, bad bytes are not ASCII. *)
Definition item_ok (i : item) : Prop :=
  match i with Rune r => scalar r | Bad b => 128 ≤ byte b end.

Lemma items_ok s : Forall item_ok (items s).
Proof.
  apply (items_ind (λ _ l, Forall item_ok l)); [done|..]; intros; constructor; try done; simpl.
  - unfold scalar. lia.
  - by apply rune_scalar2.
  - by apply rune_scalar3.
  - by apply rune_scalar4.
Qed.

Lemma items_text l s : Forall scalar l → items (text (Rune <$> l) +:+ s) = (Rune <$> l) ++ items s.
Proof.
  induction 1 as [|r l Hr Hl IH]; [done|].
  rewrite fmap_cons. cbn [text item_text app].
  rewrite append_assoc, items_encode by done. by rewrite IH.
Qed.

Lemma scalar_rune_error : scalar rune_error.
Proof. unfold scalar, rune_error. lia. Qed.

Lemma item_rune_scalar i : item_ok i → scalar (item_rune i).
Proof. destruct i; [done|]. intros _. apply scalar_rune_error. Qed.

(** [coerce] makes a string valid and does nothing to a valid one. *)
Lemma items_coerce s : items (coerce s) = Rune ∘ item_rune <$> items s.
Proof.
  unfold coerce. rewrite list_fmap_compose.
  rewrite <-(append_nil_r (text _)), items_text.
  - by rewrite app_nil_r.
  - rewrite Forall_fmap. eapply Forall_impl; [apply items_ok|]. intros i. apply item_rune_scalar.
Qed.

Lemma coerce_valid s : valid (coerce s).
Proof. unfold valid. rewrite items_coerce, Forall_fmap. by apply Forall_true. Qed.

Lemma valid_coerce s : valid s → coerce s = s.
Proof.
  intros Hs. rewrite <-(text_items s) at 2. unfold coerce. f_equal.
  induction Hs as [|[r|b] l Hi Hl IH]; [done| |done]. rewrite fmap_cons, IH. done.
Qed.

(** ASCII strings are valid. *)
Fixpoint ascii_only (s : string) : bool :=
  match s with "" => true | String c s => bool_decide (byte c < 128) && ascii_only s end.

Lemma ascii_only_valid s : ascii_only s = true → valid s.
Proof.
  unfold valid. induction s as [|c s IH]; [done|]. cbn [ascii_only]. bools. intros [Hc Hs].
  rewrite items_1 by done. constructor; [done|auto].
Qed.

Lemma ascii_only_Forall l : forallb ascii_only l = true → Forall valid l.
Proof.
  induction l as [|s l IH]; [done|]. simpl. rewrite andb_true_iff. intros [Hs Hl].
  constructor; [by apply ascii_only_valid|auto].
Qed.

Lemma valid_app s t : valid s → valid t → valid (s +:+ t).
Proof.
  intros Hs Ht. rewrite <-(text_items s). unfold valid in *.
  pose proof (items_ok s) as Hok. induction Hs as [|[r|b] l Hi Hl IH]; [done| |done].
  inversion_clear Hok. 
  cbn [text item_text]. rewrite append_assoc, items_encode by done. constructor; auto.
Qed.
