(* ===== verification/Fmt.v ===== *)
(** * Formatted text

    The verbs of package [fmt] that reach an answer of the plugin: [%v] of
    errors and of lists of strings, [%d], [%s], and [%q], which is
    [strconv.Quote] (of Go 1.6, the version the Makefile builds with). Whether a
    rune above Latin-1 is printable is a table of the Unicode version the
    compiler ships: a parameter. *)

From S2P Require Import Prelude Go Strs Nums Store Env Utf8.

(** [unicode.IsPrint] above U+00FF *)
Class Unicode := { is_print : N → bool }.

(** ** Hexadecimal *)

Definition hex_digit (n : N) : ascii :=
  char (if bool_decide (n < 10)%N then 48 + n else 87 + n).

(** The last [k] hexadecimal digits of [n]. *)
Fixpoint hex (k : nat) (n : N) : string :=
  match k with
  | O => ""
  | S k => hex k (n / 16) +:+ String (hex_digit (n mod 16)) ""
  end.

(** ** strconv.Quote *)

Definition quotation : ascii := "034".
Definition backslash : ascii := "\".

Definition latin1_print (r : N) : bool :=
  bool_decide (32 ≤ r < 127 ∨ 161 ≤ r < 256 ∧ r ≠ 173)%N.

Definition escape (c : ascii) : string := String backslash (String c "").

Section quote.
Context `{!Unicode}.

Definition IsPrint (r : N) : bool :=
  if bool_decide (r < 256)%N then latin1_print r else is_print r.

Definition quote_rune (r : N) : string :=
  if bool_decide (r = byte quotation ∨ r = byte backslash) then escape (char r)
  else if IsPrint r then encode r
  else if bool_decide (r = 7)%N then escape "a"
  else if bool_decide (r = 8)%N then escape "b"
  else if bool_decide (r = 12)%N then escape "f"
  else if bool_decide (r = 10)%N then escape "n"
  else if bool_decide (r = 13)%N then escape "r"
  else if bool_decide (r = 9)%N then escape "t"
  else if bool_decide (r = 11)%N then escape "v"
  else if bool_decide (r < 32)%N then escape "x" +:+ hex 2 r
  else if bool_decide (r < 65536)%N then escape "u" +:+ hex 4 r
  else escape "U" +:+ hex 8 r.

Definition quote_item (i : item) : string :=
  match i with Rune r => quote_rune r | Bad b => escape "x" +:+ hex 2 (byte b) end.

Definition Quote (s : string) : string :=
  String quotation (foldr (λ i t, quote_item i +:+ t) (String quotation "") (items s)).
End quote.

(** [%v] of a [[]string] *)
Definition list_text (l : list string) : string := "[" +:+ Join l " " +:+ "]".

(** ** The text of the errors of the plugin *)

Definition ext_text (e : ext_error) : string := let 'ExtError msg := e in msg.

(** [err.Error()] *)
Fixpoint error_text `{!Unicode} (err : error) : string :=
  match err with
  | ErrConnectDocker e => "failed to connect to docker daemon: " +:+ ext_text e
  | ErrInspect e | ErrDocker e | ErrEnterNetNS e | ErrInflux e => ext_text e
  | ErrExecuteCommand e => "failed to execute command: " +:+ ext_text e
  | ErrPerformTC err => "failed to perform traffic control: " +:+ error_text err
  | ErrReadlink path e =>
      "failed read " +:+ String quotation path +:+ String quotation (": " +:+ ext_text e)
  | ErrNSID err => "failed to get network namespace ID: " +:+ error_text err
  | ErrStatusMissing pid => "status for PID " +:+ Itoa pid +:+ " does not exist"
  | ErrInfluxData err => "failed to get data from InfluxDB: " +:+ error_text err
  | ErrDockerName name => "failed to parse Docker container name " +:+ Quote name +:+ " into parts"
  | ErrFewerParts name parts =>
      "Docker container name " +:+ Quote name +:+ " has less parts than expected " +:+ list_text parts
  | ErrNoSuffix nodeID => "no suffix " +:+ Quote ";<container>" +:+ " in node ID " +:+ Quote nodeID
  | ErrContainerID nodeID err =>
      "failed to get container ID from node ID " +:+ Quote nodeID +:+ ": " +:+ error_text err
  | ErrContainerNotFound containerID => "container " +:+ containerID +:+ " not found"
  | ErrUnknownControl controlID nodeID =>
      "unknown control ID " +:+ Quote controlID +:+ " for node ID " +:+ Quote nodeID
  | ErrMarshalReport msg => "failed to marshal the report: " +:+ msg
  | ErrCreateDir dir e => "failed to create directory " +:+ Quote dir +:+ ": " +:+ ext_text e
  | ErrListen path e => "failed to listen on " +:+ Quote path +:+ ": " +:+ ext_text e
  | ErrCreateDocker err => "failed to create a docker client: " +:+ error_text err
  | ErrGetHandler err => "failed to get handler: " +:+ error_text err
  | ErrHandlerFailed err => "handler failed: " +:+ error_text err
  end.

(** ** Hexadecimal digits are read back *)

#[local] Open Scope N_scope.
#[local] Ltac Zify.zify_post_hook ::= Z.to_euclidean_division_equations.

Lemma byte_hex_digit n : n < 16 → byte (hex_digit n) = if bool_decide (n < 10) then 48 + n else 87 + n.
Proof. intros Hn. unfold hex_digit. rewrite byte_char; [done|]. case_bool_decide; lia. Qed.
