(* ===== verification/Json.v ===== *)
(** * JSON

    Package [encoding/json] as the sources use it: what [Marshal] and
    [Encoder.Encode] write for a tree of values, and [Decoder.Decode], which
    reads one value from a stream. The reader is the state machine of the
    package's scanner, one step per byte, with the contexts of its error
    messages; here its states also carry the value read so far, which the
    package builds in a second pass over the bytes. The package's [unquote] and
    the quoting of strings work on the runes of [Utf8.v]. *)

From S2P Require Import Prelude Go Strs Nums Store Env Utf8 Fmt.

#[warnings="-register-all"]
Inductive json : Set :=
  | JNull
  | JBool (b : bool)
  | JNum (literal : string)
  | JStr (s : string)
  | JArr (l : list json)
  | JObj (members : list (string * json)).

(** Induction with the hypothesis for the parts. *)
Lemma json_ind' (P : json → Prop) :
  P JNull → (∀ b, P (JBool b)) → (∀ s, P (JNum s)) → (∀ s, P (JStr s)) →
  (∀ l, Forall P l → P (JArr l)) →
  (∀ l, Forall (λ kv, P kv.2) l → P (JObj l)) → ∀ j, P j.
Proof.
  intros H1 H2 H3 H4 H5 H6. fix IH 1.
  intros [|b|s|s|l|l]; [apply H1|apply H2|apply H3|apply H4|apply H5|apply H6].
  - induction l; constructor; [apply IH|done].
  - induction l as [|[k v] l]; constructor; [apply IH|done].
Qed.

(** ** Writing *)

(** A rune inside a string literal; the characters of HTML are escaped. *)
Definition json_rune (r : N) : string :=
  if bool_decide (r = byte quotation ∨ r = byte backslash) then escape (char r)
  else if bool_decide (r = 10)%N then escape "n"
  else if bool_decide (r = 13)%N then escape "r"
  else if bool_decide (r = 9)%N then escape "t"
  else if bool_decide (r < 32 ∨ r = 60 ∨ r = 62 ∨ r = 38)%N then escape "u" +:+ hex 4 r
  else if bool_decide (r = 8232 ∨ r = 8233)%N then escape "u" +:+ hex 4 r
  else encode r.

Definition json_item (i : item) : string :=
  match i with Rune r => json_rune r | Bad _ => escape "u" +:+ "fffd" end.

Fixpoint json_body (l : list item) : string :=
  match l with [] => "" | i :: l => json_item i +:+ json_body l end.

Definition json_string (s : string) : string :=
  String quotation (json_body (items s) +:+ String quotation "").

Fixpoint print (j : json) : string :=
  match j with
  | JNull => "null"
  | JBool b => if b then "true" else "false"
  | JNum s => s
  | JStr s => json_string s
  | JArr l => "[" +:+ Join (print <$> l) "," +:+ "]"
  | JObj l => "{" +:+ Join ((λ kv, json_string kv.1 +:+ ":" +:+ print kv.2) <$> l) "," +:+ "}"
  end.

Definition newline : string := String "010" "".

(** [json.Encoder] ends a value with a newline. *)
Definition encode_line (j : json) : string := print j +:+ newline.

(** ** Unquoting *)

Definition unhex (i : item) : option N :=
  match i with
  | Rune r =>
      if bool_decide (48 ≤ r ≤ 57)%N then Some (r - 48)%N
      else if bool_decide (97 ≤ r ≤ 102)%N then Some (r - 87)%N
      else if bool_decide (65 ≤ r ≤ 70)%N then Some (r - 55)%N
      else None
  | Bad _ => None
  end.

Definition u4 (a b c d : item) : option N :=
  a ← unhex a; b ← unhex b; c ← unhex c; d ← unhex d;
  Some (((a * 16 + b) * 16 + c) * 16 + d)%N.

Definition is_char (c : ascii) (i : item) : bool := bool_decide (i = Rune (byte c)).

(** [utf16.DecodeRune] of a surrogate pair. *)
Definition surrogate (r : N) : bool := bool_decide (55296 ≤ r < 57344)%N.
Definition surrogate_pair (r1 r2 : N) : option N :=
  if bool_decide (55296 ≤ r1 < 56320 ∧ 56320 ≤ r2 < 57344)%N
  then Some (65536 + (r1 - 55296) * 1024 + (r2 - 56320))%N else None.

(** The character a one-letter escape stands for. *)
Definition unescape (i : item) : string :=
  if is_char "b" i then String "008" "" else if is_char "f" i then String "012" ""
  else if is_char "n" i then String "010" "" else if is_char "r" i then String "013" ""
  else if is_char "t" i then String "009" "" else encode (item_rune i).

Fixpoint unquote (l : list item) : string :=
  match l with
  | [] => ""
  | i :: l1 =>
      if is_char backslash i then
        match l1 with
        | [] => ""
        | e :: l2 =>
            if is_char "u" e then
              match l2 with
              | h1 :: h2 :: h3 :: h4 :: l3 =>
                  match u4 h1 h2 h3 h4 with
                  | None => ""
                  | Some r =>
                      if surrogate r then
                        match l3 with
                        | b :: u :: g1 :: g2 :: g3 :: g4 :: l4 =>
                            match (if is_char backslash b && is_char "u" u
                                   then u4 g1 g2 g3 g4 ≫= surrogate_pair r else None) with
                            | Some r' => EncodeRune r' +:+ unquote l4
                            | None => EncodeRune rune_error +:+ unquote l3
                            end
                        | _ => EncodeRune rune_error +:+ unquote l3
                        end
                      else EncodeRune r +:+ unquote l3
                  end
              | _ => ""
              end
            else unescape e +:+ unquote l2
        end
      else encode (item_rune i) +:+ unquote l1
  end.

(** ** The scanner *)

Inductive num_state : Set := SNeg | S0 | S1 | SDot | SDot0 | SE | SESign | SE0.
Inductive str_state : Set := SInString | SEsc | SEscU (more : nat).

(** The stack of [parseState]s, with the members and elements read so far,
    newest first. *)
Inductive frame : Set :=
  | FKey (members : list (string * json))
  | FVal (members : list (string * json)) (key : string)
  | FArr (elements : list json).

(** The step function the scanner is in, with what it has read, newest first. *)
Inductive state : Set :=
  | BeginValueOrEmpty
  | BeginValue
  | BeginStringOrEmpty
  | BeginString
  | InString (st : str_state) (raw : list ascii)
  | InNum (st : num_state) (raw : list ascii)
  | InLit (word rest : string) (v : json)
  | EndValue (v : json).

Inductive result : Set :=
  | More (p : state) (k : list frame)
  | Done (v : json)
  | Fail (c : ascii) (context : string).

Definition isSpace (c : ascii) : bool :=
  bool_decide (c = " "%char ∨ c = "009"%char ∨ c = "013"%char ∨ c = "010"%char).
Definition is_digit (c : ascii) : bool := bool_decide (48 ≤ byte c ≤ 57)%N.
Definition is_hex (c : ascii) : bool :=
  bool_decide (48 ≤ byte c ≤ 57 ∨ 97 ≤ byte c ≤ 102 ∨ 65 ≤ byte c ≤ 70)%N.

Definition read (raw : list ascii) : string := String.string_of_list_ascii (rev raw).

(** Numbers *)
Inductive num_result : Set := NGo (st : num_state) | NEnd | NErr (context : string).

Definition num_start (c : ascii) : option num_state :=
  if bool_decide (c = "-"%char) then Some SNeg
  else if bool_decide (c = "0"%char) then Some S0
  else if is_digit c then Some S1 else None.

Definition num_step (st : num_state) (c : ascii) : num_result :=
  let is_e := bool_decide (c = "e"%char ∨ c = "E"%char) in
  match st with
  | SNeg => if bool_decide (c = "0"%char) then NGo S0 else if is_digit c then NGo S1
            else NErr "in numeric literal"
  | S1 => if is_digit c then NGo S1 else if bool_decide (c = "."%char) then NGo SDot
          else if is_e then NGo SE else NEnd
  | S0 => if bool_decide (c = "."%char) then NGo SDot else if is_e then NGo SE else NEnd
  | SDot => if is_digit c then NGo SDot0 else NErr "after decimal point in numeric literal"
  | SDot0 => if is_digit c then NGo SDot0 else if is_e then NGo SE else NEnd
  | SE => if bool_decide (c = "+"%char ∨ c = "-"%char) then NGo SESign
          else if is_digit c then NGo SE0 else NErr "in exponent of numeric literal"
  | SESign => if is_digit c then NGo SE0 else NErr "in exponent of numeric literal"
  | SE0 => if is_digit c then NGo SE0 else NEnd
  end.

(** The last member or element has been closed: the whole value is read when it
    is not nested. *)
Definition close (v : json) (k : list frame) : result :=
  match k with [] => Done v | _ => More (EndValue v) k end.

Definition end_value (v : json) (k : list frame) (c : ascii) : result :=
  match k with
  | [] => if isSpace c then Done v else Fail c "after top-level value"
  | f :: k' =>
      if isSpace c then More (EndValue v) k else
      match f with
      | FKey ms =>
          match v with
          | JStr key => if bool_decide (c = ":"%char) then More BeginValue (FVal ms key :: k')
                        else Fail c "after object key"
          | _ => Fail c "after object key"
          end
      | FVal ms key =>
          if bool_decide (c = ","%char) then More BeginString (FKey ((key, v) :: ms) :: k')
          else if bool_decide (c = "}"%char) then close (JObj (rev ((key, v) :: ms))) k'
          else Fail c "after object key:value pair"
      | FArr vs =>
          if bool_decide (c = ","%char) then More BeginValue (FArr (v :: vs) :: k')
          else if bool_decide (c = "]"%char) then close (JArr (rev (v :: vs))) k'
          else Fail c "after array element"
      end
  end.

Definition begin_value (k : list frame) (c : ascii) : result :=
  if isSpace c then More BeginValue k
  else if bool_decide (c = "{"%char) then More BeginStringOrEmpty (FKey [] :: k)
  else if bool_decide (c = "["%char) then More BeginValueOrEmpty (FArr [] :: k)
  else if bool_decide (c = quotation) then More (InString SInString []) k
  else if bool_decide (c = "t"%char) then More (InLit "true" "rue" (JBool true)) k
  else if bool_decide (c = "f"%char) then More (InLit "false" "alse" (JBool false)) k
  else if bool_decide (c = "n"%char) then More (InLit "null" "ull" JNull) k
  else match num_start c with
       | Some st => More (InNum st [c]) k
       | None => Fail c "looking for beginning of value"
       end.

Definition begin_string (k : list frame) (c : ascii) : result :=
  if isSpace c then More BeginString k
  else if bool_decide (c = quotation) then More (InString SInString []) k
  else Fail c "looking for beginning of object key string".

Definition in_string (st : str_state) (raw : list ascii) (k : list frame) (c : ascii) : result :=
  match st with
  | SInString =>
      if bool_decide (c = quotation) then More (EndValue (JStr (unquote (items (read raw))))) k
      else if bool_decide (c = backslash) then More (InString SEsc (c :: raw)) k
      else if bool_decide (byte c < 32)%N then Fail c "in string literal"
      else More (InString SInString (c :: raw)) k
  | SEsc =>
      if bool_decide (c ∈ ["b"%char; "f"%char; "n"%char; "r"%char; "t"%char; backslash; "/"%char; quotation])
      then More (InString SInString (c :: raw)) k
      else if bool_decide (c = "u"%char) then More (InString (SEscU 3) (c :: raw)) k
      else Fail c "in string escape code"
  | SEscU n =>
      if is_hex c
      then More (InString (match n with O => SInString | S n => SEscU n end) (c :: raw)) k
      else Fail c "in \u hexadecimal character escape"
  end.

Definition step (c : ascii) (p : state) (k : list frame) : result :=
  match p with
  | BeginValueOrEmpty =>
      if isSpace c then More BeginValueOrEmpty k
      else if bool_decide (c = "]"%char) then
        match k with FArr vs :: k' => close (JArr (rev vs)) k' | _ => Fail c "after array element" end
      else begin_value k c
  | BeginValue => begin_value k c
  | BeginStringOrEmpty =>
      if isSpace c then More BeginStringOrEmpty k
      else if bool_decide (c = "}"%char) then
        match k with FKey ms :: k' => close (JObj (rev ms)) k' | _ => Fail c "after object key" end
      else begin_string k c
  | BeginString => begin_string k c
  | InString st raw => in_string st raw k c
  | InNum st raw =>
      match num_step st c with
      | NGo st => More (InNum st (c :: raw)) k
      | NEnd => end_value (JNum (read raw)) k c
      | NErr context => Fail c context
      end
  | InLit word rest v =>
      match rest with
      | String d rest' =>
          if bool_decide (c = d)
          then match rest' with "" => More (EndValue v) k | _ => More (InLit word rest' v) k end
          else Fail c ("in literal " +:+ word +:+ " (expecting '" +:+ String d "')")
      | "" => Fail c "in literal"
      end
  | EndValue v => end_value v k c
  end.

Fixpoint scan (s : string) (p : state) (k : list frame) : result :=
  match s with
  | "" => More p k
  | String c s' =>
      match step c p k with
      | More p k => scan s' p k
      | r => r
      end
  end.

(** ** Decoder.Decode, up to the value *)

(** A stream: its bytes, and the error that ends it ([None] is [io.EOF]). *)
Definition stream : Set := string * option ext_error.

Inductive json_error : Set :=
  | SyntaxError (c : ascii) (context : string)
  | EOF
  | UnexpectedEOF
  | ReadError (e : ext_error)
  | UnmarshalTypeError (value type : string)
  | TimeError (value : string).

#[export] Instance json_error_eq_dec : EqDecision json_error.
Proof. solve_decision. Defined.

Fixpoint nonSpace (s : string) : bool :=
  match s with "" => false | String c s => negb (isSpace c) || nonSpace s end.

Definition readValue (body : stream) : json_error + json :=
  match scan body.1 BeginValue [] with
  | Done v => inr v
  | Fail c context => inl (SyntaxError c context)
  | More p k =>
      match body.2 with
      | Some e => inl (ReadError e)
      | None =>
          match step " " p k with
          | Done v => inr v
          | _ => inl (if nonSpace body.1 then UnexpectedEOF else EOF)
          end
      end
  end.

(** ** Reading what was written *)

(** A tree as it is read back: bytes that are not UTF-8 have become U+FFFD. *)
Fixpoint norm (j : json) : json :=
  match j with
  | JStr s => JStr (coerce s)
  | JArr l => JArr (norm <$> l)
  | JObj l => JObj ((λ kv, (coerce kv.1, norm kv.2)) <$> l)
  | j => j
  end.

(** Number literals. *)
Definition accepting (st : num_state) : bool :=
  match st with S0 | S1 | SDot0 | SE0 => true | _ => false end.

Fixpoint num_scan (st : num_state) (s : string) : option num_state :=
  match s with
  | "" => Some st
  | String c s => match num_step st c with NGo st' => num_scan st' s | _ => None end
  end.

Definition number (s : string) : bool :=
  match s with
  | "" => false
  | String c s =>
      match num_start c with
      | Some st => match num_scan st s with Some st' => accepting st' | None => false end
      | None => false
      end
  end.

Fixpoint numbers_ok (j : json) : Prop :=
  match j with
  | JNum s => number s = true
  | JArr l => foldr (λ j P, numbers_ok j ∧ P) True l
  | JObj l => foldr (λ kv P, numbers_ok kv.2 ∧ P) True l
  | _ => True
  end.

Lemma foldr_Forall {A} (P : A → Prop) l : foldr (λ x Q, P x ∧ Q) True l ↔ Forall P l.
Proof. induction l as [|x l IH]; simpl; [by split|]. by rewrite Forall_cons, IH. Qed.

Lemma Forall_mp {A} (P Q : A → Prop) l : Forall (λ x, P x → Q x) l → Forall P l → Forall Q l.
Proof. induction 1; inversion_clear 1; constructor; auto. Qed.

Lemma numbers_ok_arr l : numbers_ok (JArr l) ↔ Forall numbers_ok l.
Proof. apply foldr_Forall. Qed.
Lemma numbers_ok_obj l : numbers_ok (JObj l) ↔ Forall (λ kv, numbers_ok kv.2) l.
Proof. apply (foldr_Forall (λ kv, numbers_ok kv.2)). Qed.

(** All strings of a tree, keys included, are UTF-8. *)
Fixpoint strings_ok (j : json) : Prop :=
  match j with
  | JStr s => valid s
  | JArr l => foldr (λ j P, strings_ok j ∧ P) True l
  | JObj l => foldr (λ kv P, valid kv.1 ∧ strings_ok kv.2 ∧ P) True l
  | _ => True
  end.

Lemma strings_ok_norm j : strings_ok j → norm j = j.
Proof.
  induction j as [| | | s|l IH|l IH] using json_ind'; simpl; try done.
  - intros Hs. by rewrite valid_coerce.
  - intros Hl. f_equal. induction IH as [|j l Hj _ IHl]; [done|].
    destruct Hl as [Hjo Hl]. rewrite fmap_cons, Hj, IHl by done. done.
  - intros Hl. f_equal. induction IH as [|[k v] l Hj _ IHl]; [done|].
    destruct Hl as (Hk & Hv & Hl). rewrite fmap_cons, IHl by done. simpl in *.
    by rewrite valid_coerce, Hj.
Qed.

(** *** Strings *)

Definition push (s : string) (raw : list ascii) : list ascii :=
  rev (String.list_ascii_of_string s) ++ raw.

Lemma push_cons c s raw : push (String c s) raw = push s (c :: raw).
Proof. unfold push. simpl. by rewrite <-app_assoc. Qed.

Lemma push_app s t raw : push (s +:+ t) raw = push t (push s raw).
Proof.
  revert raw. induction s as [|c s IH]; intros raw; [done|].
  by rewrite append_cons, !push_cons.
Qed.

Lemma read_push s : read (push s []) = s.
Proof.
  unfold read, push. by rewrite app_nil_r, rev_involutive, String.string_of_list_ascii_of_string.
Qed.

(** Bytes that stand for themselves in a literal. *)
Fixpoint plain (s : string) : bool :=
  match s with
  | "" => true
  | String c s =>
      bool_decide (32 ≤ byte c)%N && bool_decide (c ≠ quotation) && bool_decide (c ≠ backslash) && plain s
  end.

Lemma scan_cons c s p k p' k' : step c p k = More p' k' → scan (String c s) p k = scan s p' k'.
Proof. intros Hs. cbn [scan]. by rewrite Hs. Qed.

Lemma scan_plain s t raw k :
  plain s = true →
  scan (s +:+ t) (InString SInString raw) k = scan t (InString SInString (push s raw)) k.
Proof.
  revert raw. induction s as [|c s IH]; intros raw; [done|]. cbn [plain]. bools.
  intros [[[Hc Hq] Hb] Hs]. rewrite append_cons, push_cons.
  rewrite (scan_cons _ _ _ _ (InString SInString (c :: raw)) k); [by apply IH|].
  cbn [step in_string]. by rewrite !bool_decide_false by (done || lia).
Qed.

Section strings.
#[local] Open Scope N_scope.
#[local] Ltac Zify.zify_post_hook ::= Z.to_euclidean_division_equations.

Lemma hex4 r :
  hex 4 r = String (hex_digit (r / 16 / 16 / 16 mod 16)) (String (hex_digit (r / 16 / 16 mod 16))
    (String (hex_digit (r / 16 mod 16)) (String (hex_digit (r mod 16)) ""))).
Proof. done. Qed.

Lemma mod16 n : n mod 16 < 16.
Proof. lia. Qed.

Lemma is_hex_digit n : n < 16 → is_hex (hex_digit n) = true.
Proof.
  intros Hn. unfold is_hex. rewrite byte_hex_digit by done. apply bool_decide_eq_true.
  case_bool_decide; lia.
Qed.

Lemma unhex_digit n : n < 16 → unhex (Rune (byte (hex_digit n))) = Some n.
Proof.
  intros Hn. unfold unhex. rewrite byte_hex_digit by done.
  repeat case_bool_decide; try lia; f_equal; lia.
Qed.

Lemma hex_digit_ascii n : n < 16 → byte (hex_digit n) < 128.
Proof. intros Hn. rewrite byte_hex_digit by done. case_bool_decide; lia. Qed.

Lemma u4_hex r :
  r < 65536 →
  u4 (Rune (byte (hex_digit (r / 16 / 16 / 16 mod 16)))) (Rune (byte (hex_digit (r / 16 / 16 mod 16))))
    (Rune (byte (hex_digit (r / 16 mod 16)))) (Rune (byte (hex_digit (r mod 16)))) = Some r.
Proof.
  intros Hr. unfold u4. rewrite !unhex_digit by apply mod16. simpl. f_equal. lia.
Qed.

Lemma scan_u_escape r t raw k :
  scan (escape "u" +:+ hex 4 r +:+ t) (InString SInString raw) k =
  scan t (InString SInString (push (escape "u" +:+ hex 4 r) raw)) k.
Proof.
  rewrite hex4. unfold escape. autorewrite with str. rewrite !push_cons.
  do 2 (erewrite scan_cons by reflexivity).
  do 4 (erewrite scan_cons by (cbn [step in_string]; rewrite is_hex_digit by apply mod16; reflexivity)).
  done.
Qed.

Lemma unquote_u_escape r t :
  r < 65536 → surrogate r = false →
  unquote (items (escape "u" +:+ hex 4 r +:+ t)) = encode r +:+ unquote (items t).
Proof.
  intros Hr Hs. rewrite hex4. unfold escape. autorewrite with str.
  rewrite !items_1 by first [apply hex_digit_ascii, mod16 | vm_compute; done].
  cbn [unquote]. change (is_char backslash (Rune (byte backslash))) with true.
  change (is_char "u" (Rune (byte "u"))) with true. cbn iota.
  rewrite u4_hex, Hs by done. unfold EncodeRune. rewrite decide_True; [done|].
  unfold surrogate in Hs. bools. unfold scalar. lia.
Qed.

(** A rune that is written as it is. *)
Lemma encode_plain r :
  scalar r → 32 ≤ r → r ≠ byte quotation → r ≠ byte backslash → plain (encode r) = true.
Proof.
  intros Hs Hr Hq Hb. unfold encode, scalar in *.
  assert (∀ n, n < 256 → 32 ≤ n → n ≠ byte quotation → n ≠ byte backslash →
    bool_decide (32 ≤ byte (char n)) && bool_decide (char n ≠ quotation) &&
    bool_decide (char n ≠ backslash) = true) as Hc.
  { intros n ????. rewrite byte_char by done. bools.
    repeat split; [done|intros Hn|intros Hn]; apply (f_equal byte) in Hn;
      rewrite byte_char in Hn; done. }
  change (byte quotation) with 34 in *. change (byte backslash) with 92 in *.
  repeat case_bool_decide; cbn [plain]; rewrite !Hc by lia; done.
Qed.

Lemma unquote_plain r t :
  scalar r → r ≠ byte backslash → unquote (items (encode r +:+ t)) = encode r +:+ unquote (items t).
Proof.
  intros Hs Hb. rewrite items_encode by done. cbn [unquote].
  unfold is_char. rewrite bool_decide_false by congruence. done.
Qed.

(** What is written for a rune, by cases: a two-character escape, a
    hexadecimal one, or its encoding. *)
Lemma json_rune_cases (P : string → Prop) r :
  scalar r →
  (r = byte quotation ∨ r = byte backslash → P (escape (char r))) →
  (r = 10 → P (escape "n")) → (r = 13 → P (escape "r")) → (r = 9 → P (escape "t")) →
  (r < 65536 → surrogate r = false → P (escape "u" +:+ hex 4 r)) →
  (32 ≤ r → r ≠ byte quotation → r ≠ byte backslash → P (encode r)) →
  P (json_rune r).
Proof.
  intros Hs H1 H2 H3 H4 H5 H6. unfold json_rune, scalar in *.
  case_bool_decide as E1; [by apply H1|]. case_bool_decide; [by apply H2|].
  case_bool_decide; [by apply H3|]. case_bool_decide; [by apply H4|].
  case_bool_decide; [apply H5; [lia|apply bool_decide_eq_false; lia]|].
  case_bool_decide; [apply H5; [lia|apply bool_decide_eq_false; lia]|].
  apply H6; [lia|tauto..].
Qed.

Lemma scan_item i t raw k :
  item_ok i →
  scan (json_item i +:+ t) (InString SInString raw) k =
  scan t (InString SInString (push (json_item i) raw)) k.
Proof.
  destruct i as [r|b]; intros Hi; [|apply (scan_u_escape rune_error)]. simpl in *.
  apply (json_rune_cases (λ s, scan (s +:+ t) _ k = scan t (InString SInString (push s raw)) k));
    [done|..].
  - by intros [->| ->].
  - done.
  - done.
  - done.
  - intros _ _. rewrite append_assoc. apply scan_u_escape.
  - intros. apply scan_plain. by apply encode_plain.
Qed.

Lemma unquote_item i t :
  item_ok i → unquote (items (json_item i +:+ t)) = encode (item_rune i) +:+ unquote (items t).
Proof.
  destruct i as [r|b]; intros Hi; [|by apply (unquote_u_escape rune_error)]. simpl in *.
  apply (json_rune_cases (λ s, unquote (items (s +:+ t)) = encode r +:+ unquote (items t)));
    [done|..].
  - by intros [->| ->].
  - by intros ->.
  - by intros ->.
  - by intros ->.
  - intros. rewrite append_assoc. by apply unquote_u_escape.
  - intros. by apply unquote_plain.
Qed.

Lemma scan_body l t raw k :
  Forall item_ok l →
  scan (json_body l +:+ t) (InString SInString raw) k =
  scan t (InString SInString (push (json_body l) raw)) k.
Proof.
  intros Hl. revert raw. induction Hl as [|i l Hi Hl IH]; intros raw; [done|].
  cbn [json_body]. by rewrite append_assoc, scan_item, IH, push_app.
Qed.

Lemma unquote_body l : Forall item_ok l → unquote (items (json_body l)) = text (Rune ∘ item_rune <$> l).
Proof.
  induction 1 as [|i l Hi Hl IH]; [done|]. cbn [json_body]. rewrite unquote_item by done.
  by rewrite IH.
Qed.
End strings.

Lemma scan_string s t k :
  scan (json_string s +:+ t) BeginValue k = scan t (EndValue (JStr (coerce s))) k.
Proof.
  unfold json_string. rewrite append_cons, append_assoc, append_cons, append_nil_l.
  rewrite (scan_cons _ _ _ _ (InString SInString []) k) by done.
  rewrite scan_body by apply items_ok.
  erewrite scan_cons; [|cbn [step in_string]; rewrite bool_decide_true by done; reflexivity].
  by rewrite read_push, unquote_body by apply items_ok.
Qed.

Lemma scan_key s t k :
  scan (json_string s +:+ t) BeginString k = scan t (EndValue (JStr (coerce s))) k.
Proof.
  rewrite <-scan_string. unfold json_string. by rewrite !append_cons.
Qed.

(** *** Numbers *)

(** The bytes that follow a value inside an array or an object. *)
Definition delimiter (c : ascii) : bool := bool_decide (c = ","%char ∨ c = "]"%char ∨ c = "}"%char).

Lemma num_step_end st c :
  accepting st = true → delimiter c = true ∨ isSpace c = true → num_step st c = NEnd.
Proof.
  unfold delimiter, isSpace. bools. intros Hst Hc.
  destruct Hc as [[-> | [-> | ->]] | [-> | [-> | [-> | ->]]]]; by destruct st.
Qed.

Lemma scan_num_loop st s raw t k st' :
  num_scan st s = Some st' →
  scan (s +:+ t) (InNum st raw) k = scan t (InNum st' (push s raw)) k.
Proof.
  revert st raw. induction s as [|c s IH]; intros st raw; cbn [num_scan]; [by intros [= ->]|].
  destruct (num_step st c) as [st1| |] eqn:Hc; [|done..]. intros Hs.
  rewrite append_cons, push_cons, (scan_cons _ _ _ _ (InNum st1 (c :: raw)) k); [by apply IH|].
  cbn [step]. by rewrite Hc.
Qed.

Lemma num_start_inv c st : num_start c = Some st → c = "-"%char ∨ is_digit c = true.
Proof.
  unfold num_start. case_bool_decide; [by left|]. case_bool_decide; [subst; by right|].
  destruct (is_digit c); [by right|done].
Qed.

Lemma begin_num c st k : num_start c = Some st → begin_value k c = More (InNum st [c]) k.
Proof.
  intros Hc. unfold begin_value. rewrite Hc.
  assert (∀ d, d ≠ "-"%char → is_digit d = false → c ≠ d) as Hne.
  { intros d Hd Hdig ->. apply num_start_inv in Hc as [?|?]; congruence. }
  unfold isSpace. rewrite !bool_decide_false; [done|..]; try (apply Hne; done).
  intros [?|[?|[?|?]]]; revert select (c = _); apply Hne; done.
Qed.

Lemma scan_num s t k :
  number s = true →
  ∃ st, accepting st = true ∧ scan (s +:+ t) BeginValue k = scan t (InNum st (push s [])) k.
Proof.
  destruct s as [|c s]; [done|]. cbn [number].
  destruct (num_start c) as [st|] eqn:Hc; [|done].
  destruct (num_scan st s) as [st'|] eqn:Hs; [|done]. intros Hst. exists st'. split; [done|].
  rewrite append_cons, push_cons, (scan_cons _ _ _ _ (InNum st [c]) k); [by apply scan_num_loop|].
  by apply begin_num.
Qed.

(** *** Values *)

(** Going on after a step. *)
Definition resume (r : result) (s : string) : result :=
  match r with More p k => scan s p k | r => r end.

Lemma scan_step c s p k : scan (String c s) p k = resume (step c p k) s.
Proof. cbn [scan]. by destruct (step c p k). Qed.

Lemma delimiter_not_space c : delimiter c = true → isSpace c = false.
Proof. unfold delimiter. rewrite bool_decide_eq_true. by intros [-> | [-> | ->]]. Qed.

(** The claim for one value nested in an array or object: reading it leads to
    the delimiter. *)
Definition reads (j : json) : Prop :=
  ∀ f k c t, delimiter c = true →
    scan (print j +:+ String c t) BeginValue (f :: k) = scan (String c t) (EndValue (norm j)) (f :: k).

Lemma isSpace_char c : isSpace c = true → c = " "%char ∨ c = "009"%char ∨ c = "013"%char ∨ c = "010"%char.
Proof. unfold isSpace. by rewrite bool_decide_eq_true. Qed.

(** No value starts with a space or a closing bracket. *)
Lemma print_first j :
  numbers_ok j → ∃ c s, print j = String c s ∧ isSpace c = false ∧ c ≠ "]"%char.
Proof.
  destruct j as [|[]|s|s|l|l]; intros Hj; try (eexists _, _; split; [reflexivity|done]).
  simpl in Hj. destruct s as [|c s]; [done|]. cbn [number] in Hj.
  destruct (num_start c) as [st|] eqn:Hc; [|done]. exists c, s. split; [done|].
  apply num_start_inv in Hc. split.
  - apply not_true_iff_false. intros Hsp%isSpace_char.
    destruct Hsp as [->|[->|[->| ->]]]; by destruct Hc.
  - intros ->. by destruct Hc.
Qed.

Lemma scan_first_element j t k :
  numbers_ok j →
  scan (print j +:+ t) BeginValueOrEmpty k = scan (print j +:+ t) BeginValue k.
Proof.
  intros (c & s & -> & Hsp & Hc)%print_first. rewrite append_cons, !scan_step. cbn [step].
  by rewrite Hsp, bool_decide_false by done.
Qed.

Lemma Join_cons2 x y l sep : Join (x :: y :: l) sep = x +:+ sep +:+ Join (y :: l) sep.
Proof. done. Qed.

Lemma scan_elements l vs t k :
  Forall reads l → l ≠ [] →
  scan (Join (print <$> l) "," +:+ String "]" t) BeginValue (FArr vs :: k) =
  resume (close (JArr (rev vs ++ (norm <$> l))) k) t.
Proof.
  intros Hl. revert vs. induction Hl as [|j l Hj Hl IH]; intros vs Hne; [done|].
  destruct l as [|j2 l].
  - rewrite !fmap_cons. cbn [Join list_fmap fmap]. rewrite Hj, scan_step by done. cbn [step end_value].
    by rewrite delimiter_not_space, (bool_decide_false (_ = ","%char)), bool_decide_true by done.
  - rewrite !fmap_cons, Join_cons2, append_assoc, (append_assoc ","), append_cons, append_nil_l.
    rewrite Hj, scan_step by done. cbn [step end_value].
    rewrite delimiter_not_space, bool_decide_true by done. cbn [resume].
    rewrite <-fmap_cons, IH by done. rewrite fmap_cons. simpl. by rewrite <-app_assoc.
Qed.

Definition member (kv : string * json) : string := json_string kv.1 +:+ ":" +:+ print kv.2.

Lemma scan_colon key s ms k :
  scan (String ":" s) (EndValue (JStr key)) (FKey ms :: k) = scan s BeginValue (FVal ms key :: k).
Proof. done. Qed.

Lemma scan_members l ms t k :
  Forall (λ kv, reads kv.2) l → l ≠ [] →
  scan (Join (member <$> l) "," +:+ String "}" t) BeginString (FKey ms :: k) =
  resume (close (JObj (rev ms ++ ((λ kv, (coerce kv.1, norm kv.2)) <$> l))) k) t.
Proof.
  intros Hl. revert ms. induction Hl as [|[key j] l Hj Hl IH]; intros ms Hne; [done|]. simpl in Hj.
  destruct l as [|j2 l].
  - cbn [fmap list_fmap Join]. unfold member. cbn [fst snd].
    rewrite !append_assoc, scan_key, append_cons, append_nil_l, scan_colon, Hj, scan_step by done.
    cbn [step end_value].
    by rewrite delimiter_not_space, (bool_decide_false (_ = ","%char)), bool_decide_true by done.
  - rewrite !fmap_cons, Join_cons2. unfold member at 1. cbn [fst snd].
    rewrite !append_assoc, scan_key, !append_cons, !append_nil_l, scan_colon, Hj, scan_step by done.
    cbn [step end_value].
    rewrite delimiter_not_space, bool_decide_true by done. cbn [resume].
    rewrite <-fmap_cons, IH by done. rewrite fmap_cons. simpl. by rewrite <-app_assoc.
Qed.

Lemma scan_first_member l t k :
  l ≠ [] →
  scan (Join (member <$> l) "," +:+ t) BeginStringOrEmpty k = scan (Join (member <$> l) "," +:+ t) BeginString k.
Proof.
  intros Hne. destruct l as [|kv l]; [done|].
  assert (∃ s, Join (member <$> kv :: l) "," = String quotation s) as [s ->].
  { rewrite fmap_cons. destruct (member <$> l) as [|y ys]; [|rewrite Join_cons2];
      unfold member, json_string; rewrite !append_cons; by eexists. }
  by rewrite append_cons.
Qed.

(** Arrays and objects close on their own. *)
Lemma scan_array l t k :
  Forall reads l → numbers_ok (JArr l) →
  scan (print (JArr l) +:+ t) BeginValue k = resume (close (norm (JArr l)) k) t.
Proof.
  intros Hl Hok. cbn [print norm]. rewrite !append_assoc, append_cons, append_nil_l.
  rewrite (scan_cons _ _ _ _ BeginValueOrEmpty (FArr [] :: k)) by done.
  destruct l as [|j l]; [by rewrite append_nil_l, append_cons, scan_step|].
  rewrite append_cons, append_nil_l. transitivity
    (scan (Join (print <$> j :: l) "," +:+ String "]" t) BeginValue (FArr [] :: k)).
  - rewrite fmap_cons. simpl in Hok. destruct Hok as [Hj _].
    destruct (print <$> l) as [|y ys]; [by apply scan_first_element|].
    rewrite Join_cons2, append_assoc. by apply scan_first_element.
  - by rewrite scan_elements.
Qed.

Lemma scan_object l t k :
  Forall (λ kv, reads kv.2) l →
  scan (print (JObj l) +:+ t) BeginValue k = resume (close (norm (JObj l)) k) t.
Proof.
  intros Hl. cbn [print norm]. rewrite !append_assoc, append_cons, append_nil_l.
  rewrite (scan_cons _ _ _ _ BeginStringOrEmpty (FKey [] :: k)) by done.
  destruct l as [|j l]; [by rewrite append_nil_l, append_cons, scan_step|].
  rewrite append_cons, append_nil_l.
  change (scan (Join (member <$> j :: l) "," +:+ String "}" t) BeginStringOrEmpty (FKey [] :: k) =
    resume (close (JObj ((λ kv, (coerce kv.1, norm kv.2)) <$> j :: l)) k) t).
  by rewrite scan_first_member, scan_members.
Qed.

Lemma print_reads j : numbers_ok j → reads j.
Proof.
  induction j as [|b|s|s|l IH|l IH] using json_ind'; intros Hok f k c t Hc.
  - done.
  - by destruct b.
  - cbn [print norm]. destruct (scan_num s (String c t) (f :: k) Hok) as (st & Hst & ->).
    rewrite !scan_step. cbn [step norm]. by rewrite num_step_end, read_push by auto.
  - cbn [print norm]. by rewrite scan_string.
  - rewrite scan_array; [done| |done]. eapply Forall_mp; [exact IH|by apply numbers_ok_arr].
  - rewrite scan_object; [done|]. eapply Forall_mp; [exact IH|by apply numbers_ok_obj].
Qed.

(** A printed value at the start of a stream, at its end or before a space, is
    what the decoder reads. *)
Lemma readValue_print j t e :
  numbers_ok j → t = "" ∧ e = None ∨ (∃ c t', t = String c t' ∧ isSpace c = true) →
  readValue (print j +:+ t, e) = inr (norm j).
Proof.
  intros Hok Ht. unfold readValue. cbn [fst snd].
  assert (∀ v c, isSpace c = true → step c (EndValue v) [] = Done v) as Hend.
  { intros v c Hc. cbn [step end_value]. by rewrite Hc. }
  assert (∀ p v, (∀ c, isSpace c = true → step c p [] = Done v) →
    scan (print j +:+ t) BeginValue [] = scan t p [] →
    match scan (print j +:+ t) BeginValue [] with
    | Done v => inr v
    | Fail c context => inl (SyntaxError c context)
    | More p k =>
        match e with
        | Some e => inl (ReadError e)
        | None => match step " " p k with
                  | Done v => inr v
                  | _ => inl (if nonSpace (print j +:+ t) then UnexpectedEOF else EOF)
                  end
        end
    end = inr v) as Hfin.
  { intros p v Hp ->. destruct Ht as [[-> ->]|(c & t' & -> & Hc)]; cbn [scan]; by rewrite Hp. }
  destruct j as [|b|s|s|l|l].
  - by apply (Hfin (EndValue JNull)); [apply Hend|].
  - apply (Hfin (EndValue (JBool b))); [apply Hend|by destruct b].
  - destruct (scan_num s t [] Hok) as (st & Hst & Hs).
    apply (Hfin (InNum st (push s []))); [|done]. intros c Hc. cbn [step].
    rewrite num_step_end, read_push by auto. by apply (Hend (JNum s)).
  - apply (Hfin (EndValue (JStr (coerce s)))); [apply Hend|apply scan_string].
  - rewrite scan_array; [done| |done]. apply numbers_ok_arr in Hok.
    eapply Forall_impl; [exact Hok|apply print_reads].
  - rewrite scan_object; [done|]. apply numbers_ok_obj in Hok.
    eapply Forall_impl; [exact Hok|]. intros kv. apply print_reads.
Qed.

(** *** What is read is UTF-8 *)

Lemma valid_encode r : scalar r → valid (encode r).
Proof.
  intros Hr. unfold valid. rewrite <-(append_nil_r (encode r)), items_encode by done. by constructor.
Qed.

Lemma valid_EncodeRune r : valid (EncodeRune r).
Proof.
  apply valid_encode. case_decide; [done|apply scalar_rune_error].
Qed.

#[local] Hint Resolve valid_app valid_EncodeRune valid_encode item_rune_scalar : core.

Lemma valid_unescape i : item_ok i → valid (unescape i).
Proof. intros Hi. unfold unescape. repeat case_match; first [by apply ascii_only_valid | auto]. Qed.
#[local] Hint Resolve valid_unescape : core.

Lemma valid_unquote l : Forall item_ok l → valid (unquote l).
Proof.
  induction (Wf_nat.well_founded_ltof _ (@length item) l) as [l _ IH'].
  unfold Wf_nat.ltof in IH'. intros Hl. destruct l as [|i l1]; [by apply ascii_only_valid|]. cbn [unquote].
  apply Forall_cons in Hl as [Hi Hl1].
  assert (valid "") as Hnil by by apply ascii_only_valid.
  destruct (is_char backslash i); [|auto with lia].
  destruct l1 as [|e l2]; [done|]. apply Forall_cons in Hl1 as [He Hl2].
  destruct (is_char "u" e); [|apply valid_app; [auto|apply IH'; simpl; auto with lia]].
  destruct l2 as [|h1 [|h2 [|h3 [|h4 l3]]]]; try done.
  destruct (u4 h1 h2 h3 h4) as [r|]; [|done].
  rewrite !Forall_cons in Hl2. destruct Hl2 as (_ & _ & _ & _ & Hl3).
  assert (valid (unquote l3)) as H3 by (apply IH'; simpl; [lia|done]).
  destruct (surrogate r); [|auto].
  destruct l3 as [|b [|u [|g1 [|g2 [|g3 [|g4 l4]]]]]]; try (apply valid_app; by auto).
  destruct (if is_char backslash b && _ then _ else _) as [r'|]; [|by auto].
  rewrite !Forall_cons in Hl3. apply valid_app; [auto|]. apply IH'; simpl; [lia|tauto].
Qed.

Lemma strings_ok_arr l : strings_ok (JArr l) ↔ Forall strings_ok l.
Proof. apply foldr_Forall. Qed.
Lemma strings_ok_obj l : strings_ok (JObj l) ↔ Forall (λ kv, valid kv.1 ∧ strings_ok kv.2) l.
Proof.
  simpl. induction l as [|kv l IH]; simpl; [by split|]. rewrite Forall_cons, IH. tauto.
Qed.

Definition frame_ok (f : frame) : Prop :=
  match f with
  | FKey ms => strings_ok (JObj ms)
  | FVal ms key => strings_ok (JObj ms) ∧ valid key
  | FArr vs => strings_ok (JArr vs)
  end.

Definition state_ok (p : state) : Prop :=
  match p with
  | InLit _ _ v | EndValue v => strings_ok v
  | _ => True
  end.

Definition result_ok (r : result) : Prop :=
  match r with
  | More p k => state_ok p ∧ Forall frame_ok k
  | Done v => strings_ok v
  | Fail _ _ => True
  end.

Lemma close_ok v k : strings_ok v → Forall frame_ok k → result_ok (close v k).
Proof. by destruct k. Qed.

Lemma end_value_ok v k c : strings_ok v → Forall frame_ok k → result_ok (end_value v k c).
Proof.
  intros Hv Hk. unfold end_value. destruct k as [|f k']; [by case_match|].
  apply Forall_cons in Hk as [Hf Hk]. case_match; [by repeat constructor|].
  destruct f as [ms|ms key|vs]; simpl in Hf.
  - destruct v; try done. case_match; [|done]. split; [done|]. by constructor.
  - destruct Hf as [Hms Hkey]. case_match; [|case_match; [|done]].
    + split; [done|]. by constructor.
    + apply close_ok; [|done]. apply strings_ok_obj, Forall_rev. by apply (strings_ok_obj (_ :: _)).
  - case_match; [|case_match; [|done]].
    + split; [done|]. by constructor.
    + apply close_ok; [|done]. apply strings_ok_arr, Forall_rev. by apply (strings_ok_arr (_ :: _)).
Qed.

Lemma begin_value_ok k c : Forall frame_ok k → result_ok (begin_value k c).
Proof. intros Hk. unfold begin_value. repeat case_match; repeat constructor; done. Qed.

Lemma begin_string_ok k c : Forall frame_ok k → result_ok (begin_string k c).
Proof. intros Hk. unfold begin_string. repeat case_match; repeat constructor; done. Qed.

Lemma step_ok c p k : state_ok p → Forall frame_ok k → result_ok (step c p k).
Proof.
  intros Hp Hk. destruct p as [| | | |st raw|st raw|word rest v|v]; cbn [step].
  - case_match; [done|]. case_match; [|by apply begin_value_ok].
    destruct k as [|[| |vs] k]; try done. apply Forall_cons in Hk as [Hf Hk].
    apply close_ok; [|done]. by apply strings_ok_arr, Forall_rev, strings_ok_arr.
  - by apply begin_value_ok.
  - case_match; [done|]. case_match; [|by apply begin_string_ok].
    destruct k as [|[ms| |] k]; try done. apply Forall_cons in Hk as [Hf Hk].
    apply close_ok; [|done]. by apply strings_ok_obj, Forall_rev, strings_ok_obj.
  - by apply begin_string_ok.
  - destruct st; cbn [in_string]; repeat case_match; try done.
    split; [|done]. apply valid_unquote, items_ok.
  - destruct (num_step st c); [done|by apply end_value_ok|done].
  - repeat case_match; done.
  - by apply end_value_ok.
Qed.

Lemma scan_ok s p k : state_ok p → Forall frame_ok k → result_ok (scan s p k).
Proof.
  revert p k. induction s as [|c s IH]; intros p k Hp Hk; [done|]. cbn [scan].
  pose proof (step_ok c p k Hp Hk) as Hs. destruct (step c p k) as [p' k'| |]; [|done..].
  destruct Hs. by apply IH.
Qed.

Lemma readValue_ok body v : readValue body = inr v → strings_ok v.
Proof.
  unfold readValue. pose proof (scan_ok body.1 BeginValue [] I (Forall_nil_2 _)) as Hs.
  destruct (scan body.1 BeginValue []) as [p k|v'|]; [|by intros [= <-]|done].
  destruct (body.2) as [|]; [done|]. destruct Hs as [Hp Hk].
  pose proof (step_ok " " p k Hp Hk) as Hst. destruct (step " " p k); [done| |done].
  by intros [= <-].
Qed.

(** *** Text of the errors *)

(** The scanner hands over a byte, which is converted to a rune. *)
Definition quoteChar (c : ascii) : string :=
  if bool_decide (c = "'"%char) then "'\''"
  else if bool_decide (c = quotation) then "'" +:+ String quotation "'"
  else "'" +:+ @quote_rune {| is_print := λ _, false |} (byte c) +:+ "'".

Definition json_error_text (err : json_error) : string :=
  match err with
  | SyntaxError c context => "invalid character " +:+ quoteChar c +:+ " " +:+ context
  | EOF => "EOF"
  | UnexpectedEOF => "unexpected EOF"
  | ReadError e => ext_text e
  | UnmarshalTypeError value type =>
      "json: cannot unmarshal " +:+ value +:+ " into Go value of type " +:+ type
  | TimeError text => text
  end.
