(* ===== verification/Codec.v ===== *)
(** * Go values and JSON

    How [encoding/json] (of Go 1.6) stores a JSON value into a Go variable and
    makes one of it. Storing does not stop at a value of the wrong type: the
    first such error is remembered, the rest is stored all the same. A variable
    keeps its value where the JSON says nothing or [null]; the elements of a
    slice are stored over the old ones, so the capacity of a slice is part of
    its value here. *)

From S2P Require Import Prelude Go Strs Nums Store Env Utf8 Fmt Json.

(** ** Storing *)

Definition decoder (A : Type) : Type := json → A → A * option json_error.

(** An error of an [UnmarshalJSON] method ends the decoding at once; a value of
    the wrong type is only remembered, the first of them. *)
Definition aborts (e : option json_error) : bool :=
  match e with Some (TimeError _) => true | _ => false end.

Definition first_error (e e' : option json_error) : option json_error :=
  if aborts e then e else if aborts e' then e' else match e with Some _ => e | None => e' end.

(** A type with its zero value, the way it is stored and written; [marshal] is
    [None] when a [MarshalJSON] method fails. *)
Class JsonType (A : Type) := {
  zero : A;
  unmarshal : decoder A;
  marshal : A → option json
}.

(** The text of [UnmarshalTypeError.Value]. *)
Definition kind (j : json) : string :=
  match j with
  | JNull => "null" | JBool _ => "bool" | JNum _ => "number"
  | JStr _ => "string" | JArr _ => "array" | JObj _ => "object"
  end.

Definition mismatch {A} (type : string) (j : json) (x : A) : A * option json_error :=
  match j with
  | JNull => (x, None)
  | _ => (x, Some (UnmarshalTypeError (kind j) type))
  end.

#[export] Instance json_string_type : JsonType string := {|
  zero := "";
  unmarshal j x := match j with JStr s => (s, None) | _ => mismatch "string" j x end;
  marshal s := Some (JStr s)
|}.

#[export] Instance json_bool_type : JsonType bool := {|
  zero := false;
  unmarshal j x := match j with JBool b => (b, None) | _ => mismatch "bool" j x end;
  marshal b := Some (JBool b)
|}.

(** [int] *)
#[export] Instance json_int_type : JsonType Z := {|
  zero := 0%Z;
  unmarshal j x :=
    match j with
    | JNum s => match ParseInt s with
                | (n, None) => (n, None)
                | (_, Some _) => (x, Some (UnmarshalTypeError ("number " +:+ s) "int"))
                end
    | _ => mismatch "int" j x
    end;
  marshal n := Some (JNum (FormatInt n))
|}.

(** *** Slices *)

(** A slice is nil, or has elements and, behind them, the rest of its capacity. *)
Inductive gslice (A : Type) : Type :=
  | NilSlice
  | Slice (elems spare : list A).
Arguments NilSlice {A}.
Arguments Slice {A} elems spare.

Definition elems {A} (s : gslice A) : list A := match s with NilSlice => [] | Slice l _ => l end.
Definition slots {A} (s : gslice A) : list A := match s with NilSlice => [] | Slice l l' => l ++ l' end.
Definition of_list {A} (l : list A) : gslice A := Slice l [].

(** What a program sees of a slice: its elements, and whether it is nil. *)
#[export] Instance gslice_equiv {A} `{!Equiv A} : Equiv (gslice A) := λ s s',
  match s, s' with
  | NilSlice, NilSlice => True
  | Slice l _, Slice l' _ => l ≡ l'
  | _, _ => False
  end.

#[export] Instance gslice_equivalence {A} `{!Equiv A} :
  Equivalence (≡@{A}) → Equivalence (≡@{gslice A}).
Proof.
  intros HA. split.
  - by intros [|l l']; unfold equiv, gslice_equiv; simpl.
  - intros [|l1 l1'] [|l2 l2']; unfold equiv, gslice_equiv; simpl; done.
  - intros [|l1 l1'] [|l2 l2'] [|l3 l3']; unfold equiv, gslice_equiv; simpl; try done.
    by intros ->.
Qed.

#[export] Instance elems_proper {A} `{!Equiv A} : Proper ((≡) ==> (≡)) (@elems A).
Proof. intros [|l l1] [|k k1] Hs; [constructor|destruct Hs|destruct Hs|exact Hs]. Qed.

#[export] Instance string_equiv : Equiv string := equivL.
#[export] Instance bool_equiv : Equiv bool := equivL.
#[export] Instance int_equiv : Equiv Z := equivL.

(** The capacity after growing a full slice. *)
Definition grow (cap : nat) : nat := Nat.max 4 (cap + cap / 2).

Fixpoint store_elems {A} `{!JsonType A} (i : nat) (l : list json) (sl : list A)
    (err : option json_error) : list A * option json_error :=
  match l with
  | [] => (sl, err)
  | j :: l =>
      let sl := if bool_decide (i < length sl) then sl
                else sl ++ replicate (grow (length sl) - length sl) zero in
      let '(x, e) := unmarshal j (default zero (sl !! i)) in
      store_elems (S i) l (<[i:=x]> sl) (first_error err e)
  end.

Definition unmarshal_slice {A} `{!JsonType A} (type : string) : decoder (gslice A) := λ j s,
  match j with
  | JNull => (NilSlice, None)
  | JArr l =>
      let '(sl, err) := store_elems 0 l (slots s) None in
      match l with
      | [] => (Slice [] [], err)
      | _ => (Slice (take (length l) sl) (drop (length l) sl), err)
      end
  | _ => mismatch type j s
  end.

Definition marshal_slice {A} `{!JsonType A} (s : gslice A) : option json :=
  match s with
  | NilSlice => Some JNull
  | Slice l _ => JArr <$> mapM marshal l
  end.

(** [[]string] *)
#[export] Instance json_strings_type : JsonType (gslice string) := {|
  zero := NilSlice;
  unmarshal := unmarshal_slice "[]string";
  marshal := marshal_slice
|}.

(** *** Structs *)

Record field (S : Type) : Type := MkField {
  f_name : string;
  f_store : decoder S
}.
Arguments MkField {S}.
Arguments f_name {S}.
Arguments f_store {S}.

(** A field from a getter and a setter. *)
Definition field_of {S A} `{!JsonType A} (name : string) (get : S → A) (set : A → S → S) : field S :=
  MkField name (λ j s, let '(x, e) := unmarshal j (get s) in (set x s, e)).

(** Case folding of a key; U+017F and U+212A fold to the ASCII letters s and k. *)
Definition fold_rune (r : N) : N :=
  if bool_decide (65 ≤ r ≤ 90)%N then r + 32
  else if bool_decide (r = 383)%N then 115
  else if bool_decide (r = 8490)%N then 107
  else r.

Definition folded (s : string) : list N := fold_rune ∘ item_rune <$> items s.

(** An exact match wins; otherwise the first field that matches up to case. *)
Definition find_field {S} (fields : list (field S)) (key : string) : option (field S) :=
  match find (λ f, bool_decide (f_name f = key)) fields with
  | Some f => Some f
  | None => find (λ f, bool_decide (folded (f_name f) = folded key)) fields
  end.

Definition store_member {S} (fields : list (field S)) (acc : S * option json_error)
    (kv : string * json) : S * option json_error :=
  match find_field fields kv.1 with
  | Some f => let '(s, e) := f_store f kv.2 acc.1 in (s, first_error acc.2 e)
  | None => acc
  end.

Definition unmarshal_struct {S} (type : string) (fields : list (field S)) : decoder S := λ j s,
  match j with
  | JObj ms => foldl (store_member fields) (s, None) ms
  | _ => mismatch type j s
  end.

(** *** Writing structs and maps *)

(** Maps are written in the order of their keys. *)
Definition sorted_keys {A} (m : gmap string A) : list string :=
  merge_sort String.le (map_to_list m).*1.

Definition marshal_map {A} (f : A → option json) (m : gmap string A) : option json :=
  JObj <$> mapM (λ k, x ← m !! k; pair k <$> f x) (sorted_keys m).

(** ** Decoder.Decode *)

Definition Decode {A} `{!JsonType A} (body : stream) (x : A) : A * option json_error :=
  match readValue body with
  | inl err => (x, Some err)
  | inr j => unmarshal j x
  end.

(** ** Laws *)

(** Errors are remembered, never forgotten. *)
Lemma first_error_None e e' : first_error e e' = None ↔ e = None ∧ e' = None.
Proof. unfold first_error. destruct e as [[]|], e' as [[]|]; simpl; intuition congruence. Qed.

(** What is written is read back as it was, up to [≡], by a variable that
    holds the zero value. [good] says which values have a faithful JSON form. *)
Class JsonLaws (A : Type) `{!JsonType A, !Equiv A} (good : A → Prop) : Prop := {
  marshal_good x : good x → ∃ j, marshal x = Some j ∧ numbers_ok j ∧ strings_ok j;
  unmarshal_marshal x j :
    good x → marshal x = Some j → ∃ y, unmarshal j zero = (y, None) ∧ y ≡ x
}.

(** *** Integers *)

Definition nonzero_digit (c : ascii) : Prop := is_digit c = true ∧ c ≠ "0"%char.

Lemma num_start_nonzero c : nonzero_digit c → num_start c = Some S1 ∧ num_step SNeg c = NGo S1.
Proof.
  intros [Hd Hc]. assert (c ≠ "-"%char) as Hm by by intros ->.
  unfold num_start, num_step. by rewrite !bool_decide_false, Hd by done.
Qed.

Lemma pretty_N_char_digit x : is_digit (pretty_N_char x) = true.
Proof. apply bool_decide_eq_true, byte_pretty_N_char. Qed.

Lemma pretty_N_char_nonzero x : (x ≠ 0)%N → (x < 10)%N → nonzero_digit (pretty_N_char x).
Proof.
  intros H0 H10. split; [apply pretty_N_char_digit|].
  assert (x = 1 ∨ x = 2 ∨ x = 3 ∨ x = 4 ∨ x = 5 ∨ x = 6 ∨ x = 7 ∨ x = 8 ∨ x = 9)%N as Hx by lia.
  by repeat (destruct Hx as [->|Hx]); subst.
Qed.

(** A positive number in decimal: a digit that is not zero, and digits. *)
Lemma pretty_N_go_number x s :
  (x ≠ 0)%N → num_scan S1 s = Some S1 →
  ∃ c s', pretty_N_go x s = String c s' ∧ nonzero_digit c ∧ num_scan S1 s' = Some S1.
Proof.
  revert s. induction (N.lt_wf_0 x) as [x _ IH]; intros s Hx Hs.
  rewrite pretty_N_go_step by lia. destruct (decide (x < 10)%N) as [Hlt|Hge].
  - rewrite N.div_small, pretty_N_go_0, N.mod_small by done.
    exists (pretty_N_char x), s. split; [done|]. split; [by apply pretty_N_char_nonzero|done].
  - apply IH.
    + apply N.div_lt; lia.
    + pose proof (N.Div0.div_le_mono 10 x 10). rewrite N.div_same in *; lia.
    + cbn [num_scan num_step]. by rewrite pretty_N_char_digit.
Qed.

Lemma number_FormatInt z : number (FormatInt z) = true.
Proof.
  unfold FormatInt. destruct z as [|p|p]; [done|..];
    unfold pretty, pretty_Z, pretty, pretty_positive, pretty, pretty_N; rewrite decide_False by done;
    destruct (pretty_N_go_number (Npos p) "") as (c & s & -> & Hc & Hs); try done;
    destruct (num_start_nonzero c Hc) as [H1 H2].
  - cbn [number]. by rewrite H1, Hs.
  - rewrite append_cons, append_nil_l. cbn [number]. change (num_start "-") with (Some SNeg).
    cbn [num_scan]. by rewrite H2, Hs.
Qed.

#[export] Instance json_string_laws : JsonLaws string valid.
Proof. split; [by eexists|]. intros s j _ [= <-]. by eexists. Qed.

#[export] Instance json_bool_laws : JsonLaws bool (λ _, True).
Proof. split; [by eexists|]. intros b j _ [= <-]. by eexists. Qed.

#[export] Instance json_int_laws : JsonLaws Z int64.
Proof.
  split.
  - intros z _. eexists. split; [done|]. split; [apply number_FormatInt|done].
  - intros z j Hz [= <-]. exists z. split; [|done]. simpl. by rewrite ParseInt_FormatInt.
Qed.

(** *** Slices *)

Lemma grow_lt cap : cap < grow cap.
Proof.
  unfold grow. destruct (decide (cap < 4)); [lia|].
  pose proof (Nat.div_str_pos cap 2). lia.
Qed.

Section slices.
Context {A : Type} `{!JsonType A}.

Lemma store_elems_fresh (l : list json) (ys : list A) sl m :
  Forall2 (λ j y, unmarshal j zero = (y, None)) l ys →
  ∃ m', store_elems (length sl) l (sl ++ replicate m zero) None = (sl ++ ys ++ replicate m' zero, None).
Proof.
  intros Hl. revert sl m. induction Hl as [|j y l ys Hj _ IH]; intros sl m; [by exists m|].
  cbn [store_elems].
  set (sl' := if bool_decide _ then _ else _).
  assert (∃ m1, sl' = sl ++ replicate (S m1) zero) as [m1 ->].
  { unfold sl'. rewrite length_app, length_replicate. case_bool_decide as Hm.
    - destruct m as [|m]; [lia|]. by exists m.
    - assert (m = 0) as -> by lia. rewrite app_nil_r, Nat.add_0_r.
      destruct (grow (length sl) - length sl) as [|n] eqn:Hn; [|by exists n].
      pose proof (grow_lt (length sl)). lia. }
  replace (default zero _) with (zero (A:=A)) by (by rewrite lookup_app_r, Nat.sub_diag by lia).
  rewrite Hj, insert_app_r_alt, Nat.sub_diag by lia.
  destruct (IH (sl ++ [y]) m1) as [m' Hm']. exists m'. rewrite length_app, Nat.add_1_r in Hm'.
  rewrite <-!app_assoc in Hm'. exact Hm'.
Qed.

Lemma unmarshal_slice_list type (l : list json) (ys : list A) :
  Forall2 (λ j y, unmarshal j zero = (y, None)) l ys →
  ∃ spare, unmarshal_slice type (JArr l) NilSlice = (Slice ys spare, None).
Proof.
  intros Hl. cbn [unmarshal_slice slots].
  destruct (store_elems_fresh l ys [] 0 Hl) as [m Hm]. simpl in Hm. rewrite Hm.
  pose proof (Forall2_length _ _ _ Hl) as Hlen.
  destruct l as [|j l]; [by destruct ys; [exists []|]|].
  rewrite Hlen, take_app_length, drop_app_length. by eexists.
Qed.

Lemma slice_laws `{!Equiv A} good `{!JsonLaws A good} type :
  @JsonLaws (gslice A)
    {| zero := NilSlice; unmarshal := unmarshal_slice type; marshal := marshal_slice |} _
    (λ s, Forall good (elems s)).
Proof.
  assert (∀ l, Forall good l → ∃ js ys, mapM marshal l = Some js ∧ Forall numbers_ok js ∧
    Forall strings_ok js ∧ Forall2 (λ j y, unmarshal j zero = (y, None)) js ys ∧ ys ≡ l) as Hlist.
  { induction 1 as [|x l Hx Hl IH]; [exists [], []; by repeat constructor|]. destruct IH as (js & ys & Hjs & Hn & Hst & H2 & Hy).
    destruct (marshal_good x Hx) as (j & Hj & ? & ?).
    destruct (unmarshal_marshal x j Hx Hj) as (y & Hxy & Heq).
    exists (j :: js), (y :: ys). simpl. rewrite Hj. simpl. rewrite Hjs.
    repeat (split; [by repeat constructor|]). by constructor. }
  split.
  - intros [|l spare] Hs; [by eexists|]. destruct (Hlist l Hs) as (js & ys & Hjs & ? & ? & _).
    exists (JArr js). simpl. rewrite Hjs.
    split; [done|]. split; [by apply numbers_ok_arr|by apply strings_ok_arr].
  - intros [|l spare] j Hs Hj; [by injection Hj as <-; exists NilSlice|].
    destruct (Hlist l Hs) as (js & ys & Hjs & _ & _ & H2 & Heq).
    simpl in Hj. rewrite Hjs in Hj. injection Hj as <-.
    destruct (unmarshal_slice_list type js ys H2) as [sp Hu]. by exists (Slice ys sp).
Qed.
End slices.

#[export] Instance strings_laws : JsonLaws (gslice string) (λ s, Forall valid (elems s)).
Proof. apply slice_laws, _. Qed.

(** *** Structs *)

Lemma field_of_store {S A} `{!JsonType A} name (get : S → A) set j s x :
  unmarshal j (get s) = (x, None) → f_store (field_of name get set) j s = (set x s, None).
Proof. intros Hx. cbn [f_store field_of]. by rewrite Hx. Qed.

Lemma store_field {S} (fields : list (field S)) s s' k j f :
  find_field fields k = Some f → f_store f j s = (s', None) →
  store_member fields (s, None) (k, j) = (s', None).
Proof. intros Hf Hs. unfold store_member. cbn [fst snd]. by rewrite Hf, Hs. Qed.

(** Storing the members of an object one by one, with what is known of their
    values. *)
Ltac store_members :=
  cbn [unmarshal_struct foldl];
  repeat (erewrite store_field; [|reflexivity|apply field_of_store; first [eassumption | reflexivity]];
          cbv beta iota).

Lemma store_unknown {S} (fields : list (field S)) acc ms :
  Forall (λ kv, find_field fields kv.1 = None) ms → foldl (store_member fields) acc ms = acc.
Proof.
  induction 1 as [|kv ms Hkv Hms IH]; [done|]. simpl. unfold store_member at 2. by rewrite Hkv.
Qed.

Lemma Decode_print {A} `{!JsonType A} j (x : A) :
  numbers_ok j → Decode (print j, None) x = unmarshal (norm j) x.
Proof.
  intros Hj. unfold Decode. by rewrite <-(append_nil_r (print j)), readValue_print by auto.
Qed.

(** What an encoder writes is what a decoder reads, even when more follows. *)
Lemma readValue_encode_line j t e :
  numbers_ok j → strings_ok j → readValue (encode_line j +:+ t, e) = inr j.
Proof.
  intros Hn Hs. unfold encode_line. rewrite append_assoc, readValue_print; [|done|].
  - by rewrite strings_ok_norm.
  - right. by exists "010"%char, t.
Qed.

Lemma Decode_encode_line {A} `{!JsonType A, !Equiv A} good `{!JsonLaws A good} (x : A) :
  good x → ∃ j, marshal x = Some j ∧ ∃ y, Decode (encode_line j, None) zero = (y, None) ∧ y ≡ x.
Proof.
  intros Hx. destruct (marshal_good x Hx) as (j & Hj & Hn & Hs). exists j. split; [done|].
  destruct (unmarshal_marshal x j Hx Hj) as (y & Hy & Heq). exists y. split; [|done].
  unfold Decode. by rewrite <-(append_nil_r (encode_line j)), readValue_encode_line.
Qed.

(** ** Looking into a tree *)

(** The member of an object. *)
Definition jget (key : string) (j : json) : option json :=
  match j with JObj l => snd <$> find (λ kv, bool_decide (kv.1 = key)) l | _ => None end.

Definition jpath (keys : list string) (j : json) : option json :=
  foldl (λ o key, o ≫= jget key) (Some j) keys.

Lemma jpath_None keys : foldl (λ o key, o ≫= jget key) None keys = None.
Proof. by induction keys. Qed.

Lemma jpath_cons key keys j : jpath (key :: keys) j = jget key j ≫= jpath keys.
Proof. unfold jpath. simpl. destruct (jget key j); [done|apply jpath_None]. Qed.

Lemma sorted_keys_elem {A} (m : gmap string A) k : k ∈ sorted_keys m ↔ is_Some (m !! k).
Proof.
  unfold sorted_keys. rewrite (merge_sort_Permutation String.le), list_elem_of_fmap. split.
  - intros ([k' x] & -> & Hx%elem_of_map_to_list). by exists x.
  - intros [x Hx]. exists (k, x). by rewrite elem_of_map_to_list.
Qed.

(** The members of a written map are its entries. *)
Lemma jget_marshal_map {A} (f : A → option json) m j k :
  marshal_map f m = Some j → jget k j = m !! k ≫= f.
Proof.
  unfold marshal_map. intros (l & Hl & ->)%fmap_Some. cbn [jget].
  assert ((snd <$> find (λ kv, bool_decide (kv.1 = k)) l) =
    if decide (k ∈ sorted_keys m) then m !! k ≫= f else None) as ->.
  { revert l Hl. induction (sorted_keys m) as [|k' ks IH]; intros l Hl; [by injection Hl as <-|].
    cbn [mapM] in Hl. apply bind_Some in Hl as ([k1 j] & Hk & Hl).
    apply bind_Some in Hl as (l' & Hl & [= <-]).
    apply bind_Some in Hk as (x & Hx & (j' & Hj & [= <- <-])%fmap_Some).
    cbn [find fst snd]. case_bool_decide as Hkk.
    - subst. rewrite decide_True, Hx by apply list_elem_of_here. simpl. by rewrite Hj.
    - rewrite (IH l' Hl). apply decide_ext. rewrite elem_of_cons.
      split; [by right|by intros [->|?]]. }
  case_decide as Hin; [done|].
  rewrite sorted_keys_elem, <-eq_None_not_Some in Hin. by rewrite Hin.
Qed.

Lemma marshal_map_forall {A} (f : A → option json) m j (P : json → Prop) :
  marshal_map f m = Some j → (∀ k x j, m !! k = Some x → f x = Some j → P j) →
  ∃ l, j = JObj l ∧ Forall (λ kv, is_Some (m !! kv.1) ∧ P kv.2) l.
Proof.
  unfold marshal_map. intros (l & Hl & ->)%fmap_Some HP. exists l. split; [done|].
  apply mapM_Some_1 in Hl. induction Hl as [|k [k1 j1] ks l Hk Hl IH]; constructor; [|done].
  apply bind_Some in Hk as (x & Hx & (j' & Hj & [= <- <-])%fmap_Some). split; [by exists x|].
  by eapply HP.
Qed.

Lemma marshal_map_total {A} (f : A → option json) m :
  (∀ k x, m !! k = Some x → is_Some (f x)) → is_Some (marshal_map f m).
Proof.
  intros Hf. unfold marshal_map. apply fmap_is_Some, mapM_is_Some_2, Forall_forall.
  intros k [x Hx]%sorted_keys_elem. cbn [compose]. rewrite Hx. simpl. apply fmap_is_Some. by eapply Hf.
Qed.

(** Reading a written object: keys that are UTF-8 stay. *)
Lemma jget_norm l k :
  Forall (λ kv, valid kv.1) l → jget k (norm (JObj l)) = norm <$> jget k (JObj l).
Proof.
  intros Hl. cbn [norm jget]. induction Hl as [|[k' j] l Hk Hl IH]; [done|].
  rewrite fmap_cons. cbn [find fst snd] in *. rewrite valid_coerce by done.
  by case_bool_decide.
Qed.

Lemma jget_first k j l : jget k (JObj ((k, j) :: l)) = Some j.
Proof. cbn [jget find fst snd]. by rewrite bool_decide_true. Qed.

Lemma jget_norm_first k j l : valid k → jget k (norm (JObj ((k, j) :: l))) = Some (norm j).
Proof. intros Hk. cbn [norm]. rewrite fmap_cons. cbn [fst snd]. by rewrite valid_coerce, jget_first. Qed.
