(* ===== verification/Times.v ===== *)
(** * Dates

    Package [time] (of Go 1.6) as the sources use it: the formats RFC 3339 (the
    JSON form of a time) and RFC 822 (the table of deployments), and the
    parser of the former with its tolerances (one digit of the hour, fractions
    of a second that the layout does not have, day 0). The calendar is the
    proleptic Gregorian one, by arithmetic on days since 1970-01-01. *)

From S2P Require Import Prelude Go Strs Nums Store Env Utf8 Fmt Json.

#[local] Open Scope Z_scope.

(** ** The calendar *)

Record date : Set := MkDate { year : Z; month : Z; day : Z }.

(** Years begin in March here: the leap day is the last day of a year, and
    400 years have 146097 days. *)
Definition civil (days : Z) : date :=
  let z := days + 719468 in
  let era := z / 146097 in
  let doe := z mod 146097 in
  let yoe := (doe - doe / 1460 + doe / 36524 - doe / 146096) / 365 in
  let doy := doe - (365 * yoe + yoe / 4 - yoe / 100) in
  let mp := (5 * doy + 2) / 153 in
  let m := if bool_decide (mp < 10) then mp + 3 else mp - 9 in
  {| year := yoe + era * 400 + (if bool_decide (m ≤ 2) then 1 else 0);
     month := m;
     day := doy - (153 * mp + 2) / 5 + 1 |}.

Definition days_of (d : date) : Z :=
  let y := year d - (if bool_decide (month d ≤ 2) then 1 else 0) in
  let era := y / 400 in
  let yoe := y mod 400 in
  let mp := if bool_decide (month d ≤ 2) then month d + 9 else month d - 3 in
  let doy := (153 * mp + 2) / 5 + day d - 1 in
  era * 146097 + (yoe * 365 + yoe / 4 - yoe / 100 + doy) - 719468.

Definition leap (y : Z) : bool :=
  bool_decide (y mod 4 = 0 ∧ (y mod 100 ≠ 0 ∨ y mod 400 = 0)).

Definition daysIn (m y : Z) : Z :=
  if bool_decide (m = 2) then if leap y then 29 else 28
  else if bool_decide (m = 4 ∨ m = 6 ∨ m = 9 ∨ m = 11) then 30 else 31.

(** ** Formatting *)

(** [appendInt] of a number that is not negative. *)
Fixpoint zeros (n : nat) : string := match n with O => "" | S n => String "0" (zeros n) end.
Definition pad (width : nat) (n : Z) : string :=
  let s := Itoa n in zeros (width - String.length s) +:+ s.

(** The seconds of the clock on the wall of a zone. *)
Definition wall (secs offset : Z) : date * Z :=
  (civil ((secs + offset) / 86400), (secs + offset) mod 86400).

Definition clock_text (sod : Z) : string :=
  pad 2 (sod / 3600) +:+ ":" +:+ pad 2 (sod / 60 mod 60) +:+ ":" +:+ pad 2 (sod mod 60).

Fixpoint trim_zeros (s : string) : string :=
  match s with
  | "" => ""
  | String c s =>
      match trim_zeros s with
      | "" => if bool_decide (c = "0"%char) then "" else String c ""
      | s => String c s
      end
  end.

(** [.999999999]: the fraction without trailing zeros, nothing when it is zero. *)
Definition fraction_text (nanos : Z) : string :=
  match trim_zeros (pad 9 nanos) with "" => "" | s => "." +:+ s end.

(** [Z07:00]; the offset is in seconds *)
Definition zone_text (offset : Z) : string :=
  if bool_decide (offset = 0) then "Z" else
  let z := Z.quot offset 60 in
  (if bool_decide (z < 0) then "-" else "+") +:+ pad 2 (Z.abs z / 60) +:+ ":" +:+ pad 2 (Z.abs z mod 60).

Definition RFC3339Nano (secs nanos offset : Z) : string :=
  let '(d, sod) := wall secs offset in
  pad 4 (year d) +:+ "-" +:+ pad 2 (month d) +:+ "-" +:+ pad 2 (day d) +:+ "T" +:+
  clock_text sod +:+ fraction_text nanos +:+ zone_text offset.

(** [Time.MarshalJSON]; years of more than four digits are an error. *)
Definition json_time (secs nanos offset : Z) : option json :=
  let y := year (wall secs offset).1 in
  if bool_decide (y < 0 ∨ 10000 ≤ y) then None
  else Some (JStr (RFC3339Nano secs nanos offset)).

Definition time_error : string :=
  "json: error calling MarshalJSON for type time.Time: Time.MarshalJSON: year outside of range [0,9999]".

Definition marshal_time (t : Time) : option json := json_time (unix t) (nano t) (zone t * 60).

Definition month_name (m : Z) : string :=
  nth (Z.to_nat (m - 1))
    ["Jan"; "Feb"; "Mar"; "Apr"; "May"; "Jun"; "Jul"; "Aug"; "Sep"; "Oct"; "Nov"; "Dec"] "".

(** [02 Jan 06 15:04 MST] with the abbreviation of the zone, or its offset when
    it has none. *)
Definition RFC822 (secs offset : Z) (abbreviation : string) : string :=
  let '(d, sod) := wall secs offset in
  pad 2 (day d) +:+ " " +:+ month_name (month d) +:+ " " +:+ pad 2 (year d mod 100) +:+ " " +:+
  pad 2 (sod / 3600) +:+ ":" +:+ pad 2 (sod / 60 mod 60) +:+ " " +:+
  match abbreviation with
  | "" => let z := Z.quot offset 60 in
          (if bool_decide (z < 0) then "-" else "+") +:+ pad 2 (Z.abs z / 60) +:+ pad 2 (Z.abs z mod 60)
  | a => a
  end.

(** ** Parsing RFC 3339 *)

(** The zone a text names: [Z], or an offset in seconds. *)
Inductive parsed_zone : Set := ZoneUTC | ZoneOffset (seconds : Z).

Definition digit_at (s : string) : option (Z * string) :=
  match s with "" => None | String c s => d ← digit c; Some (d, s) end.

Definition getnum (fixed : bool) (s : string) : option (Z * string) :=
  '(a, s1) ← digit_at s;
  match digit_at s1 with
  | Some (b, s2) => Some (a * 10 + b, s2)
  | None => if fixed then None else Some (a, s1)
  end.

Definition skip (c : ascii) (s : string) : option string :=
  match s with String d s => if bool_decide (c = d) then Some s else None | "" => None end.

(** The digits a string starts with, as a number, and how many they are. *)
Fixpoint leading_digits (n : Z) (count : nat) (s : string) : Z * nat * string :=
  match s with
  | String c s' => match digit c with
                   | Some d => leading_digits (n * 10 + d) (S count) s'
                   | None => (n, count, s)
                   end
  | "" => (n, count, s)
  end.

(** [atoi], with a sign; all of the string *)
Definition atoi (s : string) : option Z :=
  let '(neg, s') := match s with
                    | String "-" s' => (true, s')
                    | String "+" s' => (false, s')
                    | _ => (false, s)
                    end in
  match leading_digits 0 0 s' with
  | (n, S _, "") => Some (if neg : bool then - n else n)
  | (n, O, "") => Some 0
  | _ => None
  end.

Definition in_range (lo hi n : Z) : option unit :=
  if bool_decide (lo ≤ n ∧ n ≤ hi) then Some () else None.

(** A fraction in the text, which the layout does not have. *)
Definition parse_fraction (s : string) : option (Z * string) :=
  match s with
  | String "." (String c _ as s') =>
      if is_digit c then
        let '(n, count, rest) := leading_digits 0 0 s' in
        _ ← in_range 0 999999999 n;
        Some (n * 10 ^ Z.of_nat (9 - count), rest)
      else Some (0, s)
  | _ => Some (0, s)
  end.

Definition parse_zone (s : string) : option (parsed_zone * string) :=
  match s with
  | String "Z" s => Some (ZoneUTC, s)
  | String sign (String h1 (String h2 (String ":" (String m1 (String m2 s))))) =>
      hr ← atoi (String h1 (String h2 ""));
      mm ← atoi (String m1 (String m2 ""));
      let offset := (hr * 60 + mm) * 60 in
      if bool_decide (sign = "+"%char) then Some (ZoneOffset offset, s)
      else if bool_decide (sign = "-"%char) then Some (ZoneOffset (- offset), s)
      else None
  | _ => None
  end.

Definition parse_year (s : string) : option (Z * string) :=
  '(a, s) ← digit_at s; '(b, s) ← digit_at s; '(c, s) ← digit_at s; '(d, s) ← digit_at s;
  Some (((a * 10 + b) * 10 + c) * 10 + d, s).

(** Seconds since the epoch in UTC, nanoseconds and zone. *)
Definition parse_rfc3339 (s : string) : option (Z * Z * parsed_zone) :=
  '(y, s) ← parse_year s;
  s ← skip "-" s;
  '(mon, s) ← getnum true s; _ ← in_range 1 12 mon;
  s ← skip "-" s;
  '(d, s) ← getnum true s; _ ← in_range 0 31 d;
  s ← skip "T" s;
  '(h, s) ← getnum false s; _ ← in_range 0 23 h;
  s ← skip ":" s;
  '(mi, s) ← getnum true s; _ ← in_range 0 59 mi;
  s ← skip ":" s;
  '(sec, s) ← getnum true s; _ ← in_range 0 59 sec;
  '(ns, s) ← parse_fraction s;
  '(z, s) ← parse_zone s;
  match s with
  | "" =>
      _ ← in_range 0 (daysIn mon y) d;
      let secs := days_of (MkDate y mon d) * 86400 + h * 3600 + mi * 60 + sec in
      Some (match z with ZoneUTC => secs | ZoneOffset o => secs - o end, ns, z)
  | _ => None
  end.

Example RFC3339_2017 : RFC3339Nano 1491264000 500000000 19800 = "2017-04-04T05:30:00.5+05:30".
Proof. vm_compute. reflexivity. Qed.

Example parse_2017 :
  parse_rfc3339 "2017-04-04T5:30:00.5+05:30" = Some (1491264000, 500000000, ZoneOffset 19800).
Proof. vm_compute. reflexivity. Qed.

(** ** The calendar is consistent *)

#[local] Ltac Zify.zify_post_hook ::= Z.to_euclidean_division_equations.

(** The year of an era a day is in, and the day of that year, which is the
    366th only when the year ends with a leap day. *)
Lemma yoe_bounds doe :
  0 ≤ doe < 146097 →
  let yoe := (doe - doe / 1460 + doe / 36524 - doe / 146096) / 365 in
  0 ≤ yoe < 400 ∧ 0 ≤ doe - (365 * yoe + yoe / 4 - yoe / 100) ≤ 365.
Proof. intros Hdoe yoe. subst yoe. lia. Qed.

Lemma yoe_leap doe :
  0 ≤ doe < 146097 →
  let yoe := (doe - doe / 1460 + doe / 36524 - doe / 146096) / 365 in
  doe - (365 * yoe + yoe / 4 - yoe / 100) = 365 →
  (yoe + 1) mod 4 = 0 ∧ ((yoe + 1) mod 100 ≠ 0 ∨ yoe + 1 = 400).
Proof. intros Hdoe yoe. subst yoe. lia. Qed.

(** The date of a day is the date of that day, *)
Lemma days_of_civil days : days_of (civil days) = days.
Proof.
  unfold civil, days_of. cbn zeta. cbn [year month day].
  pose proof (yoe_bounds ((days + 719468) mod 146097)) as Hb. cbn zeta in Hb.
  set (doe := (days + 719468) mod 146097) in *. set (yoe := (doe - _ + _ - _) / 365) in *.
  set (doy := doe - (365 * yoe + _ - _)) in *. set (mp := (5 * doy + 2) / 153).
  destruct Hb as [Hy Hd]; [unfold doe; lia|].
  assert (0 ≤ mp ≤ 11) as Hmp by (unfold mp; clearbody doy; lia).
  assert (∀ b : Z, yoe + (days + 719468) / 146097 * 400 + b - b = yoe + (days + 719468) / 146097 * 400)
    as Hyb by lia.
  set (m := if bool_decide (mp < 10) then mp + 3 else mp - 9).
  assert ((if bool_decide (m ≤ 2) then m + 9 else m - 3) = mp) as ->.
  { unfold m. repeat case_bool_decide; lia. }
  rewrite Hyb, Z_mod_plus_full, Z_div_plus_full by done.
  rewrite Z.mod_small, (Z.div_small yoe 400) by done. unfold doy, doe. lia.
Qed.

(** and is a date of the calendar. *)
Definition date_ok (d : date) : Prop :=
  1 ≤ month d ≤ 12 ∧ 1 ≤ day d ≤ daysIn (month d) (year d).

Lemma civil_ok days : date_ok (civil days).
Proof.
  unfold civil, date_ok. cbn zeta. cbn [year month day].
  pose proof (yoe_bounds ((days + 719468) mod 146097)) as Hb.
  pose proof (yoe_leap ((days + 719468) mod 146097)) as Hl. cbn zeta in Hb, Hl.
  set (doe := (days + 719468) mod 146097) in *. set (yoe := (doe - _ + _ - _) / 365) in *.
  set (doy := doe - (365 * yoe + _ - _)) in *. set (mp := (5 * doy + 2) / 153).
  destruct Hb as [Hy Hd]; [unfold doe; lia|]. set (era := (days + 719468) / 146097) in *.
  assert (doy = 365 → leap (yoe + era * 400 + 1) = true) as Hleap.
  { intros H365. destruct Hl as [H4 H100]; [unfold doe; lia|done|].
    unfold leap. apply bool_decide_eq_true. lia. }
  clearbody era yoe doy. clear doe Hl Hy. unfold daysIn, mp.
  repeat case_bool_decide; try lia.
  all: destruct (leap _) eqn:He; [lia|].
  all: assert (doy ≠ 365) by (intros H365; specialize (Hleap H365); congruence); lia.
Qed.

(** ** What is formatted is parsed *)

#[local] Ltac Zify.zify_post_hook ::= idtac.

(** [k] digits of a number, before a text. *)
Fixpoint decimals (k : nat) (n : N) (s : string) : string :=
  match k with
  | O => s
  | S k => decimals k (n / 10) (String (pretty_N_char (n mod 10)) s)
  end.

Lemma zeros_snoc k s : zeros k +:+ String "0" s = String "0" (zeros k +:+ s).
Proof. induction k as [|k IH]; [done|]. cbn [zeros]. by rewrite !append_cons, IH. Qed.

Lemma zeros_length k : String.length (zeros k) = k.
Proof. induction k; simpl; congruence. Qed.

Lemma decimals_0 k s : decimals k 0 s = zeros k +:+ s.
Proof.
  revert s. induction k as [|k IH]; intros s; [done|]. cbn [decimals zeros].
  rewrite IH. change (pretty_N_char (0 mod 10)) with "0"%char. apply zeros_snoc.
Qed.

Lemma decimals_app k n s t : decimals k n (s +:+ t) = decimals k n s +:+ t.
Proof. revert n s. induction k as [|k IH]; intros n s; [done|]. cbn [decimals]. by rewrite <-IH. Qed.

Lemma pretty_N_go_length n s :
  String.length (pretty_N_go n s) = (String.length (pretty_N_go n "") + String.length s)%nat.
Proof.
  revert s. induction (N.lt_wf_0 n) as [n _ IH]; intros s.
  destruct (decide (n = 0)%N) as [->|Hn]; [done|].
  rewrite !(pretty_N_go_step n) by lia. assert (n / 10 < n)%N as H by (apply N.div_lt; lia).
  rewrite (IH _ H), (IH _ H (String _ "")). cbn [String.length]. lia.
Qed.

Lemma pretty_N_go_decimals k n s :
  (n < 10 ^ N.of_nat k)%N →
  zeros (k - String.length (pretty_N_go n "")) +:+ pretty_N_go n s = decimals k n s.
Proof.
  revert n s. induction k as [|k IH]; intros n s Hn.
  { by assert (n = 0)%N as -> by lia. }
  destruct (decide (n = 0)%N) as [->|Hne]; [by rewrite decimals_0|].
  rewrite !(pretty_N_go_step n) by lia. rewrite pretty_N_go_length. cbn [String.length decimals].
  replace (S k - _)%nat with (k - String.length (pretty_N_go (n / 10) ""))%nat by lia.
  apply IH. apply N.Div0.div_lt_upper_bound. rewrite Nat2N.inj_succ, N.pow_succ_r' in Hn. lia.
Qed.

Lemma pad_decimals k n s :
  (0 < k)%nat → 0 ≤ n < 10 ^ Z.of_nat k → pad k n +:+ s = decimals k (Z.to_N n) s.
Proof.
  intros Hk Hn. rewrite <-(append_nil_l s) at 2. rewrite decimals_app. f_equal.
  unfold pad, Itoa, FormatInt. destruct (decide (n = 0)) as [->|Hne].
  - change (Z.to_N 0) with 0%N. rewrite decimals_0, append_nil_r. destruct k as [|k]; [lia|].
    change (pretty 0) with "0"%string. cbn [String.length zeros]. replace (S k - 1)%nat with k by lia.
    by rewrite zeros_snoc, append_nil_r.
  - rewrite <-(pretty_N_go_decimals k (Z.to_N n) "").
    + destruct n as [|p|p]; [done| |lia]. unfold pretty, pretty_Z, pretty, pretty_positive, pretty, pretty_N.
      by rewrite decide_False.
    + apply N2Z.inj_lt. rewrite N2Z.inj_pow, nat_N_Z, Z2N.id by lia. simpl Z.of_N. lia.
Qed.

(** *** Digits in a row *)

Lemma digit_mod n : digit (pretty_N_char (n mod 10)) = Some (Z.of_N (n mod 10)).
Proof. apply digit_char, N.mod_lt. done. Qed.

Definition starts_digit (s : string) : bool :=
  match s with "" => false | String c _ => bool_decide (is_Some (digit c)) end.

Lemma leading_digits_end n count s : starts_digit s = false → leading_digits n count s = (n, count, s).
Proof.
  destruct s as [|c s]; [done|]. cbn [starts_digit leading_digits]. intros Hc%bool_decide_eq_false.
  destruct (digit c); [|done]. exfalso. by apply Hc.
Qed.

Lemma leading_digits_decimals k m n count s :
  (m < 10 ^ N.of_nat k)%N →
  leading_digits n count (decimals k m s) =
  leading_digits (n * 10 ^ Z.of_nat k + Z.of_N m) (count + k) s.
Proof.
  revert m s. induction k as [|k IH]; intros m s Hm; cbn [decimals].
  - assert (m = 0)%N as -> by lia. f_equal; [f_equal|]; lia.
  - rewrite IH.
    + cbn [leading_digits]. rewrite digit_mod. f_equal; [|lia].
      pose proof (N.div_mod m 10). rewrite Nat2Z.inj_succ, Z.pow_succ_r by lia. lia.
    + apply N.Div0.div_lt_upper_bound. rewrite Nat2N.inj_succ, N.pow_succ_r' in Hm. lia.
Qed.

(** Trailing zeros *)
Lemma trim_zeros_spec s : ∃ m, s = trim_zeros s +:+ zeros m.
Proof.
  induction s as [|c s [m Hs]]; [by exists O|]. cbn [trim_zeros].
  destruct (trim_zeros s) as [|d t].
  - case_bool_decide as Hc; [exists (S m)|exists m]; rewrite Hs; [by rewrite Hc|done].
  - exists m. by rewrite Hs at 1.
Qed.

Lemma leading_digits_zeros m n count s :
  leading_digits n count (zeros m +:+ s) = leading_digits (n * 10 ^ Z.of_nat m) (count + m) s.
Proof.
  rewrite <-decimals_0, leading_digits_decimals; [|apply N.neq_0_lt_0, N.pow_nonzero; lia].
  f_equal. lia.
Qed.

(** All characters are digits. *)
Fixpoint all_digits (s : string) : bool :=
  match s with "" => true | String c s => bool_decide (is_Some (digit c)) && all_digits s end.

Lemma leading_digits_app n count t :
  all_digits t = true →
  ∃ n', (0 ≤ n → 0 ≤ n') ∧
    ∀ s, leading_digits n count (t +:+ s) = leading_digits n' (count + String.length t) s.
Proof.
  revert n count. induction t as [|c t IH]; intros n count.
  { intros _. exists n. split; [done|]. intros s. by rewrite append_nil_l, Nat.add_0_r. }
  cbn [all_digits]. rewrite andb_true_iff, bool_decide_eq_true. intros [[d Hd] Ht].
  destruct (IH (n * 10 + d) (S count) Ht) as (n' & Hpos & Hn'). exists n'. split.
  - intros. apply Hpos. unfold digit in Hd. case_bool_decide; simplify_eq. lia.
  - intros s. rewrite append_cons. cbn [leading_digits String.length]. rewrite Hd, Hn'. f_equal. lia.
Qed.

Lemma all_digits_app s t : all_digits (s +:+ t) = all_digits s && all_digits t.
Proof. induction s as [|c s IH]; [done|]. rewrite append_cons. cbn [all_digits]. by rewrite IH, andb_assoc. Qed.

Lemma all_digits_decimals k n s : all_digits s = true → all_digits (decimals k n s) = true.
Proof.
  revert n s. induction k as [|k IH]; intros n s Hs; [done|]. apply IH. cbn [all_digits].
  by rewrite digit_mod, Hs, bool_decide_true by by eexists.
Qed.

(** *** The fields *)

Lemma getnum_pad fixed n s : 0 ≤ n < 100 → getnum fixed (pad 2 n +:+ s) = Some (n, s).
Proof.
  intros Hn. rewrite pad_decimals by lia. cbn [decimals]. unfold getnum. cbn [digit_at].
  rewrite !digit_mod. cbn [mbind option_bind digit_at]. rewrite digit_mod. cbn [mbind option_bind].
  assert (Z.to_N n / 10 < 10)%N by (apply N.Div0.div_lt_upper_bound; lia).
  pose proof (N.div_mod (Z.to_N n) 10). rewrite (N.mod_small (_ / 10)) by done. repeat f_equal. lia.
Qed.

Lemma parse_year_pad n s : 0 ≤ n < 10000 → parse_year (pad 4 n +:+ s) = Some (n, s).
Proof.
  intros Hn. rewrite pad_decimals by lia. cbn [decimals]. unfold parse_year. cbn [digit_at].
  repeat (rewrite digit_mod; cbn [mbind option_bind digit_at]).
  assert (Z.to_N n / 10 / 10 / 10 < 10)%N.
  { repeat (apply N.Div0.div_lt_upper_bound). lia. }
  pose proof (N.div_mod (Z.to_N n) 10). pose proof (N.div_mod (Z.to_N n / 10) 10).
  pose proof (N.div_mod (Z.to_N n / 10 / 10) 10).
  rewrite (N.mod_small (_ / 10)) by done. repeat f_equal. lia.
Qed.

Lemma atoi_unsigned a s :
  a ≠ "+"%char → a ≠ "-"%char →
  atoi (String a s) = match leading_digits 0 0 (String a s) with
                      | (n, S _, "") => Some n
                      | (n, O, "") => Some 0
                      | _ => None
                      end.
Proof. intros H1 H2. destruct a as [[] [] [] [] [] [] [] []]; done. Qed.

Lemma atoi_pad n :
  0 ≤ n < 100 →
  ∃ a b, pad 2 n = String a (String b "") ∧ atoi (String a (String b "")) = Some n.
Proof.
  intros Hn. pose proof (pad_decimals 2 n "" (ltac:(lia)) (ltac:(lia))) as Hp.
  rewrite append_nil_r in Hp. cbn [decimals] in Hp. eexists _, _. split; [exact Hp|].
  set (a := pretty_N_char (Z.to_N n / 10 mod 10)). set (b := pretty_N_char (Z.to_N n mod 10)).
  destruct (digit_sign a) as [H1 H2]; [unfold a; rewrite digit_mod; by eexists|].
  assert (leading_digits 0 0 (String a (String b "")) = (n, 2%nat, "")) as Hl.
  { change (String a (String b "")) with (decimals 2 (Z.to_N n) "").
    rewrite leading_digits_decimals by lia. cbn [leading_digits]. do 2 f_equal. lia. }
  by rewrite atoi_unsigned, Hl.
Qed.

Lemma parse_fraction_text nanos s :
  0 ≤ nanos < 10 ^ 9 → starts_digit s = false → skip "." s = None →
  parse_fraction (fraction_text nanos +:+ s) = Some (nanos, s).
Proof.
  intros Hn Hd Hs. unfold fraction_text. set (t := trim_zeros (pad 9 nanos)).
  pose proof (pad_decimals 9 nanos "" (ltac:(lia)) Hn) as Hp. rewrite append_nil_r in Hp.
  destruct (trim_zeros_spec (pad 9 nanos)) as [m Hm]. fold t in Hm.
  assert (all_digits t = true ∧ (String.length t + m = 9)%nat) as [Ht Hlen].
  { assert (all_digits (pad 9 nanos) = true) as Ha by (rewrite Hp; by apply all_digits_decimals).
    rewrite Hm, all_digits_app, andb_true_iff in Ha. split; [by apply Ha|].
    assert (String.length (pad 9 nanos) = 9%nat) as Hl by (rewrite Hp; done).
    by rewrite Hm, length_append, zeros_length in Hl. }
  destruct (leading_digits_app 0 0 t Ht) as (n' & Hpos & Hn').
  assert (n' * 10 ^ Z.of_nat m = nanos) as Hv.
  { specialize (Hn' (zeros m +:+ s)).
    rewrite <-append_assoc, <-Hm, Hp, <-decimals_app, leading_digits_decimals in Hn'
      by (change (10 ^ N.of_nat 9)%N with 1000000000%N; lia).
    rewrite leading_digits_zeros, append_nil_l, !leading_digits_end in Hn' by done.
    injection Hn'. lia. }
  destruct t as [|c t'] eqn:Et.
  - assert (n' = 0) as ->.
    { specialize (Hn' (zeros m +:+ s)).
      rewrite append_nil_l, !leading_digits_zeros, !leading_digits_end in Hn' by done.
      injection Hn' as Hz. assert (0 < 10 ^ Z.of_nat m) by (apply Z.pow_pos_nonneg; lia). nia. }
    rewrite append_nil_l. replace nanos with 0 by lia. unfold parse_fraction.
    destruct s as [|c s]; [done|]. unfold skip in Hs. case_bool_decide as Hc; [done|].
    by destruct c as [[] [] [] [] [] [] [] []].
  - assert (is_digit c = true) as Hc.
    { cbn [all_digits] in Ht. apply andb_true_iff in Ht as [[d Hc]%bool_decide_eq_true _].
      unfold digit in Hc. unfold is_digit. case_bool_decide; [|done]. apply bool_decide_eq_true. lia. }
    rewrite append_cons, append_nil_l, append_cons. unfold parse_fraction.
    rewrite append_cons at 1. rewrite Hc, Hn', leading_digits_end by done.
    assert (0 < 10 ^ Z.of_nat m) by (apply Z.pow_pos_nonneg; lia).
    unfold in_range. rewrite bool_decide_true by nia. cbn [mbind option_bind].
    replace (9 - _)%nat with m by lia. by rewrite Hv.
Qed.

Lemma in_range_Some lo hi n : lo ≤ n ≤ hi → in_range lo hi n = Some ().
Proof. intros Hn. unfold in_range. by rewrite bool_decide_true. Qed.

Lemma skip_cons c s : skip c (String c s) = Some s.
Proof. unfold skip. by rewrite bool_decide_true. Qed.

(** Offsets of whole minutes, of less than a hundred hours *)
Definition offset_ok (offset : Z) : Prop := offset mod 60 = 0 ∧ Z.abs offset < 360000.

Definition zone_read (offset : Z) : parsed_zone :=
  if bool_decide (offset = 0) then ZoneUTC else ZoneOffset offset.

Lemma zone_text_read offset :
  offset_ok offset →
  parse_zone (zone_text offset) = Some (zone_read offset, "") ∧
  starts_digit (zone_text offset) = false ∧ skip "." (zone_text offset) = None.
Proof.
  intros [Hm Ha]. unfold zone_text, zone_read. case_bool_decide as H0; [done|].
  assert (offset = Z.quot offset 60 * 60) as Hq.
  { assert (Z.rem offset 60 = 0) by (apply Z.rem_divide; [lia|by apply Z.mod_divide]).
    pose proof (Z.quot_rem offset 60). lia. }
  set (z := Z.quot offset 60) in *. clearbody z.
  destruct (atoi_pad (Z.abs z / 60)) as (a & b & -> & Hab).
  { split; [apply Z.div_pos; lia|apply Z.div_lt_upper_bound; lia]. }
  destruct (atoi_pad (Z.abs z mod 60)) as (c & d & -> & Hcd).
  { pose proof (Z.mod_pos_bound (Z.abs z) 60). lia. }
  pose proof (Z.div_mod (Z.abs z) 60).
  case_bool_decide as Hz; rewrite !append_cons, !append_nil_l; cbn [parse_zone].
  all: rewrite Hab, Hcd; cbn [mbind option_bind].
  all: rewrite ?bool_decide_true, ?bool_decide_false by done; split; [|done].
  all: repeat f_equal; lia.
Qed.

(** A text that [Format] writes in RFC 3339 is parsed as the same instant with
    the same offset. *)
Lemma parse_RFC3339Nano secs nanos offset j :
  json_time secs nanos offset = Some j → 0 ≤ nanos < 10 ^ 9 → offset_ok offset →
  ∃ s, j = JStr s ∧ parse_rfc3339 s = Some (secs, nanos, zone_read offset).
Proof.
  unfold json_time. case_bool_decide as Hy; [done|]. intros [= <-] Hn Ho. eexists. split; [done|].
  unfold RFC3339Nano, wall in *. cbn [fst] in Hy.
  pose proof (civil_ok ((secs + offset) / 86400)) as [Hmon Hday].
  pose proof (days_of_civil ((secs + offset) / 86400)) as Hdays.
  destruct (civil ((secs + offset) / 86400)) as [y m d]. cbn [year month day] in *.
  assert (daysIn m y ≤ 31) by (unfold daysIn; repeat case_match; lia).
  set (sod := (secs + offset) mod 86400) in *.
  assert (0 ≤ sod < 86400) as Hsod by (apply Z.mod_pos_bound; lia).
  pose proof (Z.mod_pos_bound (sod / 60) 60). pose proof (Z.mod_pos_bound sod 60).
  assert (0 ≤ sod / 3600 < 24) as Hh.
  { split; [apply Z.div_pos; lia|apply Z.div_lt_upper_bound; lia]. }
  destruct (zone_text_read offset Ho) as (Hz & Hd & Hs).
  unfold parse_rfc3339, clock_text. rewrite !append_assoc, parse_year_pad by lia.
  repeat first
    [ rewrite append_cons, append_nil_l
    | rewrite skip_cons
    | rewrite getnum_pad by lia
    | rewrite in_range_Some by lia
    | rewrite (parse_fraction_text nanos (zone_text offset)) by done
    | rewrite Hz
    | progress cbn [mbind option_bind] ].
  rewrite Hdays. pose proof (Z.div_mod (secs + offset) 86400) as Hdm. fold sod in Hdm.
  assert (sod = sod / 3600 * 3600 + sod / 60 mod 60 * 60 + sod mod 60) as Hsplit.
  { pose proof (Z.div_mod sod 60). pose proof (Z.div_mod (sod / 60) 60).
    rewrite Z.div_div in * by lia. change (60 * 60) with 3600 in *. lia. }
  unfold zone_read. case_bool_decide; repeat f_equal; lia.
Qed.

(** *** Formatted dates are ASCII *)

Lemma ascii_only_app s t : ascii_only (s +:+ t) = ascii_only s && ascii_only t.
Proof. induction s as [|c s IH]; [done|]. rewrite append_cons. cbn [ascii_only]. by rewrite IH, andb_assoc. Qed.

Lemma ascii_only_pretty_N_go n s : ascii_only s = true → ascii_only (pretty_N_go n s) = true.
Proof.
  revert s. induction (N.lt_wf_0 n) as [n _ IH]; intros s Hs.
  destruct (decide (n = 0)%N) as [->|Hne]; [done|].
  rewrite pretty_N_go_step by lia. apply IH; [apply N.div_lt; lia|].
  cbn [ascii_only]. rewrite Hs, bool_decide_true; [done|].
  pose proof (byte_pretty_N_char (n mod 10)). lia.
Qed.

Lemma ascii_only_Itoa z : ascii_only (Itoa z) = true.
Proof.
  unfold Itoa, FormatInt. destruct z as [|p|p]; unfold pretty, pretty_Z, pretty, pretty_positive, pretty, pretty_N;
    [done|rewrite decide_False by done..]; [|rewrite append_cons; cbn [ascii_only]; apply andb_true_iff; split; [done|]];
    by apply ascii_only_pretty_N_go.
Qed.

Lemma ascii_only_pad k z : ascii_only (pad k z) = true.
Proof.
  unfold pad. rewrite ascii_only_app, ascii_only_Itoa, andb_true_r.
  generalize (k - String.length (Itoa z))%nat as m. intros m. by induction m.
Qed.

Lemma ascii_only_fraction nanos : ascii_only (fraction_text nanos) = true.
Proof.
  pose proof (ascii_only_pad 9 nanos) as Hp. unfold fraction_text.
  destruct (trim_zeros_spec (pad 9 nanos)) as [m Hm]. rewrite Hm, ascii_only_app in Hp.
  apply andb_true_iff in Hp as [Hp _]. by destruct (trim_zeros (pad 9 nanos)).
Qed.

Lemma ascii_only_RFC3339Nano secs nanos offset : ascii_only (RFC3339Nano secs nanos offset) = true.
Proof.
  unfold RFC3339Nano, clock_text, zone_text. destruct (wall secs offset).
  repeat case_bool_decide;
    by rewrite !ascii_only_app, !ascii_only_pad, ?ascii_only_fraction.
Qed.

Lemma json_time_Some secs nanos offset j :
  json_time secs nanos offset = Some j → j = JStr (RFC3339Nano secs nanos offset).
Proof. unfold json_time. case_bool_decide; [done|]. by intros [= <-]. Qed.

(** Conversion unfolds what uses a date before the date. *)
Strategy 10 [json_time RFC3339Nano].
