(* ===== verification/Status.v ===== *)
(** * Traffic control status and its cache ([src/main.go], lines 54 to 106)

    [TrafficControlStatus] values are reached through pointers: the cache
    [trafficControlStatusCache] is a Go map from network namespace IDs to
    pointers, and the methods [SetLatency] and [SetPacketLoss] write through
    them. The model keeps the heap of status structs, the pointers and the fact
    that a Go map may be nil: reading a nil map finds nothing, deleting from it
    does nothing, assigning to it panics.

    [absr] reads the cache as a map from IDs to status values. Under the
    invariant [wf] (no dangling pointer, no two IDs with one pointer) each
    operation on pointers is the corresponding operation on that map. *)

From S2P Require Import Prelude Go Strs Nums Store Env.

(** ** The structs *)

Record TrafficControlStatus : Set := MkTCS {
  dpod : string;
  latency : string;
  packetLoss : string
}.

Record NetworkControlStatus : Set := MkNCS {
  n_spod : string;
  n_dpod : string;
  n_bandwidth : string;
  n_packet : string;
  n_latency : string
}.

#[export] Instance TrafficControlStatus_eq_dec : EqDecision TrafficControlStatus.
Proof. solve_decision. Defined.

(** [fmt.Sprintf("%s %s", tcs.latency, tcs.packetLoss)] *)
Definition TCS_String (tcs : TrafficControlStatus) : string :=
  latency tcs +:+ " " +:+ packetLoss tcs.

Definition with_latency (v : string) (t : TrafficControlStatus) : TrafficControlStatus :=
  {| dpod := dpod t; latency := v; packetLoss := packetLoss t |}.
Definition with_packetLoss (v : string) (t : TrafficControlStatus) : TrafficControlStatus :=
  {| dpod := dpod t; latency := latency t; packetLoss := v |}.

(** SetLatency sets the latency value; both assignments of the source. *)
Definition SetLatency (lat : string) (tcs : TrafficControlStatus) : TrafficControlStatus :=
  let tcs := if decide (lat = "") then with_latency "-" tcs else tcs in
  with_latency lat tcs.

Definition SetPacketLoss (loss : string) (tcs : TrafficControlStatus) : TrafficControlStatus :=
  let tcs := if decide (loss = "") then with_packetLoss "-" tcs else tcs in
  with_packetLoss loss tcs.

(** TrafficControlStatusInit initializes with the convention that empty values are '-' *)
Definition TrafficControlStatusInit : TrafficControlStatus :=
  {| dpod := "-"; latency := "-"; packetLoss := "-" |}.

(** Whatever the argument, it is what the field holds in the end. *)
Lemma SetLatency_with lat t : SetLatency lat t = with_latency lat t.
Proof. unfold SetLatency. by case_decide. Qed.

Lemma SetPacketLoss_with loss t : SetPacketLoss loss t = with_packetLoss loss t.
Proof. unfold SetPacketLoss. by case_decide. Qed.

(** ** The package variables *)

Abbreviation loc := nat.

Record TcState : Type := MkTcState {
  heap : gmap loc TrafficControlStatus;
  next : loc;
  trafficControlStatusCache : option (gmap string loc);   (* None: a nil map *)
  neworkControlStatusCache : option (gmap string NetworkControlStatus)
}.

(** The package variables when the process starts: [var m map[...]...] is nil. *)
Definition tc_init : TcState :=
  {| heap := ∅; next := 0; trafficControlStatusCache := None; neworkControlStatusCache := None |}.

Definition set_heap (h : gmap loc TrafficControlStatus) (s : TcState) : TcState :=
  {| heap := h; next := next s; trafficControlStatusCache := trafficControlStatusCache s;
     neworkControlStatusCache := neworkControlStatusCache s |}.
Definition set_cache (c : option (gmap string loc)) (s : TcState) : TcState :=
  {| heap := heap s; next := next s; trafficControlStatusCache := c;
     neworkControlStatusCache := neworkControlStatusCache s |}.

(** [&TrafficControlStatus{...}] *)
Definition alloc (t : TrafficControlStatus) : M TcState loc := λ s,
  (Ret (next s),
   {| heap := <[next s:=t]> (heap s); next := S (next s);
      trafficControlStatusCache := trafficControlStatusCache s;
      neworkControlStatusCache := neworkControlStatusCache s |}).

(** What a pointer points to; a nil pointer points to nothing. *)
Definition target (h : gmap loc TrafficControlStatus) (p : option loc)
    : option TrafficControlStatus :=
  match p with Some l => h !! l | None => None end.

(** [p.f] through a pointer, which may be nil *)
Definition deref (p : option loc) : M TcState TrafficControlStatus :=
  get ≫= λ s, or_panic NilDereference (target (heap s) p).

(** [p.Method(...)] with a pointer receiver that the method writes through *)
Definition update_ptr (p : option loc) (f : TrafficControlStatus → TrafficControlStatus)
    : M TcState unit :=
  deref p ≫= λ t, modify (λ s,
    match p with Some l => set_heap (<[l:=f t]> (heap s)) s | None => s end).

(** [trafficControlStatusCache[key]]: nil when absent *)
Definition entry (s : TcState) (key : string) : option loc :=
  match trafficControlStatusCache s with Some m => m !! key | None => None end.

Definition cache_get (key : string) : M TcState (option loc) :=
  get ≫= λ s, mret (entry s key).

(** [trafficControlStatusCache[key] = p] *)
Definition cache_set (key : string) (p : loc) : M TcState unit :=
  get ≫= λ s,
  match trafficControlStatusCache s with
  | Some m => put (set_cache (Some (<[key:=p]> m)) s)
  | None => gopanic NilMapWrite
  end.

(** [delete(trafficControlStatusCache, key)] *)
Definition cache_delete (key : string) : M TcState unit :=
  modify (λ s, set_cache (delete key <$> trafficControlStatusCache s) s).

(** [trafficControlStatusCache[key] = &TrafficControlStatus{...}] *)
Definition cache_new (key : string) (t : TrafficControlStatus) : M TcState unit :=
  alloc t ≫= cache_set key.

(** [trafficControlStatusCache[key].Method(...)] *)
Definition cache_update (key : string) (f : TrafficControlStatus → TrafficControlStatus)
    : M TcState unit :=
  cache_get key ≫= λ p, update_ptr p f.

(** ** The cache as a map to values *)

Definition values (h : gmap loc TrafficControlStatus) (m : gmap string loc)
    : gmap string TrafficControlStatus := omap (λ l : loc, h !! l) m.

Definition absr (s : TcState) : option (gmap string TrafficControlStatus) :=
  match trafficControlStatusCache s with
  | Some m => Some (values (heap s) m)
  | None => None
  end.

(** The value cached for a key. *)
Definition cached (s : TcState) (key : string) : option TrafficControlStatus :=
  target (heap s) (entry s key).

Record wf (s : TcState) : Prop := {
  wf_alloc l t : heap s !! l = Some t → l < next s;
  wf_valid m k l : trafficControlStatusCache s = Some m → m !! k = Some l → is_Some (heap s !! l);
  wf_inj m k k' l : trafficControlStatusCache s = Some m →
    m !! k = Some l → m !! k' = Some l → k = k'
}.

Lemma wf_init : wf tc_init.
Proof. split; unfold tc_init; simpl; [intros ??; by rewrite lookup_empty|done..]. Qed.

Lemma cached_absr s key :
  cached s key = match absr s with Some a => a !! key | None => None end.
Proof.
  unfold cached, absr, entry. destruct (trafficControlStatusCache s) as [m|]; [|done].
  unfold values. rewrite lookup_omap. by destruct (m !! key).
Qed.

(** *** Effect of the operations on the values *)

Section refinement.
Implicit Types (s : TcState) (key : string) (t : TrafficControlStatus).

Lemma values_alloc h m (l : loc) t :
  (∀ k l', m !! k = Some l' → l' ≠ l) → values (<[l:=t]> h) m = values h m.
Proof.
  intros Hm. apply map_eq. intros k. unfold values. rewrite !lookup_omap.
  destruct (m !! k) as [l'|] eqn:Hk; [|done]. simpl.
  by rewrite lookup_insert_ne by (intros <-; by eapply Hm).
Qed.

Lemma values_insert h m key (l : loc) t :
  h !! l = Some t → values h (<[key:=l]> m) = <[key:=t]> (values h m).
Proof. intros Hl. unfold values. by rewrite (omap_insert_Some _ _ _ _ t). Qed.

Lemma values_update h m key (l : loc) t :
  (∀ k k' l, m !! k = Some l → m !! k' = Some l → k = k') → m !! key = Some l →
  values (<[l:=t]> h) m = <[key:=t]> (values h m).
Proof.
  intros Hinj Hkey. apply map_eq. intros k. unfold values.
  rewrite lookup_omap. destruct (decide (k = key)) as [->|Hne].
  - rewrite Hkey. simpl. by rewrite !lookup_insert_eq.
  - rewrite lookup_insert_ne, lookup_omap by done.
    destruct (m !! k) as [l'|] eqn:Hk; [|done]. simpl.
    rewrite lookup_insert_ne; [done|]. intros ->. eauto.
Qed.

(** Reading finds the abstract value. *)
Lemma cache_get_run key s :
  cache_get key s = (Ret (entry s key), s).
Proof. done. Qed.

Lemma deref_get key s t :
  cached s key = Some t →
  (cache_get key ≫= deref) s = (Ret t, s).
Proof.
  unfold cached. intros Hc. rewrite (bind_Ret _ _ _ _ _ (cache_get_run key s)).
  unfold deref. erewrite bind_Ret by done. by rewrite Hc.
Qed.

Lemma cache_new_nil key t s :
  trafficControlStatusCache s = None →
  (cache_new key t s).1 = Panicked NilMapWrite ∧ absr (cache_new key t s).2 = None.
Proof. destruct s; simpl. by intros ->. Qed.

Lemma cache_new_spec key t s m :
  wf s → trafficControlStatusCache s = Some m →
  ∃ s', cache_new key t s = (Ret (), s') ∧ wf s' ∧
    absr s' = Some (<[key:=t]> (values (heap s) m)) ∧
    neworkControlStatusCache s' = neworkControlStatusCache s.
Proof.
  intros [Ha Hv Hi] Hm. destruct s as [h n c nc]. simpl in *. subst c.
  assert (∀ k l, m !! k = Some l → l < n) as Hlt.
  { intros k l Hk. destruct (Hv m k l) as [t' ?]; eauto. }
  eexists. split; [reflexivity|]. simpl. split; [split; simpl|split; [|done]].
  - intros l t' [[-> _]|[? ?%Ha]]%lookup_insert_Some; lia.
  - intros m' k l [= <-] [[_ <-]|[? Hk]]%lookup_insert_Some; rewrite lookup_insert.
    + by rewrite decide_True.
    + case_decide; eauto.
  - intros m' k k' l [= <-] [[<- <-]|[? Hk]]%lookup_insert_Some
      [[<- ?]|[? Hk']]%lookup_insert_Some; eauto.
    all: subst; exfalso; (apply Hlt in Hk || apply Hlt in Hk'); lia.
  - unfold absr. simpl. rewrite (values_insert _ _ _ _ t) by apply lookup_insert_eq.
    by rewrite values_alloc by (intros ?? ?%Hlt; lia).
Qed.

Lemma cache_update_spec key f s m t :
  wf s → trafficControlStatusCache s = Some m → cached s key = Some t →
  ∃ s', cache_update key f s = (Ret (), s') ∧ wf s' ∧
    trafficControlStatusCache s' = Some m ∧
    absr s' = Some (<[key:=f t]> (values (heap s) m)) ∧
    neworkControlStatusCache s' = neworkControlStatusCache s.
Proof.
  intros [Ha Hv Hi] Hm Hc. destruct s as [h n c nc]. simpl in *. subst c.
  unfold cached, entry in Hc. simpl in Hc.
  destruct (m !! key) as [l|] eqn:Hk; [|done]. simpl in Hc.
  exists {| heap := <[l:=f t]> h; next := n; trafficControlStatusCache := Some m;
            neworkControlStatusCache := nc |}.
  split.
  { unfold cache_update. rewrite (bind_Ret _ _ _ _ _ (cache_get_run _ _)).
    unfold entry. simpl. rewrite Hk. unfold update_ptr, deref.
    erewrite bind_Ret; [|erewrite bind_Ret by done; simpl; by rewrite Hc]. done. }
  split; [split; simpl|split; [done|split; [|done]]].
  - intros l' t' [[-> _]|[? ?]]%lookup_insert_Some; eauto.
  - intros m' k l' [= <-] Hk'. rewrite lookup_insert. case_decide; eauto.
  - naive_solver.
  - unfold absr. simpl. erewrite values_update; eauto.
Qed.

Lemma cache_update_nil key f s :
  entry s key = None →
  cache_update key f s = (Panicked NilDereference, s).
Proof.
  intros Hc. unfold cache_update. rewrite (bind_Ret _ _ _ _ _ (cache_get_run _ _)).
  by rewrite Hc.
Qed.

Lemma cache_delete_spec key s :
  wf s → ∃ s', cache_delete key s = (Ret (), s') ∧ wf s' ∧
    absr s' = delete key <$> absr s ∧
    (trafficControlStatusCache s' = None ↔ trafficControlStatusCache s = None) ∧
    neworkControlStatusCache s' = neworkControlStatusCache s.
Proof.
  intros [Ha Hv Hi]. eexists. split; [reflexivity|].
  destruct s as [h n [m|] nc]; simpl in *; (split; [split; simpl|]).
  - eauto.
  - intros m' k l [= <-] [??]%lookup_delete_Some. eauto.
  - intros m' k k' l [= <-] [??]%lookup_delete_Some [??]%lookup_delete_Some. eauto.
  - split_and!; [|done..]. unfold absr. simpl. unfold values. by rewrite omap_delete.
  - eauto.
  - done.
  - done.
  - done.
Qed.
(** *** Whatever happens, the cache stays well formed, and a nil cache nil *)

Definition nil_cache s : Prop := trafficControlStatusCache s = None.

Lemma alloc_wf t s : wf s → wf (alloc t s).2.
Proof.
  intros [Ha Hv Hi]. split; simpl.
  - intros l t' [[-> _]|[_ ?%Ha]]%lookup_insert_Some; lia.
  - intros m k l Hm Hk. rewrite lookup_insert. case_decide; eauto.
  - eauto.
Qed.

#[global] Instance cache_new_wf key t : Respects (keeps wf) (cache_new key t).
Proof.
  intros s Hwf. destruct (trafficControlStatusCache s) as [m|] eqn:Hm.
  - destruct (cache_new_spec key t s m Hwf Hm) as (s' & -> & ? & _). done.
  - pose proof (alloc_wf t s Hwf) as Ha. destruct s. simpl in *. by subst.
Qed.

#[global] Instance cache_update_wf key f : Respects (keeps wf) (cache_update key f).
Proof.
  intros s Hwf. destruct (trafficControlStatusCache s) as [m|] eqn:Hm.
  - destruct (cached s key) as [t|] eqn:Hc.
    + by destruct (cache_update_spec key f s m t Hwf Hm Hc) as (s' & -> & ? & _).
    + destruct (entry s key) as [l|] eqn:He; [|by rewrite cache_update_nil].
      unfold cached in Hc. unfold entry in He. rewrite Hm in He.
      destruct (wf_valid _ Hwf m key l Hm He) as [t Ht]. unfold entry in Hc.
      rewrite Hm, He in Hc. simpl in Hc. congruence.
  - rewrite cache_update_nil; [done|]. unfold entry. by rewrite Hm.
Qed.

#[global] Instance cache_delete_wf key : Respects (keeps wf) (cache_delete key).
Proof. intros s Hwf. by destruct (cache_delete_spec key s Hwf) as (s' & -> & ? & _). Qed.

#[global] Instance cache_new_keeps_nil key t : Respects (keeps nil_cache) (cache_new key t).
Proof. intros s Hs. destruct s. unfold nil_cache in *. simpl in *. by subst. Qed.

#[global] Instance cache_update_keeps_nil key f : Respects (keeps nil_cache) (cache_update key f).
Proof. intros s Hs. rewrite cache_update_nil; [done|]. unfold entry. by rewrite Hs. Qed.

#[global] Instance cache_delete_keeps_nil key : Respects (keeps nil_cache) (cache_delete key).
Proof. intros s Hs. destruct s. unfold nil_cache in *. simpl in *. by subst. Qed.
End refinement.

(** A predicate that the writes of the cache preserve. *)
Class CachePred (P : TcState → Prop) : Prop := {
  pred_new key t :: Respects (keeps P) (cache_new key t);
  pred_update key f :: Respects (keeps P) (cache_update key f);
  pred_delete key :: Respects (keeps P) (cache_delete key)
}.

#[export] Instance wf_pred : CachePred wf.
Proof. split; apply _. Qed.
#[export] Instance nil_cache_pred : CachePred nil_cache.
Proof. split; apply _. Qed.

(** The other cache is not written at all. *)
#[export] Instance network_cache_pred c : CachePred (λ s, neworkControlStatusCache s = c).
Proof.
  split; intros; intros s Hs; destruct s as [h n [m|] d]; simpl in *; subst; try done.
  unfold cache_update, cache_get, update_ptr, deref, entry, mbind, M_bind. simpl.
  destruct (m !! key) as [l|]; simpl; [|done]. by destruct (h !! l).
Qed.
