(* ===== verification/World.v ===== *)
(** * The state of the process

    [World E] is the environment [E] together with the variables of the plugin:
    the container store, the package variables of the traffic control status,
    and the trace of the commands and queries the plugin issued (the trace is
    not a variable of the program; theorems use it to say what was done to the
    outside world, in order). *)

From S2P Require Import Prelude Go Strs Nums Store Env Status.

Inductive action : Set :=
  | EnterNetNS (path : string)
  | LeaveNetNS
  | Exec (cmd : list string)
  | Query (db command : string)
  | RemoveAll (path : string)
  | MkdirAll (path : string) (mode : Z)
  | Listen (network path : string).

#[export] Instance action_eq_dec : EqDecision action.
Proof. solve_decision. Defined.

Record World (E : Type) : Type := MkWorld {
  env : E;
  store : Store;
  tcs : TcState;
  trace : list action
}.
Arguments MkWorld {E}.
Arguments env {E}.
Arguments store {E}.
Arguments tcs {E}.
Arguments trace {E}.

Section world.
Context {E : Type}.

#[global] Instance World_Store : Part (World E) Store := {
  view := store;
  update s w := {| env := env w; store := s; tcs := tcs w; trace := trace w |}
}.
#[global] Instance World_TcState : Part (World E) TcState := {
  view := tcs;
  update t w := {| env := env w; store := store w; tcs := t; trace := trace w |}
}.
#[global] Instance World_Store_laws : PartLaws (World E) Store.
Proof. split; [done|by intros []|done]. Qed.
#[global] Instance World_TcState_laws : PartLaws (World E) TcState.
Proof. split; [done|by intros []|done]. Qed.

(** A call of external code. *)
Definition ext {A} (f : E → A * E) : M (World E) A := λ w,
  let '(a, e) := f (env w) in
  (Ret a, {| env := e; store := store w; tcs := tcs w; trace := trace w |}).

Definition ext_ (f : E → E) : M (World E) unit := ext (λ e, ((), f e)).

(** Adding an action to the trace. *)
Definition log (a : action) : M (World E) unit := λ w,
  (Ret (), {| env := env w; store := store w; tcs := tcs w; trace := trace w ++ [a] |}).

Lemma ext_run {A} (f : E → A * E) w :
  ext f w = (Ret (f (env w)).1,
    {| env := (f (env w)).2; store := store w; tcs := tcs w; trace := trace w |}).
Proof. unfold ext. by destruct (f (env w)). Qed.

(** External calls leave the variables of the plugin alone. *)
Definition own (w : World E) : Store * TcState := (store w, tcs w).

Lemma own_inj w w' : own w = own w' → store w = store w' ∧ tcs w = tcs w'.
Proof. unfold own. naive_solver. Qed.

#[global] Instance ext_store {A} (f : E → A * E) : Respects (same store) (ext f).
Proof. intros w. by rewrite ext_run. Qed.
#[global] Instance ext_tcs {A} (f : E → A * E) : Respects (same tcs) (ext f).
Proof. intros w. by rewrite ext_run. Qed.
#[global] Instance ext_trace {A} (f : E → A * E) : Respects (same trace) (ext f).
Proof. intros w. by rewrite ext_run. Qed.
#[global] Instance log_store a : Respects (same store) (log a).
Proof. by intros w. Qed.
#[global] Instance log_tcs a : Respects (same tcs) (log a).
Proof. by intros w. Qed.

(** An operation on one part leaves the others alone. *)
#[global] Instance zoom_store_tcs {A} (m : M Store A) : Respects (S:=World E) (same tcs) (zoom m).
Proof. intros w. unfold zoom. by destruct (m (view w)). Qed.
#[global] Instance zoom_store_trace {A} (m : M Store A) : Respects (S:=World E) (same trace) (zoom m).
Proof. intros w. unfold zoom. by destruct (m (view w)). Qed.
#[global] Instance zoom_tcs_store {A} (m : M TcState A) : Respects (S:=World E) (same store) (zoom m).
Proof. intros w. unfold zoom. by destruct (m (view w)). Qed.
#[global] Instance zoom_tcs_trace {A} (m : M TcState A) : Respects (S:=World E) (same trace) (zoom m).
Proof. intros w. unfold zoom. by destruct (m (view w)). Qed.

(** The relations that external calls and operations on the container store
    respect. *)
Class StoreFrame (R : relation (World E)) : Prop := {
  store_frame_preorder :: PreOrder R;
  frame_call A (f : E → A * E) :: Respects R (ext f);
  frame_store A (m : M Store A) :: Respects R (zoom m)
}.
#[global] Instance StoreFrame_tcs : StoreFrame (same tcs).
Proof. split; apply _. Qed.
#[global] Instance StoreFrame_trace : StoreFrame (same trace).
Proof. split; apply _. Qed.
End world.
