(* ===== verification/Sim.v ===== *)
(** * A scripted environment

    A concrete instance of every service of [Env.v]: answers are read from
    tables. It satisfies the laws, so nothing the components assume of the
    outside is contradictory, and the witnesses of the theorems evaluate the
    plugin against it. *)

From S2P Require Import Prelude Go Strs Nums Store Env Status World.

Record Sim : Type := MkSim {
  s_containers : list (string * DockerContainer);  (* what Docker can inspect *)
  s_broken : list string;                          (* inspecting these fails *)
  s_listed : list string;                          (* what ListContainers gives *)
  s_docker_err : option ext_error;                 (* listing, listening *)
  s_events : list APIEvents;
  s_netns_err : option ext_error;
  s_failing : list (list string);                  (* commands that fail *)
  s_links : list (string * string);                (* inodes of namespaces *)
  s_influx_err : option ext_error;
  s_response : Response;
  s_clock : Z
}.

Fixpoint assoc {V} (k : string) (l : list (string * V)) : option V :=
  match l with
  | [] => None
  | (k', v) :: l => if decide (k = k') then Some v else assoc k l
  end.

Definition oops : ext_error := ExtError "oops".

#[export] Instance Sim_Docker : Docker Sim := {
  docker_NewClient _ e := (None, e);
  docker_InspectContainer id e :=
    (if decide (id ∈ s_broken e) then inl (InspectFailed oops)
     else match assoc id (s_containers e) with
          | Some c => inr c
          | None => inl (NoSuchContainer id)
          end, e);
  docker_ListContainers e :=
    (match s_docker_err e with Some x => inl x | None => inr (s_listed e) end, e);
  docker_AddEventListener e := (s_docker_err e, e);
  docker_RemoveEventListener e := (None, e);
  docker_receive e :=
    (head (s_events e),
     {| s_containers := s_containers e; s_broken := s_broken e; s_listed := s_listed e;
        s_docker_err := s_docker_err e; s_events := tail (s_events e);
        s_netns_err := s_netns_err e; s_failing := s_failing e; s_links := s_links e;
        s_influx_err := s_influx_err e; s_response := s_response e; s_clock := s_clock e |})
}.

#[export] Instance Sim_Kernel : Kernel Sim := {
  netns_enter _ e := (s_netns_err e, e);
  netns_leave e := e;
  exec_Command cmd e := (if decide (cmd ∈ s_failing e) then Some oops else None, e);
  os_Readlink path e :=
    (match assoc path (s_links e) with
     | Some inode => inr ("net:[" +:+ inode +:+ "]")
     | None => inl oops
     end, e)
}.

#[export] Instance Sim_KernelLaws : KernelLaws Sim.
Proof. split. intros pid e t. simpl. destruct (assoc _ _); [|done]. intros [= <-]. eauto. Qed.

#[export] Instance Sim_Influx : Influx Sim := {
  httptest_listen e := (true, e);
  influx_NewClient e := (None, e);
  influx_Query _ _ e :=
    (match s_influx_err e with Some x => inl x | None => inr (s_response e) end, e)
}.

#[export] Instance Sim_Clock : Clock Sim := {
  time_Now e := ({| unix := s_clock e; nano := 0; zone := 0 |}, e);
  rand_Seed _ e := e;
  rand_Intn n e := ((s_clock e mod n)%Z, e);
  range_order m e := (map_to_list m, e)
}.

#[export] Instance Sim_ClockLaws : ClockLaws Sim.
Proof. split; intros; simpl; [by apply Z.mod_pos_bound|done]. Qed.

#[export] Instance Sim_Files : Files Sim := {
  os_RemoveAll _ e := (None, e);
  os_MkdirAll _ _ e := (None, e);
  net_Listen _ _ e := (None, e)
}.

(** An environment with one running container, one paused container and one
    that Docker lists although it is gone. *)
Definition st_running (pid : Z) : DockerState := MkDockerState true false false false false pid.
Definition st_paused (pid : Z) : DockerState := MkDockerState true true false false false pid.
Definition st_exited : DockerState := MkDockerState false false false false false 0.

Definition sim0 : Sim := {|
  s_containers := [("aaa", MkDockerContainer "/k8s_web_web-1_default_uid_0" (st_running 41));
                   ("bbb", MkDockerContainer "/db" (st_paused 42));
                   ("ccc", MkDockerContainer "/old" st_exited)];
  s_broken := ["zzz"];
  s_listed := ["aaa"; "bbb"; "ccc"; "zzz"];
  s_docker_err := None;
  s_events := [];
  s_netns_err := None;
  s_failing := [];
  s_links := [("/proc/41/ns/net", "4026531957"); ("/proc/42/ns/net", "4026532000")];
  s_influx_err := None;
  s_response := MkResponse [MkInfluxResult []];
  s_clock := 1234
|}.

(** The process right after [main] has built the plugin. *)
Definition world0 (e : Sim) : World Sim :=
  {| env := e; store := NewStore; tcs := tc_init; trace := [] |}.
