(* ===== verification/Docker.v ===== *)
(** * The Docker client ([src/docker.go])

    [DockerClient] keeps the container store up to date: it lists the
    containers once it is connected, then follows the stream of Docker events,
    and starts over when the stream breaks. The methods are modelled one by one
    ([getContainer], [getContainerState], [getContainerPID], [updateContainer],
    [handleEvent], [getContainers]); the endless loop of [Start] is the step
    function [Start_step] on its control points. *)

From S2P Require Import Prelude Go Strs Nums Store Env Status World Sim.

Section docker.
Context {E : Type} `{!Docker E}.
Abbreviation W := (World E).

(** ** The methods *)

(** NewDockerClient instantiates a new DockerClient; the client holds nothing
    but the store and the connection. *)
Definition NewDockerClient : M W (option error) :=
  err ← ext (docker_NewClient "unix:///var/run/docker.sock");
  mret (ErrConnectDocker <$> err).

Definition getContainer (containerID : string) : M W (option DockerContainer * option error) :=
  r ← ext (docker_InspectContainer containerID);
  match r with
  | inl (InspectFailed e) => mret (None, Some (ErrInspect e))
  | inl (NoSuchContainer _) => mret (None, None)
  | inr dockerContainer => mret (Some dockerContainer, None)
  end.

Definition getContainerState (containerID : string) : M W (option DockerState * option error) :=
  r ← getContainer containerID;
  let '(dockerContainer, err) := r in
  match dockerContainer with
  | None => mret (None, err)
  | Some dockerContainer => mret (Some (DState dockerContainer), None)
  end.

Definition getContainerPID (containerID : string) : M W (Z * option error) :=
  r ← getContainerState containerID;
  let '(containerState, err) := r in
  match containerState with
  | None => mret (0%Z, err)
  | Some containerState => mret (DPid containerState, None)
  end.

Definition updateContainer (containerID : string) (state : State) (pid : Z) : M W unit :=
  if decide (state = Destroyed) then zoom (DeleteContainer containerID)
  else zoom (SetContainer containerID {| CState := state; PID := pid |}).

(** The [switch event.Status]; [None] for the default case. *)
Definition event_state (status : string) : option State :=
  if decide (status = "create") then Some Created
  else if decide (status = "destroy") then Some Destroyed
  else if decide (status = "start" ∨ status = "unpause") then Some Running
  else if decide (status = "die" ∨ status = "pause") then Some Stopped
  else None.

Definition handleEvent (event : APIEvents) : M W unit :=
  match event_state (EStatus event) with
  | None => mret ()
  | Some state =>
      r ← getContainerPID (EID event);
      let '(pid, err) := r in
      match err with
      | Some _ => mret ()
      | None => updateContainer (EID event) state pid
      end
  end.

(** The [switch] on the fields of a Docker state in [getContainers]. *)
Definition classify (s : DockerState) : State :=
  if DDead s || DPaused s || DRestarting s || DOOMKilled s then Stopped
  else if DRunning s then Running
  else Destroyed.

(** The body of the loop over the listed containers. *)
Definition scan_container (id : string) : M W unit :=
  r ← getContainerState id;
  let '(containerState, err) := r in
  match err with
  | Some _ => mret ()
  | None =>
      containerState ← or_panic NilDereference containerState;
      updateContainer id (classify containerState) (DPid containerState)
  end.

Definition getContainers : M W (option error) :=
  r ← ext docker_ListContainers;
  match r with
  | inl e => mret (Some (ErrDocker e))
  | inr apiContainers =>
      _ ← for_range apiContainers scan_container;
      mret None
  end.

(** *** The loop of [Start]

    Control points of one round: add the listener; list the containers;
    receive events; remove the listener (deferred); sleep. A panic of the
    round unwinds through the deferred removal and then ends the goroutine,
    and with it the process. *)
Inductive Pc : Set :=
  | PcAddListener
  | PcGetContainers
  | PcReceive
  | PcRemoveListener
  | PcSleep
  | PcUnwind (p : panic).

Definition catching {A} (m : M W A) (k : A → Pc) : M W Pc := λ w,
  match m w with
  | (Ret a, w') => (Ret (k a), w')
  | (Panicked p, w') => (Ret (PcUnwind p), w')
  | (Exited c, w') => (Exited c, w')
  | (Blocked, w') => (Blocked, w')
  end.

Definition Start_step (pc : Pc) : M W Pc :=
  match pc with
  | PcAddListener =>
      err ← ext docker_AddEventListener;
      mret (match err with Some _ => PcSleep | None => PcGetContainers end)
  | PcGetContainers =>
      catching getContainers (λ err, match err with Some _ => PcRemoveListener | None => PcReceive end)
  | PcReceive =>
      event ← ext docker_receive;
      match event with
      | None => mret PcRemoveListener
      | Some event => catching (handleEvent event) (λ _, PcReceive)
      end
  | PcRemoveListener => _ ← ext docker_RemoveEventListener; mret PcSleep
  | PcSleep => mret PcAddListener
  | PcUnwind p => _ ← ext docker_RemoveEventListener; gopanic p
  end.

Definition start_step (c c' : Pc * W) : Prop :=
  Start_step c.1 c.2 = (Ret c'.1, c'.2).

(** ** What the queries do to the state: only the environment moves *)

Lemma getContainerState_run id w :
  ∃ w', getContainerState id w =
    (Ret (match (docker_InspectContainer id (env w)).1 with
          | inl (InspectFailed e) => (None, Some (ErrInspect e))
          | inl (NoSuchContainer _) => (None, None)
          | inr c => (Some (DState c), None)
          end), w') ∧
    store w' = store w ∧ tcs w' = tcs w ∧ trace w' = trace w ∧
    env w' = (docker_InspectContainer id (env w)).2.
Proof.
  unfold getContainerState, getContainer, mbind, M_bind. rewrite ext_run.
  destruct (docker_InspectContainer id (env w)) as [[[]|c] e]; simpl; eauto 10.
Qed.

Lemma getContainerPID_run id w :
  ∃ w', getContainerPID id w =
    (Ret (match (docker_InspectContainer id (env w)).1 with
          | inl (InspectFailed e) => (0%Z, Some (ErrInspect e))
          | inl (NoSuchContainer _) => (0%Z, None)
          | inr c => (DPid (DState c), None)
          end), w') ∧
    store w' = store w ∧ tcs w' = tcs w ∧ trace w' = trace w.
Proof.
  destruct (getContainerState_run id w) as (w' & Hrun & Hs & Ht & Htr & _).
  exists w'. split; [|done]. unfold getContainerPID. rewrite (bind_Ret _ _ _ _ _ Hrun).
  by destruct (docker_InspectContainer id (env w)).1 as [[]|].
Qed.

(** What [updateContainer] makes of the stored map. *)
Definition put_state (id : string) (state : State) (pid : Z) (m : gmap string Container)
    : gmap string Container :=
  match state with
  | Destroyed => delete id m
  | _ => <[id:={| CState := state; PID := pid |}]> m
  end.

Lemma updateContainer_run id state pid w :
  idle (store w) →
  updateContainer id state pid w =
    (Ret (), update {| locked := false; containers := put_state id state pid (containers (store w)) |} w).
Proof.
  intros Hidle. unfold updateContainer. case_decide as Hst.
  - subst. apply zoom_Ret. by apply DeleteContainer_idle.
  - rewrite (zoom_Ret _ _ _ _ (SetContainer_idle id _ (store w) Hidle)).
    by destruct state.
Qed.
(** What an event does to the map, given Docker's answer about its container. *)
Definition event_effect (r : inspect_error + DockerContainer) (event : APIEvents)
    (m : gmap string Container) : gmap string Container :=
  match event_state (EStatus event), r with
  | Some state, inl (NoSuchContainer _) => put_state (EID event) state 0 m
  | Some state, inr c => put_state (EID event) state (DPid (DState c)) m
  | _, _ => m
  end.

Lemma handleEvent_run event w :
  idle (store w) →
  ∃ w', handleEvent event w = (Ret (), w') ∧ idle (store w') ∧
    containers (store w') =
      event_effect (docker_InspectContainer (EID event) (env w)).1 event (containers (store w)) ∧
    tcs w' = tcs w ∧ trace w' = trace w ∧
    env w' = match event_state (EStatus event) with
             | Some _ => (docker_InspectContainer (EID event) (env w)).2
             | None => env w
             end.
Proof.
  intros Hidle. unfold handleEvent, event_effect.
  destruct (event_state (EStatus event)) as [state|]; [|by exists w].
  unfold getContainerPID.
  destruct (getContainerState_run (EID event) w) as (w1 & Hrun & Hs & Ht & Htr & He).
  unfold mbind, M_bind. rewrite Hrun.
  destruct (docker_InspectContainer (EID event) (env w)) as [[[id|x]|c] e]; simpl in *.
  2: { exists w1. by rewrite Hs. }
  all: (rewrite updateContainer_run by (by rewrite Hs)); eexists; split; [reflexivity|];
    simpl; by rewrite Hs.
Qed.

Lemma scan_container_run id w :
  idle (store w) →
  ∃ w', scan_container id w =
      (match (docker_InspectContainer id (env w)).1 with
       | inl (NoSuchContainer _) => Panicked NilDereference
       | _ => Ret ()
       end, w') ∧ idle (store w') ∧
    containers (store w') =
      match (docker_InspectContainer id (env w)).1 with
      | inr c => put_state id (classify (DState c)) (DPid (DState c)) (containers (store w))
      | _ => containers (store w)
      end ∧
    tcs w' = tcs w ∧ trace w' = trace w ∧
    env w' = (docker_InspectContainer id (env w)).2.
Proof.
  intros Hidle. unfold scan_container.
  destruct (getContainerState_run id w) as (w1 & Hrun & Hs & Ht & Htr & He).
  unfold mbind, M_bind. rewrite Hrun.
  destruct (docker_InspectContainer id (env w)) as [[[id'|x]|c] e]; simpl in *.
  1,2: exists w1; by rewrite Hs.
  rewrite updateContainer_run by (by rewrite Hs). eexists; split; [reflexivity|].
  simpl. by rewrite Hs.
Qed.

(** ** The store only holds live containers *)

Definition live (m : gmap string Container) : Prop :=
  ∀ id c, m !! id = Some c → CState c ≠ Destroyed.

Lemma put_state_live id state pid m : live m → live (put_state id state pid m).
Proof.
  intros Hm id' c. destruct state; simpl;
    [intros [[_ <-]|[_ ?]]%lookup_insert_Some; [done|by eapply Hm]..|].
  intros [_ ?]%lookup_delete_Some. by eapply Hm.
Qed.

Lemma event_effect_live r event m : live m → live (event_effect r event m).
Proof.
  intros Hm. unfold event_effect.
  destruct (event_state _), r as [[]|]; auto using put_state_live.
Qed.

(** The store between two operations: unlocked, live. *)
Definition store_ok (w : W) : Prop := idle (store w) ∧ live (containers (store w)).

#[local] Instance ext_ok {A} (f : E → A * E) : Respects (keeps store_ok) (ext f).
Proof. intros w Hok. by rewrite ext_run. Qed.

#[local] Instance scan_container_ok id : Respects (keeps store_ok) (scan_container id).
Proof.
  intros w [Hi Hl]. destruct (scan_container_run id w Hi) as (w' & -> & Hi' & Hc & _).
  split; [done|]. simpl. rewrite Hc.
  destruct (docker_InspectContainer id (env w)).1 as [[]|]; auto using put_state_live.
Qed.

#[local] Instance handleEvent_ok event : Respects (keeps store_ok) (handleEvent event).
Proof.
  intros w [Hi Hl]. destruct (handleEvent_run event w Hi) as (w' & -> & Hi' & Hc & _).
  split; [done|]. simpl. rewrite Hc. by apply event_effect_live.
Qed.

#[local] Instance getContainers_ok : Respects (keeps store_ok) getContainers.
Proof. apply respects_bind; [apply _..|]. intros [e|ids]; apply _. Qed.

#[global] Instance catching_respects {A} (R : relation W) (m : M W A) k :
  Respects R m → Respects R (catching m k).
Proof. intros Hm w. specialize (Hm w). unfold catching. by destruct (m w) as [[] ?]. Qed.

Lemma Start_step_ok pc : Respects (keeps store_ok) (Start_step pc).
Proof.
  destruct pc; simpl; try apply _.
  apply respects_bind; [apply _..|]. intros [event|]; apply _.
Qed.

(** The goroutine calls Docker and works on the store, and does nothing else:
    it leaves alone the traffic control variables, for example. *)
#[global] Instance Start_step_frame (R : relation W) `{!StoreFrame R} pc : Respects R (Start_step pc).
Proof.
  assert (∀ id, Respects R (getContainerState id)) as Hst.
  { intros id. unfold getContainerState, getContainer. solve_respects. }
  assert (∀ id st pid, Respects R (updateContainer id st pid)) as Hup.
  { intros id st pid. unfold updateContainer. case_decide; apply _. }
  destruct pc; simpl; try apply _.
  - apply catching_respects. unfold getContainers, scan_container. solve_respects.
  - apply respects_bind; [apply _..|]. intros [event|]; [|apply _].
    apply catching_respects. unfold handleEvent, getContainerPID. solve_respects.
Qed.

(** *** Progress: a step on an idle store returns *)

Lemma getContainers_outcome w :
  store_ok w → (∃ err, (getContainers w).1 = Ret err) ∨ (getContainers w).1 = Panicked NilDereference.
Proof.
  intros [Hi Hl]. unfold getContainers, mbind, M_bind. rewrite ext_run.
  destruct (docker_ListContainers (env w)) as [[x|ids] e]; simpl; [by left; eexists|].
  assert (∀ w, idle (store w) → (for_range ids scan_container w).1 = Ret () ∨
    (for_range ids scan_container w).1 = Panicked NilDereference) as Hloop.
  { clear. induction ids as [|id ids IH]; intros w Hi; [by left|]. simpl.
    destruct (scan_container_run id w Hi) as (w' & Hr & Hi' & _).
    unfold mbind, M_bind. rewrite Hr.
    destruct (docker_InspectContainer id (env w)).1 as [[]|]; [by right|by apply IH..]. }
  specialize (Hloop (MkWorld e (store w) (tcs w) (trace w)) Hi).
  destruct (for_range ids scan_container _) as [[] ?]; simpl in *;
    destruct Hloop; simplify_eq; eauto.
Qed.

Lemma Start_step_progress pc w :
  store_ok w → (∀ p, pc ≠ PcUnwind p) → ∃ pc' w', Start_step pc w = (Ret pc', w').
Proof.
  intros Hok Hpc. destruct pc; simpl; unfold mbind, M_bind; rewrite ?ext_run.
  - by eexists _, _.
  - unfold catching. pose proof (getContainers_outcome w Hok) as Hout.
    destruct (getContainers w) as [o w']. simpl in Hout.
    destruct Hout as [[err ->]| ->]; by eexists _, _.
  - destruct (docker_receive (env w)) as [[event|] e]; simpl; [|by eexists _, _].
    unfold catching.
    destruct (handleEvent_run event (MkWorld e (store w) (tcs w) (trace w))) as (w' & -> & _);
      [apply Hok|by eexists _, _].
  - by eexists _, _.
  - by eexists _, _.
  - by destruct (Hpc p).
Qed.

(** C23: in every state the Docker goroutine reaches, the store is unlocked and
    holds no container in state Destroyed, and the goroutine can go on, unless
    it is unwinding a panic. *)
Theorem Start_invariant w0 pc w :
  store w0 = NewStore →
  rtc start_step (PcAddListener, w0) (pc, w) →
  store_ok w ∧ ((∃ p, pc = PcUnwind p) ∨ ∃ pc' w', Start_step pc w = (Ret pc', w')).
Proof.
  intros Hw0 Hrtc.
  assert (store_ok w) as Hok.
  { eapply (rtc_invariant start_step (λ c, store_ok c.2)) in Hrtc; [done| |].
    - intros [pc1 w1] [pc2 w2] Hok Hst. pose proof (Start_step_ok pc1 w1 Hok) as Hr.
      unfold start_step in Hst. simpl in *. by rewrite Hst in Hr.
    - simpl. unfold store_ok. rewrite Hw0. split; [done|]. intros id c. simpl. by rewrite lookup_empty. }
  split; [done|]. destruct pc as [| | | | |p]; [..|by left; eexists]; right;
    by apply Start_step_progress.
Qed.

(** ** The initial listing *)

Section snapshot.
(** While the containers are listed Docker answers from a snapshot [f];
    [I] is the environment invariant under which it does. *)
Variable I : E → Prop.
Variable f : string → inspect_error + DockerContainer.
Hypothesis Hf : ∀ id e, I e →
  (docker_InspectContainer id e).1 = f id ∧ I (docker_InspectContainer id e).2.

(** A container that runs and has nothing wrong with it; one with something
    wrong. *)
Definition healthy (s : DockerState) : Prop :=
  DRunning s = true ∧ DPaused s = false ∧ DRestarting s = false ∧
  DOOMKilled s = false ∧ DDead s = false.
#[local] Instance healthy_dec s : Decision (healthy s).
Proof. unfold healthy. apply _. Defined.

Definition impaired (s : DockerState) : Prop :=
  DPaused s = true ∨ DRestarting s = true ∨ DOOMKilled s = true ∨ DDead s = true.
#[local] Instance impaired_dec s : Decision (impaired s).
Proof. unfold impaired. apply _. Defined.

(** The entry the listing leaves for a listed container. *)
Definition scanned (id : string) (old : option Container) : option Container :=
  match f id with
  | inr c =>
      if decide (healthy (DState c)) then Some {| CState := Running; PID := DPid (DState c) |}
      else if decide (impaired (DState c)) then Some {| CState := Stopped; PID := DPid (DState c) |}
      else None
  | inl _ => old
  end.

Lemma classify_spec s :
  classify s = if decide (healthy s) then Running else if decide (impaired s) then Stopped else Destroyed.
Proof. destruct s as [[] [] [] [] [] pid]; reflexivity. Qed.

Definition vanished (id : string) : bool :=
  match f id with inl (NoSuchContainer _) => true | _ => false end.

Lemma scan_lookup id m id' :
  match f id with
  | inr c => put_state id (classify (DState c)) (DPid (DState c)) m
  | inl _ => m
  end !! id' = if decide (id' = id) then scanned id (m !! id') else m !! id'.
Proof.
  unfold scanned. case_decide as Hid.
  - subst. destruct (f id) as [|c]; [done|]. rewrite classify_spec.
    repeat case_decide; simpl; by rewrite ?lookup_insert_eq, ?lookup_delete_eq.
  - destruct (f id) as [|c]; [done|].
    destruct (classify _); simpl; by rewrite ?lookup_insert_ne, ?lookup_delete_ne.
Qed.

Lemma scan_loop ids w :
  I (env w) → idle (store w) → NoDup ids →
  ∃ w', for_range ids scan_container w =
      (if existsb vanished ids then Panicked NilDereference else Ret (), w') ∧
    idle (store w') ∧
    (existsb vanished ids = false → ∀ id,
      containers (store w') !! id =
        if decide (id ∈ ids) then scanned id (containers (store w) !! id)
        else containers (store w) !! id).
Proof.
  revert w. induction ids as [|i ids IH]; intros w HI Hi Hnd.
  { exists w. split_and!; [done..|]. intros _ id. by rewrite decide_False by set_solver. }
  apply NoDup_cons in Hnd as [Hni Hnd]. simpl.
  destruct (scan_container_run i w Hi) as (w1 & Hr & Hi1 & Hc1 & _ & _ & He1).
  destruct (Hf i (env w) HI) as [Ha HI1]. rewrite Ha in Hr, Hc1. rewrite <-He1 in HI1.
  unfold mbind, M_bind. rewrite Hr.
  destruct (vanished i) eqn:Hv; unfold vanished in Hv; simpl.
  { destruct (f i) as [[]|]; [|done..]. by eexists. }
  destruct (IH w1 HI1 Hi1 Hnd) as (w2 & Hr2 & Hi2 & Hl2).
  exists w2. split; [|split; [done|]].
  { destruct (f i) as [[]|]; done. }
  intros Hex id. rewrite Hl2 by done.
  assert (containers (store w1) !! id =
    if decide (id = i) then scanned i (containers (store w) !! id)
    else containers (store w) !! id) as Hs.
  { rewrite <-scan_lookup, Hc1. by destruct (f i) as [[]|]. }
  rewrite Hs. destruct (decide (id = i)) as [->|Hid].
  - by rewrite (decide_False _ _ Hni), decide_True by apply list_elem_of_here.
  - rewrite (decide_ext (id ∈ i :: ids) (id ∈ ids)); [done|].
    rewrite elem_of_cons. tauto.
Qed.

Lemma getContainers_run w ids e :
  docker_ListContainers (env w) = (inr ids, e) → I e → idle (store w) → NoDup ids →
  ∃ w', getContainers w =
      (if existsb vanished ids then Panicked NilDereference else Ret None, w') ∧
    (existsb vanished ids = false → ∀ id,
      containers (store w') !! id =
        if decide (id ∈ ids) then scanned id (containers (store w) !! id)
        else containers (store w) !! id).
Proof.
  intros Hlist HI Hi Hnd. unfold getContainers, mbind, M_bind.
  rewrite ext_run, Hlist. simpl.
  destruct (scan_loop ids (MkWorld e (store w) (tcs w) (trace w)) HI Hi Hnd)
    as (w' & -> & _ & Hl).
  exists w'. split; [by destruct (existsb _ _)|done].
Qed.

(** C12: listing the containers. If Docker knows every listed container, the
    call returns and every listed container that could be inspected has
    the entry its Docker state calls for, Stopped or Running with its PID,
    or none; nothing else changes. If one of them is gone by the time
    it is inspected, the call panics on a nil pointer. *)
Theorem getContainers_snapshot w ids e id :
  docker_ListContainers (env w) = (inr ids, e) → I e → idle (store w) → NoDup ids →
  let '(out, w') := getContainers w in
  if existsb vanished ids then out = Panicked NilDereference
  else out = Ret None ∧
    containers (store w') !! id =
      if decide (id ∈ ids) then scanned id (containers (store w) !! id)
      else containers (store w) !! id.
Proof.
  intros Hlist HI Hi Hnd.
  destruct (getContainers_run w ids e Hlist HI Hi Hnd) as (w' & -> & Hl).
  destruct (existsb vanished ids); eauto.
Qed.

(** C30: a container that disappears between the listing and its inspection
    ends the goroutine: the panic goes through the deferred removal of the
    listener and out of [Start]. *)
Theorem Start_crashes w ids e :
  docker_ListContainers (env w) = (inr ids, e) → I e → idle (store w) → NoDup ids →
  existsb vanished ids = true →
  ∃ w' w'', start_step (PcGetContainers, w) (PcUnwind NilDereference, w') ∧
    Start_step (PcUnwind NilDereference) w' = (Panicked NilDereference, w'').
Proof.
  intros Hlist HI Hi Hnd Hex.
  destruct (getContainers_run w ids e Hlist HI Hi Hnd) as (w' & Hg & _).
  rewrite Hex in Hg. exists w'. eexists. split.
  - unfold start_step, Start_step, catching. simpl. by rewrite Hg.
  - simpl. unfold mbind, M_bind. rewrite ext_run. done.
Qed.
End snapshot.

(** ** Following events *)

(** The life-cycle events of Docker and the states they lead to. *)
Definition lifecycle_states : list (string * State) :=
  [("create", Created); ("start", Running); ("pause", Stopped); ("unpause", Running);
   ("die", Stopped); ("destroy", Destroyed)].

Definition lifecycle_state (status : string) : option State :=
  snd <$> find (λ p, bool_decide (p.1 = status)) lifecycle_states.

Lemma event_state_spec status : event_state status = lifecycle_state status.
Proof.
  unfold event_state, lifecycle_state. simpl.
  repeat (case_bool_decide; [subst; reflexivity|]).
  by rewrite !decide_False by naive_solver.
Qed.

(** What Docker's answers make of the events, starting in environment [e]: for
    each life-cycle event the container, its new state and the PID that the
    inspection gives, 0 when the container is gone. An event whose inspection
    fails otherwise is dropped. *)
Fixpoint heard (events : list APIEvents) (e : E) : list (string * (State * Z)) :=
  match events with
  | [] => []
  | ev :: events =>
      match lifecycle_state (EStatus ev) with
      | None => heard events e
      | Some st =>
          let r := docker_InspectContainer (EID ev) e in
          match r.1 with
          | inl (InspectFailed _) => heard events r.2
          | inl (NoSuchContainer _) => (EID ev, (st, 0%Z)) :: heard events r.2
          | inr c => (EID ev, (st, DPid (DState c))) :: heard events r.2
          end
      end
  end.

(** The news of one container, in order. *)
Definition news_of (id : string) (news : list (string * (State * Z))) : list (State * Z) :=
  omap (λ n, if decide (n.1 = id) then Some n.2 else None) news.

(** The entry of a container in a state: Destroyed containers have none. *)
Definition shown (n : State * Z) : option Container :=
  match n.1 with Destroyed => None | st => Some (MkContainer st n.2) end.

Lemma put_state_shown id state pid m id' :
  put_state id state pid m !! id' = if decide (id' = id) then shown (state, pid) else m !! id'.
Proof.
  case_decide as Hid.
  - subst. destruct state; simpl; by rewrite ?lookup_insert_eq, ?lookup_delete_eq.
  - destruct state; simpl; by rewrite ?lookup_insert_ne, ?lookup_delete_ne.
Qed.

(** One event in front of others. *)
Lemma heard_cons ev events e m m' id :
  m' = event_effect (docker_InspectContainer (EID ev) e).1 ev m →
  match last (news_of id (heard (ev :: events) e)) with Some n => shown n | None => m !! id end =
  match last (news_of id (heard events (match event_state (EStatus ev) with
      | Some _ => (docker_InspectContainer (EID ev) e).2 | None => e end))) with
  | Some n => shown n | None => m' !! id end.
Proof.
  intros ->. unfold event_effect. rewrite event_state_spec. cbn [heard].
  destruct (lifecycle_state (EStatus ev)) as [st|]; [|by case_match].
  destruct (docker_InspectContainer (EID ev) e).1 as [[|x]|c]; [|by case_match|];
    rewrite put_state_shown; unfold news_of; simpl; rewrite (decide_ext (EID ev = id) (id = EID ev)) by done;
    case_decide; [rewrite last_cons; by destruct (last _)|done|rewrite last_cons; by destruct (last _)|done].
Qed.

(** C16: after any sequence of events, whatever Docker answers, the entry of a
    container shows the state of its last life-cycle event and the PID Docker
    gave then, whatever happened to other containers in between; without such
    an event it is as before. The events that count are those whose inspection
    did not fail, or failed because the container is gone. *)
Theorem handleEvents_last events w id :
  idle (store w) →
  ∃ w', for_range events handleEvent w = (Ret (), w') ∧ idle (store w') ∧
    containers (store w') !! id =
      match last (news_of id (heard events (env w))) with
      | Some n => shown n
      | None => containers (store w) !! id
      end.
Proof.
  revert w. induction events as [|ev events IH]; intros w Hi; [by exists w|].
  simpl for_range. destruct (handleEvent_run ev w Hi) as (w1 & Hr & Hi1 & Hc1 & _ & _ & He1).
  rewrite (bind_Ret _ _ _ _ _ Hr). destruct (IH w1 Hi1) as (w2 & Hr2 & Hi2 & Hl2).
  exists w2. split; [done|]. split; [done|].
  by rewrite Hl2, (heard_cons _ _ _ _ _ _ Hc1), He1.
Qed.
End docker.

(** ** Witnesses: a concrete run against the scripted environment *)

(** Docker lists "gone", which can no longer be inspected. *)
Definition sim_gone : Sim := {|
  s_containers := s_containers sim0; s_broken := []; s_listed := ["aaa"; "gone"; "bbb"];
  s_docker_err := None; s_events := []; s_netns_err := None; s_failing := [];
  s_links := []; s_influx_err := None; s_response := s_response sim0; s_clock := 0 |}.

(** What Docker answers in [sim0] and [sim_gone]. *)
Definition inspect_of (e : Sim) (id : string) : inspect_error + DockerContainer :=
  (docker_InspectContainer id e).1.

Lemma inspect_of_stable (e0 : Sim) id (e : Sim) :
  e = e0 → (docker_InspectContainer id e).1 = inspect_of e0 id ∧ (docker_InspectContainer id e).2 = e0.
Proof. by intros ->. Qed.

Lemma Start_invariant_witness :
  let w := (getContainers (world0 sim0)).2 in
  rtc start_step (PcAddListener, world0 sim0) (PcReceive, w) ∧
  map_to_list (containers (store w)) =
    [("aaa", MkContainer Running 41); ("bbb", MkContainer Stopped 42)] ∧
  store_ok w ∧ ((∃ p, PcReceive = PcUnwind p) ∨ ∃ pc' w', Start_step PcReceive w = (Ret pc', w')).
Proof.
  intros w.
  assert (rtc start_step (PcAddListener, world0 sim0) (PcReceive, w)) as Hrun.
  { apply (rtc_l _ _ (PcGetContainers, world0 sim0)); [reflexivity|].
    apply rtc_once. vm_compute. reflexivity. }
  split; [done|]. split; [vm_compute; reflexivity|].
  by apply (Start_invariant (world0 sim0)).
Defined.

Lemma getContainers_snapshot_witness :
  let '(out, w') := getContainers (world0 sim0) in
  out = Ret None ∧ containers (store w') !! "bbb" = Some (MkContainer Stopped 42).
Proof.
  apply (getContainers_snapshot (λ e, e = sim0) (inspect_of sim0) (inspect_of_stable sim0)
    (world0 sim0) (s_listed sim0) sim0 "bbb"); [reflexivity..|].
  apply (bool_decide_unpack _). vm_compute. exact I.
Defined.

Lemma Start_crashes_witness :
  ∃ w' w'', start_step (PcGetContainers, world0 sim_gone) (PcUnwind NilDereference, w') ∧
    Start_step (PcUnwind NilDereference) w' = (Panicked NilDereference, w'').
Proof.
  apply (Start_crashes (λ e, e = sim_gone) (inspect_of sim_gone) (inspect_of_stable sim_gone)
    (world0 sim_gone) (s_listed sim_gone) sim_gone).
  - reflexivity.
  - reflexivity.
  - reflexivity.
  - apply (bool_decide_unpack _). vm_compute. exact I.
  - reflexivity.
Defined.

(** A run of events of two containers, one of them not a life-cycle event. *)
Definition events0 : list APIEvents :=
  [MkAPIEvents "create" "aaa"; MkAPIEvents "start" "aaa"; MkAPIEvents "start" "bbb";
   MkAPIEvents "exec_start: sh" "aaa"; MkAPIEvents "pause" "bbb"; MkAPIEvents "destroy" "aaa"].

Lemma handleEvents_last_witness :
  (∃ w', for_range events0 handleEvent (world0 sim_gone) = (Ret (), w') ∧
    CState <$> containers (store w') !! "bbb" = Some Stopped) ∧
  (∃ w', for_range events0 handleEvent (world0 sim_gone) = (Ret (), w') ∧
    containers (store w') !! "aaa" = None).
Proof.
  split.
  - destruct (handleEvents_last events0 (world0 sim_gone) "bbb" eq_refl) as (w' & Hr & _ & Hl).
    exists w'. split; [exact Hr|]. rewrite Hl. vm_compute. reflexivity.
  - destruct (handleEvents_last events0 (world0 sim_gone) "aaa" eq_refl) as (w' & Hr & _ & Hl).
    exists w'. split; [exact Hr|]. rewrite Hl. vm_compute. reflexivity.
Defined.
