(* ===== verification/TrafficControl.v ===== *)
(** * Traffic control ([src/tc.go])

    The operations behind the controls of the UI: they run [tc] in the network
    namespace of a container, keep the parameters in the status cache, and fetch
    a missing status from InfluxDB. Functions that return [(T, error)] give a
    pair, because the source sometimes uses the value in spite of the
    error. Log messages are left out; the slice expressions and type assertions
    inside the arguments of logging calls are kept, since they can panic. *)

From S2P Require Import Prelude Go Strs Nums Store Env Status World Sim.

Section tc.
Context {E : Type} `{!Docker E, !Kernel E, !Influx E, !Clock E}.
Abbreviation W := (World E).

Definition random (min max : Z) : M W Z :=
  t ← ext time_Now;
  _ ← ext_ (rand_Seed (unix t));
  let n := wrap64 (max - min) in
  if decide (0 < n)%Z
  then (r ← ext (rand_Intn n); mret (int_add r min))
  else gopanic InvalidRandArgument.

Definition db : string := "ican".

(** ** Running tc *)

Definition tc_replace : list string := Fields "tc qdisc replace dev eth0 root handle 1: netem".
Definition tc_change : list string := Fields "tc qdisc change dev eth0 root handle 1: netem".

(** The body of the loop over the commands; [Some err] is [return err]. *)
Definition run_command (cmd : list string) : M W (option error) :=
  match cmd with
  | [] => gopanic IndexOutOfRange
  | _ =>
      _ ← log (Exec cmd);
      err ← ext (exec_Command cmd);
      mret (ErrExecuteCommand <$> err)
  end.

Definition run_commands (cmds : list (list string)) : M W (option error) :=
  for_return cmds run_command.

(** [ns.WithNetNSPath]: the closure runs inside the namespace. *)
Definition WithNetNSPath (path : string) (toRun : M W (option error)) : M W (option error) :=
  err ← ext (netns_enter path);
  match err with
  | Some e => mret (Some (ErrEnterNetNS e))
  | None =>
      _ ← log (EnterNetNS path);
      err ← toRun;
      _ ← ext_ netns_leave;
      _ ← log LeaveNetNS;
      mret err
  end.

Definition getNSID (nsPath : string) : M W (string * option error) :=
  r ← ext (os_Readlink nsPath);
  match r with
  | inl e => mret ("", Some (ErrReadlink nsPath e))
  | inr nsID =>
      id ← or_panic SliceOutOfRange (slice nsID 5 (Z.of_nat (String.length nsID) - 1));
      mret (id, None)
  end.

Definition applyTrafficControlRules (pid : Z) (rules : list string)
    : M W (string * option error) :=
  let cmds := [tc_replace] in
  let cmd := tc_change ++ rules in
  let cmds := cmds ++ [cmd] in
  let netNS := netns_path pid in
  err ← WithNetNSPath netNS (run_commands cmds);
  match err with
  | Some err => mret ("", Some (ErrPerformTC err))
  | None =>
      r ← getNSID netNS;
      let '(netNSID, err) := r in
      match err with
      | Some err => mret ("", Some err)
      | None => mret (netNSID, None)
      end
  end.

(** ** InfluxDB *)

Definition queryInfluxDB (db command : string) : M W (option Response * option error) :=
  listening ← ext httptest_listen;
  if listening : bool then
    err ← ext influx_NewClient;
    match err with
    | Some _ => goexit 1   (* log.Fatalf *)
    | None =>
        _ ← log (Query db command);
        r ← ext (influx_Query db command);
        match r with
        | inl e => mret (None, Some (ErrInflux e))
        | inr res => mret (Some res, None)
        end
    end
  else gopanic ListenFailed.

(** [x.(string)] and [x.(json.Number)], which panic on another type *)
Definition as_string (x : iface) : option string :=
  match x with IString s => Some s | _ => None end.
Definition as_number (x : iface) : option string :=
  match x with INumber s => Some s | _ => None end.

(** [resp.Results[0].Series[i].Values[0][j]] *)
Definition cell (r : InfluxResult) (i j : nat) : M W iface :=
  s ← or_panic IndexOutOfRange (Series r !! i);
  row ← or_panic IndexOutOfRange (Values s !! 0);
  or_panic IndexOutOfRange (row !! j).

Definition parseAttribute (resp : option Response) : M W (list string) :=
  let result := ["-"; "-"; "-"] in
  match resp with
  | None => mret result
  | Some resp =>
      r0 ← or_panic IndexOutOfRange (Results resp !! 0);
      if decide (1 < length (Series r0)) then
        x ← cell r0 0 1;
        result ← (match as_string x with
                  | Some dpod =>
                      y ← cell r0 0 5;
                      _ ← or_panic TypeAssertion (as_string y);
                      mret (<[0:=dpod]> result)
                  | None => mret result
                  end);
        x ← cell r0 0 8;
        n ← or_panic TypeAssertion (as_number x);
        let '(bandwidth, err) := ParseInt n in
        y ← cell r0 1 8;
        n ← or_panic TypeAssertion (as_number y);
        let '(packet, err) := ParseInt n in
        let result := <[1:=FormatInt bandwidth]> result in
        mret (<[2:=FormatInt packet]> result)
      else mret result
  end.

(** ** The status of a container *)

Definition influx_cmd : string := "select * from p2ptxbyte, p2ptxpkt".

Definition getStatus (pid : Z) : M W (option loc * option error) :=
  r ← getNSID (netns_path pid);
  let '(netNSID, err) := r in
  match err with
  | Some err => mret (None, Some (ErrNSID err))
  | None =>
      status ← zoom (cache_get netNSID);
      match status with
      | Some _ => mret (status, None)
      | None =>
          r ← queryInfluxDB db influx_cmd;
          let '(res, err) := r in
          result ← parseAttribute res;
          match err with
          | Some err => mret (None, Some (ErrInfluxData err))
          | None =>
              r0 ← or_panic IndexOutOfRange (result !! 0);
              r1 ← or_panic IndexOutOfRange (result !! 1);
              r2 ← or_panic IndexOutOfRange (result !! 2);
              _ ← zoom (cache_new netNSID {| dpod := r0; latency := r1; packetLoss := r2 |});
              status ← zoom (cache_get netNSID);
              mret (status, err)
          end
      end
  end.

Definition getPacketLoss (pid : Z) : M W (string * option error) :=
  r ← getStatus pid;
  let '(status, err) := r in
  match err, status with
  | Some err, _ => mret ("-", Some err)
  | None, None => mret ("-", Some (ErrStatusMissing pid))
  | None, Some _ => t ← zoom (deref status); mret (packetLoss t, None)
  end.

(** ** The operations behind the controls *)

(** The update of the cached values that ends [ApplyLatency] and
    [ApplyPacketLoss]. *)
Definition update_cached (netNSID lat loss : string) : M W unit :=
  status ← zoom (cache_get netNSID);
  _ ← (match status with
       | None => zoom (cache_new netNSID TrafficControlStatusInit)
       | Some _ => mret ()
       end);
  _ ← zoom (cache_update netNSID (SetLatency lat));
  zoom (cache_update netNSID (SetPacketLoss loss)).

Definition ApplyLatency (pid : Z) (latency : string) : M W (option error) :=
  if decide (latency = "") then mret None else
  let rules := Fields ("delay " +:+ latency) in
  r ← getPacketLoss pid;
  let '(packetLoss, err) := r in
  match err with
  | Some err => mret (Some err)
  | None =>
      let rules := if decide (packetLoss = "-") then rules
                   else rules ++ Fields ("loss " +:+ packetLoss) in
      r ← applyTrafficControlRules pid rules;
      let '(netNSID, _) := r in
      _ ← update_cached netNSID latency packetLoss;
      mret None
  end.

Definition ApplyPacketLoss (pid : Z) (packetLoss : string) : M W (option error) :=
  if decide (packetLoss = "") then mret None else
  let rules := Fields ("loss " +:+ packetLoss) in
  n ← random 700 34000;
  let latency := Itoa n in
  let rules := rules ++ Fields ("delay " +:+ latency) in
  r ← applyTrafficControlRules pid rules;
  let '(netNSID, _) := r in
  _ ← update_cached netNSID latency packetLoss;
  mret None.

Definition ClearTrafficControlSettings (pid : Z) : M W (option error) :=
  let cmds := [tc_replace] in
  let netNS := netns_path pid in
  err ← WithNetNSPath netNS (run_commands cmds);
  match err with
  | Some err => mret (Some (ErrPerformTC err))
  | None =>
      r ← getNSID netNS;
      let '(netNSID, err) := r in
      match err with
      | Some err => mret (Some (ErrNSID err))
      | None =>
          _ ← zoom (cache_delete netNSID);
          mret None
      end
  end.

(** ** The pod of a container *)

Definition containerNamePrefix : string := "k8s".

Definition parsePodName (name : string) : M W (string * option error) :=
  let name := TrimPrefix name "/" in
  let parts := Split name "_" in
  if decide (length parts = 0 ∨ parts !! 0 ≠ Some containerNamePrefix)
  then mret ("", Some (ErrDockerName name))
  else if decide (length parts < 6)
  then mret ("", Some (ErrFewerParts name parts))
  else
    p1 ← or_panic IndexOutOfRange (parts !! 1);
    let nameParts := Split p1 "." in
    _ ← or_panic IndexOutOfRange (nameParts !! 0);
    podFullName ← or_panic IndexOutOfRange (parts !! 2);
    mret (podFullName, None).

(** Errors are created and dropped; a nil client or container panics when it
    is used. *)
Definition getPod (containerID : string) : M W (string * option error) :=
  err ← ext (docker_NewClient "unix:///var/run/docker.sock");
  match err with
  | Some _ => gopanic NilDereference
  | None =>
      r ← ext (docker_InspectContainer containerID);
      match r with
      | inl _ => gopanic NilDereference
      | inr container =>
          r ← parsePodName (DName container);
          mret (r.1, None)
      end
  end.

Definition getStatusByPod (dpod : string) : M W (option NetworkControlStatus * option error) :=
  bandwidth ← random 700 34000;
  latency ← random 140 230;
  packet ← random 5 80;
  mret (Some {| n_spod := ""; n_dpod := dpod; n_bandwidth := Itoa bandwidth;
                n_packet := Itoa packet; n_latency := Itoa latency |}, None).

Definition parseStatus (resp : option Response) : M W NetworkControlStatus :=
  bandwidth ← random 700 34000;
  latency ← random 140 230;
  packet ← random 5 80;
  mret {| n_spod := ""; n_dpod := "dpod"; n_bandwidth := Itoa bandwidth;
          n_packet := Itoa packet; n_latency := Itoa latency |}.
(** ** Frames

    A relation on worlds that external calls, log entries of the kinds made
    here and the operations on the cache respect is respected by everything in
    this file. *)

(** The actions of this file. *)
Class TcAction (a : action) : Prop :=
  tc_action : match a with
              | EnterNetNS _ | LeaveNetNS | Exec _ | Query _ _ => True
              | RemoveAll _ | MkdirAll _ _ | Listen _ _ => False
              end.
#[global] Instance EnterNetNS_tc path : TcAction (EnterNetNS path) := I.
#[global] Instance LeaveNetNS_tc : TcAction LeaveNetNS := I.
#[global] Instance Exec_tc cmd : TcAction (Exec cmd) := I.
#[global] Instance Query_tc db command : TcAction (Query db command) := I.

Class Frame (R : relation W) : Prop := {
  frame_preorder :: PreOrder R;
  frame_ext A (f : E → A * E) :: Respects R (ext f);
  frame_log a `{!TcAction a} :: Respects R (log a);
  frame_get key :: Respects R (zoom (cache_get key));
  frame_deref p :: Respects R (zoom (deref p));
  frame_new key t :: Respects R (zoom (cache_new key t));
  frame_update key f :: Respects R (zoom (cache_update key f));
  frame_delete key :: Respects R (zoom (cache_delete key))
}.

(** The cache invariants are frames, *)
#[global] Instance cache_pred_frame (P : TcState → Prop) `{!CachePred P} :
  Frame (keeps (λ w : W, P (tcs w))).
Proof.
  split; try apply _.
  - intros A f w Hw. by rewrite ext_run.
  - by intros a _ w Hw.
  - by intros key w Hw.
  - intros p w Hw. unfold zoom, deref, mbind, M_bind, get. simpl.
    by destruct (target (heap (tcs w)) p).
  - intros key t. exact (zoom_keeps (S:=W) P (cache_new key t) _).
  - intros key f. exact (zoom_keeps (S:=W) P (cache_update key f) _).
  - intros key. exact (zoom_keeps (S:=W) P (cache_delete key) _).
Qed.

(** and so is that the container store stays as it is. *)
#[global] Instance store_frame : Frame (same store).
Proof. split; apply _. Qed.

Section frames.
Context (R : relation W) `{!Frame R}.

#[global] Instance ext__frame (f : E → E) : Respects R (ext_ f).
Proof. unfold ext_. apply _. Qed.
#[global] Instance random_frame min max : Respects R (random min max).
Proof. unfold random. solve_respects. Qed.
#[global] Instance run_commands_frame cmds : Respects R (run_commands cmds).
Proof. unfold run_commands. apply respects_for_return; [apply _|]. intros cmd. unfold run_command. solve_respects. Qed.
#[global] Instance WithNetNSPath_frame path m : Respects R m → Respects R (WithNetNSPath path m).
Proof. intros ?. unfold WithNetNSPath. solve_respects. Qed.
#[global] Instance getNSID_frame path : Respects R (getNSID path).
Proof. unfold getNSID. solve_respects. Qed.
#[global] Instance apply_frame pid rules : Respects R (applyTrafficControlRules pid rules).
Proof. unfold applyTrafficControlRules. solve_respects. Qed.
#[global] Instance queryInfluxDB_frame d c : Respects R (queryInfluxDB d c).
Proof. unfold queryInfluxDB. solve_respects. Qed.
#[global] Instance parseAttribute_frame resp : Respects R (parseAttribute resp).
Proof. unfold parseAttribute, cell. solve_respects. Qed.
#[global] Instance getStatus_frame pid : Respects R (getStatus pid).
Proof. unfold getStatus. solve_respects. Qed.
#[global] Instance getPacketLoss_frame pid : Respects R (getPacketLoss pid).
Proof. unfold getPacketLoss. solve_respects. Qed.
#[global] Instance update_cached_frame id lat loss : Respects R (update_cached id lat loss).
Proof. unfold update_cached. solve_respects. Qed.
#[global] Instance ApplyLatency_frame pid lat : Respects R (ApplyLatency pid lat).
Proof. unfold ApplyLatency. solve_respects. Qed.
#[global] Instance ApplyPacketLoss_frame pid loss : Respects R (ApplyPacketLoss pid loss).
Proof. unfold ApplyPacketLoss. solve_respects. Qed.
#[global] Instance Clear_frame pid : Respects R (ClearTrafficControlSettings pid).
Proof. unfold ClearTrafficControlSettings. solve_respects. Qed.
#[global] Instance parsePodName_frame name : Respects R (parsePodName name).
Proof. unfold parsePodName. solve_respects. Qed.
#[global] Instance getPod_frame id : Respects R (getPod id).
Proof. unfold getPod. solve_respects. Qed.
#[global] Instance getStatusByPod_frame pod : Respects R (getStatusByPod pod).
Proof. unfold getStatusByPod. solve_respects. Qed.
End frames.
(** ** Random values *)

Lemma random_run `{!ClockLaws E} (I : E → Prop) min max w :
  (∀ e, I e → I (time_Now e).2 ∧ (∀ s, I (rand_Seed s e)) ∧ (∀ n, I (rand_Intn n e).2)) →
  I (env w) → (0 ≤ min < max)%Z → (max ≤ max_int64)%Z →
  ∃ n w', random min max w = (Ret n, w') ∧ (min ≤ n < max)%Z ∧ I (env w') ∧
    own w' = own w ∧ trace w' = trace w.
Proof.
  intros HI Hw Hm Hb. unfold random, ext_.
  erewrite bind_Ret by apply ext_run. erewrite bind_Ret by apply ext_run. cbv zeta.
  assert (wrap64 (max - min) = max - min)%Z as ->.
  { apply wrap64_id. unfold int64, min_int64, max_int64 in *. lia. }
  rewrite decide_True by lia. erewrite bind_Ret by apply ext_run. simpl.
  set (e := rand_Seed _ _).
  pose proof (rand_Intn_range (max - min) e). assert (I e) by (by apply HI, HI).
  eexists _, _. split; [done|]. unfold int_add. rewrite wrap64_id.
  - split; [lia|]. split; [by apply HI|done].
  - unfold int64, min_int64, max_int64 in *. lia.
Qed.

(** ** tc sessions *)

(** The variables of the plugin. *)
Abbreviation same_own := (same (own (E:=E))).

(** The actions of a complete run of [tc] for a process. *)
Definition tc_session (pid : Z) (cmds : list (list string)) : list action :=
  EnterNetNS (netns_path pid) :: (Exec <$> cmds) ++ [LeaveNetNS].

Lemma slice_inode inode :
  let nsID := "net:[" +:+ inode +:+ "]" in
  slice nsID 5 (Z.of_nat (String.length nsID) - 1) = Some inode.
Proof. exact (slice_bracket "net:[" inode "]"). Qed.

Lemma getNSID_run `{!KernelLaws E} pid w :
  ∃ r w', getNSID (netns_path pid) w = (Ret r, w') ∧
    own w' = own w ∧ trace w' = trace w ∧
    env w' = (os_Readlink (netns_path pid) (env w)).2 ∧
    match (os_Readlink (netns_path pid) (env w)).1 with
    | inl e => r = ("", Some (ErrReadlink (netns_path pid) e))
    | inr t => ∃ inode, t = "net:[" +:+ inode +:+ "]" ∧ r = (inode, None)
    end.
Proof.
  unfold getNSID, mbind, M_bind. rewrite ext_run.
  pose proof (Readlink_netns pid (env w)) as Hlink.
  destruct (os_Readlink (netns_path pid) (env w)) as [[x|t] e]; cbn [fst snd].
  - by eexists _, _.
  - destruct (Hlink t eq_refl) as [inode ->]. rewrite slice_inode. simpl. eauto 10.
Qed.

(** The commands run in order, up to the first that fails. *)
Lemma run_commands_run cmds w :
  Forall (λ c, c ≠ []) cmds →
  ∃ done rest err w', cmds = done ++ rest ∧
    run_commands cmds w = (Ret (ErrExecuteCommand <$> err), w') ∧
    own w' = own w ∧ trace w' = trace w ++ (Exec <$> done) ∧
    (err = None → rest = []) ∧ (err ≠ None → done ≠ []).
Proof.
  intros Hne. revert w. induction Hne as [|cmd cmds Hc Hne IH]; intros w.
  { exists [], [], None, w. simpl. rewrite app_nil_r. by split_and!. }
  destruct cmd as [|c0 args]; [done|]. unfold run_commands. simpl.
  unfold mbind, M_bind. simpl. rewrite ext_run. simpl.
  destruct (exec_Command (c0 :: args) (env w)) as [[x|] e]; simpl.
  - by eexists [c0 :: args], cmds, (Some x), _.
  - destruct (IH (MkWorld e (store w) (tcs w) (trace w ++ [Exec (c0 :: args)])))
      as (ran & rest & err & w' & -> & Hr & Ho & Ht & Hn & _).
    exists ((c0 :: args) :: ran), rest, err, w'. split; [done|].
    split; [exact Hr|]. split; [done|]. split; [|done].
    rewrite Ht. simpl. by rewrite <-app_assoc.
Qed.

Lemma WithNetNSPath_run path cmds w :
  Forall (λ c, c ≠ []) cmds →
  ∃ err acts w', WithNetNSPath path (run_commands cmds) w = (Ret err, w') ∧
    own w' = own w ∧ trace w' = trace w ++ acts ∧
    match err with
    | None => acts = EnterNetNS path :: (Exec <$> cmds) ++ [LeaveNetNS]
    | Some (ErrEnterNetNS _) => acts = []
    | Some (ErrExecuteCommand _) =>
        ∃ done rest, cmds = done ++ rest ∧ done ≠ [] ∧
          acts = EnterNetNS path :: (Exec <$> done) ++ [LeaveNetNS]
    | _ => False
    end.
Proof.
  intros Hne. unfold WithNetNSPath. erewrite bind_Ret by apply ext_run.
  destruct (netns_enter path (env w)) as [[x|] e]; simpl.
  { eexists _, [], _. split; [done|]. by rewrite app_nil_r. }
  erewrite bind_Ret by done.
  edestruct (run_commands_run cmds) as (ran & rest & err & w1 & Hc & Hr & Ho & Ht & Hn & Hd);
    [done|]. rewrite (bind_Ret _ _ _ _ _ Hr).
  unfold ext_. erewrite bind_Ret by apply ext_run. erewrite bind_Ret by done.
  eexists _, _, _. split; [done|]. split; [exact Ho|]. simpl in *. rewrite Ht.
  split; [by rewrite <-!app_assoc|]. destruct err as [x|]; simpl.
  - exists ran, rest. naive_solver.
  - rewrite Hn, app_nil_r in Hc by done. by subst.
Qed.

Lemma tc_commands_nonempty rules : Forall (λ c, c ≠ []) [tc_replace; tc_change ++ rules].
Proof. repeat constructor; done. Qed.

Definition apply_post (pid : Z) (rules : list string) (id : string) (err : option error)
    (acts : list action) : Prop :=
  match err with
  | None => acts = tc_session pid [tc_replace; tc_change ++ rules]
  | Some (ErrPerformTC (ErrEnterNetNS _)) => id = "" ∧ acts = []
  | Some (ErrPerformTC (ErrExecuteCommand _)) =>
      id = "" ∧ (acts = tc_session pid [tc_replace] ∨
                 acts = tc_session pid [tc_replace; tc_change ++ rules])
  | Some (ErrReadlink _ _) => id = "" ∧ acts = tc_session pid [tc_replace; tc_change ++ rules]
  | _ => False
  end.

Lemma apply_run `{!KernelLaws E} pid rules w :
  ∃ id err acts w', applyTrafficControlRules pid rules w = (Ret (id, err), w') ∧
    own w' = own w ∧ trace w' = trace w ++ acts ∧
    apply_post pid rules id err acts.
Proof.
  unfold applyTrafficControlRules, apply_post. simpl.
  destruct (WithNetNSPath_run (netns_path pid) _ w (tc_commands_nonempty rules))
    as (err & acts & w1 & Hr & Ho & Ht & Hspec).
  rewrite (bind_Ret _ _ _ _ _ Hr). destruct err as [err|].
  { eexists _, _, _, _. split; [done|]. split; [done|]. split; [done|].
    destruct err; try done. split; [done|]. destruct Hspec as (ran & rest & Hc & Hd & ->).
    destruct ran as [|c1 [|c2 [|]]]; simplify_eq/=; auto. }
  destruct (getNSID_run pid w1) as (r & w2 & Hr2 & Ho2 & Ht2 & _ & Hlink).
  rewrite (bind_Ret _ _ _ _ _ Hr2).
  destruct (os_Readlink (netns_path pid) (env w1)).1 as [x|t].
  - subst r. eexists _, _, _, _. split; [done|]. rewrite Ho2, Ht2. subst acts.
    split; [done|]. by split.
  - destruct Hlink as (inode & -> & ->). eexists _, _, _, _. split; [done|].
    rewrite Ho2, Ht2. subst acts. by split.
Qed.
(** C13: applyTrafficControlRules never panics and touches no variable of the
    plugin. It succeeds only after it ran, inside the network namespace of
    the process and in this order, the command that installs a fresh netem
    qdisc and the command that sets the rules. On an error the returned ID is
    empty and what ran is nothing (the namespace could not be entered) or a
    first part of that session, and the namespace was left again. *)
Theorem applyTrafficControlRules_spec `{!KernelLaws E} pid rules w :
  ∃ id err w' acts, applyTrafficControlRules pid rules w = (Ret (id, err), w') ∧
    own w' = own w ∧ trace w' = trace w ++ acts ∧
    (err = None → acts = tc_session pid [tc_replace; tc_change ++ rules]) ∧
    (err ≠ None → id = "" ∧ (acts = [] ∨ acts = tc_session pid [tc_replace] ∨
      acts = tc_session pid [tc_replace; tc_change ++ rules])).
Proof.
  destruct (apply_run pid rules w) as (id & err & acts & w' & Hr & Ho & Ht & Hs).
  exists id, err, w', acts. split_and!; [done..| |]; unfold apply_post in Hs.
  - by intros ->.
  - intros Hne. repeat (case_match; try done); intuition (subst; eauto).
Qed.

(** ** The cache update *)

Lemma zoom_cache_get id (w : W) : zoom (cache_get id) w = (Ret (entry (tcs w) id), w).
Proof. by destruct w. Qed.

Lemma zoom_deref p (w : W) t :
  target (heap (tcs w)) p = Some t → zoom (deref p) w = (Ret t, w).
Proof.
  intros Ht. unfold zoom, deref, mbind, M_bind, get. simpl. rewrite Ht. by destruct w.
Qed.

Lemma update_cached_run id lat loss w m :
  wf (tcs w) → trafficControlStatusCache (tcs w) = Some m →
  ∃ w', update_cached id lat loss w = (Ret (), w') ∧ wf (tcs w') ∧
    env w' = env w ∧ store w' = store w ∧ trace w' = trace w ∧
    absr (tcs w') = Some (<[id := {|
      dpod := match cached (tcs w) id with Some t => dpod t | None => "-" end;
      latency := lat; packetLoss := loss |}]> (values (heap (tcs w)) m)).
Proof.
  intros Hwf Hm. unfold update_cached. rewrite (bind_Ret _ _ _ _ _ (zoom_cache_get id w)).
  (* the entry, created when there is none *)
  assert (∃ w1 m1 t, (match entry (tcs w) id with
      | None => zoom (cache_new id TrafficControlStatusInit)
      | Some _ => mret () end) w = (Ret (), w1) ∧ wf (tcs w1) ∧
    trafficControlStatusCache (tcs w1) = Some m1 ∧ cached (tcs w1) id = Some t ∧
    dpod t = match cached (tcs w) id with Some t => dpod t | None => "-" end ∧
    (∀ x, <[id:=x]> (values (heap (tcs w1)) m1) = <[id:=x]> (values (heap (tcs w)) m)) ∧
    env w1 = env w ∧ store w1 = store w ∧ trace w1 = trace w)
    as (w1 & m1 & t & Hr & Hwf1 & Hm1 & Hc1 & Hd & Hv & He & Hs & Ht).
  { destruct (entry (tcs w) id) as [l|] eqn:Hl.
    - assert (is_Some (cached (tcs w) id)) as [t Ht].
      { unfold cached. rewrite Hl. unfold entry in Hl. rewrite Hm in Hl.
        by apply (wf_valid _ Hwf m id). }
      exists w, m, t. rewrite Ht. by split_and!.
    - destruct (cache_new_spec id TrafficControlStatusInit _ m Hwf Hm)
        as (s' & Hr & Hwf' & Ha & _).
      destruct (trafficControlStatusCache s') as [m1|] eqn:Hm1.
      2: { unfold absr in Ha. by rewrite Hm1 in Ha. }
      assert (values (heap s') m1 = <[id:=TrafficControlStatusInit]> (values (heap (tcs w)) m)) as Hv.
      { unfold absr in Ha. rewrite Hm1 in Ha. by simplify_eq. }
      exists (update s' w), m1, TrafficControlStatusInit.
      split; [by apply zoom_Ret|]. split_and!; [done|done| | | |done..].
      + rewrite cached_absr. simpl. rewrite Ha. apply lookup_insert_eq.
      + unfold cached. by rewrite Hl.
      + intros x. simpl. by rewrite Hv, insert_insert_eq. }
  rewrite (bind_Ret _ _ _ _ _ Hr).
  destruct (cache_update_spec id (SetLatency lat) _ m1 t Hwf1 Hm1 Hc1)
    as (s2 & Hr2 & Hwf2 & Hm2 & Ha2 & _).
  erewrite bind_Ret by (apply zoom_Ret; exact Hr2).
  assert (cached s2 id = Some (SetLatency lat t)) as Hc2.
  { rewrite cached_absr, Ha2. apply lookup_insert_eq. }
  destruct (cache_update_spec id (SetPacketLoss loss) s2 m1 _ Hwf2 Hm2 Hc2)
    as (s3 & Hr3 & Hwf3 & Hm3 & Ha3 & _).
  eexists. split; [apply zoom_Ret; exact Hr3|].
  split; [exact Hwf3|]. split_and!; [done..|].
  simpl. rewrite Ha3. f_equal.
  assert (values (heap s2) m1 = <[id:=SetLatency lat t]> (values (heap (tcs w1)) m1)) as ->.
  { unfold absr in Ha2. rewrite Hm2 in Ha2. by simplify_eq. }
  rewrite insert_insert_eq, Hv, SetLatency_with, SetPacketLoss_with, <-Hd. done.
Qed.

Lemma update_cached_nil id lat loss w :
  nil_cache (tcs w) →
  ∃ w', update_cached id lat loss w = (Panicked NilMapWrite, w') ∧ trace w' = trace w.
Proof.
  intros Hnil. destruct w as [e s [h n c nc] t]. unfold nil_cache in Hnil. simpl in Hnil. subst.
  by eexists.
Qed.

(** ** The controls when the kernel cooperates *)

Section working.
(** While the invariant [I] of the environment holds, the namespace of the
    process can be entered, the commands that [accepted] describes succeed in
    it, and its link names [inode]. Of the other commands nothing is said; each
    theorem asks that the commands it runs are accepted. *)
Variable pid : Z.
Variable inode : string.
Variable I : E → Prop.
Variable accepted : list string → Prop.
Hypothesis enter_works : ∀ e, I e →
  (netns_enter (netns_path pid) e).1 = None ∧ I (netns_enter (netns_path pid) e).2.
Hypothesis leave_works : ∀ e, I e → I (netns_leave e).
Hypothesis exec_works : ∀ cmd e, accepted cmd → I e →
  (exec_Command cmd e).1 = None ∧ I (exec_Command cmd e).2.
Hypothesis link_works : ∀ e, I e →
  (os_Readlink (netns_path pid) e).1 = inr ("net:[" +:+ inode +:+ "]") ∧
  I (os_Readlink (netns_path pid) e).2.

Lemma getNSID_works w :
  I (env w) → ∃ w', getNSID (netns_path pid) w = (Ret (inode, None), w') ∧
    I (env w') ∧ own w' = own w ∧ trace w' = trace w.
Proof.
  intros HI. destruct (link_works _ HI) as [Hl HI']. unfold getNSID, mbind, M_bind.
  rewrite ext_run, Hl, slice_inode. by eexists.
Qed.

Lemma session_works cmds w :
  Forall (λ c, c ≠ []) cmds → Forall accepted cmds → I (env w) →
  ∃ w', WithNetNSPath (netns_path pid) (run_commands cmds) w = (Ret None, w') ∧
    I (env w') ∧ own w' = own w ∧ trace w' = trace w ++ tc_session pid cmds.
Proof.
  intros Hne Hacc HI. unfold WithNetNSPath. erewrite bind_Ret by apply ext_run.
  destruct (enter_works _ HI) as [-> HI1]. erewrite bind_Ret by done.
  assert (∀ w1, I (env w1) → ∃ w2, run_commands cmds w1 = (Ret None, w2) ∧
    I (env w2) ∧ own w2 = own w1 ∧ trace w2 = trace w1 ++ (Exec <$> cmds)) as Hrun.
  { clear w HI HI1. induction Hne as [|cmd cmds Hc Hne IH]; intros w HI.
    { exists w. simpl. by rewrite app_nil_r. }
    apply Forall_cons in Hacc as [Hok Hacc].
    destruct cmd as [|c0 args]; [done|]. destruct (exec_works (c0 :: args) _ Hok HI) as [He HI1].
    unfold run_commands. simpl. unfold mbind, M_bind. simpl. rewrite ext_run. simpl.
    rewrite He. simpl.
    destruct (IH Hacc (MkWorld (exec_Command (c0 :: args) (env w)).2 (store w) (tcs w)
      (trace w ++ [Exec (c0 :: args)])) HI1) as (w2 & Hr & HI2 & Ho & Ht).
    exists w2. split; [exact Hr|]. rewrite Ht. simpl. by rewrite <-app_assoc. }
  edestruct Hrun as (w2 & Hr & HI2 & Ho & Ht);
    [|rewrite (bind_Ret _ _ _ _ _ Hr)]; [exact HI1|].
  unfold ext_. erewrite bind_Ret by apply ext_run. erewrite bind_Ret by done.
  eexists. split; [done|]. split; [by apply leave_works|]. split; [exact Ho|].
  simpl in *. rewrite Ht. unfold tc_session. by rewrite <-!app_assoc.
Qed.

Lemma apply_works rules w :
  accepted tc_replace → accepted (tc_change ++ rules) → I (env w) → ∃ w', applyTrafficControlRules pid rules w = (Ret (inode, None), w') ∧
    I (env w') ∧ own w' = own w ∧
    trace w' = trace w ++ tc_session pid [tc_replace; tc_change ++ rules].
Proof.
  intros Hacc1 Hacc2 HI. unfold applyTrafficControlRules. simpl.
  destruct (session_works _ w (tc_commands_nonempty rules) ltac:(by repeat constructor) HI) as (w1 & Hr & HI1 & Ho & Ht).
  rewrite (bind_Ret _ _ _ _ _ Hr).
  destruct (getNSID_works w1 HI1) as (w2 & Hr2 & HI2 & Ho2 & Ht2).
  rewrite (bind_Ret _ _ _ _ _ Hr2). exists w2. by rewrite Ho2, Ht2.
Qed.

(** The rules of a latency control that keeps the loss in force. *)
Definition delay_rules (lat loss : string) : list string :=
  Fields ("delay " +:+ lat) ++ (if decide (loss = "-") then [] else Fields ("loss " +:+ loss)).

(** C19: provided the namespace of the process can be entered and its link
    read, and tc accepts the two commands that are run, changing the latency of
    a container whose status is cached keeps the packet loss that is in force:
    the rules are the new delay and the cached loss (unless it is "-"), tc is
    run once with them, and the cached status gets the new latency and keeps
    its other fields. *)
Theorem ApplyLatency_cached lat w m t :
  I (env w) → wf (tcs w) → trafficControlStatusCache (tcs w) = Some m →
  cached (tcs w) inode = Some t → lat ≠ "" →
  accepted tc_replace → accepted (tc_change ++ delay_rules lat (packetLoss t)) →
  ∃ w', ApplyLatency pid lat w = (Ret None, w') ∧
    trace w' = trace w ++
      tc_session pid [tc_replace; tc_change ++ delay_rules lat (packetLoss t)] ∧
    absr (tcs w') = Some (<[inode := {| dpod := dpod t; latency := lat;
                                        packetLoss := packetLoss t |}]> (values (heap (tcs w)) m)) ∧
    store w' = store w ∧ wf (tcs w').
Proof.
  intros HI Hwf Hm Hc Hlat Hacc1 Hacc2. unfold ApplyLatency. rewrite decide_False by done. cbv zeta.
  assert (∃ w1, getPacketLoss pid w = (Ret (packetLoss t, None), w1) ∧ I (env w1) ∧
    own w1 = own w ∧ trace w1 = trace w) as (w1 & Hr1 & HI1 & Ho1 & Ht1).
  { unfold getPacketLoss, getStatus.
    destruct (getNSID_works w HI) as (w1 & Hr & HI1 & Ho1 & Ht1).
    destruct (own_inj _ _ Ho1) as [_ Htc].
    rewrite bind_assoc, (bind_Ret _ _ _ _ _ Hr), bind_assoc.
    rewrite (bind_Ret _ _ _ _ _ (zoom_cache_get inode w1)), Htc.
    destruct (entry (tcs w) inode) as [l|] eqn:Hl; unfold cached in Hc; rewrite Hl in Hc; [|done].
    rewrite bind_mret. cbv beta iota.
    erewrite bind_Ret by (apply zoom_deref; by rewrite Htc). by exists w1. }
  rewrite (bind_Ret _ _ _ _ _ Hr1).
  replace (if decide (packetLoss t = "-") then _ else _) with (delay_rules lat (packetLoss t))
    by (unfold delay_rules; case_decide; [by rewrite app_nil_r|done]).
  destruct (apply_works (delay_rules lat (packetLoss t)) w1 Hacc1 Hacc2 HI1) as (w2 & Hr2 & HI2 & Ho2 & Ht2).
  rewrite (bind_Ret _ _ _ _ _ Hr2).
  assert (tcs w2 = tcs w ∧ store w2 = store w) as [Htc2 Hs2] by (rewrite Ho1 in Ho2; by destruct (own_inj _ _ Ho2)).
  destruct (update_cached_run inode lat (packetLoss t) w2 m) as
    (w3 & Hr3 & Hwf3 & He3 & Hs3 & Ht3 & Ha3); [by rewrite Htc2..|].
  rewrite (bind_Ret _ _ _ _ _ Hr3). exists w3. split; [done|].
  rewrite Ht3, Ht2, Ht1, Ha3, Htc2, Hc, Hs3, Hs2. by split_and!.
Qed.

(** The rules of a packet loss control, for a random number. *)
Definition loss_rules (loss : string) (n : Z) : list string :=
  Fields ("loss " +:+ loss) ++ ["delay"; Itoa n].

Lemma loss_rules_eq loss n :
  (0 ≤ n)%Z → Fields ("loss " +:+ loss) ++ Fields ("delay " +:+ Itoa n) = loss_rules loss n.
Proof.
  intros Hn. unfold loss_rules. f_equal. destruct (no_space_Itoa n) as [Hsp Hne]; [done|].
  change ("delay " +:+ Itoa n) with ("delay" +:+ String " " (Itoa n)).
  rewrite Fields_word; [|done..]. by rewrite Fields_single.
Qed.

(** C20: provided the namespace of the process can be entered and its link
    read, and tc accepts the commands that are run, the packet loss control
    drops the latency in force: whatever is cached, the delay it sets and
    caches is a random number between 700 and 33999, without a unit. *)
Theorem ApplyPacketLoss_random `{!ClockLaws E} loss w m :
  (∀ e, I e → I (time_Now e).2 ∧ (∀ s, I (rand_Seed s e)) ∧ (∀ n, I (rand_Intn n e).2)) →
  I (env w) → wf (tcs w) → trafficControlStatusCache (tcs w) = Some m → loss ≠ "" →
  accepted tc_replace →
  (∀ n, (700 ≤ n < 34000)%Z → accepted (tc_change ++ loss_rules loss n)) →
  ∃ n w', (700 ≤ n < 34000)%Z ∧ ApplyPacketLoss pid loss w = (Ret None, w') ∧
    trace w' = trace w ++ tc_session pid [tc_replace; tc_change ++ loss_rules loss n] ∧
    absr (tcs w') = Some (<[inode := {|
      dpod := match cached (tcs w) inode with Some t => dpod t | None => "-" end;
      latency := Itoa n; packetLoss := loss |}]> (values (heap (tcs w)) m)) ∧
    wf (tcs w').
Proof.
  intros Hclock HI Hwf Hm Hloss Hacc1 Hacc2. unfold ApplyPacketLoss. rewrite decide_False by done. cbv zeta.
  destruct (random_run I 700 34000 w Hclock HI) as (n & w1 & Hr1 & Hn & HI1 & Ho1 & Ht1);
    [lia|unfold max_int64; lia|].
  rewrite (bind_Ret _ _ _ _ _ Hr1).
  rewrite loss_rules_eq by lia.
  destruct (apply_works (loss_rules loss n) w1 Hacc1 (Hacc2 n Hn) HI1) as (w2 & Hr2 & HI2 & Ho2 & Ht2).
  rewrite (bind_Ret _ _ _ _ _ Hr2).
  assert (tcs w2 = tcs w) as Htc2 by (rewrite Ho1 in Ho2; by destruct (own_inj _ _ Ho2)).
  destruct (update_cached_run inode (Itoa n) loss w2 m) as
    (w3 & Hr3 & Hwf3 & He3 & Hs3 & Ht3 & Ha3); [by rewrite Htc2..|].
  rewrite (bind_Ret _ _ _ _ _ Hr3). exists n, w3. split; [done|]. split; [done|].
  by rewrite Ht3, Ht2, Ht1, Ha3, Htc2.
Qed.

(** Provided the namespace of the process can be entered and its link read,
    and tc accepts the command, clearing the settings runs the one command that reinstalls a bare
    qdisc and forgets the cached status of that namespace only; it works
    on a nil cache too. *)
Theorem Clear_forgets w :
  I (env w) → wf (tcs w) → accepted tc_replace →
  ∃ w', ClearTrafficControlSettings pid w = (Ret None, w') ∧
    trace w' = trace w ++ tc_session pid [tc_replace] ∧
    absr (tcs w') = delete inode <$> absr (tcs w) ∧
    cached (tcs w') inode = None ∧ wf (tcs w').
Proof.
  intros HI Hwf Hacc. unfold ClearTrafficControlSettings. simpl.
  destruct (session_works [tc_replace] w) as (w1 & Hr1 & HI1 & Ho1 & Ht1);
    [by repeat constructor..|done|].
  rewrite (bind_Ret _ _ _ _ _ Hr1).
  destruct (getNSID_works w1 HI1) as (w2 & Hr2 & HI2 & Ho2 & Ht2).
  rewrite (bind_Ret _ _ _ _ _ Hr2).
  assert (tcs w2 = tcs w) as Htc2 by (rewrite Ho1 in Ho2; by destruct (own_inj _ _ Ho2)).
  destruct (cache_delete_spec inode (tcs w2)) as (s' & Hr3 & Hwf3 & Ha3 & _); [by rewrite Htc2|].
  erewrite bind_Ret by (by apply zoom_Ret). eexists. split; [done|]. simpl.
  rewrite Ht2, Ht1, Ha3, Htc2. split_and!; [done..| |done].
  rewrite cached_absr, Ha3, Htc2. destruct (absr (tcs w)); [|done]. simpl. apply lookup_delete_eq.
Qed.
(** Once a status has been obtained it is served from the cache: a second
    call gives the same pointer, without a query and without a change of
    any variable. *)
Theorem getStatus_memo w p w1 :
  I (env w) → I (env w1) → getStatus pid w = (Ret (Some p, None), w1) →
  ∃ w2, getStatus pid w1 = (Ret (Some p, None), w2) ∧
    trace w2 = trace w1 ∧ own w2 = own w1.
Proof.
  intros HI HI1 Hg.
  assert (entry (tcs w1) inode = Some p) as He.
  { unfold getStatus in Hg. destruct (getNSID_works w HI) as (w' & Hr & _ & Ho & _).
    rewrite (bind_Ret _ _ _ _ _ Hr), (bind_Ret _ _ _ _ _ (zoom_cache_get inode w')) in Hg.
    cbv beta iota in Hg.
    destruct (entry (tcs w') inode) as [l|] eqn:Hl.
    { unfold mret, M_ret in Hg. congruence. }
    apply bind_Ret_inv in Hg as ([res err] & w2 & _ & Hg).
    apply bind_Ret_inv in Hg as (result & w3 & _ & Hg).
    destruct err as [err|]; [done|].
    apply bind_Ret_inv in Hg as (r0 & w4 & _ & Hg).
    apply bind_Ret_inv in Hg as (r1 & w5 & _ & Hg).
    apply bind_Ret_inv in Hg as (r2 & w6 & _ & Hg).
    apply bind_Ret_inv in Hg as (u & w7 & _ & Hg).
    rewrite (bind_Ret _ _ _ _ _ (zoom_cache_get inode w7)) in Hg.
    unfold mret, M_ret in Hg. congruence. }
  destruct (getNSID_works w1 HI1) as (w2 & Hr & _ & Ho & Ht).
  exists w2. split; [|done]. unfold getStatus. rewrite (bind_Ret _ _ _ _ _ Hr).
  rewrite (bind_Ret _ _ _ _ _ (zoom_cache_get inode w2)).
  destruct (own_inj _ _ Ho) as [_ ->]. by rewrite He.
Qed.
End working.

(** ** A failing tc is not reported *)

(** When tc fails (or the namespace cannot be entered), ApplyLatency
    reports success all the same, and the parameters that were not applied
    are cached, under the empty namespace ID. *)
Theorem ApplyLatency_swallows `{!KernelLaws E} pid lat loss id err w w1 w2 m :
  lat ≠ "" →
  getPacketLoss pid w = (Ret (loss, None), w1) →
  applyTrafficControlRules pid (if decide (loss = "-") then Fields ("delay " +:+ lat)
    else Fields ("delay " +:+ lat) ++ Fields ("loss " +:+ loss)) w1 = (Ret (id, Some err), w2) →
  wf (tcs w1) → trafficControlStatusCache (tcs w1) = Some m →
  ∃ w', ApplyLatency pid lat w = (Ret None, w') ∧
    ∃ t, cached (tcs w') "" = Some t ∧ latency t = lat ∧ packetLoss t = loss.
Proof.
  intros Hlat Hg Ha Hwf Hm. unfold ApplyLatency. rewrite decide_False by done. cbv zeta.
  rewrite (bind_Ret _ _ _ _ _ Hg), (bind_Ret _ _ _ _ _ Ha).
  edestruct (apply_run pid) as (id' & err' & acts & w2' & Ha' & Ho & _ & Hs).
  rewrite Ha in Ha'. injection Ha' as <- <- <-.
  assert (id = "") as ->.
  { unfold apply_post in Hs. repeat (case_match; try done); by destruct Hs. }
  destruct (own_inj _ _ Ho) as [_ Htc].
  destruct (update_cached_run "" lat loss w2 m) as (w3 & Hr3 & _ & _ & _ & _ & Ha3);
    [by rewrite Htc..|].
  rewrite (bind_Ret _ _ _ _ _ Hr3). exists w3. split; [done|].
  eexists. rewrite cached_absr, Ha3, lookup_insert_eq. by split_and!.
Qed.

(** ** The cache of the deployed program: a nil map *)

Definition is_exec (a : action) : Prop := match a with Exec _ => True | _ => False end.
#[global] Instance is_exec_dec a : Decision (is_exec a).
Proof. destruct a; apply _. Defined.

(** The commands in the trace. *)
Definition commands (w : W) : list action := filter is_exec (trace w).
Abbreviation RC := (same commands).

#[global] Instance ext_commands {A} (f : E → A * E) : Respects RC (ext f).
Proof. intros w. by rewrite ext_run. Qed.
#[global] Instance query_commands d c : Respects RC (log (Query d c)).
Proof. intros w. unfold same, commands. simpl. by rewrite filter_app, app_nil_r. Qed.
#[global] Instance zoom_commands {A} (m : M TcState A) : Respects (S:=W) RC (zoom m).
Proof. intros w. unfold zoom. by destruct (m (view w)). Qed.
#[global] Instance getNSID_commands path : Respects RC (getNSID path).
Proof. unfold getNSID. solve_respects. Qed.
#[global] Instance queryInfluxDB_commands d c : Respects RC (queryInfluxDB d c).
Proof. unfold queryInfluxDB. solve_respects. Qed.
#[global] Instance parseAttribute_commands r : Respects RC (parseAttribute r).
Proof. unfold parseAttribute, cell. solve_respects. Qed.
#[global] Instance getPacketLoss_commands pid : Respects RC (getPacketLoss pid).
Proof. unfold getPacketLoss, getStatus. solve_respects. Qed.

Lemma zoom_cache_new_nil key t (w : W) :
  nil_cache (tcs w) → (zoom (cache_new key t) w).1 = Panicked NilMapWrite.
Proof. intros Hn. destruct w as [e s [h n c nc] tr]. unfold nil_cache in Hn. simpl in *. by subst. Qed.

Lemma getPacketLoss_nil pid w :
  nil_cache (tcs w) → ∀ r w', getPacketLoss pid w = (Ret r, w') → ∃ x, r.2 = Some x.
Proof.
  intros Hn r w' Hg. unfold getPacketLoss in Hg.
  apply bind_Ret_inv in Hg as ([status err] & w1 & Hs & Hg).
  assert (∃ x, err = Some x) as [x ->].
  { clear Hg r. unfold getStatus in Hs.
    pose proof (getNSID_frame (keeps (λ w : W, nil_cache (tcs w))) (netns_path pid) w Hn) as Hn2.
    apply bind_Ret_inv in Hs as ([id err2] & w2 & Hid & Hs). rewrite Hid in Hn2. simpl in Hn2.
    destruct err2 as [x|]; [inv Hs; eauto|].
    rewrite (bind_Ret _ _ _ _ _ (zoom_cache_get id w2)) in Hs.
    unfold entry in Hs. rewrite Hn2 in Hs. cbv beta iota in Hs.
    pose proof (queryInfluxDB_frame (keeps (λ w : W, nil_cache (tcs w))) db influx_cmd w2 Hn2) as Hn3.
    apply bind_Ret_inv in Hs as ([res err3] & w3 & Hq & Hs). rewrite Hq in Hn3. simpl in Hn3.
    pose proof (parseAttribute_frame (keeps (λ w : W, nil_cache (tcs w))) res w3 Hn3) as Hn4.
    apply bind_Ret_inv in Hs as (result & w4 & Hp & Hs). rewrite Hp in Hn4. simpl in Hn4.
    destruct err3 as [x|]; [inv Hs; eauto|]. exfalso.
    destruct result as [|r0 [|r1 [|r2 rs]]]; try done.
    simpl in Hs. unfold mbind at 1 2 3, M_bind at 1 2 3 in Hs. simpl in Hs.
    apply bind_Ret_inv in Hs as (u & w5 & Hnew & _).
    pose proof (zoom_cache_new_nil id {| dpod := r0; latency := r1; packetLoss := r2 |} w4 Hn4) as Hnil.
    by rewrite Hnew in Hnil. }
  destruct status; inv Hg; eauto.
Qed.

Lemma ApplyLatency_nil_run pid lat w :
  nil_cache (tcs w) → lat ≠ "" →
  (ApplyLatency pid lat w).1 ≠ Ret None ∧ commands (ApplyLatency pid lat w).2 = commands w.
Proof.
  intros Hn Hlat. unfold ApplyLatency. rewrite decide_False by done. cbv zeta.
  pose proof (getPacketLoss_nil pid w Hn) as Herr.
  pose proof (getPacketLoss_commands pid w) as Hcmd.
  split; unfold mbind at 1, M_bind at 1;
    destruct (getPacketLoss pid w) as [[[loss err]| | |] w1]; try done;
    destruct (Herr _ _ eq_refl) as [x Hx]; simpl in Hx; by subst.
Qed.

(** C29: on a nil cache no latency control ever succeeds: the operation returns
    an error or panics, tc is not run, and the cache is still nil, so that the
    next one fails as well. *)
Theorem ApplyLatency_nil pid lat w :
  nil_cache (tcs w) → lat ≠ "" →
  (ApplyLatency pid lat w).1 ≠ Ret None ∧ commands (ApplyLatency pid lat w).2 = commands w ∧
  nil_cache (tcs (ApplyLatency pid lat w).2).
Proof.
  intros Hn Hlat. destruct (ApplyLatency_nil_run pid lat w Hn Hlat).
  split_and!; [done..|]. by apply (ApplyLatency_frame (keeps (λ w : W, nil_cache (tcs w)))).
Qed.

(** The namespace is the first thing that can fail: when it can be entered,
    the error is another one, *)
Lemma apply_enters pid rules w r w' :
  applyTrafficControlRules pid rules w = (Ret r, w') →
  (netns_enter (netns_path pid) (env w)).1 = None →
  ∀ x, r.2 ≠ Some (ErrPerformTC (ErrEnterNetNS x)).
Proof.
  unfold applyTrafficControlRules, WithNetNSPath. cbv zeta. intros Hr He x.
  rewrite bind_assoc, (bind_Ret _ _ _ _ _ (ext_run _ _)), He, bind_assoc in Hr.
  erewrite bind_Ret, bind_assoc in Hr by done.
  edestruct (run_commands_run _ (MkWorld (netns_enter (netns_path pid) (env w)).2 (store w) (tcs w)
    (trace w ++ [EnterNetNS (netns_path pid)])) (tc_commands_nonempty rules))
    as (ran & rest & err & w1 & _ & Hrun & _).
  rewrite (bind_Ret _ _ _ _ _ Hrun) in Hr.
  do 2 (rewrite bind_assoc in Hr; apply bind_Ret_inv in Hr as (? & ? & _ & Hr)).
  rewrite bind_mret in Hr. destruct err as [err|]; simpl in Hr.
  { unfold mret, M_ret in Hr. by simplify_eq. }
  apply bind_Ret_inv in Hr as ([id err] & w2 & Hid & Hr).
  unfold getNSID in Hid. apply bind_Ret_inv in Hid as ([e|t] & w3 & _ & Hid); cbv beta iota in Hid.
  - unfold mret, M_ret in Hid, Hr. by simplify_eq/=.
  - apply bind_Ret_inv in Hid as (id' & w4 & _ & Hid). unfold mret, M_ret in Hid, Hr. by simplify_eq/=.
Qed.

(** and then the first command has been executed. *)
Lemma apply_post_executes pid rules id err acts :
  apply_post pid rules id err acts →
  (∀ x, err ≠ Some (ErrPerformTC (ErrEnterNetNS x))) →
  ∃ rest, acts = EnterNetNS (netns_path pid) :: Exec tc_replace :: rest.
Proof.
  unfold apply_post. intros Hs Hne. repeat (case_match; try done); subst;
    try (by edestruct Hne); try (decompose [and or] Hs; subst); by eexists.
Qed.

Lemma ApplyPacketLoss_nil_outcome `{!KernelLaws E, !ClockLaws E} pid loss w :
  nil_cache (tcs w) → loss ≠ "" → (ApplyPacketLoss pid loss w).1 = Panicked NilMapWrite.
Proof.
  intros Hn Hloss. unfold ApplyPacketLoss. rewrite decide_False by done. cbv zeta.
  destruct (random_run (λ _, True) 700 34000 w) as (n & w1 & Hr1 & Hrange & _ & Ho1 & Ht1);
    [by eauto|done|lia|unfold max_int64; lia|].
  rewrite (bind_Ret _ _ _ _ _ Hr1).
  edestruct (apply_run pid) as (id & err & acts & w2 & Hr2 & Ho2 & Ht2 & Hs).
  rewrite (bind_Ret _ _ _ _ _ Hr2).
  rewrite Ho1 in Ho2. destruct (own_inj _ _ Ho2) as [_ Htc].
  destruct (update_cached_nil id (Itoa n) loss w2) as (w3 & Hr3 & Ht3); [by rewrite Htc|].
  by rewrite (bind_Panicked _ _ _ _ _ Hr3).
Qed.

(** C28: on a nil cache the packet loss control runs tc, all of it, and panics
    only then: what it has done when the panic begins is exactly what
    applyTrafficControlRules does with the rules of a random number, the
    variables being untouched. Hence if the namespace can be entered a command
    has been executed, and if no error came back (the error is dropped) both
    have: the rules are in force but the request is never answered. *)
Theorem ApplyPacketLoss_nil `{!KernelLaws E, !ClockLaws E} pid loss w :
  nil_cache (tcs w) → loss ≠ "" →
  ∃ n w1 id err w2 acts, (700 ≤ n < 34000)%Z ∧
    random 700 34000 w = (Ret n, w1) ∧
    applyTrafficControlRules pid (loss_rules loss n) w1 = (Ret (id, err), w2) ∧
    (ApplyPacketLoss pid loss w).1 = Panicked NilMapWrite ∧
    trace (ApplyPacketLoss pid loss w).2 = trace w2 ∧ trace w2 = trace w ++ acts ∧
    store w2 = store w ∧ tcs w2 = tcs w ∧
    ((netns_enter (netns_path pid) (env w1)).1 = None →
      ∃ rest, acts = EnterNetNS (netns_path pid) :: Exec tc_replace :: rest) ∧
    (err = None → acts = tc_session pid [tc_replace; tc_change ++ loss_rules loss n]).
Proof.
  intros Hn Hloss. unfold ApplyPacketLoss. rewrite decide_False by done. cbv zeta.
  destruct (random_run (λ _, True) 700 34000 w) as (n & w1 & Hr1 & Hrange & _ & Ho1 & Ht1);
    [by eauto|done|lia|unfold max_int64; lia|].
  rewrite (bind_Ret _ _ _ _ _ Hr1), loss_rules_eq by lia.
  edestruct (apply_run pid) as (id & err & acts & w2 & Hr2 & Ho2 & Ht2 & Hs).
  pose proof (apply_enters _ _ _ _ _ Hr2) as Henter.
  rewrite (bind_Ret _ _ _ _ _ Hr2). rewrite Ho1 in Ho2. destruct (own_inj _ _ Ho2) as [Hst Htc].
  destruct (update_cached_nil id (Itoa n) loss w2) as (w3 & Hr3 & Ht3); [by rewrite Htc|].
  rewrite (bind_Panicked _ _ _ _ _ Hr3).
  exists n, w1, id, err, w2, acts. rewrite Ht2, Ht1. split_and!; try done; try lia.
  - simpl. by rewrite Ht3, Ht2, Ht1.
  - intros He. by apply (apply_post_executes _ _ _ _ _ Hs), Henter.
  - intros ->. exact Hs.
Qed.

(** ** Names of pods *)

Lemma parsePodName_run name :
  ∃ r, ∀ w, parsePodName name w = (Ret r, w) ∧
    ∀ p, r = (p, None) ↔ ∃ c rest, 3 ≤ length rest ∧
      Split (TrimPrefix name "/") "_" = "k8s" :: c :: p :: rest.
Proof.
  unfold parsePodName. cbv zeta. set (parts := Split _ _).
  destruct (decide (length parts = 0 ∨ parts !! 0 ≠ Some containerNamePrefix)) as [Hbad|Hok].
  { eexists. intros w. split; [done|]. intros p. split; [done|].
    intros (c & rest & _ & Hp). exfalso. rewrite Hp in Hbad. by destruct Hbad as [?|[]]. }
  destruct (decide (length parts < 6)) as [Hlt|Hge].
  { eexists. intros w. split; [done|]. intros p. split; [done|].
    intros (c & rest & Hr & Hp). exfalso. rewrite Hp in Hlt. simpl in Hlt. lia. }
  clearbody parts. destruct parts as [|k [|c [|pod rest]]]; simpl in Hge; try lia.
  exists (pod, None). intros w. split.
  - simpl. unfold mbind, M_bind. simpl.
    pose proof (Split_nonempty c "."). by destruct (Split c ".").
  - intros p. assert (k = "k8s") as ->.
    { destruct (decide (k = "k8s")); [done|]. destruct Hok. right. simpl. intros [= ?]. done. }
    split; [intros [= ->]; exists c, rest; split; [lia|done]|].
    intros (c' & rest' & _ & Hp). by simplify_eq.
Qed.

(** ParsePodName never panics and changes nothing; it succeeds exactly on
    the names of the shape "k8s_<container>_<pod>_..." with at least six
    parts, possibly after a "/", and then gives the pod. *)
Theorem parsePodName_ok name p w :
  (parsePodName name w).2 = w ∧
  ((parsePodName name w).1 = Ret (p, None) ↔ ∃ c rest, 3 ≤ length rest ∧
    Split (TrimPrefix name "/") "_" = "k8s" :: c :: p :: rest).
Proof.
  destruct (parsePodName_run name) as [r Hr]. destruct (Hr w) as [-> Hiff].
  split; [done|]. rewrite <-Hiff. simpl. naive_solver.
Qed.

(** The pod of a container that the kubelet named comes back. *)
Theorem parsePodName_roundtrip c pod rest w :
  Forall (λ s, free_of "_" s = true) (c :: pod :: rest) → 3 ≤ length rest →
  parsePodName ("/" +:+ Join ("k8s" :: c :: pod :: rest) "_") w = (Ret (pod, None), w).
Proof.
  intros Hfree Hlen.
  destruct (parsePodName_run ("/" +:+ Join ("k8s" :: c :: pod :: rest) "_")) as [r Hr].
  destruct (Hr w) as [-> Hiff]. do 2 f_equal. apply Hiff. exists c, rest. split; [done|].
  rewrite TrimPrefix_app. apply Split_Join; [done|]. by constructor.
Qed.
(** ** Nothing here waits for a mutex *)

#[global] Instance ext_nonblocking {A} (f : E → A * E) : NonBlocking (ext f).
Proof. intros w. by rewrite ext_run. Qed.
#[global] Instance ext__nonblocking (f : E → E) : NonBlocking (ext_ f).
Proof. apply ext_nonblocking. Qed.
#[global] Instance log_nonblocking a : NonBlocking (S:=W) (log a).
Proof. by intros w. Qed.
#[global] Instance cache_get_nonblocking key : NonBlocking (cache_get key).
Proof. unfold cache_get. apply _. Qed.
#[global] Instance deref_nonblocking p : NonBlocking (deref p).
Proof. unfold deref. apply _. Qed.
#[global] Instance cache_new_nonblocking key t : NonBlocking (cache_new key t).
Proof.
  unfold cache_new. apply nonblocking_bind; [by intros s|].
  intros l. unfold cache_set. solve_nonblocking.
Qed.
#[global] Instance cache_update_nonblocking key f : NonBlocking (cache_update key f).
Proof. unfold cache_update, update_ptr. solve_nonblocking. Qed.
#[global] Instance cache_delete_nonblocking key : NonBlocking (cache_delete key).
Proof. unfold cache_delete. apply _. Qed.
#[global] Instance random_nonblocking min max : NonBlocking (S:=W) (random min max).
Proof. unfold random. solve_nonblocking. Qed.
#[global] Instance run_command_nonblocking cmd : NonBlocking (S:=W) (run_command cmd).
Proof. unfold run_command. solve_nonblocking. Qed.
#[global] Instance WithNetNSPath_nonblocking path (m : M W (option error)) :
  NonBlocking m → NonBlocking (WithNetNSPath path m).
Proof. intros ?. unfold WithNetNSPath. solve_nonblocking. Qed.
#[global] Instance getNSID_nonblocking path : NonBlocking (S:=W) (getNSID path).
Proof. unfold getNSID. solve_nonblocking. Qed.
#[global] Instance apply_nonblocking pid rules : NonBlocking (S:=W) (applyTrafficControlRules pid rules).
Proof. unfold applyTrafficControlRules, run_commands. solve_nonblocking. Qed.
#[global] Instance queryInfluxDB_nonblocking d c : NonBlocking (S:=W) (queryInfluxDB d c).
Proof. unfold queryInfluxDB. solve_nonblocking. Qed.
#[global] Instance parseAttribute_nonblocking r : NonBlocking (S:=W) (parseAttribute r).
Proof. unfold parseAttribute, cell. solve_nonblocking. Qed.
#[global] Instance ApplyLatency_nonblocking pid lat : NonBlocking (S:=W) (ApplyLatency pid lat).
Proof. unfold ApplyLatency, getPacketLoss, getStatus, update_cached. solve_nonblocking. Qed.
#[global] Instance ApplyPacketLoss_nonblocking pid loss : NonBlocking (S:=W) (ApplyPacketLoss pid loss).
Proof. unfold ApplyPacketLoss, update_cached. solve_nonblocking. Qed.
#[global] Instance Clear_nonblocking pid : NonBlocking (S:=W) (ClearTrafficControlSettings pid).
Proof. unfold ClearTrafficControlSettings, run_commands. solve_nonblocking. Qed.
#[global] Instance parsePodName_nonblocking name : NonBlocking (S:=W) (parsePodName name).
Proof. unfold parsePodName. solve_nonblocking. Qed.
#[global] Instance getPod_nonblocking id : NonBlocking (S:=W) (getPod id).
Proof. unfold getPod. solve_nonblocking. Qed.
#[global] Instance getStatusByPod_nonblocking pod : NonBlocking (S:=W) (getStatusByPod pod).
Proof. unfold getStatusByPod. solve_nonblocking. Qed.
End tc.

(** ** Witnesses *)

(** A process whose cache has been created and holds the status of the
    namespace of process 41. *)
Definition tcs1 : TcState := {|
  heap := {[0 := {| dpod := "web-1"; latency := "2000ms"; packetLoss := "3%" |}]};
  next := 1;
  trafficControlStatusCache := Some {["4026531957" := 0]};
  neworkControlStatusCache := Some ∅
|}.

Definition world1 (e : Sim) : World Sim :=
  {| env := e; store := NewStore; tcs := tcs1; trace := [] |}.

Lemma tcs1_wf : wf tcs1.
Proof.
  split; simpl.
  - intros l t [<- _]%lookup_singleton_Some. lia.
  - intros m k l [= <-] [<- <-]%lookup_singleton_Some. by eexists.
  - by intros m k k' l [= <-] [<- <-]%lookup_singleton_Some [<- _]%lookup_singleton_Some.
Qed.

Lemma sim0_enter (e : Sim) : e = sim0 →
  (netns_enter (netns_path 41) e).1 = None ∧ (netns_enter (netns_path 41) e).2 = sim0.
Proof. by intros ->. Qed.
Lemma sim0_leave (e : Sim) : e = sim0 → netns_leave e = sim0.
Proof. by intros ->. Qed.
(** The simulated host lets every tc command succeed, and no other one. *)
Definition is_tc (cmd : list string) : Prop := head cmd = Some "tc".
Lemma sim0_exec cmd (e : Sim) : is_tc cmd → e = sim0 →
  (exec_Command cmd e).1 = None ∧ (exec_Command cmd e).2 = sim0.
Proof. by intros _ ->. Qed.
Lemma sim0_link (e : Sim) : e = sim0 →
  (os_Readlink (netns_path 41) e).1 = inr ("net:[" +:+ "4026531957" +:+ "]") ∧
  (os_Readlink (netns_path 41) e).2 = sim0.
Proof. intros ->. split; vm_compute; reflexivity. Qed.
Lemma sim0_clock (e : Sim) : e = sim0 →
  (time_Now e).2 = sim0 ∧ (∀ s, rand_Seed s e = sim0) ∧ (∀ n, (rand_Intn n e).2 = sim0).
Proof. by intros ->. Qed.

Lemma ApplyLatency_cached_witness :
  ∃ w', ApplyLatency 41 "500ms" (world1 sim0) = (Ret None, w') ∧
    trace w' = [EnterNetNS "/proc/41/ns/net";
      Exec ["tc"; "qdisc"; "replace"; "dev"; "eth0"; "root"; "handle"; "1:"; "netem"];
      Exec ["tc"; "qdisc"; "change"; "dev"; "eth0"; "root"; "handle"; "1:"; "netem";
            "delay"; "500ms"; "loss"; "3%"];
      LeaveNetNS].
Proof.
  destruct (ApplyLatency_cached 41 "4026531957" (λ e, e = sim0) is_tc
    sim0_enter sim0_leave sim0_exec sim0_link "500ms" (world1 sim0) {["4026531957" := 0]}
    {| dpod := "web-1"; latency := "2000ms"; packetLoss := "3%" |}) as (w' & Hr & Ht & _).
  - reflexivity.
  - exact tcs1_wf.
  - reflexivity.
  - reflexivity.
  - discriminate.
  - reflexivity.
  - reflexivity.
  - exists w'. split; [exact Hr|]. rewrite Ht. vm_compute. reflexivity.
Defined.

Lemma ApplyPacketLoss_random_witness :
  ∃ n w', ApplyPacketLoss 41 "10%" (world1 sim0) = (Ret None, w') ∧ (700 ≤ n < 34000)%Z ∧
    absr (tcs w') = Some {["4026531957" :=
      {| dpod := "web-1"; latency := Itoa n; packetLoss := "10%" |}]}.
Proof.
  destruct (ApplyPacketLoss_random 41 "4026531957" (λ e, e = sim0) is_tc
    sim0_enter sim0_leave sim0_exec sim0_link "10%" (world1 sim0) {["4026531957" := 0]})
    as (n & w' & Hn & Hr & _ & Ha & _).
  - exact sim0_clock.
  - reflexivity.
  - exact tcs1_wf.
  - reflexivity.
  - discriminate.
  - reflexivity.
  - reflexivity.
  - exists n, w'. split; [exact Hr|]. split; [exact Hn|]. rewrite Ha. reflexivity.
Defined.

Lemma Clear_forgets_witness :
  ∃ w', ClearTrafficControlSettings 41 (world1 sim0) = (Ret None, w') ∧
    absr (tcs w') = Some ∅ ∧ cached (tcs w') "4026531957" = None.
Proof.
  destruct (Clear_forgets 41 "4026531957" (λ e, e = sim0) is_tc
    sim0_enter sim0_leave sim0_exec sim0_link (world1 sim0)) as (w' & Hr & _ & Ha & Hc & _).
  - reflexivity.
  - exact tcs1_wf.
  - reflexivity.
  - exists w'. split; [exact Hr|]. split; [rewrite Ha; reflexivity|exact Hc].
Defined.

Lemma getStatus_memo_witness :
  ∃ w1 w2, getStatus 41 (world1 sim0) = (Ret (Some 0, None), w1) ∧
    getStatus 41 w1 = (Ret (Some 0, None), w2) ∧ trace w2 = trace w1.
Proof.
  destruct (getStatus_memo 41 "4026531957" (λ e, e = sim0) sim0_link
    (world1 sim0) 0 (world1 sim0)) as (w2 & Hr & Ht & _).
  - reflexivity.
  - reflexivity.
  - vm_compute. reflexivity.
  - exists (world1 sim0), w2. split; [vm_compute; reflexivity|]. split; [exact Hr|exact Ht].
Defined.

(** The kernel module sch_netem is missing: the first command fails. *)
Definition sim_nonetem : Sim := {|
  s_containers := []; s_broken := []; s_listed := []; s_docker_err := None; s_events := [];
  s_netns_err := None; s_failing := [tc_replace]; s_links := s_links sim0;
  s_influx_err := None; s_response := s_response sim0; s_clock := 7 |}.

Lemma applyTrafficControlRules_spec_witness :
  ∃ id err w' acts, applyTrafficControlRules 41 ["delay"; "1ms"] (world1 sim_nonetem) = (Ret (id, err), w') ∧
    own w' = own (world1 sim_nonetem) ∧ trace w' = acts ∧
    (err ≠ None → id = "").
Proof.
  destruct (applyTrafficControlRules_spec 41 ["delay"; "1ms"] (world1 sim_nonetem))
    as (id & err & w' & acts & Hr & Ho & Ht & _ & Herr).
  exists id, err, w', acts. split; [exact Hr|]. split; [exact Ho|]. split; [exact Ht|].
  intros Hne. exact (proj1 (Herr Hne)).
Defined.

Lemma ApplyLatency_swallows_witness :
  ∃ w', ApplyLatency 41 "500ms" (world1 sim_nonetem) = (Ret None, w') ∧
    ∃ t, cached (tcs w') "" = Some t ∧ latency t = "500ms" ∧ packetLoss t = "3%".
Proof.
  apply (ApplyLatency_swallows 41 "500ms" "3%" ""
    (ErrPerformTC (ErrExecuteCommand oops)) (world1 sim_nonetem) (world1 sim_nonetem)
    (applyTrafficControlRules 41 ["delay"; "500ms"; "loss"; "3%"] (world1 sim_nonetem)).2
    {["4026531957" := 0]}).
  - discriminate.
  - vm_compute. reflexivity.
  - vm_compute. reflexivity.
  - exact tcs1_wf.
  - reflexivity.
Defined.

Lemma ApplyLatency_nil_witness :
  (ApplyLatency 41 "500ms" (world0 sim0)).1 = Panicked NilMapWrite ∧
  (ApplyLatency 41 "500ms" (world0 sim0)).1 ≠ Ret None.
Proof.
  split; [vm_compute; reflexivity|].
  apply (ApplyLatency_nil 41 "500ms" (world0 sim0)); [reflexivity|discriminate].
Defined.

Lemma ApplyPacketLoss_nil_witness :
  (ApplyPacketLoss 41 "10%" (world0 sim0)).1 = Panicked NilMapWrite ∧
  ∃ n, (700 ≤ n < 34000)%Z ∧ trace (ApplyPacketLoss 41 "10%" (world0 sim0)).2 =
    [EnterNetNS "/proc/41/ns/net";
     Exec ["tc"; "qdisc"; "replace"; "dev"; "eth0"; "root"; "handle"; "1:"; "netem"];
     Exec ["tc"; "qdisc"; "change"; "dev"; "eth0"; "root"; "handle"; "1:"; "netem";
           "loss"; "10%"; "delay"; Itoa n];
     LeaveNetNS].
Proof.
  destruct (ApplyPacketLoss_nil 41 "10%" (world0 sim0)) as
    (n & w1 & id & err & w2 & acts & Hn & Hr1 & Hr2 & Hp & Ht & Ha & _ & _ & _ & Hs);
    [reflexivity|discriminate|].
  split; [exact Hp|]. exists n. split; [exact Hn|]. rewrite Ht, Ha. rewrite Hs; [reflexivity|].
  vm_compute in Hr1. injection Hr1 as <- <-. vm_compute in Hr2. congruence.
Defined.

Lemma parsePodName_roundtrip_witness :
  parsePodName ("/" +:+ Join ["k8s"; "user.1a2b"; "user-468431046-ktrt4"; "default"; "uid"; "0"] "_")
    (world0 sim0) = (Ret ("user-468431046-ktrt4", None), world0 sim0).
Proof.
  apply (parsePodName_roundtrip "user.1a2b" "user-468431046-ktrt4" ["default"; "uid"; "0"]).
  - repeat constructor.
  - simpl. lia.
Defined.
