(* ===== verification/Report.v ===== *)
(** * Reports and controls ([src/report.go])

    The reporter answers the two requests of the plugin protocol: a report of
    the containers in the store with the controls they offer, and the lookup of
    the handler of a control. The report is the value that [RawReport] hands to
    [json.Marshal]. *)

From S2P Require Import Prelude Go Strs Nums Store Env Status World Sim TrafficControl.

Definition networkControlTablePrefix : string := "network-control-table-".

(** ** The data of a report *)

Record tableTemplate : Set := MkTableTemplate { tt_ID : string; tt_Label : string; tt_Prefix : string }.

(** A float64 constant by its decimal literal, [mantissa * 10 ^ exponent]. *)
Record decimal : Set := MkDecimal { mantissa : Z; exponent : Z }.

Record metadataTemplate : Set := MkMetadataTemplate {
  mt_ID : string; mt_Label : string; mt_Truncate : Z; mt_Datatype : string;
  mt_Priority : decimal; mt_From : string }.

Record controlData : Set := MkControlData { Dead : bool }.
Record controlEntry : Set := MkControlEntry { ce_Timestamp : Time; ce_Value : controlData }.
Record control : Set := MkControl { c_ID : string; c_Human : string; c_Icon : string; c_Rank : Z }.
Record stringEntry : Set := MkStringEntry { se_Timestamp : Time; se_Value : string }.

Record node : Set := MkNode {
  LatestControls : gmap string controlEntry;
  Latest : gmap string stringEntry
}.

Record pluginSpec : Set := MkPluginSpec {
  ps_ID : string; ps_Label : string; ps_Description : string;
  ps_Interfaces : list string; ps_APIVersion : string }.

Record topology : Set := MkTopology {
  Nodes : gmap string node;
  Controls : gmap string control;
  MetadataTemplates : gmap string metadataTemplate;
  TableTemplates : gmap string tableTemplate
}.

Record report : Set := MkReport { r_Container : topology; r_Plugins : list pluginSpec }.

(** ** Node IDs *)

Definition nodeSuffix : string := ";<container>".

Definition containerIDToNodeID (containerID : string) : string := containerID +:+ nodeSuffix.

Definition nodeIDToContainerID (nodeID : string) : string * option error :=
  if negb (HasSuffix nodeID nodeSuffix) then ("", Some (ErrNoSuffix nodeID))
  else (TrimSuffix nodeID nodeSuffix, None).

(** ** Templates *)

Definition getMetadataTemplate : gmap string metadataTemplate :=
  {[ "network-control-latency" := {|
       mt_ID := "network-control-latency"; mt_Label := "Latency"; mt_Truncate := 0;
       mt_Datatype := ""; mt_Priority := MkDecimal 135 (-1); mt_From := "latest" |};
     "network-control-pktloss" := {|
       mt_ID := "network-control-pktloss"; mt_Label := "Packet Loss"; mt_Truncate := 0;
       mt_Datatype := ""; mt_Priority := MkDecimal 136 (-1); mt_From := "latest" |} ]}.

Definition getTableTemplate : gmap string tableTemplate :=
  {[ "network-control-table" := {|
       tt_ID := "network-control-table"; tt_Label := "Network Control";
       tt_Prefix := networkControlTablePrefix |} ]}.

Section report.
Context {E : Type} `{!Docker E, !Kernel E, !Influx E, !Clock E}.
Abbreviation W := (World E).

(** ** Controls *)

Record extControl : Type := MkExtControl {
  x_control : control;
  x_handler : Z → M W (option error)
}.

Definition getLatencyControls : list extControl :=
  [ {| x_control := {| c_ID := networkControlTablePrefix +:+ "slow";
         c_Human := "Traffic speed: slow"; c_Icon := "fa-hourglass-1"; c_Rank := 20 |};
       x_handler pid := ApplyLatency pid "2000ms" |};
    {| x_control := {| c_ID := networkControlTablePrefix +:+ "medium";
         c_Human := "Traffic speed: medium"; c_Icon := "fa-hourglass-2"; c_Rank := 21 |};
       x_handler pid := ApplyLatency pid "1000ms" |};
    {| x_control := {| c_ID := networkControlTablePrefix +:+ "fast";
         c_Human := "Traffic speed: fast"; c_Icon := "fa-hourglass-3"; c_Rank := 22 |};
       x_handler pid := ApplyLatency pid "500ms" |} ].

Definition getPacketLossControls : list extControl :=
  [ {| x_control := {| c_ID := networkControlTablePrefix +:+ "pkt-drop-low";
         c_Human := "Packet drop: low"; c_Icon := "fa-cut"; c_Rank := 23 |};
       x_handler pid := ApplyPacketLoss pid "10%" |} ].

Definition getGeneralControls : list extControl :=
  [ {| x_control := {| c_ID := networkControlTablePrefix +:+ "clear";
         c_Human := "Clear traffic control settings"; c_Icon := "fa-times-circle"; c_Rank := 24 |};
       x_handler pid := ClearTrafficControlSettings pid |} ].

(** The two [range] loops append the controls one by one. *)
Definition getControls : list extControl :=
  let controls := getLatencyControls in
  let controls := foldl (λ cs ctrl, cs ++ [ctrl]) controls getPacketLossControls in
  foldl (λ cs ctrl, cs ++ [ctrl]) controls getGeneralControls.

Definition getTrafficNodeControls (timestamp : Time) (dead : bool) : gmap string controlEntry :=
  let entry := {| ce_Timestamp := timestamp; ce_Value := {| Dead := dead |} |} in
  foldl (λ controls c, <[c_ID (x_control c):=entry]> controls) ∅ getControls.

Definition getTrafficControls : gmap string control :=
  foldl (λ controls c, <[c_ID (x_control c):=x_control c]> controls) ∅ getControls.

(** GetHandler returns the function performing the action specified by
    controlID *)
Definition GetHandler (nodeID controlID : string)
    : M W (option (M W (option error)) * option error) :=
  let '(containerID, err) := nodeIDToContainerID nodeID in
  match err with
  | Some err => mret (None, Some (ErrContainerID nodeID err))
  | None =>
      r ← zoom (Store_Container containerID);
      let '(container, found) := r in
      if negb found then mret (None, Some (ErrContainerNotFound containerID))
      else
        let handler :=
          x_handler <$> find (λ c, bool_decide (c_ID (x_control c) = controlID)) getControls in
        match handler with
        | None => mret (None, Some (ErrUnknownControl controlID nodeID))
        | Some handler => mret (Some (handler (PID container)), None)
        end
  end.

(** ** The nodes of a report *)

(** The map literal of [Latest]. *)
Definition latest_entries (timestamp : Time) (status : NetworkControlStatus)
    : gmap string stringEntry :=
  {[ networkControlTablePrefix +:+ "dst-pod" := MkStringEntry timestamp (n_dpod status);
     networkControlTablePrefix +:+ "net-bandwidth" := MkStringEntry timestamp (n_latency status);
     networkControlTablePrefix +:+ "net-packet" := MkStringEntry timestamp (n_packet status) ]}.

(** The cases Stopped and Running of the callback. *)
Definition report_node (timestamp : Time) (containerID : string) (dead : bool)
    : M (W * gmap string node) unit :=
  let nodeID := containerIDToNodeID containerID in
  r ← lift (getPod containerID);
  let '(spod, _) := r in
  r ← lift (getStatusByPod spod);
  let '(status, err) := r in
  match err with
  | Some _ => goexit 1   (* log.Fatalf *)
  | None =>
      status ← or_panic NilDereference status;
      modify (λ sl, (sl.1, <[nodeID := {|
        LatestControls := getTrafficNodeControls timestamp dead;
        Latest := latest_entries timestamp status |}]> sl.2))
  end.

Definition report_container (timestamp : Time) (containerID : string) (container : Container)
    : M (W * gmap string node) unit :=
  match CState container with
  | Created | Destroyed => mret ()
  | Stopped => report_node timestamp containerID true
  | Running => report_node timestamp containerID false
  end.

Definition getContainerNodes : M W (gmap string node) :=
  timestamp ← ext time_Now;
  r ← with_local ∅ (ForEach (λ m, lift (ext (range_order m))) (report_container timestamp));
  mret r.2.

(** The report that [RawReport] marshals. *)
Definition RawReport_value : M W report :=
  nodes ← getContainerNodes;
  mret {|
    r_Container := {|
      Nodes := nodes;
      Controls := getTrafficControls;
      MetadataTemplates := getMetadataTemplate;
      TableTemplates := getTableTemplate |};
    r_Plugins := [ {|
      ps_ID := "network-control";
      ps_Label := "Network control";
      ps_Description := "Adds Network controls to the running Docker containers";
      ps_Interfaces := ["reporter"; "controller"];
      ps_APIVersion := "1" |} ] |}.

(** ** Frames *)

Section frames.
(** A relation that external calls respect. *)
Context (R : relation W) `{!PreOrder R}.
Context (Hext : ∀ A (f : E → A * E), Respects R (ext f)).

#[local] Instance ext_R {A} (f : E → A * E) : Respects R (ext f).
Proof. apply Hext. Qed.
#[local] Instance ext__R (f : E → E) : Respects R (ext_ f).
Proof. apply Hext. Qed.

Lemma getPod_R id : Respects R (getPod id).
Proof. unfold getPod, parsePodName. solve_respects. Qed.
Lemma getStatusByPod_R pod : Respects R (getStatusByPod pod).
Proof. unfold getStatusByPod, random. solve_respects. Qed.
#[local] Existing Instances getPod_R getStatusByPod_R.

Lemma report_container_R ts id c : Respects (outer R) (report_container ts id c).
Proof.
  unfold report_container, report_node.
  destruct (CState c); [apply _| | |apply _]; cbv zeta.
  all: apply respects_bind; [apply _..|]; intros [pod e].
  all: apply respects_bind; [apply _..|]; intros [st [e'|]]; [apply _|].
  all: apply respects_bind; [apply _..|]; intros st'.
  all: apply (respects_set_local R (λ _ N, <[containerIDToNodeID id := _]> N)).
Qed.
End frames.

Lemma zoom_local_frame (R : relation W) `{!StoreFrame R} {L A} (m : M Store A) :
  Respects (outer (L:=L) R) (zoom (S:=W * L) m).
Proof.
  intros [w l]. pose proof (frame_store (R:=R) A m w) as Hm. unfold outer, zoom in *. simpl in *.
  by destruct (m (store w)).
Qed.

(** A report makes external calls and works on the store, and does nothing
    else: it leaves alone the traffic control variables, for example. *)
#[global] Instance getContainerNodes_frame (R : relation W) `{!StoreFrame R} :
  Respects R getContainerNodes.
Proof.
  unfold getContainerNodes. apply respects_bind; [apply _..|]. intros ts.
  apply respects_bind; [apply _| |apply _].
  apply respects_with_local. unfold ForEach.
  apply respects_bind; [apply _|apply zoom_local_frame; apply _|]. intros _.
  apply respects_defer; [apply _|apply zoom_local_frame; apply _|].
  apply respects_bind; [apply _|apply zoom_local_frame; apply _|]. intros s.
  apply respects_bind; [apply _..|]. intros es. apply respects_for_range; [apply _|].
  intros []. apply report_container_R; apply _.
Qed.

(** Nor does it change the store, unless the process ends, nor block. *)
Lemma getContainerNodes_store w :
  idle (store w) →
  (getContainerNodes w).1 ≠ Blocked ∧
  ((∀ c, (getContainerNodes w).1 ≠ Exited c) → store (getContainerNodes w).2 = store w).
Proof.
  intros Hidle. unfold getContainerNodes. rewrite (bind_Ret _ _ _ _ _ (ext_run _ w)).
  set (ts := (time_Now (env w)).1). set (w1 := {| env := _ |}).
  set (order := λ m, lift (ext (range_order m))). set (callback := report_container ts).
  assert ((ForEach order callback (w1, ∅)).1 ≠ Blocked) as Hnb.
  { apply ForEach_nonblocking; [apply _| |done].
    intros id c. unfold callback, report_container, report_node.
    destruct (CState c); solve_nonblocking. }
  assert (∀ m, Respects (same (view (S:=W * gmap string node) (T:=Store))) (order m)) as Hord.
  { intros m. refine (respects_lift (L:=gmap string node) (same store) (ext (range_order m)) _). }
  assert (∀ id c, Respects (same (view (S:=W * gmap string node) (T:=Store))) (callback id c)) as Hcb.
  { intros id c. change (Respects (outer (same (@store E))) (report_container ts id c)).
    apply report_container_R; apply _. }
  pose proof (ForEach_view order callback (w1, ∅) Hord Hcb Hidle) as Hv.
  set (fe := ForEach order callback) in *.
  unfold mbind, M_bind, with_local.
  destruct (fe (w1, ∅)) as [[] [w2 N]]; simpl in *; try done.
  split; [done|]. intros Hc. by destruct (Hc code).
Qed.

(** ** Looking controls up *)

Lemma containerID_nodeID id : nodeIDToContainerID (containerIDToNodeID id) = (id, None).
Proof.
  unfold nodeIDToContainerID, containerIDToNodeID. by rewrite HasSuffix_app, TrimSuffix_app.
Qed.

Lemma nodeID_inj id id' : containerIDToNodeID id = containerIDToNodeID id' → id = id'.
Proof.
  intros Heq. pose proof (containerID_nodeID id) as Hid.
  rewrite Heq, containerID_nodeID in Hid. congruence.
Qed.

(** Node IDs and container IDs correspond one to one: the node ID of a
    container gives the container back, and an ID that is not a node ID is
    an error. *)
Theorem nodeID_roundtrip nodeID id :
  nodeIDToContainerID nodeID = (id, None) ↔ nodeID = containerIDToNodeID id.
Proof.
  split; [|intros ->; apply containerID_nodeID].
  unfold nodeIDToContainerID. destruct (HasSuffix nodeID nodeSuffix) eqn:Hs; [|done].
  apply HasSuffix_spec in Hs as [r ->]. simpl. rewrite TrimSuffix_app. by intros [= ->].
Qed.

(** What the handler of a control is to do: the action and its argument. *)
Definition intended (name : string) : option (Z → M W (option error)) :=
  if decide (name = "slow") then Some (λ pid, ApplyLatency pid "2000ms")
  else if decide (name = "medium") then Some (λ pid, ApplyLatency pid "1000ms")
  else if decide (name = "fast") then Some (λ pid, ApplyLatency pid "500ms")
  else if decide (name = "pkt-drop-low") then Some (λ pid, ApplyPacketLoss pid "10%")
  else if decide (name = "clear") then Some ClearTrafficControlSettings
  else None.

Lemma find_control cid :
  x_handler <$> find (λ c, bool_decide (c_ID (x_control c) = cid)) getControls =
    if HasPrefix cid networkControlTablePrefix
    then intended (drop_str (String.length networkControlTablePrefix) cid) else None.
Proof.
  destruct (HasPrefix cid networkControlTablePrefix) eqn:Hp.
  - apply HasPrefix_spec in Hp as [name ->]. rewrite drop_str_app.
    assert (∀ s, bool_decide (networkControlTablePrefix +:+ s = networkControlTablePrefix +:+ name)
      = bool_decide (name = s)) as Heq.
    { intros s. apply bool_decide_ext. split; [|by intros ->].
      intros Hs%(inj (String.app networkControlTablePrefix)). done. }
    unfold intended, getControls, getLatencyControls, getPacketLossControls, getGeneralControls.
    cbn [foldl app find x_control c_ID fmap option_fmap option_map x_handler]. rewrite !Heq.
    by repeat (case_bool_decide; [by rewrite ?decide_True, ?decide_False by (congruence || done)|rewrite decide_False by done]).
  - assert (∀ s, bool_decide (networkControlTablePrefix +:+ s = cid) = false) as Hne.
    { intros s. apply bool_decide_eq_false. intros <-. by rewrite HasPrefix_app in Hp. }
    unfold getControls, getLatencyControls, getPacketLossControls, getGeneralControls.
    cbn [foldl app find x_control c_ID]. by rewrite !Hne.
Qed.

(** What a control request asks for: an error, or the action the control
    advertises on the PID the store has for the container at that moment. *)
Definition resolve (s : Store) (nodeID controlID : string) : error + M W (option error) :=
  match nodeIDToContainerID nodeID with
  | (_, Some err) => inl (ErrContainerID nodeID err)
  | (id, None) =>
      match containers s !! id with
      | None => inl (ErrContainerNotFound id)
      | Some c =>
          match (if HasPrefix controlID networkControlTablePrefix
                 then intended (drop_str (String.length networkControlTablePrefix) controlID)
                 else None) with
          | Some h => inr (h (PID c))
          | None => inl (ErrUnknownControl controlID nodeID)
          end
      end
  end.

Lemma GetHandler_run nodeID controlID w :
  idle (store w) →
  GetHandler nodeID controlID w =
    (Ret (match resolve (store w) nodeID controlID with
          | inl err => (None, Some err) | inr handler => (Some handler, None) end), w).
Proof.
  intros Hidle. unfold GetHandler, resolve. rewrite find_control.
  destruct (nodeIDToContainerID nodeID) as [id [err|]]; [done|].
  assert (zoom (Store_Container id) w = (Ret (match containers (store w) !! id with
    | Some c => (c, true) | None => (zero_Container, false) end), w)) as Hz.
  { rewrite (zoom_Ret _ _ _ _ (Store_Container_idle id (store w) Hidle)). by destruct w. }
  rewrite (bind_Ret _ _ _ _ _ Hz).
  destruct (containers (store w) !! id) as [c|]; [|done]. simpl. by repeat case_match.
Qed.
Definition control_IDs : list string := (λ c, c_ID (x_control c)) <$> getControls.

Lemma find_unknown {A} (g : extControl → A) cid :
  cid ∉ control_IDs →
  g <$> find (λ c, bool_decide (c_ID (x_control c) = cid)) getControls = None.
Proof.
  unfold control_IDs. induction getControls as [|c cs IH]; [done|]. simpl.
  rewrite not_elem_of_cons. intros [Hne Hout]. by rewrite bool_decide_false by done; apply IH.
Qed.

Lemma foldl_insert_dom {V} (g : extControl → V) cs (m : gmap string V) cid v :
  foldl (λ m c, <[c_ID (x_control c):=g c]> m) m cs !! cid = Some v →
  m !! cid = Some v ∨ cid ∈ (λ c, c_ID (x_control c)) <$> cs.
Proof.
  revert m. induction cs as [|c cs IH]; intros m Hm; [by left|]. simpl in *.
  rewrite elem_of_cons. destruct (IH _ Hm) as [[[-> _]|[_ ?]]%lookup_insert_Some|?]; auto.
Qed.

Lemma getTrafficControls_ID cid ctl : getTrafficControls !! cid = Some ctl → cid ∈ control_IDs.
Proof.
  intros Hc. apply (foldl_insert_dom x_control) in Hc as [Hc|?]; [|done].
  by rewrite lookup_empty in Hc.
Qed.

(** A report offers exactly the controls that are handled: the table of
    controls and the controls of every node have the same keys, and for a
    container of the store these are the control IDs with a handler. *)
Theorem controls_agree timestamp dead id c cid w :
  idle (store w) → containers (store w) !! id = Some c →
  dom (getTrafficNodeControls timestamp dead) = dom getTrafficControls ∧
  (cid ∈ dom getTrafficControls ↔
   ∃ h, (GetHandler (containerIDToNodeID id) cid w).1 = Ret (Some h, None)).
Proof.
  intros Hidle Hc. split; [reflexivity|]. rewrite elem_of_dom.
  assert (is_Some (getTrafficControls !! cid) ↔
    is_Some (x_handler <$> find (λ c, bool_decide (c_ID (x_control c) = cid)) getControls)) as ->.
  { destruct (decide (cid ∈ control_IDs)) as [Hin|Hout].
    - unfold control_IDs in Hin. simpl in Hin.
      repeat (apply elem_of_cons in Hin as [->|Hin]; [by split; intros _; eexists; reflexivity|]).
      by apply not_elem_of_nil in Hin.
    - rewrite find_unknown by done. split; [|by intros []].
      intros [ctl Hctl]. destruct Hout. by eapply getTrafficControls_ID. }
  unfold GetHandler. rewrite containerID_nodeID.
  rewrite (bind_Ret _ _ _ (c, true) w).
  2: { rewrite (zoom_Ret _ _ _ _ (Store_Container_idle id (store w) Hidle)), Hc. by destruct w. }
  simpl. destruct (x_handler <$> _) as [h|]; simpl; split.
  - intros _. by eexists.
  - by eexists.
  - by intros [].
  - by intros [].
Qed.

(** ** The nodes of a report *)

(** The states that show up in a report. *)
Definition reported (c : Container) : bool :=
  match CState c with Running | Stopped => true | Created | Destroyed => false end.

Section nodes.
Context `{!ClockLaws E}.
(** While [I] holds a client of the Docker socket can be created, and what
    the report asks of Docker, the clock and the map keeps [I]. *)
Variable I : E → Prop.
Hypothesis client_ok : ∀ e, I e →
  (docker_NewClient "unix:///var/run/docker.sock" e).1 = None ∧
  I (docker_NewClient "unix:///var/run/docker.sock" e).2.
Hypothesis inspect_keeps : ∀ id e, I e → I (docker_InspectContainer id e).2.
Hypothesis clock_ok : ∀ e, I e →
  I (time_Now e).2 ∧ (∀ s, I (rand_Seed s e)) ∧ (∀ n, I (rand_Intn n e).2).
Hypothesis order_ok : ∀ m e, I e → I (range_order m e).2.

Abbreviation R w w' := (I (env w') ∧ own w' = own w ∧ trace w' = trace w).

Lemma getStatusByPod_run pod w :
  I (env w) → ∃ b l k w', getStatusByPod pod w = (Ret (Some {|
      n_spod := ""; n_dpod := pod; n_bandwidth := Itoa b; n_packet := Itoa k;
      n_latency := Itoa l |}, None), w') ∧
    (700 ≤ b < 34000)%Z ∧ (140 ≤ l < 230)%Z ∧ (5 ≤ k < 80)%Z ∧ R w w'.
Proof.
  intros HI. unfold getStatusByPod.
  destruct (random_run I 700 34000 w clock_ok HI) as (b & w1 & Hr1 & Hb & HI1 & Ho1 & Ht1);
    [lia|unfold max_int64; lia|]. rewrite (bind_Ret _ _ _ _ _ Hr1).
  destruct (random_run I 140 230 w1 clock_ok HI1) as (l & w2 & Hr2 & Hl & HI2 & Ho2 & Ht2);
    [lia|unfold max_int64; lia|]. rewrite (bind_Ret _ _ _ _ _ Hr2).
  destruct (random_run I 5 80 w2 clock_ok HI2) as (k & w3 & Hr3 & Hk & HI3 & Ho3 & Ht3);
    [lia|unfold max_int64; lia|]. rewrite (bind_Ret _ _ _ _ _ Hr3).
  eexists b, l, k, w3. split; [done|]. rewrite Ho3, Ho2, Ho1, Ht3, Ht2, Ht1. split_and!; done || lia.
Qed.

(** [getPod]: the pod when the container can be inspected, a panic when not. *)
Lemma getPod_run id w :
  I (env w) → ∃ e, I e ∧
    match (docker_InspectContainer id e).1 with
    | inl _ => ∃ w', getPod id w = (Panicked NilDereference, w') ∧ R w w'
    | inr c => ∃ pod err w', getPod id w = (Ret (pod, None), w') ∧ R w w' ∧
        ∀ w0 : W, parsePodName (DName c) w0 = (Ret (pod, err), w0)
    end.
Proof.
  intros HI. unfold getPod. erewrite bind_Ret by apply ext_run.
  destruct (client_ok _ HI) as [-> HI1].
  erewrite bind_Ret by apply ext_run. exists (docker_NewClient "unix:///var/run/docker.sock" (env w)).2.
  split; [done|]. simpl. pose proof (inspect_keeps id _ HI1) as HI2.
  destruct (docker_InspectContainer id _) as [[x|c] e2]; simpl in *.
  - by eexists.
  - destruct (parsePodName_run (E:=E) (DName c)) as [[pod err] Hp].
    rewrite (bind_Ret _ _ _ _ _ (proj1 (Hp _))).
    exists pod, err. eexists. split; [done|]. split; [done|]. intros w0. apply Hp.
Qed.

(** What the report says of a container: the controls, dead when it is
    stopped; its pod; and random numbers. *)
Definition node_ok (timestamp : Time) (pod : string) (c : Container) (n : node) : Prop :=
  LatestControls n = getTrafficNodeControls timestamp (bool_decide (CState c = Stopped)) ∧
  ∃ l k, (140 ≤ l < 230)%Z ∧ (5 ≤ k < 80)%Z ∧
    Latest n = {[ networkControlTablePrefix +:+ "dst-pod" := MkStringEntry timestamp pod;
                  networkControlTablePrefix +:+ "net-bandwidth" := MkStringEntry timestamp (Itoa l);
                  networkControlTablePrefix +:+ "net-packet" := MkStringEntry timestamp (Itoa k) ]}.

Lemma report_container_created ts id c (w : W) N :
  reported c = false → report_container ts id c (w, N) = (Ret (), (w, N)).
Proof. unfold reported, report_container. by destruct (CState c). Qed.

Lemma report_container_reported ts id c (w : W) N :
  reported c = true →
  report_container ts id c (w, N) =
    report_node ts id (bool_decide (CState c = Stopped)) (w, N).
Proof. unfold reported, report_container. by destruct (CState c). Qed.

Lemma report_node_run ts id dead (w : W) N :
  I (env w) → ∃ e, I e ∧
    match (docker_InspectContainer id e).1 with
    | inl _ => ∃ w', report_node ts id dead (w, N) = (Panicked NilDereference, (w', N)) ∧ R w w'
    | inr ct => ∃ pod err l k w',
        (∀ w0 : W, parsePodName (DName ct) w0 = (Ret (pod, err), w0)) ∧
        (140 ≤ l < 230)%Z ∧ (5 ≤ k < 80)%Z ∧ R w w' ∧
        report_node ts id dead (w, N) = (Ret (), (w', <[containerIDToNodeID id := {|
          LatestControls := getTrafficNodeControls ts dead;
          Latest := {[ networkControlTablePrefix +:+ "dst-pod" := MkStringEntry ts pod;
            networkControlTablePrefix +:+ "net-bandwidth" := MkStringEntry ts (Itoa l);
            networkControlTablePrefix +:+ "net-packet" := MkStringEntry ts (Itoa k) ]} |}]> N))
    end.
Proof.
  intros HI. destruct (getPod_run id w HI) as (e & HIe & Hpod). exists e. split; [done|].
  unfold report_node. cbv zeta. destruct (docker_InspectContainer id e).1 as [x|ct].
  - destruct Hpod as (w' & Hp & HR). exists w'. split; [|done].
    apply bind_Panicked. unfold lift. simpl. by rewrite Hp.
  - destruct Hpod as (pod & err & w1 & Hp & (HI1 & Ho1 & Ht1) & Hparse).
    destruct (getStatusByPod_run pod w1 HI1) as (b & l & k & w2 & Hs & _ & Hl & Hk & HI2 & Ho2 & Ht2).
    exists pod, err, l, k, w2. rewrite Ho2, Ht2. do 3 (split; [done|]). split; [done|].
    rewrite (bind_Ret _ _ _ _ _ (lift_Ret _ w N _ _ Hp)).
    by rewrite (bind_Ret _ _ _ _ _ (lift_Ret _ w1 N _ _ Hs)).
Qed.

(** The node that an entry of the list accounts for. *)
Definition entry_for (ts : Time) (es : list (string * Container)) (key : string) (n : node) : Prop :=
  ∃ id c ct e pod err, (id, c) ∈ es ∧ reported c = true ∧ key = containerIDToNodeID id ∧
    I e ∧ (docker_InspectContainer id e).1 = inr ct ∧
    (∀ w0 : W, parsePodName (DName ct) w0 = (Ret (pod, err), w0)) ∧ node_ok ts pod c n.

Definition demanded (es : list (string * Container)) (key : string) : Prop :=
  ∃ id c, (id, c) ∈ es ∧ reported c = true ∧ key = containerIDToNodeID id.

Lemma entry_for_cons ts ic es key n : entry_for ts es key n → entry_for ts (ic :: es) key n.
Proof.
  intros (id & c & ct & e & pod & err & Hin & H). exists id, c, ct, e, pod, err.
  split; [by apply list_elem_of_further|done].
Qed.

(** The loop over the entries of the store. *)
Lemma report_loop ts es (w : W) N :
  I (env w) →
  (∀ id c, (id, c) ∈ es → reported c = true →
     ∀ e, I e → ∃ ct, (docker_InspectContainer id e).1 = inr ct) →
  ∃ w' N', for_range es (λ e, report_container ts e.1 e.2) (w, N) = (Ret (), (w', N')) ∧
    R w w' ∧
    (∀ key n, N' !! key = Some n → N !! key = Some n ∨ entry_for ts es key n) ∧
    (∀ key, is_Some (N !! key) ∨ demanded es key → is_Some (N' !! key)).
Proof.
  revert w N. induction es as [|[id c] es IH]; intros w N HI Hes.
  { exists w, N. do 2 (split; [done|]). split; [by left|].
    intros key [?|(id & c & Hin & _)]; [done|]. by apply not_elem_of_nil in Hin. }
  assert (∀ id c, (id, c) ∈ es → reported c = true →
     ∀ e, I e → ∃ ct, (docker_InspectContainer id e).1 = inr ct) as Hes'.
  { intros id' c' Hin. apply (Hes id'). by apply list_elem_of_further. }
  simpl. destruct (reported c) eqn:Hc.
  - destruct (report_node_run ts id (bool_decide (CState c = Stopped)) w N HI)
      as (e & HIe & Hrun).
    destruct (Hes id c (list_elem_of_here _ _) Hc e HIe) as [ct Hct]. rewrite Hct in Hrun.
    destruct Hrun as (pod & err & l & k & w1 & Hparse & Hl & Hk & (HI1 & Ho1 & Ht1) & Hrun).
    rewrite <-report_container_reported in Hrun by done.
    set (n := {| LatestControls := _ |}) in Hrun. set (key0 := containerIDToNodeID id) in *.
    destruct (IH w1 (<[key0:=n]> N) HI1 Hes') as (w2 & N2 & Hr2 & (HI2 & Ho2 & Ht2) & Hfrom & Hto).
    exists w2, N2. rewrite (bind_Ret _ _ _ _ _ Hrun). split; [done|].
    split; [by rewrite Ho2, Ho1, Ht2, Ht1|]. split.
    + intros key n' Hn'. destruct (Hfrom key n' Hn') as [[[<- <-]|[_ ?]]%lookup_insert_Some|?];
        [|by left|right; by apply entry_for_cons].
      right. exists id, c, ct, e, pod, err. split; [apply list_elem_of_here|].
      do 5 (split; [done|]). split; [done|]. by exists l, k.
    + intros key Hkey. apply Hto. destruct (decide (key = key0)) as [->|Hne].
      { left. rewrite lookup_insert_eq. by eexists. }
      destruct Hkey as [?|(id' & c' & Hin & Hc' & ->)].
      * left. by rewrite lookup_insert_ne.
      * right. exists id', c'. split; [|done].
        apply elem_of_cons in Hin as [?|?]; [unfold key0 in Hne; congruence|done].
  - rewrite (bind_Ret _ _ _ _ _ (report_container_created ts id c w N Hc)).
    destruct (IH w N HI Hes') as (w2 & N2 & Hr2 & HR & Hfrom & Hto).
    exists w2, N2. split; [done|]. split; [done|]. split.
    + intros key n' Hn'. destruct (Hfrom key n' Hn'); [by left|right; by apply entry_for_cons].
    + intros key [?|(id' & c' & Hin & Hc' & ->)]; apply Hto; [by left|].
      right. exists id', c'. split; [|done].
      apply elem_of_cons in Hin as [?|?]; [congruence|done].
Qed.

(** The same loop when a reported container cannot be inspected. *)
Lemma report_loop_fails ts es (w : W) N :
  I (env w) →
  ∃ o w' N', for_range es (λ e, report_container ts e.1 e.2) (w, N) = (o, (w', N')) ∧
    R w w' ∧ (o = Ret () ∨ o = Panicked NilDereference) ∧
    ((∃ id c, (id, c) ∈ es ∧ reported c = true ∧
        ∀ e, I e → ∃ x, (docker_InspectContainer id e).1 = inl x) → o = Panicked NilDereference).
Proof.
  revert w N. induction es as [|[id c] es IH]; intros w N HI.
  { exists (Ret ()), w, N. do 2 (split; [done|]). split; [by left|].
    intros (id & c & Hin & _). by apply not_elem_of_nil in Hin. }
  simpl. destruct (reported c) eqn:Hc.
  - destruct (report_node_run ts id (bool_decide (CState c = Stopped)) w N HI)
      as (e & HIe & Hrun).
    rewrite <-report_container_reported in Hrun by done.
    destruct (docker_InspectContainer id e).1 as [x|ct] eqn:Hans.
    + destruct Hrun as (w' & Hrun & HR). eexists _, w', N.
      rewrite (bind_Panicked _ _ _ _ _ Hrun). split; [done|]. split; [done|]. auto.
    + destruct Hrun as (pod & err & l & k & w1 & Hparse & Hl & Hk & (HI1 & Ho1 & Ht1) & Hrun).
      rewrite (bind_Ret _ _ _ _ _ Hrun).
      match type of Hrun with _ = (_, (_, ?N1)) =>
        destruct (IH w1 N1 HI1) as (o & w2 & N2 & Hr2 & (HI2 & Ho2 & Ht2) & Ho & Hbad) end.
      exists o, w2, N2. split; [exact Hr2|]. split; [by rewrite Ho2, Ho1, Ht2, Ht1|]. split; [done|].
      intros (id' & c' & Hin & Hc' & Hfail). apply Hbad. exists id', c'. split; [|done].
      apply elem_of_cons in Hin as [?|?]; [|done]. simplify_eq.
      destruct (Hfail e HIe) as [x Hx]. congruence.
  - rewrite (bind_Ret _ _ _ _ _ (report_container_created ts id c w N Hc)).
    destruct (IH w N HI) as (o & w2 & N2 & Hr2 & HR & Ho & Hbad).
    exists o, w2, N2. split; [done|]. split; [done|]. split; [done|].
    intros (id' & c' & Hin & Hc' & Hfail). apply Hbad. exists id', c'. split; [|done].
    apply elem_of_cons in Hin as [?|?]; [congruence|done].
Qed.

(** From the loop to [getContainerNodes]: the mutex is taken before and
    released after, whether the loop returned or panicked. *)
Lemma getContainerNodes_loop w o w2 N2 :
  let ts := (time_Now (env w)).1 in
  let es := (range_order (containers (store w)) (time_Now (env w)).2).1 in
  let w1 := {| env := (range_order (containers (store w)) (time_Now (env w)).2).2;
               store := {| locked := true; containers := containers (store w) |};
               tcs := tcs w; trace := trace w |} in
  idle (store w) →
  for_range es (λ e, report_container ts e.1 e.2) (w1, ∅) = (o, (w2, N2)) →
  own w2 = own w1 → o = Ret () ∨ o = Panicked NilDereference →
  getContainerNodes w =
    (match o with Ret _ => Ret N2 | _ => Panicked NilDereference end, update (store w) w2).
Proof.
  intros ts es w1 Hidle Hloop Ho2 Hout. unfold getContainerNodes.
  erewrite bind_Ret by apply ext_run.
  set (w0 := {| env := (time_Now (env w)).2; store := store w; tcs := tcs w; trace := trace w |}).
  assert (ForEach (λ m, lift (ext (range_order m))) (report_container ts) (w0, ∅) =
    (o, (update (store w) w2, N2))) as Hfe.
  { rewrite (ForEach_idle _ _ (w0, ∅) es (w1, ∅)); [|done|].
    - unfold defer. rewrite Hloop.
      destruct (own_inj _ _ Ho2) as [Hs2 _].
      assert (zoom Unlock (w2, N2) = (Ret (), (update (store w) w2, N2))) as Hu.
      { unfold zoom, Unlock. simpl. rewrite Hs2. simpl.
        unfold idle in Hidle. destruct (store w) as [l m]. simpl in *. by subst. }
      destruct Hout as [-> | ->]; by rewrite Hu.
    - unfold lift, ext. simpl. unfold w1. by destruct (range_order _ _). }
  fold ts w0. unfold with_local. unfold mbind, M_bind. rewrite Hfe.
  by destruct Hout as [-> | ->].
Qed.

Lemma order_elem m e id c : (id, c) ∈ (range_order m e).1 ↔ m !! id = Some c.
Proof. rewrite range_order_perm. apply elem_of_map_to_list. Qed.

(** The nodes of a report, with the time they are stamped with. *)
Lemma getContainerNodes_run w :
  idle (store w) → I (env w) →
  (∀ id c, containers (store w) !! id = Some c → reported c = true →
     ∀ e, I e → ∃ ct, (docker_InspectContainer id e).1 = inr ct) →
  ∃ nodes w', getContainerNodes w = (Ret nodes, w') ∧ own w' = own w ∧
    (∀ key, is_Some (nodes !! key) ↔ ∃ id c,
       containers (store w) !! id = Some c ∧ reported c = true ∧ key = containerIDToNodeID id) ∧
    (∀ id n, nodes !! containerIDToNodeID id = Some n → ∃ c ct e pod err,
       containers (store w) !! id = Some c ∧ node_ok (time_Now (env w)).1 pod c n ∧
       I e ∧ (docker_InspectContainer id e).1 = inr ct ∧
       ∀ w0 : W, parsePodName (DName ct) w0 = (Ret (pod, err), w0)).
Proof.
  intros Hidle HI Hins.
  set (ts := (time_Now (env w)).1).
  set (es := (range_order (containers (store w)) (time_Now (env w)).2).1).
  edestruct (report_loop ts es {| env := (range_order (containers (store w)) (time_Now (env w)).2).2;
    store := {| locked := true; containers := containers (store w) |};
    tcs := tcs w; trace := trace w |} ∅) as (w2 & N2 & Hr & (HI2 & Ho & Ht) & Hfrom & Hto).
  { simpl. by apply order_ok, clock_ok. }
  { intros id c Hin%order_elem. by apply Hins. }
  pose proof (getContainerNodes_loop w _ _ _ Hidle Hr Ho (or_introl eq_refl)) as Hg.
  exists N2. eexists. split; [exact Hg|]. simpl. split.
  { destruct (own_inj _ _ Ho) as [_ Htc]. unfold own. simpl in *. by rewrite Htc. }
  assert (∀ key, demanded es key ↔ ∃ id c, containers (store w) !! id = Some c ∧
    reported c = true ∧ key = containerIDToNodeID id) as Hdem.
  { intros key. unfold demanded, es. by setoid_rewrite order_elem. }
  split.
  - intros key. rewrite <-Hdem. split; [|auto]. intros [n Hn].
    destruct (Hfrom key n Hn) as [Hn'|(id & c & ct & e & pod & err & Hin & Hc & Hk & _)].
    { by rewrite lookup_empty in Hn'. }
    by exists id, c.
  - intros id n Hn.
    destruct (Hfrom _ n Hn) as [Hn'|(id' & c & ct & e & pod & err & Hin & Hc & Hk & He & Hct & Hp & Hok)].
    { by rewrite lookup_empty in Hn'. }
    apply nodeID_inj in Hk as <-. apply order_elem in Hin.
    by exists c, ct, e, pod, err.
Qed.


(** C31: when the client of the Docker socket can be created, one running or
    stopped container that Docker cannot describe makes the whole report panic, wherever it comes in the enumeration; the mutex of
    the store is released all the same, and the store is as before. *)
Theorem getContainerNodes_panics w id c :
  idle (store w) → I (env w) →
  containers (store w) !! id = Some c → reported c = true →
  (∀ e, I e → ∃ x, (docker_InspectContainer id e).1 = inl x) →
  ∃ w', getContainerNodes w = (Panicked NilDereference, w') ∧ own w' = own w.
Proof.
  intros Hidle HI Hid Hc Hfail.
  edestruct (report_loop_fails (time_Now (env w)).1
    (range_order (containers (store w)) (time_Now (env w)).2).1
    {| env := (range_order (containers (store w)) (time_Now (env w)).2).2;
       store := {| locked := true; containers := containers (store w) |};
       tcs := tcs w; trace := trace w |} ∅) as (o & w2 & N2 & Hr & (HI2 & Ho & Ht) & Hout & Hbad).
  { simpl. by apply order_ok, clock_ok. }
  pose proof (getContainerNodes_loop w _ _ _ Hidle Hr Ho Hout) as Hg.
  rewrite Hbad in Hg by (exists id, c; by rewrite order_elem).
  eexists. split; [exact Hg|].
  destruct (own_inj _ _ Ho) as [_ Htc]. unfold own. simpl in *. by rewrite Htc.
Qed.
End nodes.
End report.

(** ** Witnesses *)

(** The plugin after it listed the containers of [sim0]. *)
Definition world_listed : World Sim := {|
  env := sim0;
  store := {| locked := false;
              containers := {[ "aaa" := MkContainer Running 41; "bbb" := MkContainer Stopped 42;
                               "new" := MkContainer Created 0 ]} |};
  tcs := tc_init; trace := [] |}.

(** The same when "bbb" is gone. *)
Definition world_stale : World Sim := {|
  env := MkSim [("aaa", MkDockerContainer "/k8s_web_web-1_default_uid_0" (st_running 41))]
           [] [] None [] None [] [] None (s_response sim0) 99;
  store := store world_listed; tcs := tc_init; trace := [] |}.

Lemma controls_agree_witness :
  dom (getTrafficNodeControls (E:=Sim) (MkTime 0 0 0) true) = dom (getTrafficControls (E:=Sim)) ∧
  ("network-control-table-clear" ∈ dom (getTrafficControls (E:=Sim)) ↔
   ∃ h, (GetHandler (containerIDToNodeID "bbb") "network-control-table-clear" world_listed).1
     = Ret (Some h, None)).
Proof.
  exact (controls_agree (MkTime 0 0 0) true "bbb" (MkContainer Stopped 42)
    "network-control-table-clear" world_listed eq_refl eq_refl).
Defined.


Lemma getContainerNodes_panics_witness :
  ∃ w', getContainerNodes world_stale = (Panicked NilDereference, w') ∧ own w' = own world_stale.
Proof.
  apply (getContainerNodes_panics (λ e, e = env world_stale)) with
    (id := "bbb") (c := MkContainer Stopped 42).
  - intros e ->. by split.
  - by intros id e ->.
  - by intros e ->.
  - by intros m e ->.
  - reflexivity.
  - reflexivity.
  - reflexivity.
  - reflexivity.
  - intros e ->. by eexists.
Defined.
