(* ===== verification/Wire.v ===== *)
(** * The report on the wire ([src/report.go])

    The JSON form of the structs of [report.go], by their field tags, and
    [RawReport] in full: the report, then its bytes. *)

From S2P Require Import Prelude Go Strs Nums Store Env Utf8 Fmt Json Codec Times.
From S2P Require Import Status World Sim TrafficControl Report.

(** A float64 by its shortest decimal form, for constants without an exponent
    and below 10^6 (the format of larger numbers is scientific). *)
Definition decimal_text (d : decimal) : string :=
  let p := (10 ^ (- exponent d))%Z in
  if decide (0 ≤ exponent d)%Z then Itoa (mantissa d * 10 ^ exponent d)
  else Itoa (mantissa d / p) +:+
       match trim_zeros (pad (Z.to_nat (- exponent d)) (mantissa d mod p)) with
       | "" => "" | s => "." +:+ s
       end.

Definition marshal_controlData (d : controlData) : option json :=
  Some (JObj [("dead", JBool (Dead d))]).

Definition marshal_controlEntry (e : controlEntry) : option json :=
  ts ← marshal_time (ce_Timestamp e);
  v ← marshal_controlData (ce_Value e);
  Some (JObj [("timestamp", ts); ("value", v)]).

Definition marshal_stringEntry (e : stringEntry) : option json :=
  ts ← marshal_time (se_Timestamp e);
  Some (JObj [("timestamp", ts); ("value", JStr (se_Value e))]).

Definition marshal_control (c : control) : option json :=
  Some (JObj [("id", JStr (c_ID c)); ("human", JStr (c_Human c)); ("icon", JStr (c_Icon c));
              ("rank", JNum (Itoa (c_Rank c)))]).

(** A member that is left out when it is empty. *)
Definition optional (empty : bool) (name : string) (j : option json) : option (list (string * json)) :=
  if empty then Some [] else (λ j, [(name, j)]) <$> j.

Definition marshal_node (n : node) : option json :=
  a ← optional (bool_decide (LatestControls n = ∅)) "latestControls"
        (marshal_map marshal_controlEntry (LatestControls n));
  b ← optional (bool_decide (Latest n = ∅)) "latest" (marshal_map marshal_stringEntry (Latest n));
  Some (JObj (a ++ b)).

Definition string_member (name s : string) : list (string * json) :=
  if bool_decide (s = "") then [] else [(name, JStr s)].

Definition marshal_metadataTemplate (t : metadataTemplate) : option json :=
  Some (JObj ([("id", JStr (mt_ID t))] ++
    string_member "label" (mt_Label t) ++
    (if bool_decide (mt_Truncate t = 0%Z) then [] else [("truncate", JNum (Itoa (mt_Truncate t)))]) ++
    string_member "dataType" (mt_Datatype t) ++
    (if bool_decide (mantissa (mt_Priority t) = 0%Z) then []
     else [("priority", JNum (decimal_text (mt_Priority t)))]) ++
    string_member "from" (mt_From t))).

Definition marshal_tableTemplate (t : tableTemplate) : option json :=
  Some (JObj [("id", JStr (tt_ID t)); ("label", JStr (tt_Label t)); ("prefix", JStr (tt_Prefix t))]).

Definition marshal_pluginSpec (s : pluginSpec) : option json :=
  Some (JObj ([("id", JStr (ps_ID s)); ("label", JStr (ps_Label s))] ++
    string_member "description" (ps_Description s) ++
    [("interfaces", JArr (JStr <$> ps_Interfaces s))] ++
    string_member "api_version" (ps_APIVersion s))).

Definition marshal_topology (t : topology) : option json :=
  nodes ← marshal_map marshal_node (Nodes t);
  controls ← marshal_map marshal_control (Controls t);
  metadata ← optional (bool_decide (MetadataTemplates t = ∅)) "metadata_templates"
               (marshal_map marshal_metadataTemplate (MetadataTemplates t));
  tables ← optional (bool_decide (TableTemplates t = ∅)) "table_templates"
             (marshal_map marshal_tableTemplate (TableTemplates t));
  Some (JObj ([("nodes", nodes); ("controls", controls)] ++ metadata ++ tables)).

Definition marshal_report (r : report) : option json :=
  container ← marshal_topology (r_Container r);
  plugins ← mapM marshal_pluginSpec (r_Plugins r);
  Some (JObj [("Container", container); ("Plugins", JArr plugins)]).

Section wire.
Context {E : Type} `{!Docker E, !Kernel E, !Influx E, !Clock E}.
Abbreviation W := (World E).

(** RawReport returns a report *)
Definition RawReport : M W (string * option error) :=
  rpt ← RawReport_value;
  match marshal_report rpt with
  | Some j => mret (print j, None)
  | None => mret ("", Some (ErrMarshalReport time_error))
  end.
End wire.

(** ** The bytes are JSON *)

(** A year of four digits. *)
Definition year_ok (t : Time) : Prop := is_Some (marshal_time t).

Lemma json_time_ok t j : marshal_time t = Some j → numbers_ok j.
Proof. unfold marshal_time, json_time. case_bool_decide; [done|]. intros Hj. by simplify_eq. Qed.
#[local] Opaque marshal_time.

Lemma optional_numbers b name o l :
  optional b name o = Some l → (∀ j, o = Some j → numbers_ok j) → Forall (λ kv, numbers_ok kv.2) l.
Proof.
  unfold optional. destruct b; [by intros [= <-]|]. intros (j & -> & ->)%fmap_Some Hj.
  constructor; [by apply Hj|done].
Qed.

Lemma string_member_numbers name s : Forall (λ kv, numbers_ok kv.2) (string_member name s).
Proof. unfold string_member. by case_bool_decide; repeat constructor. Qed.

Lemma marshal_map_numbers {A} (f : A → option json) m j :
  marshal_map f m = Some j → (∀ k x j, m !! k = Some x → f x = Some j → numbers_ok j) → numbers_ok j.
Proof.
  intros Hj Hf. destruct (marshal_map_forall f m j numbers_ok Hj Hf) as (l & -> & Hl).
  apply numbers_ok_obj. eapply Forall_impl; [exact Hl|]. by intros kv [].
Qed.

Lemma controlEntry_numbers e j : marshal_controlEntry e = Some j → numbers_ok j.
Proof.
  intros (ts & Hts & Hj)%bind_Some. apply bind_Some in Hj as (v & [= <-] & [= <-]).
  split; [|done]. by apply (json_time_ok _ _ Hts).
Qed.

Lemma stringEntry_numbers e j : marshal_stringEntry e = Some j → numbers_ok j.
Proof. intros (ts & Hts & [= <-])%bind_Some. split; [|done]. by apply (json_time_ok _ _ Hts). Qed.

Lemma node_numbers n j : marshal_node n = Some j → numbers_ok j.
Proof.
  intros (a & Ha & Hj)%bind_Some. apply bind_Some in Hj as (b & Hb & [= <-]).
  apply numbers_ok_obj, Forall_app. split.
  - apply (optional_numbers _ _ _ _ Ha). intros j Hj. apply (marshal_map_numbers _ _ _ Hj).
    intros k x j'. intros _. apply controlEntry_numbers.
  - apply (optional_numbers _ _ _ _ Hb). intros j Hj. apply (marshal_map_numbers _ _ _ Hj).
    intros k x j'. intros _. apply stringEntry_numbers.
Qed.

Lemma control_numbers c j : marshal_control c = Some j → numbers_ok j.
Proof. intros [= <-]. simpl. by rewrite number_FormatInt. Qed.

Lemma pluginSpec_numbers s j : marshal_pluginSpec s = Some j → numbers_ok j.
Proof.
  intros [= <-]. apply numbers_ok_obj.
  assert (numbers_ok (JArr (JStr <$> ps_Interfaces s))) as Hi.
  { apply numbers_ok_arr. by apply Forall_fmap, Forall_true. }
  repeat first [apply string_member_numbers | apply Forall_app; split | by constructor | constructor; [done|]].
Qed.

Lemma metadata_numbers j :
  marshal_map marshal_metadataTemplate getMetadataTemplate = Some j → numbers_ok j.
Proof.
  intros Hj. apply (marshal_map_numbers _ _ _ Hj). intros k x j' Hx [= <-]. unfold getMetadataTemplate in Hx.
  clear Hj. apply lookup_insert_Some in Hx as [[_ <-]|[_ [_ <-]%lookup_singleton_Some]]; by vm_compute.
Qed.

Lemma tables_numbers j : marshal_map marshal_tableTemplate getTableTemplate = Some j → numbers_ok j.
Proof. intros Hj. apply (marshal_map_numbers _ _ _ Hj). clear Hj. by intros k x j' _ [= <-]. Qed.

Section bytes.
Context {E : Type} `{!Docker E, !Kernel E, !Influx E, !Clock E}.
Abbreviation W := (World E).

(** The report around the nodes. *)
Definition report_of (nodes : gmap string node) : report :=
  {| r_Container := {| Nodes := nodes; Controls := getTrafficControls (E:=E);
       MetadataTemplates := getMetadataTemplate; TableTemplates := getTableTemplate |};
     r_Plugins := [ {| ps_ID := "network-control"; ps_Label := "Network control";
       ps_Description := "Adds Network controls to the running Docker containers";
       ps_Interfaces := ["reporter"; "controller"]; ps_APIVersion := "1" |} ] |}.

Lemma RawReport_value_run (w : W) nodes w' :
  getContainerNodes w = (Ret nodes, w') → RawReport_value w = (Ret (report_of nodes), w').
Proof. intros Hn. unfold RawReport_value. by rewrite (bind_Ret _ _ _ _ _ Hn). Qed.

Lemma report_numbers nodes j : marshal_report (report_of nodes) = Some j → numbers_ok j.
Proof.
  intros (c & Hc & Hj)%bind_Some. apply bind_Some in Hj as (ps & Hps & [= <-]).
  split; [|split; [|done]].
  - apply bind_Some in Hc as (ns & Hns & Hc). apply bind_Some in Hc as (cs & Hcs & Hc).
    apply bind_Some in Hc as (ms & Hms & Hc). apply bind_Some in Hc as (ts & Hts & [= <-]).
    apply numbers_ok_obj. constructor; [|constructor; [|apply Forall_app; split]]; cbn [snd].
    + apply (marshal_map_numbers _ _ _ Hns). intros k x j _. apply node_numbers.
    + apply (marshal_map_numbers _ _ _ Hcs). intros k x j _. apply control_numbers.
    + apply (optional_numbers _ _ _ _ Hms), metadata_numbers.
    + apply (optional_numbers _ _ _ _ Hts), tables_numbers.
  - apply numbers_ok_arr. apply mapM_Some_1 in Hps. induction Hps; constructor; [|done].
    by eapply pluginSpec_numbers.
Qed.

(** The report has a JSON form when the nodes have. *)
Lemma report_total nodes :
  (∀ k n, nodes !! k = Some n → is_Some (marshal_node n)) →
  ∃ ns rest ps, marshal_map marshal_node nodes = Some ns ∧
    marshal_report (report_of nodes) = Some (JObj [("Container", JObj (("nodes", ns) :: rest)); ("Plugins", ps)]).
Proof.
  intros Hn. destruct (marshal_map_total marshal_node nodes Hn) as [ns Hns].
  destruct (marshal_map_total marshal_control (getTrafficControls (E:=E))) as [cs Hcs]; [by eexists|].
  destruct (marshal_map_total marshal_metadataTemplate getMetadataTemplate) as [ms Hms]; [by eexists|].
  destruct (marshal_map_total marshal_tableTemplate getTableTemplate) as [ts Hts]; [by eexists|].
  assert (∀ b name j, ∃ l, optional b name (Some j) = Some l) as Hopt.
  { intros [] name j; by eexists. }
  unfold marshal_report, marshal_topology, report_of.
  cbn [r_Container r_Plugins Nodes Controls MetadataTemplates TableTemplates].
  rewrite Hns, Hcs, Hms, Hts. cbn [mbind option_bind].
  destruct (Hopt (bool_decide (getMetadataTemplate = ∅)) "metadata_templates" ms) as [l1 ->].
  destruct (Hopt (bool_decide (getTableTemplate = ∅)) "table_templates" ts) as [l2 ->].
  cbn [mbind option_bind mapM mret option_ret marshal_pluginSpec].
  eexists ns, _, _. split; reflexivity.
Qed.
End bytes.

(** ** What a reader of the bytes sees *)

(** An environment in which a client of the Docker socket can be created, and
    that its answers, the clock and the enumeration of maps leave in [I]. *)
Record calm {E} `{!Docker E, !Clock E} (I : E → Prop) : Prop := {
  calm_client e : I e → (docker_NewClient "unix:///var/run/docker.sock" e).1 = None ∧
    I (docker_NewClient "unix:///var/run/docker.sock" e).2;
  calm_inspect id e : I e → I (docker_InspectContainer id e).2;
  calm_clock e : I e → I (time_Now e).2 ∧ (∀ s, I (rand_Seed s e)) ∧ (∀ n, I (rand_Intn n e).2);
  calm_order m e : I e → I (range_order m e).2
}.

Section reader.
Context {E : Type} `{!Docker E, !Kernel E, !Influx E, !Clock E, !ClockLaws E}.
Abbreviation W := (World E).

Lemma controls_entry ts dead cid :
  cid ∈ control_IDs (E:=E) →
  getTrafficNodeControls (E:=E) ts dead !! cid = Some (MkControlEntry ts (MkControlData dead)).
Proof.
  unfold control_IDs. simpl. intros Hin.
  repeat (apply elem_of_cons in Hin as [->|Hin]; [reflexivity|]). by apply not_elem_of_nil in Hin.
Qed.

Lemma controls_entry_inv ts dead cid e :
  getTrafficNodeControls (E:=E) ts dead !! cid = Some e →
  cid ∈ control_IDs (E:=E) ∧ e = MkControlEntry ts (MkControlData dead).
Proof.
  intros He. assert (cid ∈ control_IDs (E:=E)) as Hin.
  { apply (foldl_insert_dom (λ _, _)) in He as [He|?]; [by rewrite lookup_empty in He|done]. }
  split; [done|]. rewrite controls_entry in He by done. congruence.
Qed.

Lemma control_IDs_valid : Forall valid (control_IDs (E:=E)).
Proof. apply (bool_decide_unpack _). vm_compute. exact I. Qed.

Lemma node_marshals ts pod c n :
  year_ok ts → node_ok (E:=E) ts pod c n →
  ∃ m b, marshal_map marshal_controlEntry (LatestControls n) = Some m ∧
    marshal_node n = Some (JObj (("latestControls", m) :: b)).
Proof.
  intros [tj Hts] [Hc (l & k & _ & _ & Hl)].
  destruct (marshal_map_total marshal_controlEntry (LatestControls n)) as [m Hm].
  { rewrite Hc. intros cid e [_ ->]%controls_entry_inv. unfold marshal_controlEntry. simpl.
    rewrite Hts. by eexists. }
  destruct (marshal_map_total marshal_stringEntry (Latest n)) as [m2 Hm2].
  { rewrite Hl. intros key e He.
    assert (se_Timestamp e = ts) as Het.
    { apply lookup_insert_Some in He as [[_ <-]|[_ He]]; [done|].
      apply lookup_insert_Some in He as [[_ <-]|[_ He]]; [done|].
      by apply lookup_singleton_Some in He as [_ <-]. }
    unfold marshal_stringEntry. rewrite Het, Hts. by eexists. }
  assert (LatestControls n ≠ ∅) as Hne.
  { rewrite Hc. intros Hemp. pose proof (controls_entry ts (bool_decide (CState c = Stopped))
      "network-control-table-clear") as Hent.
    rewrite Hemp, lookup_empty in Hent. discriminate Hent.
    apply (bool_decide_unpack _). vm_compute. exact I. }
  exists m. unfold marshal_node, optional. rewrite Hm, Hm2, (bool_decide_false _ Hne).
  destruct (bool_decide (Latest n = ∅)); eexists; split; reflexivity.
Qed.

(** The path to the flag of a control in the written node. *)
Lemma node_dead ts pod c n m cid :
  node_ok (E:=E) ts pod c n → cid ∈ control_IDs (E:=E) →
  marshal_map marshal_controlEntry (LatestControls n) = Some m → year_ok ts →
  jpath [cid; "value"; "dead"] (norm m) = Some (JBool (bool_decide (CState c = Stopped))).
Proof.
  intros [Hc _] Hcid Hm [tj Hts]. rewrite Hc in Hm.
  pose proof (jget_marshal_map _ _ _ cid Hm) as Hget.
  destruct (marshal_map_forall _ _ _ (λ _, True) Hm) as (l & -> & Hl); [done|].
  rewrite jpath_cons, jget_norm.
  - rewrite Hget, controls_entry by done. unfold marshal_controlEntry. cbn [mbind option_bind ce_Timestamp].
    rewrite Hts. reflexivity.
  - eapply Forall_impl; [exact Hl|]. intros kv [[e [Hin _]%controls_entry_inv] _].
    by apply (proj1 (Forall_forall _ _) control_IDs_valid).
Qed.

(** A report is written as JSON that tells a reader what the store has: nodes
    for exactly the running and stopped containers, with every control, dead
    when the container is stopped. *)
Lemma RawReport_run (I : E → Prop) (w : W) :
  calm I → idle (store w) → I (env w) → year_ok (time_Now (env w)).1 →
  (∀ id c, containers (store w) !! id = Some c → reported c = true →
     valid id ∧ ∀ e, I e → ∃ ct, (docker_InspectContainer id e).1 = inr ct) →
  ∃ raw v w', RawReport w = (Ret (raw, None), w') ∧ own w' = own w ∧
    readValue (raw, None) = inr v ∧
    (∀ key, is_Some (jpath ["Container"; "nodes"; key] v) ↔ ∃ id c,
       containers (store w) !! id = Some c ∧ reported c = true ∧ key = containerIDToNodeID id) ∧
    (∀ id c cid, containers (store w) !! id = Some c → reported c = true → cid ∈ control_IDs (E:=E) →
       jpath ["Container"; "nodes"; containerIDToNodeID id; "latestControls"; cid; "value"; "dead"] v
       = Some (JBool (bool_decide (CState c = Stopped)))).
Proof.
  intros Hcalm Hidle HI Hyear Hins.
  destruct (getContainerNodes_run I (calm_client _ Hcalm) (calm_inspect _ Hcalm) (calm_clock _ Hcalm)
    (calm_order _ Hcalm) w Hidle HI) as (nodes & w' & Hrun & Hown & Hdom & Hnode).
  { intros id c Hid Hc. exact (proj2 (Hins id c Hid Hc)). }
  set (ts := (time_Now (env w)).1) in *.
  assert (∀ key n, nodes !! key = Some n → ∃ id c pod, key = containerIDToNodeID id ∧
    containers (store w) !! id = Some c ∧ reported c = true ∧ node_ok (E:=E) ts pod c n) as Hkey.
  { intros key n Hn. destruct (proj1 (Hdom key)) as (id & c & Hid & Hc & ->); [by exists n|].
    destruct (Hnode id n Hn) as (c' & ct & e & pod & err & Hid' & Hok & _). simplify_eq. eauto 8. }
  destruct (report_total (E:=E) nodes) as (ns & rest & ps & Hns & Hrep).
  { intros key n (id & c & pod & _ & _ & _ & Hok)%Hkey.
    destruct (node_marshals ts pod c n Hyear Hok) as (m & b & _ & ->). by eexists. }
  pose proof (report_numbers nodes _ Hrep) as Hnum.
  set (j := JObj _) in Hrep, Hnum. exists (print j), (norm j), w'.
  assert (∀ keys, jpath ("Container" :: "nodes" :: keys) (norm j) = jpath keys (norm ns)) as Hpath.
  { intros keys. unfold j. rewrite jpath_cons, jget_norm_first by by apply ascii_only_valid.
    cbn [mbind option_bind]. by rewrite jpath_cons, jget_norm_first by by apply ascii_only_valid. }
  assert (∀ key, jget key (norm ns) = norm <$> (nodes !! key ≫= marshal_node)) as Hget.
  { intros key. rewrite <-(jget_marshal_map _ _ _ _ Hns).
    destruct (marshal_map_forall _ _ _ (λ _, True) Hns) as (l & -> & Hl); [done|]. apply jget_norm.
    eapply Forall_impl; [exact Hl|]. intros kv [[n (id & c & pod & -> & Hid & Hc & _)%Hkey] _].
    apply valid_app; [by apply (Hins id c)|by apply ascii_only_valid]. }
  split; [|split; [done|split; [|split]]].
  - unfold RawReport. rewrite (bind_Ret _ _ _ _ _ (RawReport_value_run w nodes w' Hrun)). by rewrite Hrep.
  - rewrite <-(append_nil_r (print j)). apply readValue_print; [done|by left].
  - intros key. rewrite Hpath, <-Hdom, jpath_cons, Hget. destruct (nodes !! key) as [n|] eqn:Hn.
    + destruct (Hkey key n Hn) as (id & c & pod & _ & _ & _ & Hok). simpl.
      destruct (node_marshals ts pod c n Hyear Hok) as (m & b & _ & ->). split; intros _; by eexists.
    + simpl. split; by intros [].
  - intros id c cid Hid Hc Hcid. rewrite Hpath, jpath_cons, Hget.
    destruct (proj2 (Hdom (containerIDToNodeID id))) as [n Hn]; [by exists id, c|].
    destruct (Hkey _ n Hn) as (id' & c' & pod & <-%nodeID_inj & Hid' & _ & Hok). simplify_eq.
    rewrite Hn. cbn [mbind option_bind].
    destruct (node_marshals ts pod c n Hyear Hok) as (m & b & Hm & ->).
    cbn [fmap option_fmap option_map mbind option_bind].
    rewrite jpath_cons, jget_norm_first by by apply ascii_only_valid.
    by apply (node_dead ts pod c n m cid).
Qed.
End reader.
