(* ===== verification/Plugin.v ===== *)
(** * The plugin ([src/main.go])

    The request handlers of the plugin and the process as a whole: a Docker
    goroutine that follows events and a server that answers reports and
    controls. A handler runs from its decoded request to the value it sends;
    [net/http] recovers a handler that panics and drops the connection.

    The inductive [sys_step] interleaves the steps of the Docker goroutine with whole
    requests. *)

From S2P Require Import Prelude Go Strs Nums Store Env Status World Sim Docker TrafficControl Report.

Record request : Set := MkRequest { NodeID : string; Control : string }.

(** The [Error] field of the response; it is left out of the JSON when empty. *)
Record response : Set := MkReply { Error : option error }.

Section plugin.
Context {E : Type} `{!Docker E, !Kernel E, !Influx E, !Clock E}.
Abbreviation W := (World E).

(** ** Start-up *)

(** NewPlugin: a fresh store, shared by the Docker client and the reporter. *)
Definition NewPlugin : M W (option error) :=
  _ ← zoom (put NewStore);
  err ← NewDockerClient;
  mret (ErrCreateDocker <$> err).

(** The variables [main] sets before it serves: of the two caches, only
    [neworkControlStatusCache] is made. *)
Definition main_setup : M W unit :=
  err ← NewPlugin;
  match err with
  | Some _ => goexit 1   (* log.Fatalf *)
  | None =>
      zoom (modify (λ s : TcState,
        {| heap := heap s; next := next s;
           trafficControlStatusCache := trafficControlStatusCache s;
           neworkControlStatusCache := Some ∅ |}))
  end.

(** ** Requests *)

Definition sendResponse (err : option error) : response := {| Error := err |}.

(** [Plugin.control] after the body has been decoded into [xreq]. *)
Definition control_decoded (xreq : request) : M W response :=
  r ← GetHandler (NodeID xreq) (Control xreq);
  let '(handler, err) := r in
  match err with
  | Some err => mret (sendResponse (Some (ErrGetHandler err)))
  | None =>
      handler ← or_panic NilDereference handler;
      err ← handler;
      match err with
      | Some err => mret (sendResponse (Some (ErrHandlerFailed err)))
      | None => mret (sendResponse None)
      end
  end.

(** The server around a handler: a panic is recovered and the client gets no
    answer. *)
Definition serve {A} (handler : M W A) : M W (option A) := λ w,
  match handler w with
  | (Ret a, w') => (Ret (Some a), w')
  | (Panicked _, w') => (Ret None, w')
  | (Exited c, w') => (Exited c, w')
  | (Blocked, w') => (Blocked, w')
  end.

(** ** The process *)

Inductive sys_step : Pc * W → Pc * W → Prop :=
  | sys_docker pc w pc' w' : start_step (pc, w) (pc', w') → sys_step (pc, w) (pc', w')
  | sys_report pc w r w' : serve RawReport_value w = (Ret r, w') → sys_step (pc, w) (pc, w')
  | sys_control pc w xreq r w' :
      serve (control_decoded xreq) w = (Ret r, w') → sys_step (pc, w) (pc, w').

(** The process is started in any environment, with zeroed variables. *)
Definition boot (e : E) : W :=
  {| env := e; store := NewStore; tcs := tc_init; trace := [] |}.

Definition reachable (c : Pc * W) : Prop :=
  ∃ e w, main_setup (boot e) = (Ret (), w) ∧ rtc sys_step (PcAddListener, w) c.

(** ** One control request *)

Definition respond (r : option error) : response :=
  sendResponse (ErrHandlerFailed <$> r).

Lemma control_run xreq w :
  idle (store w) →
  control_decoded xreq w =
    match resolve (store w) (NodeID xreq) (Control xreq) with
    | inl err => (Ret (sendResponse (Some (ErrGetHandler err))), w)
    | inr action => (r ← action; mret (respond r)) w
    end.
Proof.
  intros Hidle. unfold control_decoded. rewrite (bind_Ret _ _ _ _ _ (GetHandler_run _ _ w Hidle)).
  destruct (resolve _ _ _) as [err|action]; [done|]. cbn [or_panic].
  rewrite bind_mret. unfold mbind, M_bind. by destruct (action w) as [[[]| | |] w'].
Qed.

(** C15: a control request is answered with an error, and changes nothing, when
    it names no container of the store or no control; otherwise exactly the
    action that the control advertises runs, on the PID that the store has
    for the container, and the response carries the error the action returned. *)
Theorem control_spec xreq w :
  idle (store w) →
  match resolve (store w) (NodeID xreq) (Control xreq) with
  | inl err => control_decoded xreq w = (Ret (sendResponse (Some (ErrGetHandler err))), w)
  | inr action =>
      (control_decoded xreq w).2 = (action w).2 ∧
      ∀ rep, (control_decoded xreq w).1 = Ret rep ↔
             ∃ r, (action w).1 = Ret r ∧ rep = respond r
  end.
Proof.
  intros Hidle. rewrite (control_run xreq w Hidle).
  destruct (resolve _ _ _) as [err|action]; [done|]. unfold mbind, M_bind.
  destruct (action w) as [[r| | |] w']; simpl; (split; [done|]; intros rep);
    naive_solver.
Qed.

(** ** Invariants of the process *)

(** What every reachable state has: a store that no goroutine holds, without
    destroyed containers; the latency cache is well formed and, since nothing
    makes the map, nil; the network cache is made and never written. *)
Record deployed (w : W) : Prop := {
  deployed_store : store_ok w;
  deployed_wf : wf (tcs w);
  deployed_nil : nil_cache (tcs w);
  deployed_network : neworkControlStatusCache (tcs w) = Some ∅
}.

Lemma deployed_tcs w w' : tcs w' = tcs w → store_ok w' → deployed w → deployed w'.
Proof. intros Ht Hok []. split; [done|by rewrite Ht..]. Qed.

(** An action that a request resolves to is one of three. *)
Lemma resolve_action (Q : M W (option error) → Prop) s nodeID controlID action :
  (∀ pid lat, lat ≠ "" → Q (ApplyLatency pid lat)) →
  (∀ pid loss, loss ≠ "" → Q (ApplyPacketLoss pid loss)) →
  (∀ pid, controlID = networkControlTablePrefix +:+ "clear" → Q (ClearTrafficControlSettings pid)) →
  resolve s nodeID controlID = inr action → Q action.
Proof.
  intros Hlat Hloss Hclear. unfold resolve.
  destruct (nodeIDToContainerID nodeID) as [id [err|]]; [done|].
  destruct (containers s !! id) as [c|]; [|done].
  destruct (HasPrefix controlID _) eqn:Hp; [|done].
  apply HasPrefix_spec in Hp as [name ->]. rewrite drop_str_app. unfold intended.
  repeat case_decide; intros [= <-]; subst; auto.
Qed.

Lemma control_respects R `{!PreOrder R} xreq w :
  idle (store w) →
  (∀ action, resolve (store w) (NodeID xreq) (Control xreq) = inr action → Respects R action) →
  R w (control_decoded xreq w).2.
Proof.
  intros Hidle Hact. rewrite (control_run xreq w Hidle).
  destruct (resolve _ _ _) as [err|action]; [simpl; reflexivity|].
  apply respects_bind; [done|by apply Hact|apply _].
Qed.

Lemma control_deployed xreq w : deployed w → deployed (control_decoded xreq w).2.
Proof.
  intros [Hok Hwf Hn Hnet]. assert (idle (store w)) as Hidle by apply Hok.
  assert (∀ P, CachePred P → P (tcs w) → P (tcs (control_decoded xreq w).2)) as HP.
  { intros P HP. apply (control_respects (keeps (λ w, P (tcs w))) xreq w Hidle).
    intros action. apply resolve_action; intros; apply _. }
  split; [|by apply HP; [apply _|]..].
  - assert (store (control_decoded xreq w).2 = store w) as Hs.
    { apply (control_respects (same store) xreq w Hidle).
      intros action. apply resolve_action; intros; apply _. }
    unfold store_ok. by rewrite Hs.
Qed.

Lemma report_own w :
  idle (store w) →
  (RawReport_value w).1 ≠ Blocked ∧ tcs (RawReport_value w).2 = tcs w ∧
  ((∀ c, (RawReport_value w).1 ≠ Exited c) → store (RawReport_value w).2 = store w).
Proof.
  intros Hidle. destruct (getContainerNodes_store w Hidle) as [Hnb Hs].
  pose proof (getContainerNodes_frame (same tcs) w) as Ht. unfold same in Ht.
  unfold RawReport_value, mbind, M_bind.
  destruct (getContainerNodes w) as [[] w1]; simpl in *.
  all: split; [done|split; [done|]]; auto.
  intros Hc. by destruct (Hc code).
Qed.

Lemma sys_step_deployed c c' : sys_step c c' → deployed c.2 → deployed c'.2.
Proof.
  intros Hstep Hd. destruct Hstep as [pc w pc' w' Hs|pc w r w' Hs|pc w xreq r w' Hs]; simpl in *.
  - unfold start_step in Hs. simpl in Hs. pose proof (Start_step_frame (same tcs) pc w) as Ht.
    pose proof (Start_step_ok pc w (deployed_store _ Hd)) as Hok.
    rewrite Hs in Ht, Hok. by apply (deployed_tcs w w').
  - destruct (report_own w) as (_ & Ht & Hst); [apply Hd|]. unfold serve in Hs.
    destruct (RawReport_value w) as [[] w1]; simplify_eq; simpl in *.
    all: apply (deployed_tcs w w'); [done| |done]; unfold store_ok; rewrite Hst by done; apply Hd.
  - pose proof (control_deployed xreq w Hd) as Hd'. unfold serve in Hs.
    destruct (control_decoded xreq w) as [[] w1]; by simplify_eq.
Qed.

Lemma main_setup_deployed w w' : tcs w = tc_init → main_setup w = (Ret (), w') → deployed w'.
Proof.
  intros Ht. unfold main_setup, NewPlugin, NewDockerClient, mbind, M_bind. simpl. rewrite ext_run. simpl.
  destruct (docker_NewClient _ (env w)) as [[x|] e'] eqn:Hn; simpl; rewrite Ht; intros [= <-].
  split; simpl; [|by destruct wf_init|done..].
  split; [done|]. intros id c. simpl. by rewrite lookup_empty.
Qed.

Lemma reachable_deployed c : reachable c → deployed c.2.
Proof.
  intros (e & w & Hm & Hrtc).
  apply (rtc_invariant sys_step (λ c, deployed c.2)) with (x := (PcAddListener, w)); [| |done].
  - intros c1 c2 Hd Hs. by eapply sys_step_deployed.
  - by eapply (main_setup_deployed (boot e)).
Qed.

(** C2: however the Docker goroutine, the reports and the control requests
    interleave, whenever the handlers can run the store is unlocked and free
    of destroyed containers, the cache of the traffic control settings is well
    formed, but nil, and the network cache is empty. *)
Theorem deployed_invariant pc w :
  reachable (pc, w) →
  idle (store w) ∧ live (containers (store w)) ∧
  wf (tcs w) ∧ trafficControlStatusCache (tcs w) = None ∧
  neworkControlStatusCache (tcs w) = Some ∅.
Proof. by intros [[] ? ? ?]%reachable_deployed. Qed.

(** C32: the handlers and the mutex. A handler that runs on its own from a
    reachable state never waits for the mutex of the store: it does not ask for
    it while it holds it itself, and finds it free because all before gave it
    back, panics included. A control leaves the store as it is, whatever its
    outcome; so does a report, with the traffic control variables, unless the
    process ends. Handlers that compete for the mutex are the subject of
    [StoreConc.v]. *)
Theorem handlers_release pc w xreq :
  reachable (pc, w) →
  (control_decoded xreq w).1 ≠ Blocked ∧
  idle (store (control_decoded xreq w).2) ∧ store (control_decoded xreq w).2 = store w ∧
  (RawReport_value w).1 ≠ Blocked ∧
  ((∀ c, (RawReport_value w).1 ≠ Exited c) →
     idle (store (RawReport_value w).2) ∧ own (RawReport_value w).2 = own w).
Proof.
  intros [[Hidle _] _ _ _]%reachable_deployed. simpl in Hidle.
  destruct (report_own w Hidle) as (Hnb & Ht & Hs).
  assert (store (control_decoded xreq w).2 = store w) as Hst.
  { apply (control_respects (same store) xreq w Hidle).
    intros action. apply resolve_action; intros; apply _. }
  rewrite Hst. split; [|split; [done|split; [done|split; [done|]]]].
  - rewrite (control_run xreq w Hidle).
    destruct (resolve _ _ _) as [err|action] eqn:Hr; [done|].
    apply nonblocking_bind; [|apply _]. revert Hr. apply resolve_action; intros; apply _.
  - intros Hne. rewrite (Hs Hne). split; [done|]. unfold own. by rewrite Ht, Hs.
Qed.

(** C1: in the deployed plugin no latency and no packet loss control is ever
    answered with success: a request that succeeds is the clear control. *)
Theorem deployed_only_clear_succeeds `{!KernelLaws E, !ClockLaws E} pc w xreq w' :
  reachable (pc, w) →
  control_decoded xreq w = (Ret (sendResponse None), w') →
  Control xreq = networkControlTablePrefix +:+ "clear".
Proof.
  intros [[Hidle _] _ Hn _]%reachable_deployed. simpl in *.
  rewrite (control_run xreq w Hidle).
  destruct (resolve _ _ _) as [err|action] eqn:Hr; [done|].
  intros Ha.
  assert ((action w).1 = Ret None) as Hact.
  { unfold mbind, M_bind in Ha. by destruct (action w) as [[[]| | |] w1]. }
  clear Ha. revert Hr Hact.
  apply (resolve_action (λ a, (a w).1 = Ret None → Control xreq = _)).
  - intros pid lat Hlat. by destruct (ApplyLatency_nil_run pid lat w Hn Hlat).
  - intros pid loss Hloss. by rewrite (ApplyPacketLoss_nil_outcome pid loss w Hn Hloss).
  - done.
Qed.
End plugin.

(** ** The deployed plugin against the scripted environment *)

(** The process after [main] has started and the goroutine has listed the
    containers of [sim1]. *)
Definition sim1 : Sim := {|
  s_containers := s_containers sim0; s_broken := s_broken sim0; s_listed := ["aaa"; "bbb"; "zzz"];
  s_docker_err := None; s_events := []; s_netns_err := None; s_failing := [];
  s_links := s_links sim0; s_influx_err := None; s_response := s_response sim0; s_clock := 1234 |}.

Definition world_up : World Sim := {|
  env := sim1;
  store := {| locked := false;
              containers := {[ "aaa" := MkContainer Running 41; "bbb" := MkContainer Stopped 42 ]} |};
  tcs := {| heap := ∅; next := 0; trafficControlStatusCache := None;
            neworkControlStatusCache := Some ∅ |};
  trace := [] |}.

Lemma world_up_reachable : reachable (PcReceive, world_up).
Proof.
  exists sim1. eexists. split; [reflexivity|].
  eapply rtc_l; [eapply sys_docker; reflexivity|].
  eapply rtc_l; [eapply sys_docker; reflexivity|]. apply rtc_refl.
Qed.

Lemma control_spec_witness :
  control_decoded (MkRequest "ccc;<container>" "network-control-table-fast") world_up =
    (Ret (sendResponse (Some (ErrGetHandler (ErrContainerNotFound "ccc")))), world_up).
Proof.
  exact (control_spec (MkRequest "ccc;<container>" "network-control-table-fast") world_up eq_refl).
Defined.

Lemma deployed_invariant_witness :
  idle (store world_up) ∧ trafficControlStatusCache (tcs world_up) = None.
Proof.
  destruct (deployed_invariant PcReceive world_up world_up_reachable) as (? & _ & _ & ? & _).
  by split.
Defined.

Lemma handlers_release_witness : own (RawReport_value world_up).2 = own world_up.
Proof.
  apply (handlers_release PcReceive world_up (MkRequest "" "") world_up_reachable).
  intros c. vm_compute. discriminate.
Defined.

Lemma deployed_only_clear_succeeds_witness :
  "network-control-table-clear" = networkControlTablePrefix +:+ "clear".
Proof.
  eapply (deployed_only_clear_succeeds PcReceive world_up
    (MkRequest "aaa;<container>" "network-control-table-clear") _ world_up_reachable).
  vm_compute. reflexivity.
Defined.
