(* ===== verification/Server.v ===== *)
(** * The server of the plugin ([src/main.go])

    Requests and responses as they travel: the report handler and the control
    handler on a response writer, bodies in JSON; the socket; and the process
    from its first statement to its end, signals and fatal errors included. *)

From S2P Require Import Prelude Go Strs Nums Path Store Env Utf8 Fmt Json Codec Times.
From S2P Require Import Status World Sim Docker TrafficControl Report Wire Plugin.

(** ** net/http *)

(** What a handler has written; the status is unset until the first write. *)
Record ResponseWriter : Set := MkWriter {
  rw_status : option Z;
  rw_header : gmap string string;
  rw_body : string
}.

Definition new_writer : ResponseWriter := MkWriter None ∅ "".

(** A second [WriteHeader] is ignored. *)
Definition write_header (code : Z) (rw : ResponseWriter) : ResponseWriter :=
  match rw_status rw with
  | Some _ => rw
  | None => MkWriter (Some code) (rw_header rw) (rw_body rw)
  end.

Definition write (data : string) (rw : ResponseWriter) : ResponseWriter :=
  let rw := write_header 200 rw in
  MkWriter (rw_status rw) (rw_header rw) (rw_body rw +:+ data).

Definition set_header (key value : string) (rw : ResponseWriter) : ResponseWriter :=
  MkWriter (rw_status rw) (<[key:=value]> (rw_header rw)) (rw_body rw).

Definition http_error (msg : string) (code : Z) (rw : ResponseWriter) : ResponseWriter :=
  write (msg +:+ newline)
    (write_header code
      (set_header "X-Content-Type-Options" "nosniff"
        (set_header "Content-Type" "text/plain; charset=utf-8" rw))).

(** ** The bodies *)

#[export] Instance request_type : JsonType request := {|
  zero := MkRequest "" "";
  unmarshal := unmarshal_struct "main.request"
    [ field_of "NodeID" NodeID (λ s r, MkRequest s (Control r));
      field_of "Control" Control (λ s r, MkRequest (NodeID r) s) ];
  marshal r := Some (JObj [("NodeID", JStr (NodeID r)); ("Control", JStr (Control r))])
|}.

Section server.
Context `{!Unicode}.
Context {E : Type} `{!Docker E, !Kernel E, !Influx E, !Clock E, !Files E}.
Abbreviation W := (World E).

(** The response struct with the text of its error, as [json.Marshal] writes
    it: no member at all when the text is empty. *)
Definition marshal_response (res : response) : json :=
  JObj (string_member "error" (default "" (error_text <$> Error res))).

Definition on_writer (f : ResponseWriter → ResponseWriter) : M (W * ResponseWriter) unit :=
  modify (λ s, (s.1, f s.2)).

Definition send (err : option error) : M (W * ResponseWriter) unit :=
  let res := sendResponse err in
  let raw := print (marshal_response res) in
  _ ← on_writer (write_header 200);
  on_writer (write raw).

(** [Plugin.report] *)
Definition report_handler : M (W * ResponseWriter) unit :=
  r ← lift RawReport;
  let '(raw, err) := r in
  match err with
  | Some err =>
      let msg := "error: failed to get raw report: " +:+ error_text err in
      on_writer (http_error msg 500)
  | None =>
      _ ← on_writer (write_header 200);
      on_writer (write raw)
  end.

(** [Plugin.control] *)
Definition control_handler (body : stream) : M (W * ResponseWriter) unit :=
  let '(xreq, err) := Decode body (zero (A:=request)) in
  match err with
  | Some err => on_writer (http_error (json_error_text err) 400)
  | None =>
      r ← lift (GetHandler (NodeID xreq) (Control xreq));
      let '(handler, err) := r in
      match err with
      | Some err => send (Some (ErrGetHandler err))
      | None =>
          handler ← or_panic NilDereference handler;
          err ← lift handler;
          match err with
          | Some err => send (Some (ErrHandlerFailed err))
          | None => send None
          end
      end
  end.

(** The patterns [main] registers, and their handlers. *)
Definition trafficControlServeMux (body : stream) : list (string * M (W * ResponseWriter) unit) :=
  [ ("/report", report_handler); ("/control", control_handler body) ].

(** A request, from a fresh writer to what is sent; nothing is sent when the
    handler panics. *)
Definition respond_to (handler : M (W * ResponseWriter) unit) : M W (option ResponseWriter) :=
  serve (r ← with_local new_writer handler; mret r.2).

(** ** The socket *)

Definition socketPath : string := "/var/run/scope/plugins/network-control/network-control.sock".

Definition setupSocket (socketPath : string) : M W (option error) :=
  _ ← log (RemoveAll (Dir socketPath));
  _ ← ext (os_RemoveAll (Dir socketPath));
  _ ← log (MkdirAll (Dir socketPath) 448);   (* 0700 *)
  err ← ext (os_MkdirAll (Dir socketPath) 448);
  match err with
  | Some e => mret (Some (ErrCreateDir (Dir socketPath) e))
  | None =>
      _ ← log (Listen "unix" socketPath);
      err ← ext (net_Listen "unix" socketPath);
      match err with
      | Some e => mret (Some (ErrListen socketPath e))
      | None => mret None
      end
  end.

(** What the goroutine of [setupSignals] does when a signal has come. *)
Definition on_signal (socketPath : string) : M W unit :=
  _ ← log (RemoveAll (Dir socketPath));
  _ ← ext (os_RemoveAll (Dir socketPath));
  goexit 0.

(** [main] up to [http.Serve]: two blocks, with the exit of [log.Fatalf]. *)
Definition main_socket : M W unit :=
  err ← setupSocket socketPath;
  match err with Some _ => goexit 1 | None => mret () end.

(** ** The process *)

(** Where [main] is; the goroutine of the Docker client runs once the plugin is
    made, that of the signals from the start. *)
Inductive main_at : Set := AtSocket | AtPlugin | AtServe (docker : Pc).

Record process : Type := MkProcess {
  p_main : main_at;
  p_world : W;
  p_exit : option Z
}.

(** The exit status of a goroutine's panic. *)
Definition panic_status : Z := 2.

(** A block of a goroutine: it goes on at [next], or ends the process. *)
Inductive runs {A} (m : M W A) (w : W) (next : A → main_at) (stay : main_at) : process → Prop :=
  | runs_ret a w' : m w = (Ret a, w') → runs m w next stay (MkProcess (next a) w' None)
  | runs_exit c w' : m w = (Exited c, w') → runs m w next stay (MkProcess stay w' (Some c))
  | runs_panic p w' : m w = (Panicked p, w') → runs m w next stay (MkProcess stay w' (Some panic_status)).

Inductive proc_step : process → process → Prop :=
  | proc_socket w p :
      runs main_socket w (λ _, AtPlugin) AtSocket p → proc_step (MkProcess AtSocket w None) p
  | proc_plugin w p :
      runs main_setup w (λ _, AtServe PcAddListener) AtPlugin p →
      proc_step (MkProcess AtPlugin w None) p
  | proc_docker pc w p :
      runs (Start_step pc) w AtServe (AtServe pc) p → proc_step (MkProcess (AtServe pc) w None) p
  | proc_request pc w pattern handler body p :
      (pattern, handler) ∈ trafficControlServeMux body →
      runs (respond_to handler) w (λ _, AtServe pc) (AtServe pc) p →
      proc_step (MkProcess (AtServe pc) w None) p
  | proc_serve_fails pc w :   (* http.Serve returned an error: log.Fatalf *)
      proc_step (MkProcess (AtServe pc) w None) (MkProcess (AtServe pc) w (Some 1%Z))
  | proc_signal a w p :
      runs (on_signal socketPath) w (λ _, a) a p → proc_step (MkProcess a w None) p.

Definition started (e : E) : process := MkProcess AtSocket (boot e) None.

Definition proc_reachable (p : process) : Prop := ∃ e, rtc proc_step (started e) p.

(** ** One control request *)

Definition ok_writer (raw : string) : ResponseWriter := MkWriter (Some 200%Z) ∅ raw.

Definition error_writer (msg : string) (code : Z) : ResponseWriter := http_error msg code new_writer.

(** The response to a decoded request. *)
Definition reply (res : response) : ResponseWriter := ok_writer (print (marshal_response res)).

Lemma send_run err w : send err (w, new_writer) = (Ret (), (w, reply (sendResponse err))).
Proof. done. Qed.

(** The handler on a writer and the handler of decoded requests do the same. *)
Lemma control_handler_run body w :
  respond_to (control_handler body) w =
    match Decode body (zero (A:=request)) with
    | (_, Some err) => (Ret (Some (error_writer (json_error_text err) 400)), w)
    | (xreq, None) => (r ← serve (control_decoded xreq); mret (reply <$> r)) w
    end.
Proof.
  unfold respond_to, control_handler, control_decoded, serve.
  destruct (Decode body zero) as [xreq [err|]]; [done|].
  unfold mbind, M_bind, with_local, lift, or_panic. cbn [fst snd].
  destruct (GetHandler (NodeID xreq) (Control xreq) w) as [[[handler [err|]]| | |] w1]; try done.
  cbn [fst snd]. destruct handler as [handler|]; [|done]. cbn [mret M_ret fst snd].
  by destruct (handler w1) as [[[]| | |] w2].
Qed.

(** What a client reads in a reply. *)
Lemma reply_read res :
  readValue (rw_body (reply res), None) = inr (norm (marshal_response res)).
Proof.
  unfold reply, ok_writer. cbn [rw_body]. rewrite <-(append_nil_r (print _)).
  apply readValue_print; [|by left]. apply numbers_ok_obj, string_member_numbers.
Qed.

Lemma response_error res :
  jget "error" (norm (marshal_response res)) =
    match error_text <$> Error res with
    | None | Some "" => None
    | Some s => Some (JStr (coerce s))
    end.
Proof.
  unfold marshal_response, string_member. destruct (error_text <$> Error res) as [s|]; [|done].
  destruct s as [|c s]; [done|]. change (bool_decide _) with false. cbn iota.
  by rewrite jget_norm_first by by apply ascii_only_valid.
Qed.

(** What [control_decoded] answers is success, or an error with a text. *)
Lemma control_decoded_shape xreq w res w' :
  control_decoded xreq w = (Ret res, w') →
  Error res = None ∨ ∃ err, Error res = Some err ∧ error_text err ≠ "".
Proof.
  unfold control_decoded, mbind, M_bind, or_panic.
  destruct (GetHandler (NodeID xreq) (Control xreq) w) as [[[[handler|] [err|]]| | |] w1]; try done.
  - intros [= <- <-]. right. eexists. split; [done|]. cbn [error_text]. discriminate.
  - simpl. destruct (handler w1) as [[[err|]| | |] w2]; try done; intros [= <- <-]; [|by left].
    right. eexists. split; [done|]. cbn [error_text]. discriminate.
  - intros [= <- <-]. right. eexists. split; [done|]. cbn [error_text]. discriminate.
Qed.

(** C4: a control request over HTTP. A body that is not a JSON request is
    answered with status 400 and the decoder's message, and nothing else
    happens. Otherwise the plugin does what the decoded request asks for. If that
    returns, the answer has status 200 and JSON that lacks the member error
    exactly when the control succeeded; else the member is the text of the
    error. If it panics, the client gets no answer; if it ends the process or
    waits for the mutex, so does the handler. *)
Theorem control_http body w :
  match Decode body (zero (A:=request)) with
  | (_, Some err) =>
      respond_to (control_handler body) w = (Ret (Some (error_writer (json_error_text err) 400)), w)
  | (xreq, None) =>
      match control_decoded xreq w with
      | (Ret res, w') => ∃ raw v,
          respond_to (control_handler body) w = (Ret (Some (ok_writer raw)), w') ∧
          readValue (raw, None) = inr v ∧
          jget "error" v = (JStr ∘ coerce ∘ error_text) <$> Error res
      | (Panicked _, w') => respond_to (control_handler body) w = (Ret None, w')
      | (Exited c, w') => respond_to (control_handler body) w = (Exited c, w')
      | (Blocked, w') => respond_to (control_handler body) w = (Blocked, w')
      end
  end.
Proof.
  rewrite control_handler_run. destruct (Decode body zero) as [xreq [err|]]; [done|].
  pose proof (control_decoded_shape xreq w) as Hshape. unfold serve, mbind, M_bind.
  destruct (control_decoded xreq w) as [[res| | |] w']; try done.
  exists (print (marshal_response res)), (norm (marshal_response res)). split; [done|].
  split; [apply (reply_read res)|]. rewrite response_error.
  destruct (Hshape _ _ eq_refl) as [->|(err & -> & Hne)]; [done|].
  simpl in *. by destruct (error_text err).
Qed.

(** ** Requests on the wire *)

Definition request_fields : list (field request) :=
  [ field_of "NodeID" NodeID (λ s r, MkRequest s (Control r));
    field_of "Control" Control (λ s r, MkRequest (NodeID r) s) ].

(** A member of the protocol that the plugin does not know. *)
Definition unknown (kv : string * json) : Prop :=
  numbers_ok kv.2 ∧ find_field request_fields (coerce kv.1) = None.

Definition request_members (r : request) : list (string * json) :=
  [("NodeID", JStr (NodeID r)); ("Control", JStr (Control r))].

(** Unknown members around two others have no effect. *)
Lemma store_around acc (x y : string * json) ms1 ms2 ms3 :
  let skipped := Forall (λ kv : string * json, find_field request_fields kv.1 = None) in
  skipped ms1 → skipped ms2 → skipped ms3 →
  foldl (store_member request_fields) acc (ms1 ++ x :: ms2 ++ y :: ms3) =
  foldl (store_member request_fields) acc [x; y].
Proof.
  intros skipped H1 H2 H3. destruct acc as [r e].
  rewrite foldl_app, (store_unknown _ _ ms1) by done. cbn [foldl].
  destruct (store_member _ (r, e) x) as [r1 e1].
  rewrite foldl_app, (store_unknown _ _ ms2) by done. cbn [foldl].
  destruct (store_member _ (r1, e1) y) as [r2 e2]. by rewrite store_unknown.
Qed.

(** Two members among others, in one order or the other. *)
Lemma two_members {A} (l : list A) x y others :
  l ≡ₚ x :: y :: others → ∃ l1 a l2 b l3, l = l1 ++ a :: l2 ++ b :: l3 ∧
    (a = x ∧ b = y ∨ a = y ∧ b = x) ∧ l1 ++ l2 ++ l3 ≡ₚ others.
Proof.
  intros Hl. assert (x ∈ l) as Hx by (rewrite Hl; apply list_elem_of_here).
  apply list_elem_of_split in Hx as (l1 & l2 & ->).
  rewrite <-Permutation_middle in Hl. apply Permutation_cons_inv in Hl.
  assert (y ∈ l1 ++ l2) as Hy by (rewrite Hl; apply list_elem_of_here).
  apply elem_of_app in Hy as [(a & b & ->)%list_elem_of_split|(a & b & ->)%list_elem_of_split].
  - exists a, y, b, x, l2. rewrite <-!app_assoc in *. split; [done|]. split; [by right|].
    simpl in Hl. rewrite <-Permutation_middle in Hl. by apply Permutation_cons_inv in Hl.
  - exists l1, x, a, y, b. split; [done|]. split; [by left|].
    rewrite app_assoc, <-Permutation_middle in Hl. apply Permutation_cons_inv in Hl.
    by rewrite app_assoc.
Qed.

(** C35: the request a client encodes is the request the handler works on. The
    strings have to be valid UTF-8; the two members may come in either order,
    anywhere among other members, which have to be unknown to the plugin. *)
Theorem request_roundtrip r ms others :
  valid (NodeID r) → valid (Control r) →
  ms ≡ₚ request_members r ++ others → Forall unknown others →
  Decode (print (JObj ms), None) zero = (r, None).
Proof.
  intros Hn Hc Hms Hun. set (g := λ kv : string * json, (coerce kv.1, norm kv.2)).
  assert (Forall (λ kv, numbers_ok kv.2) ms) as Hnum.
  { rewrite Hms. cbn [request_members app]. do 2 (constructor; [done|]).
    eapply Forall_impl; [exact Hun|]. by intros kv []. }
  rewrite Decode_print by (by apply numbers_ok_obj). cbn [norm]. fold g.
  destruct (two_members ms _ _ _ Hms) as (l1 & a & l2 & b & l3 & -> & Hab & Hl).
  rewrite <-Hl, !Forall_app in Hun.
  assert (∀ l, Forall unknown l →
    Forall (λ kv : string * json, find_field request_fields kv.1 = None) (g <$> l)) as Hskip.
  { intros l Hu. apply Forall_fmap. eapply Forall_impl; [exact Hu|]. by intros kv []. }
  rewrite fmap_app, fmap_cons, fmap_app, fmap_cons.
  change (foldl (store_member request_fields) (zero, None)
    ((g <$> l1) ++ g a :: (g <$> l2) ++ g b :: (g <$> l3)) = (r, None)).
  rewrite store_around by (apply Hskip, Hun).
  destruct Hab as [[-> ->]|[-> ->]]; unfold g; cbn [fst snd norm];
    rewrite !valid_coerce by (done || by apply ascii_only_valid); by destruct r.
Qed.

(** The fields of a request stay UTF-8 whatever a decoder stores into them. *)
Definition request_ok (r : request) : Prop := valid (NodeID r) ∧ valid (Control r).

Lemma find_field_elem {S} (fields : list (field S)) key f :
  find_field fields key = Some f → f ∈ fields.
Proof.
  assert (∀ P, find P fields = Some f → f ∈ fields) as Hfind.
  { intros P. induction fields as [|f' fs IH]; [done|]. cbn [find]. destruct (P f').
    - intros [= ->]. apply list_elem_of_here.
    - intros Hf. by apply list_elem_of_further, IH. }
  unfold find_field. destruct (find _ fields) eqn:Hf; [|apply Hfind].
  intros [= <-]. by eapply Hfind.
Qed.

Lemma store_request_ok f j r :
  f ∈ request_fields → strings_ok j → request_ok r → request_ok (f_store f j r).1.
Proof.
  intros Hf Hj [Hn Hc]. unfold request_fields in Hf.
  apply elem_of_cons in Hf as [->|[->|Hf%not_elem_of_nil]%elem_of_cons]; [..|done]; by destruct j.
Qed.

(** C36: whatever bytes a client sends, the fields of the decoded request are
    UTF-8, even when the decoder reports an error. *)
Theorem request_utf8 body :
  valid (NodeID (Decode body (zero (A:=request))).1) ∧ valid (Control (Decode body (zero (A:=request))).1).
Proof.
  change (request_ok (Decode body (zero (A:=request))).1).
  assert (request_ok zero) as H0 by (split; by apply ascii_only_valid).
  unfold Decode. destruct (readValue body) as [err|j] eqn:Hj; [done|].
  apply readValue_ok in Hj. destruct j as [| | | | |ms]; try done.
  apply strings_ok_obj in Hj. cbn [unmarshal request_type unmarshal_struct]. fold request_fields.
  assert (∀ acc : request * option json_error, request_ok acc.1 →
    request_ok (foldl (store_member request_fields) acc ms).1) as Hfold; [|by apply (Hfold (_, _))].
  induction Hj as [|[k v] ms [_ Hv] _ IH]; intros [r e] Hr; [done|]. cbn [foldl]. apply IH.
  unfold store_member. destruct (find_field request_fields _) as [f|] eqn:Hf; [|done].
  pose proof (store_request_ok f v r (find_field_elem _ _ _ Hf) Hv Hr) as Hok. cbn [fst snd].
  by destruct (f_store f v r).
Qed.

(** ** Reports *)

Lemma report_handler_run w :
  respond_to report_handler w =
    (r ← serve RawReport;
     mret ((λ re, match re.2 with
                  | Some err => error_writer ("error: failed to get raw report: " +:+ error_text err) 500
                  | None => ok_writer re.1
                  end) <$> r)) w.
Proof.
  unfold respond_to, report_handler, serve, mbind, M_bind, with_local, lift. cbn [fst snd].
  by destruct (RawReport w) as [[[raw [err|]]| | |] w'].
Qed.

(** C5: a report over HTTP. Provided a client of the Docker socket can be
    created, Docker can describe every running and stopped container, their IDs
    are UTF-8 and the clock shows a year that JSON can carry, a report request is answered with status 200 and
    JSON that has a node for exactly these containers, each with every
    control, dead when its container is stopped. *)
Theorem report_http `{!ClockLaws E} (I : E → Prop) w :
  calm I → idle (store w) → I (env w) → year_ok (time_Now (env w)).1 →
  (∀ id c, containers (store w) !! id = Some c → reported c = true →
     valid id ∧ ∀ e, I e → ∃ ct, (docker_InspectContainer id e).1 = inr ct) →
  ∃ raw v w', respond_to report_handler w = (Ret (Some (ok_writer raw)), w') ∧ own w' = own w ∧
    readValue (raw, None) = inr v ∧
    (∀ key, is_Some (jpath ["Container"; "nodes"; key] v) ↔ ∃ id c,
       containers (store w) !! id = Some c ∧ reported c = true ∧ key = containerIDToNodeID id) ∧
    (∀ id c cid, containers (store w) !! id = Some c → reported c = true → cid ∈ control_IDs (E:=E) →
       jpath ["Container"; "nodes"; containerIDToNodeID id; "latestControls"; cid; "value"; "dead"] v
       = Some (JBool (bool_decide (CState c = Stopped)))).
Proof.
  intros Hcalm Hidle HI Hyear Hins.
  destruct (RawReport_run I w Hcalm Hidle HI Hyear Hins) as (raw & v & w' & Hrun & Hrest).
  exists raw, v, w'. split; [|done]. rewrite report_handler_run. unfold serve, mbind, M_bind.
  by rewrite Hrun.
Qed.

(** ** The socket *)

(** The socket is set up in order: the old directory is removed, a new one
    made that only its owner can enter, the socket opened in it. An error of
    the last two is returned, naming the path, and ends the set-up; the removal
    may fail unnoticed. *)
Lemma setupSocket_spec path w :
  let dir := Dir path in
  let e1 := (os_RemoveAll dir (env w)).2 in
  let mk := os_MkdirAll dir 448 e1 in
  let ls := net_Listen "unix" path mk.2 in
  ∃ w', setupSocket path w =
    (Ret (match mk.1, ls.1 with
          | Some e, _ => Some (ErrCreateDir dir e)
          | None, Some e => Some (ErrListen path e)
          | None, None => None
          end), w') ∧
    own w' = own w ∧
    trace w' = trace w ++ [RemoveAll dir; MkdirAll dir 448] ++
                 match mk.1 with Some _ => [] | None => [Listen "unix" path] end.
Proof.
  intros dir e1 mk ls. unfold setupSocket. fold dir.
  erewrite bind_Ret by reflexivity. erewrite bind_Ret by apply ext_run.
  erewrite bind_Ret by reflexivity. erewrite bind_Ret by apply ext_run. cbn [env]. fold e1 mk.
  destruct (mk.1) as [x|].
  - eexists. split; [reflexivity|]. split; [done|]. cbn [trace]. by rewrite <-app_assoc, app_nil_r.
  - erewrite bind_Ret by reflexivity. erewrite bind_Ret by apply ext_run. cbn [env]. fold ls.
    destruct ls.1; (eexists; split; [reflexivity|]; split; [done|]); cbn [trace];
      by rewrite <-!app_assoc.
Qed.

(** ** The life of the process *)

(** *** Fatal errors have status 1 *)

#[local] Instance ext_fatal {A} (f : E → A * E) : FatalOnly (ext f).
Proof. intros w c. by rewrite ext_run. Qed.
#[local] Instance ext__fatal (f : E → E) : FatalOnly (ext_ f).
Proof. apply ext_fatal. Qed.
#[local] Instance log_fatal a : FatalOnly (S:=W) (log a).
Proof. by intros w c. Qed.
#[local] Instance Lock_fatal : FatalOnly Lock.
Proof. intros s c. unfold Lock. by destruct (locked s). Qed.
#[local] Instance Unlock_fatal : FatalOnly Unlock.
Proof. intros s c. unfold Unlock. by destruct (locked s). Qed.
#[local] Instance SetContainer_fatal id c : FatalOnly (SetContainer id c).
Proof. unfold SetContainer. apply _. Qed.
#[local] Instance DeleteContainer_fatal id : FatalOnly (DeleteContainer id).
Proof. unfold DeleteContainer. apply _. Qed.
#[local] Instance alloc_fatal t : FatalOnly (alloc t).
Proof. intros s c [=]. Qed.
#[local] Instance cache_get_fatal key : FatalOnly (cache_get key).
Proof. unfold cache_get. solve_fatal. Qed.
#[local] Instance cache_new_fatal key t : FatalOnly (cache_new key t).
Proof. unfold cache_new, cache_set. solve_fatal. Qed.
#[local] Instance deref_fatal p : FatalOnly (deref p).
Proof. unfold deref. solve_fatal. Qed.
#[local] Instance cache_update_fatal key f : FatalOnly (cache_update key f).
Proof. unfold cache_update, update_ptr. solve_fatal. Qed.
#[local] Instance cache_delete_fatal key : FatalOnly (cache_delete key).
Proof. intros s c [=]. Qed.

#[local] Instance random_fatal min max : FatalOnly (S:=W) (random min max).
Proof. unfold random. solve_fatal. Qed.
#[local] Instance run_commands_fatal cmds : FatalOnly (S:=W) (run_commands cmds).
Proof. unfold run_commands. apply fatal_for_return. intros cmd. unfold run_command. solve_fatal. Qed.
#[local] Instance WithNetNSPath_fatal path (m : M W (option error)) :
  FatalOnly m → FatalOnly (WithNetNSPath path m).
Proof. intros ?. unfold WithNetNSPath. solve_fatal. Qed.
#[local] Instance getNSID_fatal path : FatalOnly (S:=W) (getNSID path).
Proof. unfold getNSID. solve_fatal. Qed.
#[local] Instance apply_fatal pid rules : FatalOnly (S:=W) (applyTrafficControlRules pid rules).
Proof. unfold applyTrafficControlRules. solve_fatal. Qed.
#[local] Instance queryInfluxDB_fatal d c : FatalOnly (S:=W) (queryInfluxDB d c).
Proof. unfold queryInfluxDB. solve_fatal. Qed.
#[local] Instance parseAttribute_fatal r : FatalOnly (S:=W) (parseAttribute r).
Proof. unfold parseAttribute, cell. solve_fatal. Qed.
#[local] Instance getPacketLoss_fatal pid : FatalOnly (S:=W) (getPacketLoss pid).
Proof. unfold getPacketLoss, getStatus. solve_fatal. Qed.
#[local] Instance update_cached_fatal id lat loss : FatalOnly (S:=W) (update_cached id lat loss).
Proof. unfold update_cached. solve_fatal. Qed.
#[local] Instance ApplyLatency_fatal pid lat : FatalOnly (S:=W) (ApplyLatency pid lat).
Proof. unfold ApplyLatency. solve_fatal. Qed.
#[local] Instance ApplyPacketLoss_fatal pid loss : FatalOnly (S:=W) (ApplyPacketLoss pid loss).
Proof. unfold ApplyPacketLoss. solve_fatal. Qed.
#[local] Instance Clear_fatal pid : FatalOnly (S:=W) (ClearTrafficControlSettings pid).
Proof. unfold ClearTrafficControlSettings. solve_fatal. Qed.
#[local] Instance getPod_fatal id : FatalOnly (S:=W) (getPod id).
Proof. unfold getPod, parsePodName. solve_fatal. Qed.
#[local] Instance getStatusByPod_fatal pod : FatalOnly (S:=W) (getStatusByPod pod).
Proof. unfold getStatusByPod. solve_fatal. Qed.

#[local] Instance getContainerState_fatal id : FatalOnly (S:=W) (getContainerState id).
Proof. unfold getContainerState, getContainer. solve_fatal. Qed.
#[local] Instance updateContainer_fatal id st pid : FatalOnly (S:=W) (updateContainer id st pid).
Proof. unfold updateContainer. solve_fatal. Qed.
#[local] Instance getContainers_fatal : FatalOnly (S:=W) getContainers.
Proof. unfold getContainers, scan_container. solve_fatal. Qed.
#[local] Instance handleEvent_fatal ev : FatalOnly (S:=W) (handleEvent ev).
Proof. unfold handleEvent, getContainerPID. solve_fatal. Qed.

#[local] Instance catching_fatal {A} (m : M W A) k : FatalOnly m → FatalOnly (catching m k).
Proof.
  intros Hm w c. unfold catching. specialize (Hm w c).
  destruct (m w) as [[] w']; simpl in *; intros Hx; simplify_eq; by apply Hm.
Qed.

#[local] Instance Start_step_fatal pc : FatalOnly (S:=W) (Start_step pc).
Proof. destruct pc; simpl; solve_fatal. Qed.

#[local] Instance report_container_fatal ts id c : FatalOnly (S:=W * _) (report_container ts id c).
Proof. unfold report_container, report_node. solve_fatal. Qed.

#[local] Instance RawReport_fatal : FatalOnly (S:=W) RawReport.
Proof. unfold RawReport, RawReport_value, getContainerNodes, ForEach. solve_fatal. Qed.

#[local] Instance serve_fatal {A} (m : M W A) : FatalOnly m → FatalOnly (serve m).
Proof.
  intros Hm w c. unfold serve. specialize (Hm w c).
  destruct (m w) as [[] w']; simpl in *; intros Hx; simplify_eq; by apply Hm.
Qed.

#[local] Instance main_socket_fatal : FatalOnly main_socket.
Proof. unfold main_socket, setupSocket. solve_fatal. Qed.
#[local] Instance main_setup_fatal : FatalOnly (S:=W) main_setup.
Proof. unfold main_setup, NewPlugin, NewDockerClient. solve_fatal. Qed.

Lemma control_fatal xreq w c : idle (store w) → (control_decoded xreq w).1 = Exited c → c = 1%Z.
Proof.
  intros Hidle. rewrite (control_run xreq w Hidle).
  destruct (resolve _ _ _) as [err|action] eqn:Hr; [done|].
  apply fatal_bind; [|apply _]. revert Hr. apply resolve_action; intros; apply _.
Qed.

(** *** The handlers as blocks of the process *)

Lemma report_block w o w' :
  deployed w → respond_to report_handler w = (o, w') →
  match o with
  | Ret _ => deployed w'
  | Exited c => c = 1%Z
  | Panicked _ => False
  | Blocked => True
  end.
Proof.
  intros Hd. rewrite report_handler_run. pose proof (fatal_only (m:=RawReport) w) as Hf.
  destruct (report_own w) as (_ & Ht & Hs); [apply Hd|].
  assert ((∀ c, (RawReport w).1 ≠ Exited c) → deployed (RawReport w).2) as Hdep.
  { unfold RawReport, mbind, M_bind in *. intros Hne.
    assert (∀ c, (RawReport_value w).1 ≠ Exited c) as Hne'.
    { intros c Hc. destruct (RawReport_value w) as [[] w1]; simpl in *; simplify_eq. by apply (Hne c). }
    specialize (Hs Hne').
    destruct (RawReport_value w) as [[rpt| | |] w1]; simpl in *; [destruct (marshal_report rpt)|..]; simpl;
      (apply (deployed_tcs w w1); [done|unfold store_ok; rewrite Hs; apply Hd|done]). }
  unfold serve, mbind, M_bind, mret, M_ret.
  destruct (RawReport w) as [[re| |c|] w1]; simpl in *; intros Hx; simplify_eq.
  - by apply Hdep.
  - by apply Hdep.
  - by apply Hf.
  - done.
Qed.

Lemma control_block body w o w' :
  deployed w → respond_to (control_handler body) w = (o, w') →
  match o with
  | Ret _ => deployed w'
  | Exited c => c = 1%Z
  | Panicked _ => False
  | Blocked => True
  end.
Proof.
  intros Hd. rewrite control_handler_run. destruct (Decode body zero) as [xreq [err|]].
  { by intros [= <- <-]. }
  pose proof (control_deployed xreq w Hd) as Hdep.
  pose proof (control_fatal xreq w) as Hf. unfold serve, mbind, M_bind, mret, M_ret.
  destruct (control_decoded xreq w) as [[res| |c|] w1]; simpl in *; intros Hx; simplify_eq; try done.
  apply Hf; [apply Hd|done].
Qed.

Lemma request_block body pattern handler w o w' :
  (pattern, handler) ∈ trafficControlServeMux body → deployed w → respond_to handler w = (o, w') →
  match o with
  | Ret _ => deployed w'
  | Exited c => c = 1%Z
  | Panicked _ => False
  | Blocked => True
  end.
Proof.
  unfold trafficControlServeMux. rewrite !elem_of_cons, elem_of_nil.
  intros [[= -> ->]|[[= -> ->]|[]]]; [apply report_block|apply control_block].
Qed.

(** *** Invariant *)

Definition status_ok (p : process) : Prop :=
  match p_exit p with
  | None => match p_main p with
            | AtSocket | AtPlugin => tcs (p_world p) = tc_init
            | AtServe _ => deployed (p_world p)
            end
  | Some c =>
      (c = 0%Z ∧ ∃ acts, trace (p_world p) = acts ++ [RemoveAll (Dir socketPath)]) ∨
      c = 1%Z ∨
      (c = panic_status ∧ ∃ pn, p_main p = AtServe (PcUnwind pn))
  end.

Lemma Start_step_panics pc w pn w' : Start_step pc w = (Panicked pn, w') → ∃ pn, pc = PcUnwind pn.
Proof.
  destruct pc; simpl; unfold mbind, M_bind; rewrite ?ext_run; simpl; try done.
  - unfold catching. by destruct (getContainers w) as [[] ?].
  - destruct (docker_receive (env w)).1 as [ev|]; [|done]. unfold catching.
    by destruct (handleEvent ev _) as [[] ?].
  - by eexists.
Qed.

Lemma main_socket_run w o w' :
  main_socket w = (o, w') → own w' = own w ∧ (o = Ret () ∨ o = Exited 1).
Proof.
  unfold main_socket, mbind, M_bind.
  destruct (setupSocket_spec socketPath w) as (w1 & Hrun & Hown & _). rewrite Hrun.
  repeat case_match; intros [= <- <-]; (split; [done|auto]).
Qed.

Lemma proc_step_ok p p' : status_ok p → proc_step p p' → status_ok p'.
Proof.
  intros Hp Hstep. destruct Hstep as [w p Hr|w p Hr|pc w p Hr|pc w pt h body p Hin Hr|pc w|a w p Hr];
    unfold status_ok in Hp; simpl in Hp; [..|by right; left|]; inversion_clear Hr as [x w' Hm|c w' Hm|pn w' Hm].
  - apply main_socket_run in Hm as [[_ Ht]%own_inj _]. unfold status_ok. simpl. congruence.
  - right; left. apply (fatal_only (m:=main_socket) w). by rewrite Hm.
  - by apply main_socket_run in Hm as [_ [?|?]].
  - destruct x. exact (main_setup_deployed w w' Hp Hm).
  - right; left. apply (fatal_only (m:=main_setup) w). by rewrite Hm.
  - exfalso. revert Hm. unfold main_setup, NewPlugin, NewDockerClient, mbind, M_bind. simpl. rewrite ext_run.
    simpl. by destruct (docker_NewClient _ _) as [[|] ?].
  - by apply (sys_step_deployed _ _ (sys_docker pc w x w' Hm)).
  - right; left. apply (fatal_only (m:=Start_step pc) w). by rewrite Hm.
  - right; right. split; [done|]. destruct (Start_step_panics pc w pn w' Hm) as [pn' ->]. by exists pn'.
  - exact (request_block _ _ _ _ _ _ Hin Hp Hm).
  - right; left. exact (request_block _ _ _ _ _ _ Hin Hp Hm).
  - destruct (request_block _ _ _ _ _ _ Hin Hp Hm).
  - unfold on_signal, mbind, M_bind in Hm. simpl in Hm. by rewrite ext_run in Hm.
  - unfold on_signal, mbind, M_bind in Hm. simpl in Hm. rewrite ext_run in Hm. injection Hm as <- <-.
    left. split; [done|]. by eexists.
  - unfold on_signal, mbind, M_bind in Hm. simpl in Hm. by rewrite ext_run in Hm.
Qed.

(** *** Who touches the socket *)

Definition socket_action (a : action) : Prop :=
  match a with RemoveAll _ | MkdirAll _ _ | Listen _ _ => True | _ => False end.

(** What is done from one world to the other leaves the socket alone. *)
Definition quiet : relation W := λ w w',
  ∃ acts, trace w' = trace w ++ acts ∧ Forall (λ a, ¬ socket_action a) acts.

#[local] Instance quiet_preorder : PreOrder quiet.
Proof.
  split.
  - intros w. exists []. by rewrite app_nil_r.
  - intros w1 w2 w3 (a & Ha & Hqa) (b & Hb & Hqb). exists (a ++ b).
    by rewrite Hb, Ha, <-app_assoc, Forall_app.
Qed.

Lemma quiet_same {A} (m : M W A) : Respects (same trace) m → Respects quiet m.
Proof. intros Hm w. exists []. rewrite app_nil_r. split; [exact (respects (Respects:=Hm) w)|done]. Qed.

#[local] Instance quiet_frame : Frame quiet.
Proof.
  split; try (intros; apply quiet_same, _); [apply _|].
  intros a Ha w. exists [a]. split; [done|]. constructor; [|done]. unfold TcAction in Ha. by destruct a; naive_solver.
Qed.

#[local] Instance RawReport_trace : Respects (same trace) RawReport.
Proof. unfold RawReport, RawReport_value. solve_respects. Qed.

Lemma serve_respects (R : relation W) {A} (m : M W A) w : R w (m w).2 → R w (serve m w).2.
Proof. unfold serve. by destruct (m w) as [[] ?]. Qed.

(** No handler touches the socket, *)
Lemma request_quiet body pattern handler w :
  (pattern, handler) ∈ trafficControlServeMux body → idle (store w) →
  quiet w (respond_to handler w).2.
Proof.
  intros Hin Hidle.
  assert (∀ A B (m : M W A) (f : A → B), quiet w (m w).2 → quiet w ((r ← m; mret (f r)) w).2) as Hmap.
  { intros A B m f Hm. unfold mbind, M_bind. by destruct (m w) as [[] ?]. }
  unfold trafficControlServeMux in Hin. rewrite !elem_of_cons, elem_of_nil in Hin.
  destruct Hin as [[= -> ->]|[[= -> ->]|[]]].
  - rewrite report_handler_run. apply Hmap, serve_respects, quiet_same, _.
  - rewrite control_handler_run. destruct (Decode body zero) as [xreq [err|]]; [reflexivity|].
    apply Hmap, serve_respects, control_respects; [apply _|done|].
    intros action. apply resolve_action; intros; apply _.
Qed.

(** nor does the goroutine of the Docker client or the making of the plugin. *)
Lemma Start_step_quiet pc : Respects quiet (Start_step pc).
Proof. apply quiet_same, _. Qed.
Lemma main_setup_quiet : Respects quiet main_setup.
Proof. apply quiet_same. unfold main_setup, NewPlugin, NewDockerClient. solve_respects. Qed.

(** The set-up of the socket in the environment [e]: the answers of the calls
    that create the directory and open the socket. *)
Definition socket_made (e : E) := os_MkdirAll (Dir socketPath) 448 (os_RemoveAll (Dir socketPath) e).2.
Definition socket_listening (e : E) := net_Listen "unix" socketPath (socket_made e).2.

Definition dir_actions : list action := [RemoveAll (Dir socketPath); MkdirAll (Dir socketPath) 448].
Definition socket_actions : list action := dir_actions ++ [Listen "unix" socketPath].

(** The end of the trace of a process that was ended by a signal. *)
Definition on_exit (status : option Z) : list action :=
  if decide (status = Some 0%Z) then [RemoveAll (Dir socketPath)] else [].

(** What the process has done to the socket. *)
Definition socket_ok (e : E) (p : process) : Prop :=
  (p_main p = AtSocket →
    p_exit p = None ∧ p_world p = boot e ∨
    p_exit p = Some 0%Z ∧ trace (p_world p) = [RemoveAll (Dir socketPath)] ∨
    p_exit p = Some 1%Z ∧ is_Some (socket_made e).1 ∧ trace (p_world p) = dir_actions ∨
    p_exit p = Some 1%Z ∧ (socket_made e).1 = None ∧ is_Some (socket_listening e).1 ∧
      trace (p_world p) = socket_actions) ∧
  (p_main p ≠ AtSocket →
    (socket_made e).1 = None ∧ (socket_listening e).1 = None ∧
    ∃ acts, Forall (λ a, ¬ socket_action a) acts ∧
      trace (p_world p) = socket_actions ++ acts ++ on_exit (p_exit p)).

Lemma main_socket_ok e p :
  runs main_socket (boot e) (λ _, AtPlugin) AtSocket p → socket_ok e p.
Proof.
  unfold main_socket. destruct (setupSocket_spec socketPath (boot e)) as (w1 & Hrun & _ & Ht).
  cbn [env boot trace app] in Hrun, Ht. fold (socket_made e) (socket_listening e) in Hrun, Ht.
  intros Hr. unfold socket_ok.
  destruct (socket_made e).1 as [x|] eqn:Hm; [|destruct (socket_listening e).1 as [x|] eqn:Hl];
    inversion_clear Hr as [a w' Hx|c w' Hx|pn w' Hx]; rewrite (bind_Ret _ _ _ _ _ Hrun) in Hx;
    simpl in Hx; inv Hx; cbn [p_main p_exit p_world]; (split; intros Hat; try done).
  - do 2 right. left. split_and!; [done|by eexists|exact Ht].
  - do 3 right. split_and!; [done|done|by eexists|exact Ht].
  - do 2 (split; [done|]). exists []. by split.
Qed.

(** A block that leaves the socket alone and does not end with status 0. *)
Lemma quiet_block e {A} (m : M W A) w next stay p :
  runs m w next stay p → quiet w (m w).2 → (∀ c, (m w).1 = Exited c → c = 1%Z) →
  stay ≠ AtSocket → (∀ a, next a ≠ AtSocket) →
  socket_ok e (MkProcess stay w None) → socket_ok e p.
Proof.
  intros Hr Hq Hf Hstay Hnext [_ Hok]. destruct (Hok Hstay) as (Hm & Hl & acts & Hacts & Ht).
  cbn [p_world p_exit] in Ht. change (on_exit None) with (@nil action) in Ht. rewrite app_nil_r in Ht.
  assert (∀ w', (m w).2 = w' → ∃ acts, Forall (λ a, ¬ socket_action a) acts ∧
    trace w' = socket_actions ++ acts ++ []) as Hmore.
  { intros w' <-. destruct Hq as (acts' & Hq & Hacts'). exists (acts ++ acts').
    by rewrite app_nil_r, Forall_app, Hq, Ht, <-app_assoc. }
  assert (∀ q, p_main q ≠ AtSocket → on_exit (p_exit q) = [] → (m w).2 = p_world q → socket_ok e q)
    as Hgo.
  { intros q Hmain Hexit Hw. split; [done|]. intros _. rewrite Hexit. auto. }
  destruct Hr as [a w' Hx|c w' Hx|pn w' Hx]; apply Hgo; rewrite ?Hx; try done; cbn [p_main p_exit]; auto.
  rewrite (Hf c) by (by rewrite Hx). done.
Qed.

Lemma signal_block e a w p :
  runs (on_signal socketPath) w (λ _, a) a p →
  socket_ok e (MkProcess a w None) → socket_ok e p.
Proof.
  intros Hr [Hat Hpast]. assert (p = MkProcess a {| env := (os_RemoveAll (Dir socketPath) (env w)).2;
    store := store w; tcs := tcs w; trace := trace w ++ [RemoveAll (Dir socketPath)] |} (Some 0%Z)) as ->.
  { unfold on_signal in Hr. inversion_clear Hr as [x w' Hm|c w' Hm|pn w' Hm];
      (erewrite bind_Ret in Hm by reflexivity); (erewrite bind_Ret in Hm by apply ext_run);
      simpl in Hm; by inversion_clear Hm. }
  unfold socket_ok. cbn [p_main p_exit p_world trace] in *. split.
  - intros Ha. right; left. split; [done|].
    destruct (Hat Ha) as [[_ Hw]|[[? _]|[[? _]|[? _]]]]; [by rewrite Hw|done..].
  - intros Ha. destruct (Hpast Ha) as (Hm & Hl & acts & Hacts & Ht). do 2 (split; [done|]).
    exists acts. split; [done|]. rewrite Ht.
    change (on_exit None) with (@nil action). by rewrite app_nil_r, <-app_assoc.
Qed.

Lemma proc_step_socket e p p' :
  status_ok p → socket_ok e p → proc_step p p' → socket_ok e p'.
Proof.
  intros Hst Hp Hstep. destruct Hstep as [w p Hr|w p Hr|pc w p Hr|pc w pt h body p Hin Hr|pc w|a w p Hr].
  - destruct (proj1 Hp eq_refl) as [[_ Hw]|[[? _]|[[? _]|[? _]]]]; try done.
    cbn [p_world] in Hw. subst w. by apply main_socket_ok.
  - apply (quiet_block e _ _ _ _ _ Hr); try done; [apply main_setup_quiet|].
    intros c. apply (fatal_only (m:=main_setup)).
  - apply (quiet_block e _ _ _ _ _ Hr); try done; [apply Start_step_quiet|].
    intros c. apply (fatal_only (m:=Start_step pc)).
  - apply (quiet_block e _ _ _ _ _ Hr); try done.
    + apply (request_quiet _ _ _ _ Hin), Hst.
    + intros c Hc. pose proof (request_block _ _ _ w _ _ Hin Hst (surjective_pairing _)) as Hb.
      by rewrite Hc in Hb.
  - destruct Hp as [_ Hp]. split; [done|]. intros Hne. exact (Hp Hne).
  - exact (signal_block e _ _ _ Hr Hp).
Qed.

Lemma proc_reachable_ok p : proc_reachable p → status_ok p.
Proof.
  intros [e Hr]. by apply (rtc_invariant proc_step status_ok proc_step_ok (started e)).
Qed.

Lemma proc_socket_ok e p : rtc proc_step (started e) p → status_ok p ∧ socket_ok e p.
Proof.
  apply (rtc_invariant proc_step (λ p, status_ok p ∧ socket_ok e p)).
  - intros q q' [Hst Hok] Hstep. split; [by apply (proc_step_ok q)|by apply (proc_step_socket e q)].
  - split; [done|]. split; [|done]. by left.
Qed.

(** C6: how the process lives and ends. While it serves, the plugin's state is
    as [deployed] says. It ends with status 0 only on a signal, and then its
    last action was to remove the directory of the socket; with status 2 only
    when the goroutine of the Docker client has panicked; otherwise with status
    1. Until it ends, a signal can end it. *)
Theorem process_ends p :
  proc_reachable p →
  (∀ pc, p_exit p = None → p_main p = AtServe pc → deployed (p_world p)) ∧
  (p_exit p = Some 0%Z → ∃ acts, trace (p_world p) = acts ++ [RemoveAll (Dir socketPath)]) ∧
  (p_exit p = Some 2%Z → ∃ pn, p_main p = AtServe (PcUnwind pn)) ∧
  (∀ c, p_exit p = Some c → c = 0 ∨ c = 1 ∨ c = 2)%Z ∧
  (p_exit p = None → ∃ p', proc_step p p' ∧ p_exit p' = Some 0%Z).
Proof.
  intros Hp%proc_reachable_ok. unfold status_ok, panic_status in Hp. destruct p as [a w o]. simpl in *.
  split; [by intros pc -> ->|]. split; [|split; [|split]].
  - intros ->. by destruct Hp as [[_ ?]|[?|[? _]]].
  - intros ->. by destruct Hp as [[? _]|[?|[_ ?]]].
  - intros c ->. destruct Hp as [[? _]|[?|[? _]]]; auto.
  - intros ->. eexists (MkProcess a _ (Some 0%Z)). split; [|done]. apply proc_signal.
    eapply runs_exit. unfold on_signal. erewrite bind_Ret by reflexivity. erewrite bind_Ret by apply ext_run.
    reflexivity.
Qed.

(** C34: who touches the socket. A process that got past the socket has removed
    the old directory and made a new one that only its owner can enter, before
    anything else, and both making it and listening on the socket in it
    succeeded; afterwards it removes the directory when a signal ends it, and
    otherwise neither removes, makes nor opens anything. A process that fails
    to make the directory or to listen ends with status 1 and has not served. *)
Theorem socket_private e p :
  rtc proc_step (started e) p →
  (p_main p = AtSocket →
    p_exit p = None ∧ p_world p = boot e ∨
    p_exit p = Some 0%Z ∧ trace (p_world p) = [RemoveAll (Dir socketPath)] ∨
    p_exit p = Some 1%Z ∧ is_Some (socket_made e).1 ∧
      trace (p_world p) = [RemoveAll (Dir socketPath); MkdirAll (Dir socketPath) 448] ∨
    p_exit p = Some 1%Z ∧ (socket_made e).1 = None ∧ is_Some (socket_listening e).1 ∧
      trace (p_world p) =
        [RemoveAll (Dir socketPath); MkdirAll (Dir socketPath) 448; Listen "unix" socketPath]) ∧
  (p_main p ≠ AtSocket →
    (socket_made e).1 = None ∧ (socket_listening e).1 = None ∧
    ∃ acts, Forall (λ a, ¬ socket_action a) acts ∧
      trace (p_world p) =
        [RemoveAll (Dir socketPath); MkdirAll (Dir socketPath) 448; Listen "unix" socketPath] ++
        acts ++ (if decide (p_exit p = Some 0%Z) then [RemoveAll (Dir socketPath)] else [])).
Proof. intros Hr. exact (proj2 (proc_socket_ok e p Hr)). Qed.
End server.

(** ** Witnesses *)

#[local] Instance all_print : Unicode := {| is_print := λ _, true |}.

(** A request as Weave Scope sends it. *)
Lemma request_roundtrip_witness :
  Decode (print (JObj [("AppID", JStr "app"); ("Control", JStr "network-control-table-clear");
                       ("NodeID", JStr "aaa;<container>"); ("ControlArgs", JNull)]), None) zero
  = (MkRequest "aaa;<container>" "network-control-table-clear", None).
Proof.
  apply (request_roundtrip (MkRequest "aaa;<container>" "network-control-table-clear") _
    [("AppID", JStr "app"); ("ControlArgs", JNull)]).
  - by apply ascii_only_valid.
  - by apply ascii_only_valid.
  - cbn [request_members app NodeID Control]. solve_Permutation.
  - repeat constructor.
Defined.

Lemma calm_sim0 : calm (λ e, e = sim0).
Proof.
  split.
  - intros e ->. by split.
  - by intros id e ->.
  - exact sim0_clock.
  - by intros m e ->.
Qed.

Lemma report_http_witness :
  ∃ raw v w', respond_to report_handler world_listed = (Ret (Some (ok_writer raw)), w') ∧
    readValue (raw, None) = inr v ∧
    jpath ["Container"; "nodes"; "bbb;<container>"; "latestControls"; "network-control-table-clear";
           "value"; "dead"] v = Some (JBool true).
Proof.
  destruct (report_http (λ e, e = sim0) world_listed calm_sim0 eq_refl eq_refl
    (ex_intro _ _ eq_refl))
    as (raw & v & w' & Hr & _ & Hv & _ & Hdead).
  - intros id c Hid Hc. cbn [world_listed store containers] in Hid.
    apply lookup_insert_Some in Hid as [[<- <-]|[_ Hid]];
      [split; [by apply ascii_only_valid|intros e ->; by eexists]|].
    apply lookup_insert_Some in Hid as [[<- <-]|[_ Hid]];
      [split; [by apply ascii_only_valid|intros e ->; by eexists]|].
    by apply lookup_singleton_Some in Hid as [<- <-].
  - exists raw, v, w'. split; [exact Hr|]. split; [exact Hv|].
    refine (Hdead "bbb" (MkContainer Stopped 42) "network-control-table-clear" eq_refl eq_refl _).
    apply (bool_decide_unpack _). vm_compute. exact I.
Defined.

(** A process that received a signal right away. *)
Definition signalled : process (E:=Sim) :=
  MkProcess AtSocket
    {| env := sim1; store := NewStore; tcs := tc_init; trace := [RemoveAll (Dir socketPath)] |} (Some 0%Z).

Lemma signalled_reachable : proc_reachable signalled.
Proof.
  exists sim1. apply rtc_once. unfold started, signalled. apply proc_signal. by apply runs_exit.
Qed.

Lemma process_ends_witness : ∃ acts, trace (p_world signalled) = acts ++ [RemoveAll (Dir socketPath)].
Proof.
  destruct (process_ends signalled signalled_reachable) as (_ & Hend & _). exact (Hend eq_refl).
Defined.

(** A process that received a signal after it had opened the socket. *)
Definition opened : World Sim := (main_socket (boot sim1)).2.
Definition stopped : process (E:=Sim) :=
  MkProcess AtPlugin (on_signal socketPath opened).2 (Some 0%Z).

Lemma stopped_reachable : rtc proc_step (started sim1) stopped.
Proof.
  eapply rtc_l.
  - apply proc_socket. apply (runs_ret _ _ _ _ ()). by apply injective_projections.
  - apply rtc_once. apply proc_signal. apply runs_exit. by apply injective_projections.
Qed.

Lemma socket_private_witness :
  ∃ acts, Forall (λ a, ¬ socket_action a) acts ∧ trace (p_world stopped) =
    [RemoveAll "/var/run/scope/plugins/network-control";
     MkdirAll "/var/run/scope/plugins/network-control" 448;
     Listen "unix" "/var/run/scope/plugins/network-control/network-control.sock"] ++ acts ++
    [RemoveAll "/var/run/scope/plugins/network-control"].
Proof.
  destruct (socket_private sim1 stopped stopped_reachable) as [_ Hs].
  destruct Hs as (_ & _ & acts & Hacts & Ht); [discriminate|].
  exists acts. split; [exact Hacts|]. rewrite Ht. reflexivity.
Defined.
