(* ===== verification/StoreConc.v ===== *)
(** * The container store under concurrency ([src/store.go])

    The Docker goroutine and the handlers of requests share one store. Here the
    operations run in small steps, as goroutines interleave them: take the
    mutex, access the map, release the mutex. [ForEach] visits one entry at a
    time and looks at the map as it then is. [atomic_step] is the specification,
    a store whose operations take effect in one step between call and return;
    [Store_linearizable] is the refinement. *)

From S2P Require Import Prelude Go Strs Store.

Inductive op : Set :=
  | OpContainer (containerID : string)
  | OpSet (containerID : string) (container : Container)
  | OpDelete (containerID : string)
  | OpForEach.

(** What an operation gives its caller; for [ForEach] the calls of the callback. *)
Inductive result : Set :=
  | RContainer (c : Container) (found : bool)
  | RUnit
  | RVisited (es : list (string * Container)).

Abbreviation tid := nat.

Inductive label : Set :=
  | LCall (t : tid) (o : op)
  | LReturn (t : tid) (r : result).

(** ** The sequential specification *)

(** [seq_op o m r m']: operation [o] on the map [m] gives [r] and leaves [m']. *)
Inductive seq_op : op → gmap string Container → result → gmap string Container → Prop :=
  | seq_Container id m :
      seq_op (OpContainer id) m
        (match m !! id with Some c => RContainer c true | None => RContainer zero_Container false end) m
  | seq_Set id c m : seq_op (OpSet id c) m RUnit (<[id:=c]> m)
  | seq_Delete id m : seq_op (OpDelete id) m RUnit (delete id m)
  | seq_ForEach m es : es ≡ₚ map_to_list m → seq_op OpForEach m (RVisited es) m.

(** The atomic store. *)
Inductive apc : Set := ACalled (o : op) | ADone (r : result).

Record astate : Type := MkAState { amap : gmap string Container; apcs : gmap tid apc }.

Inductive atomic_step : astate → option label → astate → Prop :=
  | atomic_call t o m P :
      P !! t = None →
      atomic_step (MkAState m P) (Some (LCall t o)) (MkAState m (<[t := ACalled o]> P))
  | atomic_effect t o m r m' P :
      P !! t = Some (ACalled o) → seq_op o m r m' →
      atomic_step (MkAState m P) None (MkAState m' (<[t := ADone r]> P))
  | atomic_return t r m P :
      P !! t = Some (ADone r) →
      atomic_step (MkAState m P) (Some (LReturn t r)) (MkAState m (delete t P)).

(** ** The operations in small steps *)

(** Where a goroutine is inside an operation. *)
Inductive pc : Set :=
  | PLock (o : op)                                  (* at s.lock.Lock() *)
  | PBody (o : op) (visited : list (string * Container))
  | PUnlock (r : result)                            (* the deferred Unlock *)
  | PReturn (r : result).

Record cstate : Type := MkCState { shared : Store; pcs : gmap tid pc }.

(** One access to the map by the goroutine that is in the body of [o]. *)
Inductive body_step : op → list (string * Container) → gmap string Container →
    pc → gmap string Container → Prop :=
  | body_Container id m :
      body_step (OpContainer id) [] m
        (PUnlock (match m !! id with
                  | Some container => RContainer container true
                  | None => RContainer zero_Container false
                  end)) m
  | body_Set id c m : body_step (OpSet id c) [] m (PUnlock RUnit) (<[id:=c]> m)
  | body_Delete id m : body_step (OpDelete id) [] m (PUnlock RUnit) (delete id m)
  | body_next visited id c m :
      m !! id = Some c → id ∉ visited.*1 →
      body_step OpForEach visited m (PBody OpForEach (visited ++ [(id, c)])) m
  | body_end visited m :
      (∀ id, is_Some (m !! id) → id ∈ visited.*1) →
      body_step OpForEach visited m (PUnlock (RVisited visited)) m.

Inductive conc_step : cstate → option label → cstate → Prop :=
  | conc_call t o s P :
      P !! t = None →
      conc_step (MkCState s P) (Some (LCall t o)) (MkCState s (<[t := PLock o]> P))
  | conc_lock t o s s' P :
      P !! t = Some (PLock o) → Lock s = (Ret (), s') →
      conc_step (MkCState s P) None (MkCState s' (<[t := PBody o []]> P))
  | conc_body t o visited p l m m' P :
      P !! t = Some (PBody o visited) → body_step o visited m p m' →
      conc_step (MkCState (MkStore l m) P) None (MkCState (MkStore l m') (<[t := p]> P))
  | conc_unlock t r s s' P :
      P !! t = Some (PUnlock r) → Unlock s = (Ret (), s') →
      conc_step (MkCState s P) None (MkCState s' (<[t := PReturn r]> P))
  | conc_return t r s P :
      P !! t = Some (PReturn r) →
      conc_step (MkCState s P) (Some (LReturn t r)) (MkCState s (delete t P)).

Definition conc_init : cstate := MkCState NewStore ∅.
Definition atomic_init : astate := MkAState ∅ ∅.

(** ** Invariant: mutual exclusion *)

Definition holds (p : pc) : bool :=
  match p with PBody _ _ | PUnlock _ => true | PLock _ | PReturn _ => false end.

(** What [ForEach] has visited are entries of the map, each once. *)
Definition visited_ok (m : gmap string Container) (p : pc) : Prop :=
  match p with
  | PBody o visited =>
      (o ≠ OpForEach → visited = []) ∧
      NoDup visited.*1 ∧ ∀ id c, (id, c) ∈ visited → m !! id = Some c
  | _ => True
  end.

Record inv (s : cstate) : Prop := {
  inv_locked : locked (shared s) = true ↔ ∃ t p, pcs s !! t = Some p ∧ holds p;
  inv_exclusive t t' p p' :
    pcs s !! t = Some p → pcs s !! t' = Some p' → holds p → holds p' → t = t';
  inv_visited t p : pcs s !! t = Some p → visited_ok (containers (shared s)) p
}.

Lemma conc_init_inv : inv conc_init.
Proof.
  split; simpl.
  - split; [done|]. intros (t & p & Hp & _). by rewrite lookup_empty in Hp.
  - intros t t' p p' Hp. by rewrite lookup_empty in Hp.
  - intros t p Hp. by rewrite lookup_empty in Hp.
Qed.

(** Operations that do not hold the mutex have no visited entries. *)
Lemma visited_ok_free m p : holds p = false → visited_ok m p.
Proof. by destruct p. Qed.

Section steps.
Implicit Types (s : Store) (P : gmap tid pc) (p : pc) (m : gmap string Container).

(** A goroutine without the mutex moves on, or comes, or goes. *)
Lemma inv_free t p s P :
  inv (MkCState s P) → (∀ q, P !! t = Some q → holds q = false) → holds p = false →
  inv (MkCState s (<[t := p]> P)) ∧ inv (MkCState s (delete t P)).
Proof.
  intros [Hl Hx Hv] Hold Hp. simpl in *.
  assert (∀ P', (∀ t', t' ≠ t → P' !! t' = P !! t') → (∀ q, P' !! t = Some q → holds q = false) →
    inv (MkCState s P')) as Hgen.
  { intros P' Hsame Hnew.
    assert (∀ t' q, P' !! t' = Some q → holds q → P !! t' = Some q) as Hback.
    { intros t' q Hq Hh. destruct (decide (t' = t)) as [->|]; [|by rewrite <-Hsame].
      by rewrite (Hnew _ Hq) in Hh. }
    split; simpl.
    - rewrite Hl. split; intros (t' & q & Hq & Hh); exists t', q; (split; [|done]); [|auto].
      rewrite Hsame; [done|]. intros ->. by rewrite (Hold _ Hq) in Hh.
    - intros t1 t2 p1 p2 H1 H2 Hh1 Hh2. eauto.
    - intros t' q Hq. destruct (holds q) eqn:Hh; [|by apply visited_ok_free].
      apply (Hv t'). by apply Hback; [|rewrite Hh]. }
  split; apply Hgen.
  - intros t' Hne. by rewrite lookup_insert_ne.
  - intros q. rewrite lookup_insert_eq. by intros [= <-].
  - intros t' Hne. by rewrite lookup_delete_ne.
  - intros q. by rewrite lookup_delete_eq.
Qed.

(** The goroutine that holds the mutex does something to the map. *)
Lemma inv_holder t p q m m' l P :
  inv (MkCState (MkStore l m) P) → P !! t = Some p → holds p → holds q → visited_ok m' q →
  inv (MkCState (MkStore l m') (<[t := q]> P)).
Proof.
  intros [Hl Hx Hv] Ht Hp Hq Hok. simpl in *.
  assert (∀ t' p', <[t := q]> P !! t' = Some p' → holds p' → t' = t) as Honly.
  { intros t' p' [[-> _]|[Hne Hp']]%lookup_insert_Some Hh; [done|]. by eapply Hx. }
  split; simpl.
  - rewrite Hl. split; intros _; [exists t, q; by rewrite lookup_insert_eq|by exists t, p].
  - intros t1 t2 p1 p2 H1 H2 Hh1 Hh2. rewrite (Honly t1 p1), (Honly t2 p2) by done. done.
  - intros t' p' Hp'. destruct (holds p') eqn:Hh; [|by apply visited_ok_free].
    assert (t' = t) as -> by (eapply Honly; [done|by rewrite Hh]).
    rewrite lookup_insert_eq in Hp'. by simplify_eq.
Qed.

Lemma inv_acquire t o s s' P :
  inv (MkCState s P) → P !! t = Some (PLock o) → Lock s = (Ret (), s') →
  inv (MkCState s' (<[t := PBody o []]> P)) ∧ containers s' = containers s.
Proof.
  intros [Hl Hx Hv] Ht Hlock. destruct s as [l m]. unfold Lock in Hlock. simpl in *.
  destruct l; simplify_eq/=. split; [|done].
  assert (∀ t' p', P !! t' = Some p' → holds p' = false) as Hfree.
  { intros t' p' Hp'. destruct (holds p') eqn:Hh; [|done].
    assert (false = true) by (apply Hl; exists t', p'; by rewrite Hh). done. }
  assert (∀ t' p', <[t := PBody o []]> P !! t' = Some p' → holds p' → t' = t) as Honly.
  { intros t' p' [[-> _]|[Hne Hp']]%lookup_insert_Some Hh; [done|]. by rewrite (Hfree _ _ Hp') in Hh. }
  split; simpl.
  - split; [intros _|done]. exists t, (PBody o []). by rewrite lookup_insert_eq.
  - intros t1 t2 p1 p2 H1 H2 Hh1 Hh2. rewrite (Honly t1 p1), (Honly t2 p2) by done. done.
  - intros t' p' [[-> <-]|[Hne Hp']]%lookup_insert_Some.
    + simpl. split_and!; [done|constructor|]. intros id c Hin. by apply not_elem_of_nil in Hin.
    + apply visited_ok_free. eauto.
Qed.

Lemma inv_release t r s s' P :
  inv (MkCState s P) → P !! t = Some (PUnlock r) → Unlock s = (Ret (), s') →
  inv (MkCState s' (<[t := PReturn r]> P)) ∧ containers s' = containers s.
Proof.
  intros [Hl Hx Hv] Ht Hun. destruct s as [l m]. unfold Unlock in Hun. simpl in *.
  destruct l; simplify_eq/=. split; [|done].
  assert (∀ t' p', <[t := PReturn r]> P !! t' = Some p' → holds p' = false) as Hfree.
  { intros t' p' [[-> <-]|[Hne Hp']]%lookup_insert_Some; [done|].
    destruct (holds p') eqn:Hh; [|done]. destruct Hne. eapply Hx; [exact Ht|exact Hp'|done|by rewrite Hh]. }
  split; simpl.
  - split; [done|]. intros (t' & p' & Hp' & Hh). by rewrite (Hfree _ _ Hp') in Hh.
  - intros t1 t2 p1 p2 H1 _ Hh. by rewrite (Hfree _ _ H1) in Hh.
  - intros t' p' Hp'. apply visited_ok_free. eauto.
Qed.

(** A step of a body keeps the mutex and visits well. *)
Lemma body_step_ok o visited m p m' :
  body_step o visited m p m' → visited_ok m (PBody o visited) → holds p ∧ visited_ok m' p.
Proof.
  destruct 1 as [| | |visited id c m Hid Hnew|]; simpl; try done.
  intros (_ & Hnd & Hin). split; [done|]. rewrite fmap_app. split_and!; [done|..].
  - apply NoDup_app. split_and!; [done| |repeat constructor; apply not_elem_of_nil].
    intros x Hx ->%list_elem_of_singleton. done.
  - intros id' c' [?| [= -> ->]%list_elem_of_singleton]%elem_of_app; auto.
Qed.
End steps.

(** ** Refinement *)

(** How far an operation is for the specification: [ForEach] takes effect when
    its enumeration ends, the others with their access to the map. *)
Definition abs_pc (p : pc) : apc :=
  match p with
  | PLock o | PBody o _ => ACalled o
  | PUnlock r | PReturn r => ADone r
  end.

Definition abs (s : cstate) : astate :=
  {| amap := containers (shared s); apcs := abs_pc <$> pcs s |}.

Lemma visited_all m visited :
  visited_ok m (PBody OpForEach visited) → (∀ id, is_Some (m !! id) → id ∈ visited.*1) →
  visited ≡ₚ map_to_list m.
Proof.
  intros (_ & Hnd & Hin) Hall. apply NoDup_Permutation.
  - by eapply NoDup_fmap_1.
  - apply NoDup_map_to_list.
  - intros [id c]. rewrite elem_of_map_to_list. split; [apply Hin|]. intros Hc.
    assert (id ∈ visited.*1) as ([id' c'] & Heq & Hv)%list_elem_of_fmap by (apply Hall; by eexists).
    simpl in Heq. subst. apply Hin in Hv as Hc'. by simplify_eq.
Qed.

Lemma body_step_abs o visited m p m' :
  body_step o visited m p m' → visited_ok m (PBody o visited) →
  (∃ r, p = PUnlock r ∧ seq_op o m r m') ∨ (abs_pc p = ACalled o ∧ m' = m).
Proof.
  destruct 1; intros Hok.
  - left. eexists. split; [done|]. constructor.
  - left. eexists. split; [done|]. constructor.
  - left. eexists. split; [done|]. constructor.
  - by right.
  - left. eexists. split; [done|]. constructor. by apply visited_all.
Qed.

(** Every step of the code is a step of the specification or is invisible. *)
Lemma conc_step_sim s l s' :
  inv s → conc_step s l s' →
  inv s' ∧ (atomic_step (abs s) l (abs s') ∨ (l = None ∧ abs s' = abs s)).
Proof.
  intros Hinv Hstep. destruct Hstep as [t o s P Ht|t o s s' P Ht Hlock|t o visited p l m m' P Ht Hb|
    t r s s' P Ht Hun|t r s P Ht]; unfold abs; simpl.
  - split; [by eapply inv_free; [done|by rewrite Ht|]|]. left. rewrite fmap_insert.
    constructor. by rewrite lookup_fmap, Ht.
  - destruct (inv_acquire t o s s' P Hinv Ht Hlock) as [? ->]. split; [done|]. right. split; [done|].
    rewrite fmap_insert, insert_id; [done|]. by rewrite lookup_fmap, Ht.
  - pose proof (inv_visited _ Hinv t _ Ht) as Hok. simpl in Hok.
    destruct (body_step_ok _ _ _ _ _ Hb Hok) as [Hh Hok'].
    split; [by eapply inv_holder|]. rewrite fmap_insert.
    destruct (body_step_abs _ _ _ _ _ Hb Hok) as [(r & -> & Hseq)|[-> ->]].
    + left. eapply atomic_effect; [|done]. by rewrite lookup_fmap, Ht.
    + right. split; [done|]. rewrite insert_id; [done|]. by rewrite lookup_fmap, Ht.
  - destruct (inv_release t r s s' P Hinv Ht Hun) as [? ->]. split; [done|]. right. split; [done|].
    rewrite fmap_insert, insert_id; [done|]. by rewrite lookup_fmap, Ht.
  - split; [eapply (inv_free t (PReturn r)); [done| |done]; rewrite Ht; by intros q [= <-]|].
    left. rewrite fmap_delete. constructor. by rewrite lookup_fmap, Ht.
Qed.

Lemma execution_inv s ls s' : execution conc_step s ls s' → inv s → inv s'.
Proof. apply execution_invariant. intros s1 l s2 Hi Hs. by destruct (conc_step_sim s1 l s2). Qed.

(** C3: the store is linearizable: whatever goroutines call its operations and
    however their steps interleave, the calls and returns are those of a store
    whose every operation takes effect atomically between its call and its
    return; [ForEach] in particular visits a snapshot. *)
Theorem Store_linearizable ls s :
  execution conc_step conc_init ls s →
  execution atomic_step atomic_init ls (abs s).
Proof.
  intros He.
  destruct (execution_simulation conc_step atomic_step (λ s a, inv s ∧ a = abs s)) with
    (s := conc_init) (ls := ls) (s' := s) (a := atomic_init) as (a' & Ha & _ & ->); [|done| |done].
  - intros s1 l s2 a [Hi ->] Hs. destruct (conc_step_sim s1 l s2 Hi Hs) as [Hi2 Hst].
    exists (abs s2). split; [done|]. naive_solver.
  - split; [apply conc_init_inv|]. unfold abs, conc_init, atomic_init. simpl. by rewrite fmap_empty.
Qed.

(** C26: at most one goroutine is between taking and releasing the mutex, and the
    mutex is held exactly when there is one: no access to the map of containers
    races with another. *)
Theorem Store_mutual_exclusion ls s :
  execution conc_step conc_init ls s →
  (∀ t t' p p', pcs s !! t = Some p → pcs s !! t' = Some p' → holds p → holds p' → t = t') ∧
  (locked (shared s) = true ↔ ∃ t p, pcs s !! t = Some p ∧ holds p).
Proof. intros He. destruct (execution_inv _ _ _ He conc_init_inv). done. Qed.

(** ** Progress *)

(** What the holder of the mutex has left to do. *)
Definition work (m : gmap string Container) (p : pc) : nat :=
  match p with
  | PBody OpForEach visited => 2 + (size m - length visited)
  | PBody _ _ => 2
  | PUnlock _ => 1
  | _ => 0
  end.

Lemma visited_length m visited :
  visited_ok m (PBody OpForEach visited) → length visited ≤ size m.
Proof.
  intros (_ & Hnd & Hin). rewrite <-(length_map_to_list m).
  apply submseteq_length, NoDup_submseteq; [by eapply NoDup_fmap_1|].
  intros [id c] Hv. apply elem_of_map_to_list. auto.
Qed.

(** The body of an operation can always go on, and its work shrinks. *)
Lemma body_progress o visited m :
  visited_ok m (PBody o visited) →
  ∃ p m', body_step o visited m p m' ∧ work m' p < work m (PBody o visited).
Proof.
  intros Hok. pose proof Hok as (Hnil & _). destruct o as [id|id c|id|].
  1-3: rewrite Hnil in * by done; eexists _, _; (split; [constructor|simpl; lia]).
  destruct (decide (Forall (λ id, id ∈ visited.*1) (map_to_list m).*1)) as [Hall|Hnot].
  - eexists _, _. split; [apply body_end|simpl; lia]. intros id [c Hc]. rewrite Forall_forall in Hall.
    apply Hall, list_elem_of_fmap. exists (id, c). by rewrite elem_of_map_to_list.
  - apply not_Forall_Exists in Hnot; [|apply _].
    apply Exists_exists in Hnot as (id & ([id' c] & -> & Hc)%list_elem_of_fmap & Hnew).
    apply elem_of_map_to_list in Hc. simpl in Hnew.
    pose proof (body_next visited id' c m Hc Hnew) as Hb. eexists _, _. split; [exact Hb|].
    destruct (body_step_ok _ _ _ _ _ Hb Hok) as [_ Hlen%visited_length].
    simpl. rewrite length_app in *. simpl in *. lia.
Qed.

(** The holder can always take a step, and its work shrinks. *)
Lemma holder_step s t p :
  inv s → pcs s !! t = Some p → holds p →
  ∃ s', conc_step s None s' ∧ inv s' ∧ ∃ p', pcs s' !! t = Some p' ∧
    work (containers (shared s')) p' < work (containers (shared s)) p ∧
    (holds p' ∨ ∃ r, p' = PReturn r).
Proof.
  destruct s as [[l m] P]. intros Hi Ht Hh. pose proof (inv_visited _ Hi t p Ht) as Hok.
  assert (l = true) as -> by (apply (inv_locked _ Hi); by exists t, p).
  assert (∀ o visited q m', p = PBody o visited → body_step o visited m q m' →
    work m' q < work m p → ∃ s', conc_step (MkCState (MkStore true m) P) None s' ∧ inv s' ∧
      ∃ p', pcs s' !! t = Some p' ∧ work (containers (shared s')) p' < work m p ∧
      (holds p' ∨ ∃ r, p' = PReturn r)) as Hbody.
  { intros o visited q m' -> Hb Hw. assert (conc_step (MkCState (MkStore true m) P) None
      (MkCState (MkStore true m') (<[t := q]> P))) as Hs by by eapply conc_body.
    eexists. split; [exact Hs|]. split; [by destruct (conc_step_sim _ _ _ Hi Hs)|].
    exists q. simpl. rewrite lookup_insert_eq. split_and!; [done..|].
    left. by eapply body_step_ok. }
  destruct p as [|o visited|r|]; try done.
  - destruct (body_progress o visited m Hok) as (q & m' & Hb & Hw). by eapply Hbody.
  - assert (conc_step (MkCState (MkStore true m) P) None
      (MkCState (MkStore false m) (<[t := PReturn r]> P))) as Hs by by eapply conc_unlock.
    eexists. split; [exact Hs|]. split; [by destruct (conc_step_sim _ _ _ Hi Hs)|].
    exists (PReturn r). simpl. rewrite lookup_insert_eq. split_and!; [done|lia|eauto].
Qed.

(** The goroutine [t], alone, takes its operation to the return. *)
Lemma holder_finishes t n : ∀ s p,
  inv s → pcs s !! t = Some p → holds p → work (containers (shared s)) p ≤ n →
  ∃ s' r, execution conc_step s [] s' ∧ pcs s' !! t = Some (PReturn r).
Proof.
  induction n as [|n IH]; intros s p Hi Ht Hh Hw.
  { destruct (holder_step s t p Hi Ht Hh) as (s' & _ & _ & p' & _ & ? & _). lia. }
  destruct (holder_step s t p Hi Ht Hh) as (s1 & Hs & Hi1 & p1 & Ht1 & Hw1 & [Hh1|[r ->]]).
  - destruct (IH s1 p1) as (s' & r & He & Hr); [done..|lia|].
    exists s', r. split; [|done]. by eapply execution_silent.
  - exists s1, r. split; [|done]. eapply execution_silent; [done|constructor].
Qed.

(** C27: the store does not deadlock: whenever some goroutine is in an operation,
    some goroutine can finish its operation on its own, in finitely many steps. *)
Theorem Store_progress ls s t p :
  execution conc_step conc_init ls s → pcs s !! t = Some p →
  ∃ t' s' r, execution conc_step s [] s' ∧ pcs s' !! t' = Some (PReturn r).
Proof.
  intros He Ht. pose proof (execution_inv _ _ _ He conc_init_inv) as Hi.
  destruct (locked (shared s)) eqn:Hl.
  - apply (inv_locked _ Hi) in Hl as (t' & p' & Ht' & Hh).
    exists t'. by eapply holder_finishes.
  - destruct (holds p) eqn:Hh; [exists t; eapply holder_finishes; [done|done|by rewrite Hh|done]|].
    destruct p as [o| | |r]; try done; [|exists t, s, r; split; [constructor|done]].
    destruct s as [[l m] P]. simpl in *. subst l.
    assert (conc_step (MkCState (MkStore false m) P) None
      (MkCState (MkStore true m) (<[t := PBody o []]> P))) as Hs by by eapply conc_lock.
    destruct (conc_step_sim _ _ _ Hi Hs) as [Hi' _].
    destruct (holder_finishes t (work m (PBody o [])) _ (PBody o []) Hi') as (s' & r & He' & Hr);
      [by simpl; rewrite lookup_insert_eq|done|done|].
    exists t, s', r. split; [|done]. by eapply execution_silent.
Qed.

(** ** The operations as whole functions

    The operations of [Store.v], called by a goroutine that is alone, meet the
    same specification; the callback of [ForEach] records its calls. *)

#[local] Instance Part_whole : Part Store Store := { view s := s; update s' _ := s' }.
#[local] Instance Part_whole_laws : PartLaws Store Store.
Proof. by split. Qed.

Definition run_op (order : gmap string Container → list (string * Container)) (o : op)
    : M Store result :=
  match o with
  | OpContainer id => r ← Store_Container id; mret (RContainer r.1 r.2)
  | OpSet id c => _ ← SetContainer id c; mret RUnit
  | OpDelete id => _ ← DeleteContainer id; mret RUnit
  | OpForEach =>
      r ← with_local [] (ForEach (λ m, mret (order m))
            (λ id c, modify (λ sl, (sl.1, sl.2 ++ [(id, c)]))));
      mret (RVisited r.2)
  end.

Lemma record_all es (s : Store) l :
  for_range es (λ e : string * Container, modify (λ sl, (sl.1, sl.2 ++ [(e.1, e.2)]))) (s, l)
    = (Ret (), (s, l ++ es)).
Proof.
  revert l. induction es as [|[id c] es IH]; intros l; simpl; [by rewrite app_nil_r|].
  unfold mbind, M_bind, modify. simpl. rewrite IH. by rewrite <-app_assoc.
Qed.

(** On a store that no goroutine holds every operation returns, leaves the
    mutex free, and does to the map what the specification says. *)
Theorem Store_sequential order o s :
  (∀ m, order m ≡ₚ map_to_list m) → idle s →
  ∃ r s', run_op order o s = (Ret r, s') ∧ idle s' ∧ seq_op o (containers s) r (containers s').
Proof.
  intros Horder Hidle. destruct o as [id|id c|id|]; simpl.
  - rewrite (bind_Ret _ _ _ _ _ (Store_Container_idle id s Hidle)).
    eexists _, s. split_and!; [done|done|]. pose proof (seq_Container id (containers s)) as Hseq.
    by destruct (containers s !! id).
  - rewrite (bind_Ret _ _ _ _ _ (SetContainer_idle id c s Hidle)).
    eexists _, _. split_and!; [done|done|constructor].
  - rewrite (bind_Ret _ _ _ _ _ (DeleteContainer_idle id s Hidle)).
    eexists _, _. split_and!; [done|done|constructor].
  - destruct s as [l m]. unfold idle in Hidle. simpl in Hidle. subst l.
    eexists (RVisited (order m)), _. split; [|split; [|by apply seq_ForEach]]; [|done].
    unfold with_local, mbind, M_bind. erewrite ForEach_idle; [|done|done].
    unfold defer. pose proof (record_all (order m) (MkStore true m) []) as Hr.
    simpl in *. by rewrite Hr.
Qed.

(** ** Two goroutines: a report overlaps an event *)

Definition c41 : Container := MkContainer Running 41.

(** Goroutine 1 stores a container while goroutine 0 asks for it; 1 gets the
    mutex first although 0 called first. *)
Lemma two_goroutines :
  execution conc_step conc_init
    [LCall 0 (OpContainer "aaa"); LCall 1 (OpSet "aaa" c41); LReturn 1 RUnit]
    (MkCState (MkStore true {["aaa" := c41]}) {[0 := PUnlock (RContainer c41 true)]}).
Proof.
  eapply execution_label; [by apply conc_call|].
  eapply execution_label; [by apply conc_call|].
  eapply execution_silent; [by eapply (conc_lock 1)|].
  eapply execution_silent; [by eapply (conc_body 1); [|constructor]|].
  eapply execution_silent; [by eapply (conc_unlock 1)|].
  eapply execution_label; [by eapply (conc_return 1)|].
  eapply execution_silent; [by eapply (conc_lock 0)|].
  eapply execution_silent; [by eapply (conc_body 0); [|constructor]|].
  vm_compute. apply execution_nil.
Qed.

Lemma Store_linearizable_witness :
  execution atomic_step atomic_init
    [LCall 0 (OpContainer "aaa"); LCall 1 (OpSet "aaa" c41); LReturn 1 RUnit]
    (MkAState {["aaa" := c41]} {[0 := ADone (RContainer c41 true)]}).
Proof. exact (Store_linearizable _ _ two_goroutines). Defined.

Lemma Store_mutual_exclusion_witness :
  ∃ t p, ({[0 := PUnlock (RContainer c41 true)]} : gmap tid pc) !! t = Some p ∧ holds p.
Proof. apply (Store_mutual_exclusion _ _ two_goroutines). reflexivity. Defined.

Lemma Store_progress_witness :
  ∃ t' s' r, execution conc_step
    (MkCState (MkStore true {["aaa" := c41]}) {[0 := PUnlock (RContainer c41 true)]}) [] s' ∧
    pcs s' !! t' = Some (PReturn r).
Proof. exact (Store_progress _ _ 0 (PUnlock (RContainer c41 true)) two_goroutines eq_refl). Defined.

Lemma Store_sequential_witness :
  run_op map_to_list OpForEach (MkStore false {["aaa" := c41]}) =
    (Ret (RVisited [("aaa", c41)]), MkStore false {["aaa" := c41]}) ∧
  ∃ r s', run_op map_to_list OpForEach (MkStore false {["aaa" := c41]}) = (Ret r, s') ∧ idle s'.
Proof.
  split; [reflexivity|].
  destruct (Store_sequential map_to_list OpForEach (MkStore false {["aaa" := c41]})
    (λ _, reflexivity _) eq_refl) as (r & s' & Hr & Hi & _).
  exists r, s'. split; [exact Hr|exact Hi].
Defined.
