(* ===== verification/Floats.v ===== *)
(** * float64

    The operations on float64 that the sources use: [SpecFloat] with 53 bits,
    rounding to even, and the format [%.nf] of package [fmt]. *)

From S2P Require Import Prelude Go Strs Nums Utf8 Fmt Json Times.
From Stdlib Require Import SpecFloat.

#[local] Open Scope Z_scope.

Definition float : Type := spec_float.
Definition of_Z (z : Z) : float := binary_normalize 53 1024 z 0 false.
Definition fmul : float → float → float := SFmul 53 1024.
Definition fdiv : float → float → float := SFdiv 53 1024.

(** [int64(x)] of a finite number. *)
Definition truncate (x : float) : Z :=
  match x with
  | S754_finite neg m e =>
      let n := if bool_decide (0 ≤ e) then Z.pos m * 2 ^ e else Z.pos m / 2 ^ (- e) in
      if neg : bool then - n else n
  | _ => 0
  end.

(** [p / q] to the nearest integer, to even when it is half-way; [q] is positive. *)
Definition round_even (p q : Z) : Z :=
  let n := p / q in
  let r := p mod q in
  if bool_decide (2 * r < q) then n
  else if bool_decide (q < 2 * r) then n + 1
  else if Z.even n then n else n + 1.

(** [m * 2^e], scaled by [10^digits] and rounded. *)
Definition scaled (digits : nat) (m : positive) (e : Z) : Z :=
  let p := Z.pos m * 10 ^ Z.of_nat digits in
  if bool_decide (0 ≤ e) then p * 2 ^ e else round_even p (2 ^ (- e)).

(** [%.<digits>f], for at least one digit. *)
Definition fixed (digits : nat) (x : float) : string :=
  let text (neg : bool) (n : Z) :=
    (if neg then "-" else "") +:+ Itoa (n / 10 ^ Z.of_nat digits) +:+ "." +:+
    pad digits (n mod 10 ^ Z.of_nat digits) in
  match x with
  | S754_zero neg => text neg 0
  | S754_finite neg m e => text neg (scaled digits m e)
  | S754_infinity neg => (if neg then "-" else "+") +:+ "Inf"
  | S754_nan => "NaN"
  end.

Example fixed_halves : fixed 1 (fdiv (of_Z 1) (of_Z 4)) = "0.2" ∧ fixed 1 (fdiv (of_Z 7) (of_Z 20)) = "0.3"
  ∧ fixed 2 (fdiv (of_Z (-123456789)) (of_Z 1000000)) = "-123.46".
Proof. vm_compute. auto. Qed.

(** Rounding is to one of the nearest integers. *)
Lemma round_even_nearest p q : 0 < q → 2 * Z.abs (p - q * round_even p q) ≤ q.
Proof.
  intros Hq. unfold round_even. cbv zeta.
  pose proof (Z.div_mod p q). pose proof (Z.mod_pos_bound p q Hq).
  repeat case_bool_decide; [nia..|]. case_match; nia.
Qed.
