(* ===== verification/Flags.v ===== *)
(** * Flags and durations

    Package [flag] for flag sets that continue on errors and have no boolean
    flags, and [time.ParseDuration] (both of Go 1.6). Fractions of a unit go
    through float64, which is [SpecFloat] with 53 bits. *)

From S2P Require Import Prelude Go Strs Nums Floats.

(** ** Parsing flags *)

(** What one argument is. *)
Inductive arg_kind : Set :=
  | Plain                                       (* the flags end before it *)
  | Terminator                                  (* [--]: they end after it *)
  | BadFlag
  | Flag (name : string) (value : option string).

(** [name=value]; the equals sign is not the first character *)
Fixpoint cut_value (s : string) : string * option string :=
  match s with
  | "" => ("", None)
  | String c s =>
      if bool_decide (c = "="%char) then ("", Some s)
      else let '(name, value) := cut_value s in (String c name, value)
  end.

Definition flag_named (name : string) : arg_kind :=
  match name with
  | "" => BadFlag
  | String c s =>
      if bool_decide (c = "-"%char ∨ c = "="%char) then BadFlag
      else let '(rest, value) := cut_value s in Flag (String c rest) value
  end.

Definition classify_arg (s : string) : arg_kind :=
  match s with
  | String "-" "" => Plain
  | String "-" (String "-" "") => Terminator
  | String "-" (String "-" name) => flag_named name
  | String "-" name => flag_named name
  | _ => Plain
  end.

(** The flags of a set: a name, and what setting it does to the variables. *)
Definition flag_set (S : Type) : Type := list (string * (string → S → option S)).

Definition formal {S} (flags : flag_set S) (name : string) : option (string → S → option S) :=
  snd <$> find (λ f, bool_decide (f.1 = name)) flags.

(** [FlagSet.Parse] and [FlagSet.Args]: the variables and the arguments after
    the flags; [None] is an error (which includes the flags -h and -help). *)
Fixpoint Parse {S} (flags : flag_set S) (args : list string) (s : S) : option (S * list string) :=
  match args with
  | [] => Some (s, [])
  | a :: rest =>
      match classify_arg a with
      | Plain => Some (s, args)
      | Terminator => Some (s, rest)
      | BadFlag => None
      | Flag name value =>
          set ← formal flags name;
          match value with
          | Some v => s ← set v s; Parse flags rest s
          | None =>
              match rest with
              | [] => None
              | v :: rest => s ← set v s; Parse flags rest s
              end
          end
      end
  end.

(** What every flag keeps, the parser keeps. *)
Lemma Parse_invariant {S} (flags : flag_set S) (P : S → Prop) args s s' rest :
  (∀ name set v s s', formal flags name = Some set → set v s = Some s' → P s → P s') →
  P s → Parse flags args s = Some (s', rest) → P s'.
Proof.
  intros Hset. revert s. induction args as [args IH] using (induction_ltof1 _ length).
  unfold ltof in IH. intros s Hs. destruct args as [|a args]; cbn [Parse]; [by intros [= <- _]|].
  destruct (classify_arg a) as [| | |name value]; [by intros [= <- _]..|done|].
  intros (set & Hf & H)%bind_Some. destruct value as [v|].
  - apply bind_Some in H as (s1 & Hs1 & H). apply (IH args) in H; [done|simpl; lia|eauto].
  - destruct args as [|v args]; [done|]. apply bind_Some in H as (s1 & Hs1 & H).
    apply (IH args) in H; [done|simpl; lia|eauto].
Qed.

(** ** time.ParseDuration *)

#[local] Open Scope Z_scope.

Definition nanosecond : Z := 1.
Definition second : Z := 1000000000.
Definition minute : Z := 60 * second.
Definition hour : Z := 60 * minute.

(** The micro sign and the Greek letter mu, in UTF-8 *)
Definition micro (a b : ascii) : string := String a (String b "s").

Definition unitMap (u : string) : option Z :=
  if decide (u = "ns") then Some 1
  else if decide (u = "us" ∨ u = micro "194" "181" ∨ u = micro "206" "188") then Some 1000
  else if decide (u = "ms") then Some 1000000
  else if decide (u = "s") then Some second
  else if decide (u = "m") then Some minute
  else if decide (u = "h") then Some hour
  else None.

(** [leadingInt], with the number of digits it consumed. *)
Fixpoint leadingInt (x : Z) (count : nat) (s : string) : option (Z * nat * string) :=
  match s with
  | String c s' =>
      match digit c with
      | Some d => if bool_decide (max_int64 < x * 10 + d) then None else leadingInt (x * 10 + d) (S count) s'
      | None => Some (x, count, s)
      end
  | EmptyString => Some (x, count, s)
  end.

Definition unit_end (c : ascii) : bool := bool_decide (c = "."%char) || bool_decide (is_Some (digit c)).

(** The unit that starts a string, and the rest. *)
Fixpoint take_unit (s : string) : string * string :=
  match s with
  | String c s' => if unit_end c then (EmptyString, s)
                   else let '(u, r) := take_unit s' in (String c u, r)
  | EmptyString => (EmptyString, s)
  end.

(** *** Fractions *)

Fixpoint scale (digits : nat) : float :=
  match digits with O => of_Z 1 | S n => fmul (scale n) (of_Z 10) end.

(** [int64(float64(f) * (float64(unit) / scale))] *)
Definition fraction (f unit : Z) (digits : nat) : Z :=
  truncate (fmul (of_Z f) (fdiv (of_Z unit) (scale digits))).

(** *** One number with its unit *)

Definition component (s : string) : option (Z * string) :=
  match s with
  | EmptyString => None
  | String c0 _ =>
      if negb (unit_end c0) then None else
      '(v, pre, s) ← leadingInt 0 0 s;
      '(f, post, s) ← match s with
                      | String "." s => leadingInt 0 0 s
                      | _ => Some (0, O, s)
                      end;
      if bool_decide (pre = O ∧ post = O) then None else
      let '(u, s) := take_unit s in
      if bool_decide (u = EmptyString) then None else
      unit ← unitMap u;
      if bool_decide (max_int64 / unit < v) then None else
      let v := v * unit in
      if bool_decide (0 < f) then
        let v := wrap64 (v + fraction f unit post) in
        if bool_decide (v < 0) then None else Some (v, s)
      else Some (v, s)
  end.

(** The loop adds up the components; [fuel] bounds their number. *)
Inductive duration_result : Set := DOk (d : Z) | DError | DFuel.

Fixpoint components (fuel : nat) (s : string) (d : Z) : duration_result :=
  match s with
  | EmptyString => DOk d
  | _ =>
      match fuel with
      | O => DFuel
      | S fuel =>
          match component s with
          | None => DError
          | Some (v, s) =>
              let d := wrap64 (d + v) in
              if bool_decide (d < 0) then DError else components fuel s d
          end
      end
  end.

Definition unsigned_duration (s : string) : duration_result :=
  if bool_decide (s = "0"%string) then DOk 0
  else if bool_decide (s = EmptyString) then DError
  else components (String.length s) s 0.

Definition ParseDuration (s : string) : duration_result :=
  let '(neg, s) := match s with
                   | String "-" s' => (true, s')
                   | String "+" s' => (false, s')
                   | _ => (false, s)
                   end in
  match unsigned_duration s with
  | DOk d => DOk (if neg : bool then - d else d)
  | r => r
  end.

Example ParseDuration_week : ParseDuration "168h" = DOk (7 * 24 * hour).
Proof. vm_compute. reflexivity. Qed.

Example ParseDuration_mixed : ParseDuration "-1h15m30.918s" = DOk (- (hour + 15 * minute + 30918000000)).
Proof. vm_compute. reflexivity. Qed.

Example ParseDuration_tenth : ParseDuration ".3333333333333333333h" = DOk 1200000000000.
Proof. vm_compute. reflexivity. Qed.

(** ** Durations fit an int64, and the fuel is enough *)

Lemma digit_bounds c d : digit c = Some d → 0 ≤ d ≤ 9.
Proof. unfold digit. cbv zeta. case_bool_decide; [|done]. intros [= <-]. lia. Qed.

Lemma leadingInt_spec x n s x' n' s' :
  0 ≤ x ≤ max_int64 → leadingInt x n s = Some (x', n', s') →
  0 ≤ x' ≤ max_int64 ∧ (n' + String.length s' = n + String.length s)%nat.
Proof.
  revert x n. induction s as [|c s IH]; intros x n Hx; cbn [leadingInt].
  - intros [= <- <- <-]. done.
  - destruct (digit c) as [d|] eqn:Hd; [|by intros [= <- <- <-]].
    apply digit_bounds in Hd. case_bool_decide; [done|].
    intros [Hx' Hn]%IH; [|lia]. split; [done|]. cbn [String.length]. lia.
Qed.

Lemma take_unit_spec s u r : take_unit s = (u, r) → s = u +:+ r.
Proof.
  revert u. induction s as [|c s IH]; intros u; cbn [take_unit]; [by intros [= <- <-]|].
  destruct (unit_end c); [by intros [= <- <-]|].
  destruct (take_unit s) as [u' r']. intros [= <- <-]. by rewrite append_cons, <-IH.
Qed.

Lemma unitMap_bounds u unit : unitMap u = Some unit → 0 < unit.
Proof. unfold unitMap. repeat case_decide; intros [= <-]; done. Qed.

(** A component is a number of nanoseconds, and consumes something. *)
Lemma component_spec s v s' :
  component s = Some (v, s') → 0 ≤ v ≤ max_int64 ∧ (String.length s' < String.length s)%nat.
Proof.
  unfold component. destruct s as [|c0 s0]; [done|]. set (s := String c0 s0). clearbody s.
  destruct (unit_end _); [|done]. cbn [negb].
  intros ([[v0 pre] s1] & H1 & H)%bind_Some. apply leadingInt_spec in H1 as [Hv0 Hs1]; [|done].
  apply bind_Some in H as ([[f post] s2] & H2 & H).
  assert (0 ≤ f ≤ max_int64 ∧ (String.length s2 ≤ String.length s1)%nat) as [Hf Hs2].
  { assert (Some (0, O, s1) = Some (f, post, s2) → 0 ≤ f ≤ max_int64 ∧ (String.length s2 ≤ String.length s1)%nat)
      as Hnone by (intros [= <- <- <-]; done).
    clear H Hs1. repeat case_match; first [by apply Hnone | apply leadingInt_spec in H2 as [Hf Hs2]; [|done]].
    split; [done|]. cbn [String.length]. lia. }
  case_bool_decide as Hdigits; [done|]. destruct (take_unit s2) as [u s3] eqn:Hu.
  apply take_unit_spec in Hu as ->. case_bool_decide as Hne; [done|].
  apply bind_Some in H as (unit & Hunit%unitMap_bounds & H).
  assert ((String.length s3 < String.length s)%nat) as Hlen.
  { rewrite length_append in Hs2. destruct u; [done|]. cbn [String.length] in Hs2. lia. }
  case_bool_decide as Hbig; [done|].
  assert (0 ≤ v0 * unit ≤ max_int64) as Hv.
  { pose proof (Z.mul_div_le max_int64 unit Hunit). nia. }
  case_bool_decide; [|by injection H as <- <-]. case_bool_decide as Hneg; [done|].
  injection H as <- <-. pose proof (wrap64_int64 (v0 * unit + fraction f unit post)) as [_ ?]. split; [lia|done].
Qed.

Lemma components_spec fuel s d :
  0 ≤ d ≤ max_int64 → (String.length s ≤ fuel)%nat →
  match components fuel s d with DOk d' => 0 ≤ d' ≤ max_int64 | DError => True | DFuel => False end.
Proof.
  revert s d. induction fuel as [|fuel IH]; intros s d Hd Hs.
  - destruct s; [done|]. cbn [String.length] in Hs. lia.
  - cbn [components]. destruct s as [|c s]; [done|].
    destruct (component (String c s)) as [[v s']|] eqn:Hc; [|done].
    apply component_spec in Hc as [Hv Hlen]. case_bool_decide; [done|].
    apply IH; [|lia]. pose proof (wrap64_int64 (d + v)) as [_ ?]. lia.
Qed.

(** A duration and its negation are int64 numbers; the parser does not run out
    of fuel. *)
Lemma ParseDuration_spec s :
  match ParseDuration s with
  | DOk d => - max_int64 ≤ d ≤ max_int64
  | DError => True
  | DFuel => False
  end.
Proof.
  assert (∀ (neg : bool) t, match unsigned_duration t with
    | DOk d => 0 ≤ d ≤ max_int64 | DError => True | DFuel => False end) as Hu.
  { intros _ t. unfold unsigned_duration. case_bool_decide; [done|]. case_bool_decide; [done|].
    by apply components_spec. }
  unfold ParseDuration. set (p := match s with String "-" s' => _ | _ => _ end).
  destruct p as [neg t]. specialize (Hu neg t). destruct (unsigned_duration t) as [d| |]; [|done..].
  destruct neg; lia.
Qed.
