(* ===== verification/CloudTypes.v ===== *)
(** * Deployments and configurations ([src/tools/cmd/wcloud/types.go])

    The structs that travel between the command line client and the deployment
    service, with their JSON forms. *)

From S2P Require Import Prelude Go Strs Nums Env Utf8 Fmt Json Codec Times.

(** ** Times *)

(** The zone of a [time.Time]; a fixed one has no name here. *)
Inductive Location : Set := UTC | Local | Fixed (offset : Z).

Record timestamp : Set := MkStamp { ts_unix : Z; ts_nano : Z; ts_loc : Location }.

#[export] Instance timestamp_eq_dec : EqDecision timestamp.
Proof. repeat intros ?; hnf; repeat decide equality. Defined.

(** January 1 of year 1, the zero value. *)
Definition zero_time : timestamp := MkStamp (-62135596800) 0 UTC.

(** The zone the process runs in: the offset in seconds and the abbreviation in
    force at a time; and the texts of package [time]'s parse errors. *)
Class LocalZone := {
  zone_lookup : Z → Z * string;
  ParseError : json → string
}.

Section zone.
Context `{!LocalZone}.

(** Offset and abbreviation. *)
Definition zone_of (t : timestamp) : Z * string :=
  match ts_loc t with
  | UTC => (0%Z, "UTC")
  | Local => zone_lookup (ts_unix t)
  | Fixed offset => (offset, "")
  end.

(** An offset that the local zone has at that time means the local zone. *)
Definition located (p : Z * Z * parsed_zone) : timestamp :=
  let '(secs, nanos, z) := p in
  MkStamp secs nanos
    match z with
    | ZoneUTC => UTC
    | ZoneOffset offset => if bool_decide ((zone_lookup secs).1 = offset) then Local else Fixed offset
    end.

(** [Time.UnmarshalJSON] and [Time.MarshalJSON]; this version of Go does not
    make an exception for [null]. The text of a string is taken after its
    escapes are resolved. *)
#[export] Instance json_time_type : JsonType timestamp := {|
  zero := zero_time;
  unmarshal j x :=
    match j with
    | JStr s => match parse_rfc3339 s with
                | Some p => (located p, None)
                | None => (x, Some (TimeError (ParseError j)))
                end
    | _ => (x, Some (TimeError (ParseError j)))
    end;
  marshal t := json_time (ts_unix t) (ts_nano t) (zone_of t).1
|}.

Definition Format_RFC822 (t : timestamp) : string :=
  RFC822 (ts_unix t) (zone_of t).1 (zone_of t).2.
End zone.

(** ** The structs *)

Record Deployment : Set := MkDeployment {
  ID : string;
  CreatedAt : timestamp;
  ImageName : string;
  Version : string;
  Priority : Z;
  State : string;
  TriggeringUser : string;
  IntendedServices : gslice string
}.

Section deployment.
Context `{!LocalZone}.

Definition deployment_fields : list (field Deployment) :=
  [ field_of "id" ID (λ x '(MkDeployment _ b c d e f g h), MkDeployment x b c d e f g h);
    field_of "created_at" CreatedAt (λ x '(MkDeployment a _ c d e f g h), MkDeployment a x c d e f g h);
    field_of "image_name" ImageName (λ x '(MkDeployment a b _ d e f g h), MkDeployment a b x d e f g h);
    field_of "version" Version (λ x '(MkDeployment a b c _ e f g h), MkDeployment a b c x e f g h);
    field_of "priority" Priority (λ x '(MkDeployment a b c d _ f g h), MkDeployment a b c d x f g h);
    field_of "status" State (λ x '(MkDeployment a b c d e _ g h), MkDeployment a b c d e x g h);
    field_of "triggering_user" TriggeringUser
      (λ x '(MkDeployment a b c d e f _ h), MkDeployment a b c d e f x h);
    field_of "intended_services" IntendedServices
      (λ x '(MkDeployment a b c d e f g _), MkDeployment a b c d e f g x) ].

#[export] Instance deployment_type : JsonType Deployment := {|
  zero := MkDeployment "" zero "" "" 0 "" "" zero;
  unmarshal := unmarshal_struct "main.Deployment" deployment_fields;
  marshal d :=
    created ← marshal (CreatedAt d);
    services ← marshal (IntendedServices d);
    Some (JObj [("id", JStr (ID d)); ("created_at", created); ("image_name", JStr (ImageName d));
      ("version", JStr (Version d)); ("priority", JNum (Itoa (Priority d))); ("status", JStr (State d));
      ("triggering_user", JStr (TriggeringUser d)); ("intended_services", services)])
|}.

#[export] Instance deployments_type : JsonType (gslice Deployment) := {|
  zero := NilSlice;
  unmarshal := unmarshal_slice "[]main.Deployment";
  marshal := marshal_slice
|}.
End deployment.

Record NotificationConfig : Set := MkNotificationConfig {
  SlackWebhookURL : string;
  SlackUsername : string;
  MessageTemplate : string;
  ApplyMessageTemplate : string
}.

#[export] Instance notification_type : JsonType NotificationConfig := {|
  zero := MkNotificationConfig "" "" "" "";
  unmarshal := unmarshal_struct "main.NotificationConfig"
    [ field_of "slack_webhook_url" SlackWebhookURL
        (λ x '(MkNotificationConfig _ b c d), MkNotificationConfig x b c d);
      field_of "slack_username" SlackUsername
        (λ x '(MkNotificationConfig a _ c d), MkNotificationConfig a x c d);
      field_of "message_template" MessageTemplate
        (λ x '(MkNotificationConfig a b _ d), MkNotificationConfig a b x d);
      field_of "apply_message_template" ApplyMessageTemplate
        (λ x '(MkNotificationConfig a b c _), MkNotificationConfig a b c x) ];
  marshal n := Some (JObj
    [("slack_webhook_url", JStr (SlackWebhookURL n)); ("slack_username", JStr (SlackUsername n));
     ("message_template", JStr (MessageTemplate n));
     ("apply_message_template", JStr (ApplyMessageTemplate n))])
|}.

#[export] Instance notifications_type : JsonType (gslice NotificationConfig) := {|
  zero := NilSlice;
  unmarshal := unmarshal_slice "[]main.NotificationConfig";
  marshal := marshal_slice
|}.

Record Config : Set := MkConfig {
  RepoURL : string;
  RepoBranch : string;
  RepoPath : string;
  RepoKey : string;
  KubeconfigPath : string;
  AutoApply : bool;
  Notifications : gslice NotificationConfig;
  ConfigFileBlackList : gslice string;
  CommitMessageTemplate : string
}.

Definition config_fields : list (field Config) :=
  [ field_of "repo_url" RepoURL (λ x '(MkConfig _ b c d e f g h i), MkConfig x b c d e f g h i);
    field_of "repo_branch" RepoBranch (λ x '(MkConfig a _ c d e f g h i), MkConfig a x c d e f g h i);
    field_of "repo_path" RepoPath (λ x '(MkConfig a b _ d e f g h i), MkConfig a b x d e f g h i);
    field_of "repo_key" RepoKey (λ x '(MkConfig a b c _ e f g h i), MkConfig a b c x e f g h i);
    field_of "kubeconfig_path" KubeconfigPath
      (λ x '(MkConfig a b c d _ f g h i), MkConfig a b c d x f g h i);
    field_of "auto_apply" AutoApply (λ x '(MkConfig a b c d e _ g h i), MkConfig a b c d e x g h i);
    field_of "notifications" Notifications
      (λ x '(MkConfig a b c d e f _ h i), MkConfig a b c d e f x h i);
    field_of "config_file_black_list" ConfigFileBlackList
      (λ x '(MkConfig a b c d e f g _ i), MkConfig a b c d e f g x i);
    field_of "commit_message_template" CommitMessageTemplate
      (λ x '(MkConfig a b c d e f g h _), MkConfig a b c d e f g h x) ].

#[export] Instance config_type : JsonType Config := {|
  zero := MkConfig "" "" "" "" "" false zero zero "";
  unmarshal := unmarshal_struct "main.Config" config_fields;
  marshal c :=
    notifications ← marshal (Notifications c);
    blacklist ← marshal (ConfigFileBlackList c);
    Some (JObj [("repo_url", JStr (RepoURL c)); ("repo_branch", JStr (RepoBranch c));
      ("repo_path", JStr (RepoPath c)); ("repo_key", JStr (RepoKey c));
      ("kubeconfig_path", JStr (KubeconfigPath c)); ("auto_apply", JBool (AutoApply c));
      ("notifications", notifications); ("config_file_black_list", blacklist);
      ("commit_message_template", JStr (CommitMessageTemplate c))])
|}.

(** ** Reading back what was written *)

#[export] Instance notification_equiv : Equiv NotificationConfig := equivL.

#[export] Instance config_equiv : Equiv Config := λ c c',
  RepoURL c = RepoURL c' ∧ RepoBranch c = RepoBranch c' ∧ RepoPath c = RepoPath c' ∧
  RepoKey c = RepoKey c' ∧ KubeconfigPath c = KubeconfigPath c' ∧ AutoApply c = AutoApply c' ∧
  Notifications c ≡ Notifications c' ∧ ConfigFileBlackList c ≡ ConfigFileBlackList c' ∧
  CommitMessageTemplate c = CommitMessageTemplate c'.

Definition notification_ok (n : NotificationConfig) : Prop :=
  valid (SlackWebhookURL n) ∧ valid (SlackUsername n) ∧ valid (MessageTemplate n) ∧
  valid (ApplyMessageTemplate n).

(** All strings of a configuration are UTF-8. *)
Definition config_ok (c : Config) : Prop :=
  Forall valid [RepoURL c; RepoBranch c; RepoPath c; RepoKey c; KubeconfigPath c; CommitMessageTemplate c] ∧
  Forall notification_ok (elems (Notifications c)) ∧ Forall valid (elems (ConfigFileBlackList c)).

(** Keys of ASCII letters are UTF-8. *)
Ltac solve_keys := repeat (split; [first [assumption | by apply ascii_only_valid; vm_compute | done]|]); try done.

#[export] Instance notification_laws : JsonLaws NotificationConfig notification_ok.
Proof.
  split.
  - intros [a b c d] (? & ? & ? & ?). simpl in *. eexists. split; [reflexivity|]. split; [done|].
    simpl. solve_keys.
  - intros [a b c d] j _ [= <-]. by eexists.
Qed.

#[export] Instance notifications_laws :
  JsonLaws (gslice NotificationConfig) (λ s, Forall notification_ok (elems s)).
Proof. apply slice_laws, _. Qed.

#[export] Instance config_laws : JsonLaws Config config_ok.
Proof.
  split.
  - intros c (Hs & Hn & Hb). unfold config_ok in *. simpl in Hs. rewrite !Forall_cons in Hs.
    destruct Hs as (? & ? & ? & ? & ? & ? & _).
    destruct (marshal_good (Notifications c) Hn) as (jn & Hjn & Hn1 & Hn2). destruct (marshal_good (ConfigFileBlackList c) Hb) as (jb & Hjb & Hb1 & Hb2).
    cbn [marshal config_type]. rewrite Hjn, Hjb. eexists. split; [reflexivity|].
    split; simpl; [done|]. solve_keys.
  - intros c j (_ & Hn & Hb) Hj. cbn [marshal config_type] in Hj.
    apply bind_Some in Hj as (jn & Hjn & Hj). apply bind_Some in Hj as (jb & Hjb & [= <-]).
    destruct (unmarshal_marshal (Notifications c) _ Hn Hjn) as (n & Hun & Heqn).
    destruct (unmarshal_marshal (ConfigFileBlackList c) _ Hb Hjb) as (b & Hub & Heqb).
    cbn [unmarshal zero config_type]. store_members. eexists. split; [reflexivity|].
    by repeat split.
Qed.

Section deployment_laws.
Context `{!LocalZone}.

(** The same instant, with the same offset. *)
#[export] Instance timestamp_equiv : Equiv timestamp := λ t t',
  ts_unix t = ts_unix t' ∧ ts_nano t = ts_nano t' ∧ (zone_of t).1 = (zone_of t').1.

#[export] Instance deployment_equiv : Equiv Deployment := λ d d',
  ID d = ID d' ∧ CreatedAt d ≡ CreatedAt d' ∧ ImageName d = ImageName d' ∧ Version d = Version d' ∧
  Priority d = Priority d' ∧ State d = State d' ∧ TriggeringUser d = TriggeringUser d' ∧
  IntendedServices d ≡ IntendedServices d'.

Lemma marshal_timestamp t : marshal t = json_time (ts_unix t) (ts_nano t) (zone_of t).1.
Proof. reflexivity. Qed.

(** A time of the years 0 to 9999 in a zone of whole minutes. *)
Definition stamp_ok (t : timestamp) : Prop :=
  is_Some (marshal t) ∧ (0 ≤ ts_nano t < 10 ^ 9)%Z ∧ offset_ok (zone_of t).1.

Definition deployment_ok (d : Deployment) : Prop :=
  Forall valid [ID d; ImageName d; Version d; State d; TriggeringUser d] ∧
  stamp_ok (CreatedAt d) ∧ int64 (Priority d) ∧ Forall valid (elems (IntendedServices d)).

Lemma located_equiv t :
  located (ts_unix t, ts_nano t, zone_read (zone_of t).1) ≡ t.
Proof.
  split; [done|]. split; [done|]. unfold located, zone_read. case_bool_decide as H0; [done|].
  case_bool_decide as Hl; [|done]. done.
Qed.

#[export] Instance timestamp_laws : JsonLaws timestamp stamp_ok.
Proof.
  split.
  - intros t ([j Hj] & Hn & Ho). exists j. split; [done|].
    rewrite marshal_timestamp in Hj. rewrite (json_time_Some _ _ _ _ Hj).
    split; [done|]. apply ascii_only_valid, ascii_only_RFC3339Nano.
  - intros t j (_ & Hn & Ho) Hj. rewrite marshal_timestamp in Hj.
    destruct (parse_RFC3339Nano _ _ _ _ Hj Hn Ho) as (s & -> & Hs).
    exists (located (ts_unix t, ts_nano t, zone_read (zone_of t).1)).
    cbn [unmarshal json_time_type]. rewrite Hs. split; [done|apply located_equiv].
Qed.

#[export] Instance deployment_laws : JsonLaws Deployment deployment_ok.
Proof.
  split.
  - intros d (Hs & Ht & Hp & Hl). rewrite !Forall_cons in Hs. destruct Hs as (? & ? & ? & ? & ? & _).
    destruct (marshal_good (CreatedAt d) Ht) as (jt & Hjt & Ht1 & Ht2).
    destruct (marshal_good (IntendedServices d) Hl) as (jl & Hjl & Hl1 & Hl2).
    cbn [marshal deployment_type]. rewrite Hjt, Hjl. eexists. split; [reflexivity|].
    split; simpl; [by rewrite number_FormatInt|]. solve_keys.
  - intros d j (_ & Ht & Hp & Hl) Hj. cbn [marshal deployment_type] in Hj.
    apply bind_Some in Hj as (jt & Hjt & Hj). apply bind_Some in Hj as (jl & Hjl & [= <-]).
    destruct (unmarshal_marshal (CreatedAt d) _ Ht Hjt) as (t & Hut & Heqt).
    destruct (unmarshal_marshal (IntendedServices d) _ Hl Hjl) as (l & Hul & Heql).
    assert (unmarshal (JNum (Itoa (Priority d))) 0%Z = (Priority d, None)) as Hun.
    { cbn [unmarshal json_int_type]. unfold Itoa. by rewrite ParseInt_FormatInt. }
    cbn [unmarshal zero deployment_type]. store_members. eexists. split; [reflexivity|].
    repeat (split; [done|]). done.
Qed.

#[export] Instance deployments_laws :
  JsonLaws (gslice Deployment) (λ s, Forall deployment_ok (elems s)).
Proof. apply slice_laws, _. Qed.
End deployment_laws.
