(* ===== verification/CloudClient.v ===== *)
(** * The client of the deployment service ([src/tools/cmd/wcloud/client.go])

    Requests and the checks of their answers. The transport, the parser of URLs
    and the other packages the command line client calls are parameters; a
    request that is sent is logged. *)

From S2P Require Import Prelude Go Strs Nums Env Utf8 Fmt Json Codec Times CloudTypes.

(** ** The world of the client *)

Record http_request : Set := MkHttpRequest {
  Method : string;
  URL : string;
  Authorization : string;
  Body : option string
}.

Record http_response : Set := MkHttpResponse {
  StatusCode : Z;
  Status : string;
  ResponseBody : stream
}.

Class Cloud (E : Type) := {
  (* http.NewRequest: the error of url.Parse *)
  url_error : string → option ext_error;
  (* http.DefaultClient.Do *)
  http_Do : http_request → E → (ext_error + http_response) * E;
  os_LookupEnv : string → E → option string;
  user_Current : E → (ext_error + string) * E;
  ioutil_ReadFile : string → E → (ext_error + string) * E;
  (* seconds since the epoch and nanoseconds *)
  wall_clock : E → (Z * Z) * E;
  yaml_Unmarshal : string → ext_error + Config;
  yaml_Marshal : Config → ext_error + string;
  (* the table that tablewriter prints without a border, blanks between the columns *)
  tablewriter_Render : list string → list (list string) → string
}.

(** The environment, the requests sent so far and the standard output. *)
Record Session (E : Type) : Type := MkSession {
  s_env : E;
  sent : list http_request;
  stdout : string
}.
Arguments MkSession {E}.
Arguments s_env {E}.
Arguments sent {E}.
Arguments stdout {E}.

Section session.
Context {E : Type}.
Abbreviation W := (Session E).

Definition outside {A} (f : E → A * E) : M W A := λ w,
  let '(a, e) := f (s_env w) in (Ret a, MkSession e (sent w) (stdout w)).

Definition transmit (req : http_request) : M W unit :=
  modify (λ w, MkSession (s_env w) (sent w ++ [req]) (stdout w)).

Definition fmt_Print (s : string) : M W unit :=
  modify (λ w, MkSession (s_env w) (sent w) (stdout w +:+ s)).

Definition Println (s : string) : M W unit := fmt_Print (s +:+ newline).
End session.

(** ** Errors *)

Inductive cloud_error : Set :=
  | CloudExt (e : ext_error)
  | CloudJson (e : json_error)
  | CloudEncode                 (* a time of a year that JSON dates do not have *)
  | BadStatus (status : string)
  | NoConfiguration.

Definition cloud_text (err : cloud_error) : string :=
  match err with
  | CloudExt e => ext_text e
  | CloudJson e => json_error_text e
  | CloudEncode => time_error
  | BadStatus status => "Error making request: " +:+ status
  | NoConfiguration => "No configuration uploaded yet."
  end.

(** A value with its error, of which one counts. *)
Abbreviation fallible A := (cloud_error + A)%type.

(** ** The client *)

Record Client : Set := NewClient { token : string; baseURL : string }.

(** The struct that [GetDeployments] decodes, by its one field. *)
Definition deployments_response_type : string :=
  "struct { Deployments []main.Deployment " +:+ String quotation ("json:\" +:+ String quotation
    ("deployments\" +:+ String quotation (String quotation " }"))).

Section client.
Context `{!LocalZone} {E : Type} `{!Cloud E}.
Abbreviation W := (Session E).

(** [json.NewEncoder(&buf).Encode] *)
Definition Encode {A} `{!JsonType A} (x : A) : fallible string :=
  match marshal x with Some j => inr (encode_line j) | None => inl CloudEncode end.

Definition Decode_body {A} `{!JsonType A} (body : stream) : fallible A :=
  match Decode body zero with
  | (x, None) => inr x
  | (_, Some e) => inl (CloudJson e)
  end.

Definition ReadAll (body : stream) : fallible string :=
  match body with (data, None) => inr data | (_, Some e) => inl (CloudExt e) end.

Definition newRequest (c : Client) (method path : string) (body : option string) : fallible http_request :=
  match url_error (baseURL c +:+ path) with
  | Some e => inl (CloudExt e)
  | None => inr {| Method := method; URL := baseURL c +:+ path;
                   Authorization := "Scope-Probe token=" +:+ token c; Body := body |}
  end.

Definition Do (req : http_request) : M W (fallible http_response) :=
  _ ← transmit req;
  r ← outside (http_Do req);
  mret match r with inl e => inl (CloudExt e) | inr res => inr res end.

(** [newRequest] and [Do], as all methods of the client use them. *)
Definition exchange (c : Client) (method path : string) (body : option string) : M W (fallible http_response) :=
  match newRequest c method path body with
  | inl err => mret (inl err)
  | inr req => Do req
  end.

Definition Deploy (c : Client) (deployment : Deployment) : M W (option cloud_error) :=
  match Encode deployment with
  | inl err => mret (Some err)
  | inr buf =>
      r ← exchange c "POST" "/api/deploy/deploy" (Some buf);
      match r with
      | inl err => mret (Some err)
      | inr res =>
          if bool_decide (StatusCode res ≠ 204%Z) then mret (Some (BadStatus (Status res)))
          else mret None
      end
  end.

Definition range_path (path : string) (from through : Z) : string :=
  path +:+ "?from=" +:+ FormatInt from +:+ "&through=" +:+ FormatInt through.

Definition deployments_response : decoder (gslice Deployment) :=
  unmarshal_struct deployments_response_type [field_of "deployments" id (λ x _, x)].

Definition GetDeployments (c : Client) (from through : Z) : M W (fallible (gslice Deployment)) :=
  r ← exchange c "GET" (range_path "/api/deploy/deploy" from through) None;
  match r with
  | inl err => mret (inl err)
  | inr res =>
      if bool_decide (StatusCode res ≠ 200%Z) then mret (inl (BadStatus (Status res)))
      else
        match readValue (ResponseBody res) with
        | inl e => mret (inl (CloudJson e))
        | inr j => match deployments_response j NilSlice with
                   | (l, None) => mret (inr l)
                   | (_, Some e) => mret (inl (CloudJson e))
                   end
        end
  end.

Definition GetEvents (c : Client) (from through : Z) : M W (fallible string) :=
  r ← exchange c "GET" (range_path "/api/deploy/event" from through) None;
  match r with
  | inl err => mret (inl err)
  | inr res =>
      if bool_decide (StatusCode res ≠ 200%Z) then mret (inl (BadStatus (Status res)))
      else mret (ReadAll (ResponseBody res))
  end.

Definition GetConfig (c : Client) : M W (fallible Config) :=
  r ← exchange c "GET" "/api/config/deploy" None;
  match r with
  | inl err => mret (inl err)
  | inr res =>
      if bool_decide (StatusCode res = 404%Z) then mret (inl NoConfiguration)
      else if bool_decide (StatusCode res ≠ 200%Z) then mret (inl (BadStatus (Status res)))
      else mret (Decode_body (ResponseBody res))
  end.

Definition SetConfig (c : Client) (config : Config) : M W (option cloud_error) :=
  match Encode config with
  | inl err => mret (Some err)
  | inr buf =>
      r ← exchange c "POST" "/api/config/deploy" (Some buf);
      match r with
      | inl err => mret (Some err)
      | inr res =>
          if bool_decide (StatusCode res ≠ 204%Z) then mret (Some (BadStatus (Status res)))
          else mret None
      end
  end.

Definition GetLogs (c : Client) (deployID : string) : M W (fallible string) :=
  r ← exchange c "GET" ("/api/deploy/deploy/" +:+ deployID +:+ "/log") None;
  match r with
  | inl err => mret (inl err)
  | inr res =>
      if bool_decide (StatusCode res ≠ 200%Z) then mret (inl (BadStatus (Status res)))
      else mret (ReadAll (ResponseBody res))
  end.
End client.

(** ** One exchange *)

Section exchange.
Context {E : Type} `{!Cloud E}.
Abbreviation W := (Session E).

Definition request_of (c : Client) (method path : string) (body : option string) : http_request :=
  {| Method := method; URL := baseURL c +:+ path;
     Authorization := "Scope-Probe token=" +:+ token c; Body := body |}.

(** What comes back for a request, and the session after it. *)
Definition answer (req : http_request) (w : W) : fallible http_response :=
  match (http_Do req (s_env w)).1 with inl e => inl (CloudExt e) | inr res => inr res end.

Definition after (req : http_request) (w : W) : W :=
  MkSession (http_Do req (s_env w)).2 (sent w ++ [req]) (stdout w).

Lemma exchange_run c method path body w :
  url_error (baseURL c +:+ path) = None →
  exchange c method path body w =
    (Ret (answer (request_of c method path body) w), after (request_of c method path body) w).
Proof.
  intros Hurl. unfold exchange, newRequest. rewrite Hurl. unfold Do, transmit, outside, answer, after.
  unfold mbind, M_bind, modify. cbn [s_env sent stdout].
  by destruct (http_Do _ (s_env w)) as [[e|res] e'].
Qed.

Lemma exchange_fails c method path body w e :
  url_error (baseURL c +:+ path) = Some e →
  exchange c method path body w = (Ret (inl (CloudExt e)), w).
Proof. intros Hurl. unfold exchange, newRequest. by rewrite Hurl. Qed.

(** The request has a URL that parses, and is answered with [res]. *)
Definition replied (c : Client) (method path : string) (body : option string) (w : W)
    (res : http_response) : Prop :=
  url_error (baseURL c +:+ path) = None ∧
  (http_Do (request_of c method path body) (s_env w)).1 = inr res.

Lemma exchange_replied c method path body w res {A} (k : fallible http_response → M W A) :
  replied c method path body w res →
  (exchange c method path body ≫= k) w = k (inr res) (after (request_of c method path body) w).
Proof.
  intros [Hurl Hdo]. rewrite (bind_Ret _ _ _ _ _ (exchange_run _ _ _ _ _ Hurl)).
  unfold answer. by rewrite Hdo.
Qed.
End exchange.

(** ** Statuses *)

Section status.
Context `{!LocalZone} {E : Type} `{!Cloud E}.
Abbreviation W := (Session E).

(** C37: what the methods of the client make of the status of an answer, each for
    the one request it sends. Deployments and configurations are posted with
    success exactly on status 204. Deployments, events, logs and the
    configuration are read only from an answer of status 200, whatever the body
    of another says; its status line is the error, except that 404 means that
    there is no configuration. *)
Theorem client_status c (w : W) :
  (∀ d j res, marshal d = Some j →
     replied c "POST" "/api/deploy/deploy" (Some (encode_line j)) w res →
     (Deploy c d w).1 =
       Ret (if bool_decide (StatusCode res = 204%Z) then None else Some (BadStatus (Status res)))) ∧
  (∀ conf j res, marshal conf = Some j →
     replied c "POST" "/api/config/deploy" (Some (encode_line j)) w res →
     (SetConfig c conf w).1 =
       Ret (if bool_decide (StatusCode res = 204%Z) then None else Some (BadStatus (Status res)))) ∧
  (∀ from through res, replied c "GET" (range_path "/api/deploy/deploy" from through) None w res →
     StatusCode res ≠ 200%Z →
     (GetDeployments c from through w).1 = Ret (inl (BadStatus (Status res)))) ∧
  (∀ from through res, replied c "GET" (range_path "/api/deploy/event" from through) None w res →
     (GetEvents c from through w).1 =
       Ret (if bool_decide (StatusCode res = 200%Z) then ReadAll (ResponseBody res)
            else inl (BadStatus (Status res)))) ∧
  (∀ id res, replied c "GET" ("/api/deploy/deploy/" +:+ id +:+ "/log") None w res →
     (GetLogs c id w).1 =
       Ret (if bool_decide (StatusCode res = 200%Z) then ReadAll (ResponseBody res)
            else inl (BadStatus (Status res)))) ∧
  (∀ res, replied c "GET" "/api/config/deploy" None w res →
     (GetConfig c w).1 =
       Ret (if bool_decide (StatusCode res = 200%Z) then Decode_body (ResponseBody res)
            else if bool_decide (StatusCode res = 404%Z) then inl NoConfiguration
            else inl (BadStatus (Status res)))).
Proof.
  split_and!.
  - intros d j res Hj Hr. unfold Deploy, Encode. rewrite Hj, (exchange_replied _ _ _ _ _ _ _ Hr).
    by repeat case_bool_decide.
  - intros conf j res Hj Hr. unfold SetConfig, Encode. rewrite Hj, (exchange_replied _ _ _ _ _ _ _ Hr).
    by repeat case_bool_decide.
  - intros from through res Hr Hs. unfold GetDeployments.
    by rewrite (exchange_replied _ _ _ _ _ _ _ Hr), bool_decide_true.
  - intros from through res Hr. unfold GetEvents. rewrite (exchange_replied _ _ _ _ _ _ _ Hr).
    by repeat case_bool_decide.
  - intros id res Hr. unfold GetLogs. rewrite (exchange_replied _ _ _ _ _ _ _ Hr).
    by repeat case_bool_decide.
  - intros res Hr. unfold GetConfig. rewrite (exchange_replied _ _ _ _ _ _ _ Hr).
    repeat case_bool_decide; try done; congruence.
Qed.
End status.

(** ** A scripted service *)

(** It keeps what is posted and hands it out again; when [sv_down] is set it
    always answers that. *)
Record Service : Set := MkService {
  sv_stored : option string;
  sv_down : option http_response;
  sv_clock : Z * Z
}.

#[export] Instance utc_zone : LocalZone := {|
  zone_lookup _ := (0%Z, "UTC");
  ParseError _ := "parsing time"
|}.

#[export] Instance service_cloud : Cloud Service := {|
  url_error _ := None;
  http_Do req e :=
    match sv_down e, Body req with
    | Some res, _ => (inr res, e)
    | None, Some body =>
        (inr (MkHttpResponse 204 "204 No Content" ("", None)), MkService (Some body) None (sv_clock e))
    | None, None =>
        (inr match sv_stored e with
             | Some body => MkHttpResponse 200 "200 OK" (body, None)
             | None => MkHttpResponse 404 "404 Not Found" ("", None)
             end, e)
    end;
  os_LookupEnv _ _ := None;
  user_Current e := (inr "ann", e);
  ioutil_ReadFile _ e := (inr "{}", e);
  wall_clock e := (sv_clock e, e);
  yaml_Unmarshal _ := inr zero;
  yaml_Marshal _ := inr "{}";
  tablewriter_Render header rows := Join (Join header " " :: ((λ row, Join row " ") <$> rows)) newline +:+ newline
|}.

Definition service (stored : option string) (down : option http_response) : Session Service :=
  MkSession (MkService stored down (1491300000%Z, 250000000%Z)) [] "".

Definition unavailable : http_response := MkHttpResponse 503 "503 Service Unavailable" ("", None).

Definition someone : Client := NewClient "secret" "https://cloud.weave.works".

Lemma client_status_witness :
  (GetLogs someone "7" (service None (Some unavailable))).1 =
    Ret (inl (BadStatus "503 Service Unavailable")) ∧
  (GetConfig someone (service None None)).1 = Ret (inl NoConfiguration).
Proof.
  split.
  - destruct (client_status someone (service None (Some unavailable))) as (_ & _ & _ & _ & Hlogs & _).
    rewrite (Hlogs "7" unavailable); [reflexivity|]. split; reflexivity.
  - destruct (client_status someone (service None None)) as (_ & _ & _ & _ & _ & Hconf).
    rewrite (Hconf (MkHttpResponse 404 "404 Not Found" ("", None))); [reflexivity|]. split; reflexivity.
Defined.
