(* ===== verification/CloudCli.v ===== *)
(** * The command line of the deployment service ([src/tools/cmd/wcloud/cli.go])

    Arguments, output and exit status of wcloud, command by command. What the
    flag package prints on the standard error is not modelled. *)

From S2P Require Import Prelude Go Strs Nums Path Env Utf8 Fmt Json Codec Times Flags.
From S2P Require Import CloudTypes CloudClient.

(** ** Flags *)

Definition ArrayFlags_String (a : gslice string) : string := Join (elems a) ",".

(** The receiver after [Set], which does not fail. *)
Definition ArrayFlags_Set (value : string) (a : gslice string) : gslice string :=
  of_list (elems a ++ [value]).

(** The variables behind the flags of [deploy]. *)
Record deploy_vars : Set := MkDeployVars { username : string; services : gslice string }.

Definition deploy_flags : flag_set deploy_vars :=
  [ ("u", λ v x, Some (MkDeployVars v (services x)));
    ("service", λ v x, Some (MkDeployVars (username x) (ArrayFlags_Set v (services x)))) ].

(** The variable [since] of [list] and [events]. *)
Definition since_flags : flag_set Z :=
  [ ("since", λ v _, match ParseDuration v with DOk d => Some d | _ => None end) ].

Definition default_since : Z := (7 * 24 * hour)%Z.

(** ** Package time *)

Definition unixToInternal : Z := 62135596800.

(** [Time.Add] on seconds since the epoch and nanoseconds; the seconds are kept
    as an int64 that counts from year 1. *)
Definition time_Add (t : Z * Z) (d : Z) : Z * Z :=
  let sec := wrap64 (t.1 + unixToInternal + Z.quot d second) in
  let nsec := (t.2 + Z.rem d second)%Z in
  let '(sec, nsec) :=
    if bool_decide (second <= nsec)%Z then (wrap64 (sec + 1), (nsec - second)%Z)
    else if bool_decide (nsec < 0)%Z then (wrap64 (sec - 1), (nsec + second)%Z)
    else (sec, nsec) in
  ((sec - unixToInternal)%Z, nsec).

Definition time_Unix (t : Z * Z) : Z := wrap64 t.1.

(** ** Strings *)

(** [strings.SplitN(s, ":", 2)]: what is before and after the first colon. *)
Fixpoint cut_colon (s : string) : option (string * string) :=
  match s with
  | "" => None
  | String c s =>
      if bool_decide (c = ":"%char) then Some ("", s)
      else '(a, b) ← cut_colon s; Some (String c a, b)
  end.

Definition tab : string := String "009" "".

Definition usage_text : string :=
  "Usage:" +:+ newline +:+
  tab +:+ "deploy <image>:<version>   Deploy image to your configured env" +:+ newline +:+
  tab +:+ "list                       List recent deployments" +:+ newline +:+
  tab +:+ "config (<filename>)        Get (or set) the configured env" +:+ newline +:+
  tab +:+ "logs <deploy>              Show lots for the given deployment".

Section cli.
Context `{!LocalZone} {E : Type} `{!Cloud E}.
Abbreviation W := (Session E).

Definition os_env (key def : string) (e : E) : string := default def (os_LookupEnv key e).

Definition usage : M W unit := Println usage_text.

(** Printing an error and [os.Exit(1)]. *)
Definition failed {A} (err : cloud_error) : M W A :=
  _ ← Println (cloud_text err);
  goexit 1.

Definition deploy (c : Client) (args : list string) : M W unit :=
  match Parse deploy_flags args (MkDeployVars "" NilSlice) with
  | None => usage
  | Some (vars, args) =>
      match args with
      | [arg] =>
          match cut_colon arg with
          | None => usage
          | Some (image, version) =>
              user ← (if bool_decide (username vars = "") then
                        u ← outside user_Current;
                        match u with
                        | inl e => failed (CloudExt e)
                        | inr name => mret name
                        end
                      else mret (username vars));
              let deployment :=
                {| ID := ""; CreatedAt := zero_time; ImageName := image; Version := version;
                   Priority := 0; State := ""; TriggeringUser := user;
                   IntendedServices := services vars |} in
              err ← Deploy c deployment;
              match err with
              | Some err => failed err
              | None => mret ()
              end
          end
      | _ => usage
      end
  end.

Definition table_header : list string := ["Created"; "ID"; "Image"; "Version"; "State"].

Definition table_row (d : Deployment) : list string :=
  [Format_RFC822 (CreatedAt d); ID d; ImageName d; Version d; State d].

Definition list_deployments (c : Client) (args : list string) : M W unit :=
  match Parse since_flags args default_since with
  | None => usage
  | Some (since, _) =>
      through ← outside wall_clock;
      let from := time_Add through (wrap64 (- since)) in
      r ← GetDeployments c (time_Unix from) (time_Unix through);
      match r with
      | inl err => failed err
      | inr deployments => fmt_Print (tablewriter_Render table_header (table_row <$> elems deployments))
      end
  end.

Definition events (c : Client) (args : list string) : M W unit :=
  match Parse since_flags args default_since with
  | None => usage
  | Some (since, _) =>
      through ← outside wall_clock;
      let from := time_Add through (wrap64 (- since)) in
      r ← GetEvents c (time_Unix from) (time_Unix through);
      match r with
      | inl err => failed err
      | inr events => Println ("events:  " +:+ events)
      end
  end.

Definition loadConfig (filename : string) : M W (fallible Config) :=
  let extension := Ext filename in
  r ← outside (ioutil_ReadFile filename);
  match r with
  | inl e => mret (inl (CloudExt e))
  | inr buf =>
      if bool_decide (extension = ".yaml" ∨ extension = ".yml") then
        match yaml_Unmarshal buf with
        | inl e => mret (inl (CloudExt e))
        | inr config => mret (inr config)
        end
      else mret (Decode_body (buf, None))
  end.

Definition config (c : Client) (args : list string) : M W unit :=
  match args with
  | _ :: _ :: _ => usage
  | [filename] =>
      r ← loadConfig filename;
      match r with
      | inl err =>
          _ ← Println ("Error reading config: " +:+ cloud_text err);
          goexit 1
      | inr config =>
          err ← SetConfig c config;
          match err with
          | Some err => failed err
          | None => mret ()
          end
      end
  | [] =>
      r ← GetConfig c;
      match r with
      | inl err => failed err
      | inr config =>
          match yaml_Marshal config with
          | inl e => failed (CloudExt e)
          | inr buf => Println buf
          end
      end
  end.

Definition logs (c : Client) (args : list string) : M W unit :=
  match args with
  | [deployID] =>
      r ← GetLogs c deployID;
      match r with
      | inl err => failed err
      | inr output => Println output
      end
  | _ => usage
  end.

(** The client of the package's variables [token] and [baseURL]. *)
Definition new_client (e : E) : Client :=
  NewClient (os_env "SERVICE_TOKEN" "" e) (os_env "BASE_URL" "https://cloud.weave.works" e).

(** The switch of [main]; the command help is like an unknown one. *)
Definition run_command (c : Client) (command : string) (args : list string) : M W unit :=
  if bool_decide (command = "deploy") then deploy c args
  else if bool_decide (command = "list") then list_deployments c args
  else if bool_decide (command = "config") then config c args
  else if bool_decide (command = "logs") then logs c args
  else if bool_decide (command = "events") then events c args
  else usage.

(** [main]; the arguments start with the name of the program. *)
Definition cli_main (os_Args : list string) : M W unit :=
  match os_Args with
  | _ :: command :: args =>
      w ← get;
      let c := new_client (s_env w) in
      run_command c command args
  | _ =>
      _ ← usage;
      goexit 1
  end.
End cli.

(** ** How many requests *)

(** At most [k] requests are sent, all from the client; the function returns or
    exits with status 1. *)
Section requests.
Context {E : Type} `{!Cloud E}.
Abbreviation W := (Session E).

Definition from_client (c : Client) (req : http_request) : Prop :=
  ∃ method path body, req = request_of c method path body.

Definition ended {A} (o : outcome A) : Prop :=
  match o with Ret _ | Exited 1 => True | _ => False end.

Definition requests {A} (c : Client) (k : nat) (m : M W A) : Prop :=
  ∀ w, ended (m w).1 ∧
    ∃ reqs, sent (m w).2 = sent w ++ reqs ∧ length reqs ≤ k ∧ Forall (from_client c) reqs.

Lemma requests_bind {A B} c k1 k2 (m : M W A) (f : A → M W B) :
  requests c k1 m → (∀ a, requests c k2 (f a)) → requests c (k1 + k2) (m ≫= f).
Proof.
  intros Hm Hf w. destruct (Hm w) as (Hend & reqs & Hs & Hk & Hr). unfold mbind, M_bind.
  destruct (m w) as [o w1]. cbn [fst snd] in *. destruct o as [a|p|code|]; [|done| |done].
  - destruct (Hf a w1) as (Hend' & reqs' & Hs' & Hk' & Hr'). split; [done|].
    exists (reqs ++ reqs'). rewrite Hs', Hs, app_assoc, length_app. split; [done|]. split; [lia|].
    by apply Forall_app.
  - split; [done|]. exists reqs. cbn [snd]. repeat split; [done|lia|done].
Qed.

Lemma requests_none {A} c k (m : M W A) :
  (∀ w, ended (m w).1 ∧ sent (m w).2 = sent w) → requests c k m.
Proof. intros Hm w. split; [apply Hm|]. exists []. rewrite app_nil_r. split; [apply Hm|]. split; [simpl; lia|done]. Qed.

Lemma requests_ret {A} c k (a : A) : requests c k (mret a).
Proof. by apply requests_none. Qed.
Lemma requests_exit {A} c k : requests c k (goexit (A:=A) 1).
Proof. by apply requests_none. Qed.
Lemma requests_print c k s : requests c k (fmt_Print s).
Proof. by apply requests_none. Qed.
Lemma requests_println c k s : requests c k (Println s).
Proof. apply requests_print. Qed.
Lemma requests_outside {A} c k (f : E → A * E) : requests c k (outside f).
Proof. apply requests_none. intros w. unfold outside. by destruct (f (s_env w)). Qed.

Lemma requests_exchange c method path body : requests c 1 (exchange c method path body).
Proof.
  intros w. destruct (url_error (baseURL c +:+ path)) as [e|] eqn:Hurl.
  - rewrite (exchange_fails _ _ _ _ _ _ Hurl). split; [done|]. exists [].
    rewrite app_nil_r. split; [done|]. split; [simpl; lia|done].
  - rewrite exchange_run by done. split; [done|]. eexists. split; [reflexivity|].
    split; [done|]. constructor; [|done]. by eexists _, _, _.
Qed.

Lemma requests_usage c k : requests c k usage.
Proof. apply requests_print. Qed.
Lemma requests_failed {A} c k err : requests c k (failed (A:=A) err).
Proof.
  unfold failed. apply (requests_bind c 0 k); [apply requests_print|]. intros _. apply requests_exit.
Qed.
End requests.

Create HintDb requests.
#[export] Hint Resolve requests_exchange requests_ret requests_exit requests_print requests_println
  requests_usage
  requests_failed requests_outside : requests.

(** Follows the structure of a function: of the operations of a sequence, the
    one that may send a request is found in the hints. *)
Ltac solve_requests :=
  repeat (cbv zeta; lazymatch goal with
    | |- ∀ _, _ => intros ?
    | |- requests ?c 1 (_ ≫= _) =>
        first [apply (requests_bind c 0 1); [solve [auto with requests]|]
              |apply (requests_bind c 1 0); [solve [auto with requests]|]
              |apply (requests_bind c 0 1)]
    | |- requests ?c ?k (_ ≫= _) => apply (requests_bind c 0 k)
    | |- requests _ _ (match ?x with _ => _ end) => destruct x
    | |- requests _ _ _ => solve [auto with requests]
    end).

Section main.
Context `{!LocalZone} {E : Type} `{!Cloud E}.
Abbreviation W := (Session E).

Lemma Deploy_requests c d : requests (E:=E) c 1 (Deploy c d).
Proof. unfold Deploy. solve_requests. Qed.
Lemma SetConfig_requests c conf : requests (E:=E) c 1 (SetConfig c conf).
Proof. unfold SetConfig. solve_requests. Qed.
Lemma GetDeployments_requests c from through : requests (E:=E) c 1 (GetDeployments c from through).
Proof. unfold GetDeployments. solve_requests. Qed.
Lemma GetEvents_requests c from through : requests (E:=E) c 1 (GetEvents c from through).
Proof. unfold GetEvents. solve_requests. Qed.
Lemma GetConfig_requests c : requests (E:=E) c 1 (GetConfig c).
Proof. unfold GetConfig. solve_requests. Qed.
Lemma GetLogs_requests c id : requests (E:=E) c 1 (GetLogs c id).
Proof. unfold GetLogs. solve_requests. Qed.
Lemma loadConfig_requests c filename : requests (E:=E) c 0 (loadConfig filename).
Proof. unfold loadConfig. solve_requests. Qed.
#[local] Hint Resolve Deploy_requests SetConfig_requests GetDeployments_requests GetEvents_requests
  GetConfig_requests GetLogs_requests loadConfig_requests : requests.

Lemma deploy_requests c args : requests (E:=E) c 1 (deploy c args).
Proof. unfold deploy. solve_requests. Qed.
Lemma list_requests c args : requests (E:=E) c 1 (list_deployments c args).
Proof. unfold list_deployments. solve_requests. Qed.
Lemma events_requests c args : requests (E:=E) c 1 (events c args).
Proof. unfold events. solve_requests. Qed.
Lemma config_requests c args : requests (E:=E) c 1 (config c args).
Proof. unfold config. solve_requests. Qed.
Lemma logs_requests c args : requests (E:=E) c 1 (logs c args).
Proof. unfold logs. solve_requests. Qed.

Lemma run_command_requests c command args : requests (E:=E) c 1 (run_command c command args).
Proof.
  unfold run_command.
  repeat case_bool_decide; auto using deploy_requests, list_requests, events_requests, config_requests,
    logs_requests, requests_usage.
Qed.

(** C38: every run of wcloud sends at most one request, to the configured service
    and with the configured token, and returns or exits with status 1: no
    arguments make it panic. *)
Theorem cli_one_request os_Args (w : W) :
  ended (cli_main os_Args w).1 ∧
  ∃ reqs, sent (cli_main os_Args w).2 = sent w ++ reqs ∧ length reqs ≤ 1 ∧
    Forall (from_client (new_client (s_env w))) reqs.
Proof.
  assert (requests (E:=E) (new_client (s_env w)) 1 (_ ← usage; goexit 1 : M W unit)) as Husage
    by solve_requests.
  destruct os_Args as [|name [|command args]]; [apply Husage..|].
  exact (run_command_requests _ _ _ w).
Qed.
End main.

(** ** What the commands do *)

Section flags.

Lemma classify_plain s : HasPrefix s "-" = false → classify_arg s = Plain.
Proof. destruct s as [|[[] [] [] [] [] [] [] []] s]; try done. by destruct s. Qed.

Lemma no_dash_app s t : HasPrefix s "-" = false → HasPrefix (s +:+ String ":" t) "-" = false.
Proof.
  destruct s as [|c s]; [done|]. rewrite append_cons. unfold HasPrefix. cbn [String.prefix].
  destruct (ascii_dec _ _); [|done]. by destruct s.
Qed.

Lemma cut_colon_app a b : free_of ":" a = true → cut_colon (a +:+ String ":" b) = Some (a, b).
Proof.
  induction a as [|c a IH]; [done|]. cbn [free_of]. rewrite andb_true_iff, negb_true_iff.
  intros [Hc Ha]. rewrite append_cons. cbn [cut_colon]. by rewrite Hc, IH.
Qed.

(** The port of a registry goes to the version. *)
Lemma registry_port : cut_colon "registry:5000/app:v1" = Some ("registry", "5000/app:v1").
Proof. done. Qed.

(** [-service] for each of a list. *)
Definition service_args (l : list string) : list string := l ≫= λ s, ["-service"; s].

Definition collected (a : gslice string) (l : list string) : gslice string :=
  foldl (λ a s, ArrayFlags_Set s a) a l.

Lemma Parse_services l rest x :
  Parse deploy_flags (service_args l ++ rest) x =
  Parse deploy_flags rest (MkDeployVars (username x) (collected (services x) l)).
Proof.
  revert x. induction l as [|s l IH]; intros x; [by destruct x|].
  unfold service_args. rewrite bind_cons, <-app_assoc. exact (IH (MkDeployVars _ _)).
Qed.

Lemma elems_collected a l : elems (collected a l) = elems a ++ l.
Proof.
  revert a. induction l as [|s l IH]; intros a; simpl; [by rewrite app_nil_r|].
  rewrite IH. simpl. by rewrite <-app_assoc.
Qed.

(** A duration between the flags is in the range of an int64, and so is its
    negation. *)
Lemma Parse_since args d rest :
  Parse since_flags args default_since = Some (d, rest) → (- max_int64 <= d <= max_int64)%Z.
Proof.
  apply (Parse_invariant since_flags (λ d, - max_int64 <= d <= max_int64)%Z); [|done].
  intros name set v d0 d1 Hf. unfold formal in Hf. cbn [find since_flags fst] in Hf.
  case_bool_decide; [|done]. injection Hf as <-. pose proof (ParseDuration_spec v) as Hv.
  destruct (ParseDuration v); [|done..]. by intros [= <-].
Qed.
End flags.

Section commands.
Context `{!LocalZone} {E : Type} `{!Cloud E}.
Abbreviation W := (Session E).

(** A line more on the standard output. *)
Definition say (s : string) (w : W) : W := MkSession (s_env w) (sent w) (stdout w +:+ s +:+ newline).

Lemma failed_run {A} err (w : W) : failed (A:=A) err w = (Exited 1, say (cloud_text err) w).
Proof. done. Qed.

Lemma zero_time_ok : stamp_ok zero_time.
Proof.
  split; [|done]. rewrite marshal_timestamp. exists (JStr "0001-01-01T00:00:00Z"). vm_compute. reflexivity.
Qed.

(** C8: deploying. [wcloud deploy -service s... -u user image:version] posts one
    deployment, whose JSON the service reads as that image, version, user and
    services, with priority 0 and the zero time; the command succeeds exactly
    on status 204 and otherwise prints why not and exits with status 1. The
    version is what follows the first colon. *)
Theorem deploy_spec c (w : W) l user image version :
  url_error (baseURL c +:+ "/api/deploy/deploy") = None →
  user ≠ "" → HasPrefix image "-" = false → free_of ":" image = true →
  Forall valid (image :: version :: user :: l) →
  ∃ body,
    let req := request_of c "POST" "/api/deploy/deploy" (Some body) in
    (∃ y, Decode (body, None) zero = (y, None) ∧
       y ≡ MkDeployment "" zero_time image version 0 "" user (collected NilSlice l)) ∧
    deploy c (service_args l ++ ["-u"; user; image +:+ ":" +:+ version]) w =
      match answer req w with
      | inr res =>
          if bool_decide (StatusCode res = 204%Z) then (Ret (), after req w)
          else (Exited 1, say ("Error making request: " +:+ Status res) (after req w))
      | inl err => (Exited 1, say (cloud_text err) (after req w))
      end.
Proof.
  intros Hurl Hu Hi Hc Hv. rewrite !Forall_cons in Hv. destruct Hv as (Hvi & Hvv & Hvu & Hvl).
  set (d := MkDeployment _ _ _ _ _ _ _ _).
  destruct (Decode_encode_line deployment_ok d) as (j & Hj & Hy).
  { split; [by repeat constructor|]. split; [exact zero_time_ok|]. split; [done|].
    cbn [IntendedServices d]. by rewrite elems_collected. }
  exists (encode_line j). split; [done|].
  unfold deploy. rewrite Parse_services. cbn [services username].
  change (Parse deploy_flags ["-u"; user; ?a] ?x) with (Parse deploy_flags [a] (MkDeployVars user (services x))).
  change (image +:+ ":" +:+ version) with (image +:+ String ":" version).
  cbn [Parse services]. rewrite classify_plain by (by apply no_dash_app).
  rewrite cut_colon_app by assumption.
  cbn [username services]. rewrite bool_decide_false by done.
  erewrite bind_Ret by reflexivity. fold d.
  unfold Deploy, Encode. rewrite Hj. cbn iota beta. rewrite bind_assoc.
  rewrite (bind_Ret _ _ _ _ _ (exchange_run c "POST" "/api/deploy/deploy" _ w Hurl)).
  destruct (answer _ w) as [err|res]; [reflexivity|]. cbn iota beta.
  destruct (decide (StatusCode res = 204%Z)) as [H204|H204].
  - rewrite bool_decide_false, bool_decide_true by auto. reflexivity.
  - rewrite bool_decide_true, bool_decide_false by auto. reflexivity.
Qed.

Lemma outside_run {A} (f : E → A * E) (w : W) :
  outside f w = (Ret (f (s_env w)).1, MkSession (f (s_env w)).2 (sent w) (stdout w)).
Proof. unfold outside. by destruct (f (s_env w)). Qed.

(** An exchange whose answer leads to no further request *)
Lemma sent_exchange {A} c method path body (k : fallible http_response → M W A) w :
  (∀ r, requests c 0 (k r)) →
  sent ((exchange c method path body ≫= k) w).2 = sent w ++
    match url_error (baseURL c +:+ path) with
    | None => [request_of c method path body]
    | Some _ => []
    end.
Proof.
  intros Hk. destruct (url_error _) as [e|] eqn:Hurl.
  { rewrite (bind_Ret _ _ _ _ _ (exchange_fails c method path body w e Hurl)).
    destruct (Hk (inl (CloudExt e)) w) as (_ & reqs & -> & Hlen & _).
    destruct reqs; [done|simpl in Hlen; lia]. }
  rewrite (bind_Ret _ _ _ _ _ (exchange_run c method path body w Hurl)).
  destruct (Hk (answer (request_of c method path body) w) (after (request_of c method path body) w))
    as (_ & reqs & -> & Hlen & _).
  destruct reqs; [by rewrite app_nil_r|simpl in Hlen; lia].
Qed.

(** Adding a duration, seen in whole seconds. *)
Lemma time_Add_spec t d :
  (Z.abs t.1 <= 2 ^ 62)%Z → (0 <= t.2 < second)%Z → (- max_int64 <= d <= max_int64)%Z →
  time_Unix (time_Add t d) = ((t.1 * second + t.2 + d) / second)%Z.
Proof.
  destruct t as [sec nano]. cbn [fst snd]. intros Hs Hn Hd.
  unfold time_Unix, time_Add, unixToInternal, second, max_int64 in *. cbn [fst snd].
  pose proof (Z.quot_rem' d 1000000000) as Hqr. pose proof (Z.rem_bound_abs d 1000000000 (ltac:(lia))) as Hr.
  set (q := Z.quot d 1000000000) in *. set (r := Z.rem d 1000000000) in *. clearbody q r.
  rewrite (wrap64_id (sec + _ + q)) by (unfold int64, min_int64, max_int64; lia).
  repeat case_bool_decide; cbn [fst]; rewrite ?(wrap64_id (_ + 1)), ?(wrap64_id (_ - 1)), wrap64_id
    by (unfold int64, min_int64, max_int64; lia).
  all: match goal with |- ?Q = (?S / ?b)%Z => apply (Z.div_unique S b Q (S - b * Q)) end; lia.
Qed.

(** C9: the window of [list] and [events]. Both commands ask for the window that
    ends at the second of the clock and starts the duration of [-since] earlier
    (a week by default), rounded down to a second, and send nothing if the base
    URL does not parse; neither the negation nor the
    subtraction overflows, so the start is never more than 2^63 nanoseconds
    away. *)
Theorem since_window c (w : W) args since rest m path :
  (m, path) ∈ [(list_deployments c args, "/api/deploy/deploy"); (events c args, "/api/deploy/event")] →
  Parse since_flags args default_since = Some (since, rest) →
  let t := (wall_clock (s_env w)).1 in
  (Z.abs t.1 <= 2 ^ 62)%Z → (0 <= t.2 < second)%Z →
  let from := ((t.1 * second + t.2 - since) / second)%Z in
  sent (m w).2 = sent w ++
    match url_error (baseURL c +:+ range_path path from t.1) with
    | None => [request_of c "GET" (range_path path from t.1) None]
    | Some _ => []
    end ∧
  (Z.abs (t.1 - from) <= max_int64 / second + 1)%Z ∧
  (Parse since_flags args default_since = Parse since_flags [] default_since → from = t.1 - 604800)%Z.
Proof.
  intros Hm Hp t Ht Hn from. pose proof (Parse_since _ _ _ Hp) as Hd.
  assert (time_Unix (time_Add t (wrap64 (- since))) = from) as Hfrom.
  { rewrite wrap64_id by (unfold int64, min_int64, max_int64 in *; lia).
    rewrite time_Add_spec by (done || lia). done. }
  assert (time_Unix t = t.1) as Hthrough.
  { apply wrap64_id. unfold int64, min_int64, max_int64. lia. }
  split; [|split].
  - rewrite !elem_of_cons, elem_of_nil in Hm. destruct Hm as [[= -> ->]|[[= -> ->]|[]]].
    all: unfold list_deployments, events; rewrite Hp.
    all: rewrite (bind_Ret _ _ _ _ _ (outside_run wall_clock w)); fold t; rewrite Hfrom, Hthrough.
    all: unfold GetDeployments, GetEvents; rewrite bind_assoc, sent_exchange; [done|].
    all: solve_requests.
  - unfold from. pose proof (Z.div_mod (t.1 * second + t.2 - since) second).
    pose proof (Z.mod_pos_bound (t.1 * second + t.2 - since) second).
    change (max_int64 / second)%Z with 9223372036%Z. unfold second, max_int64 in *. lia.
  - intros Hdef. rewrite Hdef in Hp. injection Hp as <- _. unfold from.
    symmetry. apply (Z.div_unique _ _ _ t.2); [left; lia|]. unfold default_since, hour, minute, second. lia.
Qed.

(** C7: a configuration survives the service, if its strings are UTF-8 and the
    URL of the service parses. What [SetConfig] posts, the service
    only has to hand out again with status 200, with anything behind it, and
    [GetConfig] returns the configuration; so does [loadConfig] on a file with
    that text whose name does not end like YAML. *)
Theorem config_roundtrip c conf (w : W) :
  config_ok conf → url_error (baseURL c +:+ "/api/config/deploy") = None →
  ∃ body,
    (SetConfig c conf w).2 = after (request_of c "POST" "/api/config/deploy" (Some body)) w ∧
    (∀ (w' : W) status more e,
       (http_Do (request_of c "GET" "/api/config/deploy" None) (s_env w')).1
         = inr (MkHttpResponse 200 status (body +:+ more, e)) →
       ∃ conf', (GetConfig c w').1 = Ret (inr conf') ∧ conf' ≡ conf) ∧
    (∀ (w' : W) filename more,
       Ext filename ≠ ".yaml" → Ext filename ≠ ".yml" →
       (ioutil_ReadFile filename (s_env w')).1 = inr (body +:+ more) →
       ∃ conf', (loadConfig filename w').1 = Ret (inr conf') ∧ conf' ≡ conf).
Proof.
  intros Hok Hurl. destruct (marshal_good conf Hok) as (j & Hj & Hn & Hs).
  destruct (unmarshal_marshal conf j Hok Hj) as (y & Hy & Heq).
  assert (∀ more e, Decode_body (encode_line j +:+ more, e) = inr y) as Hdec.
  { intros more e. unfold Decode_body, Decode. by rewrite readValue_encode_line, Hy. }
  exists (encode_line j). split; [|split].
  - unfold SetConfig, Encode. rewrite Hj. cbn iota beta.
    rewrite (bind_Ret _ _ _ _ _ (exchange_run _ _ _ _ _ Hurl)). by repeat case_match.
  - intros w' status more e Hdo. exists y. split; [|done]. unfold GetConfig.
    rewrite (bind_Ret _ _ _ _ _ (exchange_run _ _ _ _ _ Hurl)). unfold answer. rewrite Hdo.
    cbn iota beta. cbn [StatusCode ResponseBody]. rewrite !bool_decide_false by done. by rewrite Hdec.
  - intros w' filename more H1 H2 Hread. exists y. split; [|done]. unfold loadConfig.
    rewrite (bind_Ret _ _ _ _ _ (outside_run _ _)), Hread.
    rewrite bool_decide_false by (by intros []). by rewrite Hdec.
Qed.

(** C33: the table of [list]. When the one request of the command has a URL that
    parses and is answered with status 200 and the JSON of deployments (with
    strings that are UTF-8, times that JSON can carry and priorities of 64
    bits), the command prints one row for each of them, in the order of the
    service, with the identifier, image, version and state as the service has
    them and the creation time at the same instant and offset. *)
Theorem list_table c (w : W) args since rest ds j status :
  Parse since_flags args default_since = Some (since, rest) →
  Forall deployment_ok (elems ds) → marshal ds = Some j →
  let '(t, e) := wall_clock (s_env w) in
  let path := range_path "/api/deploy/deploy"
                (time_Unix (time_Add t (wrap64 (- since)))) (time_Unix t) in
  url_error (baseURL c +:+ path) = None →
  (http_Do (request_of c "GET" path None) e).1
     = inr (MkHttpResponse 200 status (encode_line (JObj [("deployments", j)]), None)) →
  ∃ ds' : list Deployment, ds' ≡ elems ds ∧
    (list_deployments c args w).1 = Ret () ∧
    stdout (list_deployments c args w).2 =
      stdout w +:+ tablewriter_Render table_header (table_row <$> ds').
Proof.
  intros Hp Hok Hj. destruct (wall_clock (s_env w)) as [t e] eqn:Hclock. intros path Hurl Hdo.
  destruct (marshal_good ds Hok) as (j' & Hj' & Hn & Hs). simplify_eq.
  destruct (unmarshal_marshal ds j Hok Hj) as (y & Hy & Heq).
  exists (elems y). split; [by apply elems_proper|].
  unfold list_deployments. rewrite Hp, (bind_Ret _ _ _ _ _ (outside_run _ _)), Hclock. cbv zeta.
  unfold GetDeployments. rewrite bind_assoc, (bind_Ret _ _ _ _ _ (exchange_run _ _ _ _ _ Hurl)).
  unfold answer. cbn [s_env fst snd]. fold path. rewrite Hdo. cbn iota beta.
  cbn [StatusCode ResponseBody]. rewrite bool_decide_false by lia. rewrite <-(append_nil_r (encode_line _)), readValue_encode_line.
  - unfold deployments_response. store_members. split; reflexivity.
  - by apply numbers_ok_obj; repeat constructor.
  - apply strings_ok_obj. constructor; [|done]. split; [by apply ascii_only_valid; vm_compute|done].
Qed.
End commands.

(** ** Witnesses *)

(** A user with two services. *)
Lemma deploy_spec_witness :
  ∃ body,
    deploy someone ["-service"; "authfe"; "-service"; "users"; "-u"; "ann"; "quay.io/app:v2:beta"]
      (service None None) =
    (Ret (), after (request_of someone "POST" "/api/deploy/deploy" (Some body)) (service None None)).
Proof.
  destruct (deploy_spec someone (service None None) ["authfe"; "users"] "ann" "quay.io/app" "v2:beta")
    as (body & _ & Hrun); 
    [done|done|done|done|apply ascii_only_Forall; vm_compute; reflexivity|].
  exists body. exact Hrun.
Defined.

Lemma since_window_witness :
  sent (events someone ["-since"; "90m"] (service None (Some unavailable))).2 =
    [request_of someone "GET" "/api/deploy/event?from=1491294600&through=1491300000" None].
Proof.
  destruct (since_window someone (service None (Some unavailable)) ["-since"; "90m"] (90 * minute) []
    (events someone ["-since"; "90m"]) "/api/deploy/event") as [Hsent _].
  - by apply list_elem_of_further, list_elem_of_here.
  - vm_compute. reflexivity.
  - done.
  - done.
  - exact Hsent.
Defined.

Definition example_config : Config :=
  MkConfig "git@example.org:conf" "master" "k8s" "" "" true
    (of_list [MkNotificationConfig "https://hooks" "deployer" "" ""]) NilSlice "".

Lemma config_roundtrip_witness :
  ∃ conf, (GetConfig someone (SetConfig someone example_config (service None None)).2).1 = Ret (inr conf) ∧
    conf ≡ example_config.
Proof.
  destruct (config_roundtrip someone example_config (service None None)) as (body & Hset & Hget & _).
  - split; [apply ascii_only_Forall; vm_compute; reflexivity|]. split; [|by apply Forall_nil].
    constructor; [|by apply Forall_nil].
    repeat split; apply ascii_only_valid; vm_compute; reflexivity.
  - done.
  - rewrite Hset. destruct (Hget (after (request_of someone "POST" "/api/config/deploy" (Some body))
      (service None None)) "200 OK" "" None) as (conf & Hc & Heq).
    + by rewrite append_nil_r.
    + by exists conf.
Defined.

(** One deployment of the 4th of April 2017, as the service has it. *)
Definition example_deployment : Deployment :=
  MkDeployment "42" (MkStamp 1491264000 500000000 (Fixed 19800)) "quay.io/app" "v2" 0 "success" "ann"
    (of_list ["authfe"]).

Definition example_body : json :=
  JArr [JObj [("id", JStr "42"); ("created_at", JStr "2017-04-04T05:30:00.5+05:30");
    ("image_name", JStr "quay.io/app"); ("version", JStr "v2"); ("priority", JNum "0");
    ("status", JStr "success"); ("triggering_user", JStr "ann");
    ("intended_services", JArr [JStr "authfe"])]].

Definition example_answer : http_response :=
  MkHttpResponse 200 "200 OK" (encode_line (JObj [("deployments", example_body)]), None).

Lemma list_table_witness :
  ∃ ds', ds' ≡ [example_deployment] ∧
    stdout (list_deployments someone ["-since=1h"] (service None (Some example_answer))).2 =
    tablewriter_Render table_header (table_row <$> ds').
Proof.
  destruct (list_table someone (service None (Some example_answer)) ["-since=1h"] hour [] (of_list [example_deployment]) example_body "200 OK")
    as (ds' & Heq & _ & Hout).
  - vm_compute. reflexivity.
  - constructor; [|by apply Forall_nil]. split; [apply ascii_only_Forall; vm_compute; reflexivity|].
    split; [|split; [done|apply ascii_only_Forall; vm_compute; reflexivity]].
    split; [|done]. rewrite marshal_timestamp. eexists. vm_compute. reflexivity.
  - vm_compute. reflexivity.
  - done.
  - done.
  - exists ds'. split; [exact Heq|]. exact Hout.
Defined.
