(* ===== verification/Cover.v ===== *)
(** * The coverage merger ([src/tools/cover/cover.go])

    The tool reads coverage profiles and prints their sum: profiles of the same
    source file are merged block by block. [Profile] and [ProfileBlock] are the
    records of the [cover] package the tool is built on, which also parses the
    files: its parser is a parameter here. Pointers to profiles are never
    written through, so a profile is a value. *)

From S2P Require Import Prelude Go Strs Nums Env.

Record ProfileBlock : Set := MkBlock {
  StartLine : Z; StartCol : Z; EndLine : Z; EndCol : Z; NumStmt : Z; Count : Z
}.

Record Profile : Set := MkProfile {
  FileName : string; Mode : string; Blocks : list ProfileBlock
}.

#[export] Instance ProfileBlock_eq_dec : EqDecision ProfileBlock.
Proof. solve_decision. Defined.

(** ** The code *)

(** The tests of the loop of [merge]. *)
Definition same_start (bi bj : ProfileBlock) : bool :=
  bool_decide (StartLine bi = StartLine bj ∧ StartCol bi = StartCol bj).

Definition same_rest (bi bj : ProfileBlock) : bool :=
  bool_decide (EndLine bi = EndLine bj ∧ EndCol bi = EndCol bj ∧ NumStmt bi = NumStmt bj).

Definition starts_before (bi bj : ProfileBlock) : bool :=
  (StartLine bi <? StartLine bj)%Z ||
  ((StartLine bi =? StartLine bj)%Z && (StartCol bi <? StartCol bj)%Z).

Definition add_counts (bi bj : ProfileBlock) : ProfileBlock := {|
  StartLine := StartLine bi; StartCol := StartCol bi;
  EndLine := EndLine bi; EndCol := EndCol bi; NumStmt := NumStmt bi;
  Count := int_add (Count bi) (Count bj)
|}.

(** The loops of [merge], on what is left of the two lists of blocks; [None] is
    the panic "Not run on same source!". *)
Fixpoint merge_blocks (p1 : list ProfileBlock) : list ProfileBlock → option (list ProfileBlock) :=
  fix inner (p2 : list ProfileBlock) : option (list ProfileBlock) :=
    match p1, p2 with
    | bi :: p1', bj :: p2' =>
        if same_start bi bj then
          if same_rest bi bj then cons (add_counts bi bj) <$> merge_blocks p1' p2'
          else None
        else if starts_before bi bj then cons bi <$> merge_blocks p1' p2
        else cons bj <$> inner p2'
    | _ :: _, [] => Some p1
    | [], _ => Some p2
    end.

Definition merge {S} (p1 p2 : Profile) : M S Profile :=
  blocks ← or_panic PanicString (merge_blocks (Blocks p1) (Blocks p2));
  mret {| FileName := FileName p1; Mode := Mode p1; Blocks := blocks |}.

(** Standard output, a list of lines. *)
Abbreviation Stdout := (list string).

Definition Println (s : string) : M Stdout unit := modify (λ out, out ++ [s]).

Definition block_line (name : string) (block : ProfileBlock) : string :=
  name +:+ ":" +:+ Itoa (StartLine block) +:+ "." +:+ Itoa (StartCol block) +:+ "," +:+
  Itoa (EndLine block) +:+ "." +:+ Itoa (EndCol block) +:+ " " +:+
  Itoa (NumStmt block) +:+ " " +:+ Itoa (Count block).

Definition print (profiles : list Profile) : M Stdout unit :=
  _ ← Println "mode: atomic";
  for_range profiles (λ profile,
    for_range (Blocks profile) (λ block, Println (block_line (FileName profile) block))).

(** [sort.Sort(byFileName(profiles))]: [not Less(q, p)] is the order. *)
Definition byFileName_le (p q : Profile) : Prop := ¬ (String.ltb (FileName q) (FileName p) = true).
#[export] Instance byFileName_le_dec p q : Decision (byFileName_le p q).
Proof. unfold byFileName_le. apply _. Defined.

Definition sort_byFileName (profiles : list Profile) : list Profile :=
  merge_sort byFileName_le profiles.

Section main.
(** [cover.ParseProfiles], and the order in which Go enumerates the map. *)
Variable ParseProfiles : string → ext_error + list Profile.
Variable range_profiles : gmap string Profile → list (string * Profile).

(** One iteration of the inner loop; the map is the local [outputProfiles]. *)
Definition add_profile (ip : Profile) : M (Stdout * gmap string Profile) unit :=
  s ← get;
  match s.2 !! FileName ip with
  | None => modify (λ s, (s.1, <[FileName ip := ip]> s.2))
  | Some op =>
      p ← merge op ip;
      modify (λ s, (s.1, <[FileName ip := p]> s.2))
  end.

Definition add_input (input : string) : M (Stdout * gmap string Profile) unit :=
  match ParseProfiles input with
  | inl _ => gopanic PanicString
  | inr inputProfiles => for_range inputProfiles add_profile
  end.

Definition main (args : list string) : M Stdout unit :=
  r ← with_local ∅ (for_range args add_input);
  let profiles := snd <$> range_profiles r.2 in
  print (sort_byFileName profiles).
End main.

(** ** Merging is addition of partial maps *)

Abbreviation position := (Z * Z)%type.
Definition start (b : ProfileBlock) : position := (StartLine b, StartCol b).

(** The blocks of a profile as a map from start positions. *)
Definition blocks_map (l : list ProfileBlock) : gmap position ProfileBlock :=
  list_to_map ((λ b, (start b, b)) <$> l).

Definition before (b1 b2 : ProfileBlock) : Prop := starts_before b1 b2 = true.

(** What the parser yields: blocks in the order of their start positions, one
    block a position. *)
Abbreviation block_sorted := (StronglySorted before).

(** Two profiles are of the same source: they agree on every block they share. *)
Definition compatible (m1 m2 : gmap position ProfileBlock) : Prop :=
  map_relation (λ _ b1 b2, same_rest b1 b2 = true) (λ _ _, True) (λ _ _, True) m1 m2.

Definition sum_blocks (m1 m2 : gmap position ProfileBlock) : gmap position ProfileBlock :=
  union_with (λ b1 b2, Some (add_counts b1 b2)) m1 m2.

Section order.
Implicit Types (b : ProfileBlock) (l : list ProfileBlock).

Lemma before_spec b1 b2 :
  before b1 b2 ↔ (StartLine b1 < StartLine b2)%Z ∨
    (StartLine b1 = StartLine b2 ∧ (StartCol b1 < StartCol b2)%Z).
Proof. unfold before, starts_before. lia. Qed.

#[global] Instance before_trans : Transitive before.
Proof. intros b1 b2 b3. rewrite !before_spec. lia. Qed.

Lemma before_irrefl b1 b2 : start b1 = start b2 → ¬ before b1 b2.
Proof. unfold start. intros [= H1 H2]. rewrite before_spec. lia. Qed.

Lemma same_start_spec b1 b2 : same_start b1 b2 = true ↔ start b1 = start b2.
Proof.
  unfold same_start, start. rewrite bool_decide_eq_true. split; [by intros [-> ->]|by intros [= -> ->]].
Qed.

Lemma starts_total b1 b2 : start b1 = start b2 ∨ before b1 b2 ∨ before b2 b1.
Proof.
  rewrite !before_spec. unfold start.
  destruct (decide (StartLine b1 = StartLine b2)), (decide (StartCol b1 = StartCol b2));
    [left; congruence|lia..].
Qed.

Lemma same_rest_spec b1 b2 :
  same_rest b1 b2 = true ↔ EndLine b1 = EndLine b2 ∧ EndCol b1 = EndCol b2 ∧ NumStmt b1 = NumStmt b2.
Proof. apply bool_decide_eq_true. Qed.

Lemma blocks_map_cons b l : blocks_map (b :: l) = <[start b := b]> (blocks_map l).
Proof. done. Qed.

Lemma blocks_map_start l k b : blocks_map l !! k = Some b → b ∈ l ∧ k = start b.
Proof.
  intros H%elem_of_list_to_map_2. apply list_elem_of_fmap in H as (b' & [= -> ->] & ?). done.
Qed.

(** A position before every block of a list is not in its map. *)
Lemma blocks_map_None b l k : Forall (before b) l → k = start b → blocks_map l !! k = None.
Proof.
  intros Hl ->. destruct (blocks_map l !! start b) as [b'|] eqn:Hb; [|done].
  apply blocks_map_start in Hb as [Hin Heq]. rewrite Forall_forall in Hl.
  by destruct (before_irrefl b b' Heq (Hl _ Hin)).
Qed.

Lemma elem_of_blocks_map l b : block_sorted l → b ∈ l ↔ blocks_map l !! start b = Some b.
Proof.
  intros Hs. split; [|by intros [??]%blocks_map_start].
  induction Hs as [|b' l Hs IH Hall]; [by rewrite elem_of_nil|].
  rewrite elem_of_cons, blocks_map_cons. intros [->|Hin]; [by rewrite lookup_insert_eq|].
  rewrite lookup_insert_ne; [by apply IH|]. intros Heq. rewrite Forall_forall in Hall.
  by destruct (before_irrefl b' b Heq (Hall b Hin)).
Qed.

(** A sorted list of blocks is determined by its map. *)
Lemma blocks_map_inj l l' :
  block_sorted l → block_sorted l' → blocks_map l = blocks_map l' → l = l'.
Proof.
  intros Hl Hl' Hm.
  assert (∀ l, block_sorted l → NoDup l) as Hnd.
  { intros k Hk. induction Hk as [|b k Hk IH Hall]; constructor; [|done].
    intros Hin. rewrite Forall_forall in Hall. by destruct (before_irrefl b b eq_refl (Hall b Hin)). }
  apply (StronglySorted_unique_strong before); [|done|done|].
  - intros b1 b2 _ _ H12 H21. rewrite before_spec in *. lia.
  - apply NoDup_Permutation; [by apply Hnd..|]. intros b.
    by rewrite !elem_of_blocks_map, Hm by done.
Qed.
End order.

Section merging.
Implicit Types (b : ProfileBlock) (l : list ProfileBlock) (m : gmap position ProfileBlock).

Lemma start_add_counts b1 b2 : start (add_counts b1 b2) = start b1.
Proof. done. Qed.

Lemma before_add_counts b1 b2 b : before (add_counts b1 b2) b ↔ before b1 b.
Proof. by rewrite !before_spec. Qed.

(** Unfolding of one iteration. *)
Lemma merge_blocks_cons b1 l1 b2 l2 :
  merge_blocks (b1 :: l1) (b2 :: l2) =
    if same_start b1 b2 then
      if same_rest b1 b2 then cons (add_counts b1 b2) <$> merge_blocks l1 l2 else None
    else if starts_before b1 b2 then cons b1 <$> merge_blocks l1 (b2 :: l2)
    else cons b2 <$> merge_blocks (b1 :: l1) l2.
Proof. done. Qed.
Lemma merge_blocks_nil_l l2 : merge_blocks [] l2 = Some l2.
Proof. by destruct l2. Qed.
Lemma merge_blocks_nil_r l1 : merge_blocks l1 [] = Some l1.
Proof. by destruct l1. Qed.

(** Adding a block below everything else, on either side or on both. *)
Lemma sum_blocks_insert_l b m1 m2 :
  m2 !! start b = None → sum_blocks (<[start b := b]> m1) m2 = <[start b := b]> (sum_blocks m1 m2).
Proof.
  intros H2. apply map_eq. intros k. unfold sum_blocks. rewrite lookup_union_with.
  destruct (decide (k = start b)) as [->|]; [by rewrite !lookup_insert_eq, H2|].
  by rewrite !lookup_insert_ne, lookup_union_with by done.
Qed.
Lemma sum_blocks_insert_r b m1 m2 :
  m1 !! start b = None → sum_blocks m1 (<[start b := b]> m2) = <[start b := b]> (sum_blocks m1 m2).
Proof.
  intros H1. apply map_eq. intros k. unfold sum_blocks. rewrite lookup_union_with.
  destruct (decide (k = start b)) as [->|]; [by rewrite !lookup_insert_eq, H1|].
  by rewrite !lookup_insert_ne, lookup_union_with by done.
Qed.
Lemma sum_blocks_insert b1 b2 m1 m2 :
  start b1 = start b2 →
  sum_blocks (<[start b1 := b1]> m1) (<[start b2 := b2]> m2) =
    <[start b1 := add_counts b1 b2]> (sum_blocks m1 m2).
Proof.
  intros Heq. apply map_eq. intros k. unfold sum_blocks. rewrite lookup_union_with, <-Heq.
  destruct (decide (k = start b1)) as [->|]; [by rewrite !lookup_insert_eq|].
  by rewrite !lookup_insert_ne, lookup_union_with by done.
Qed.

Lemma compatible_lookup m1 m2 :
  compatible m1 m2 ↔
    ∀ k b1 b2, m1 !! k = Some b1 → m2 !! k = Some b2 → same_rest b1 b2 = true.
Proof.
  unfold compatible, map_relation. split; intros H k; specialize (H k).
  - intros b1 b2 H1 H2. by rewrite H1, H2 in H.
  - destruct (m1 !! k), (m2 !! k); simpl; eauto.
Qed.

Lemma compatible_insert_l b m1 m2 :
  m1 !! start b = None → m2 !! start b = None →
  compatible (<[start b := b]> m1) m2 ↔ compatible m1 m2.
Proof.
  rewrite !compatible_lookup. intros H1 H2. split; intros H k b1 b2 Hb1 Hb2.
  - apply (H k b1 b2); [|done]. rewrite lookup_insert_ne; [done|]. by intros <-; congruence.
  - rewrite lookup_insert_Some in Hb1. destruct Hb1 as [[<- _]|[_ ?]]; [congruence|eauto].
Qed.
Lemma compatible_sym m1 m2 : compatible m1 m2 ↔ compatible m2 m1.
Proof.
  rewrite !compatible_lookup. split; intros H k b1 b2 H1 H2;
    specialize (H k b2 b1 H2 H1); rewrite same_rest_spec in *; intuition.
Qed.
Lemma compatible_insert b1 b2 m1 m2 :
  start b1 = start b2 → m1 !! start b1 = None → m2 !! start b1 = None →
  compatible (<[start b1 := b1]> m1) (<[start b2 := b2]> m2) ↔
    same_rest b1 b2 = true ∧ compatible m1 m2.
Proof.
  rewrite !compatible_lookup. intros Heq H1 H2. rewrite <-Heq. split.
  - intros H. split; [apply (H (start b1)); by rewrite lookup_insert_eq|].
    intros k c1 c2 Hc1 Hc2. apply (H k c1 c2); rewrite lookup_insert_ne; try done; by intros <-; congruence.
  - intros [Hr H] k c1 c2 Hc1 Hc2. rewrite lookup_insert_Some in Hc1, Hc2.
    destruct Hc1 as [[<- <-]|[? ?]], Hc2 as [[? <-]|[? ?]]; eauto; congruence.
Qed.
End merging.

(** ** What [merge] computes *)

(** The result of merging the blocks [l1] and [l2]. *)
Definition merged (l1 l2 : list ProfileBlock) (r : option (list ProfileBlock)) : Prop :=
  match r with
  | Some l => compatible (blocks_map l1) (blocks_map l2) ∧ block_sorted l ∧
              blocks_map l = sum_blocks (blocks_map l1) (blocks_map l2)
  | None => ¬ compatible (blocks_map l1) (blocks_map l2)
  end.

Section merge_theory.
Implicit Types (b : ProfileBlock) (l : list ProfileBlock).

Lemma before_start b c c' : start c = start c' → before b c → before b c'.
Proof. unfold start. intros [= H1 H2]. rewrite !before_spec. lia. Qed.

(** Every block of the output starts where a block of an input does. *)
Lemma merged_before b l1 l2 l :
  merged l1 l2 (Some l) → Forall (before b) l1 → Forall (before b) l2 → Forall (before b) l.
Proof.
  intros (_ & Hs & Hm) H1 H2. rewrite Forall_forall in *. intros c Hc.
  rewrite elem_of_blocks_map, Hm in Hc by done. unfold sum_blocks in Hc.
  rewrite lookup_union_with in Hc.
  destruct (blocks_map l1 !! start c) as [c'|] eqn:Hc1.
  - apply blocks_map_start in Hc1 as [??]. by eapply before_start; [|eauto].
  - destruct (blocks_map l2 !! start c) as [c'|] eqn:Hc2; [|done].
    apply blocks_map_start in Hc2 as [??]. by eapply before_start; [|eauto].
Qed.

(** The three cases of an iteration. *)
Lemma merged_both b1 b2 l1 l2 r :
  Forall (before b1) l1 → Forall (before b2) l2 → start b1 = start b2 →
  merged l1 l2 r →
  merged (b1 :: l1) (b2 :: l2) (if same_rest b1 b2 then cons (add_counts b1 b2) <$> r else None).
Proof.
  intros H1 H2 Hst Hr.
  assert (blocks_map l1 !! start b1 = None) as Hn1 by by eapply blocks_map_None.
  assert (blocks_map l2 !! start b1 = None) as Hn2 by by eapply blocks_map_None.
  pose proof (compatible_insert b1 b2 _ _ Hst Hn1 Hn2) as Hc.
  rewrite <-!blocks_map_cons in Hc.
  destruct (same_rest b1 b2); simpl; [|by rewrite Hc; intros []].
  destruct r as [l|]; simpl; [|by rewrite Hc; intros []].
  destruct Hr as (Hcl & Hs & Hm). split_and!; [by apply Hc|apply StronglySorted_cons; split; [|done]|].
  - apply (merged_before _ l1 l2 l); [done|..]; (eapply Forall_impl; [done|]); intros c;
      unfold start in Hst; simplify_eq; rewrite !before_spec; simpl; lia.
  - rewrite !blocks_map_cons, Hm. exact (eq_sym (sum_blocks_insert b1 b2 _ _ Hst)).
Qed.

Lemma merged_left b l1 l2 r :
  Forall (before b) l1 → Forall (before b) l2 →
  merged l1 l2 r → merged (b :: l1) l2 (cons b <$> r).
Proof.
  intros H1 H2 Hr.
  assert (blocks_map l1 !! start b = None) as Hn1 by by eapply blocks_map_None.
  assert (blocks_map l2 !! start b = None) as Hn2 by by eapply blocks_map_None.
  pose proof (compatible_insert_l b _ _ Hn1 Hn2) as Hc. rewrite <-blocks_map_cons in Hc.
  destruct r as [l|]; simpl; [|by rewrite Hc].
  destruct Hr as (Hcl & Hs & Hm). split_and!; [by apply Hc|apply StronglySorted_cons; split; [|done]|].
  - by apply (merged_before _ l1 l2 l).
  - rewrite !blocks_map_cons, Hm. symmetry. by apply sum_blocks_insert_l.
Qed.

Lemma merged_right b l1 l2 r :
  Forall (before b) l1 → Forall (before b) l2 →
  merged l1 l2 r → merged l1 (b :: l2) (cons b <$> r).
Proof.
  intros H1 H2 Hr.
  assert (blocks_map l1 !! start b = None) as Hn1 by by eapply blocks_map_None.
  assert (blocks_map l2 !! start b = None) as Hn2 by by eapply blocks_map_None.
  pose proof (compatible_insert_l b _ _ Hn2 Hn1) as Hc.
  rewrite <-blocks_map_cons, !(compatible_sym _ (blocks_map l1)) in Hc.
  destruct r as [l|]; simpl; [|by rewrite Hc].
  destruct Hr as (Hcl & Hs & Hm). split_and!; [by apply Hc|apply StronglySorted_cons; split; [|done]|].
  - by apply (merged_before _ l1 l2 l).
  - rewrite !blocks_map_cons, Hm. symmetry. by apply sum_blocks_insert_r.
Qed.

Lemma merge_blocks_run l1 : ∀ l2,
  block_sorted l1 → block_sorted l2 → merged l1 l2 (merge_blocks l1 l2).
Proof.
  induction l1 as [|b1 l1 IH1]; intros l2 Hs1.
  { intros Hs2. rewrite merge_blocks_nil_l. split_and!; [|done|].
    - apply compatible_lookup. intros k c1 c2 Hc. change (blocks_map []) with (∅ : gmap position ProfileBlock) in Hc.
      by rewrite lookup_empty in Hc.
    - exact (eq_sym (left_id_L ∅ (union_with _) (blocks_map l2))). }
  induction l2 as [|b2 l2 IH2]; intros Hs2.
  { rewrite merge_blocks_nil_r. split_and!; [|done|].
    - apply compatible_lookup. intros k c1 c2 _ Hc. change (blocks_map []) with (∅ : gmap position ProfileBlock) in Hc.
      by rewrite lookup_empty in Hc.
    - exact (eq_sym (right_id_L ∅ (union_with _) (blocks_map (b1 :: l1)))). }
  pose proof Hs1 as [Hl1 H1]%StronglySorted_inv. pose proof Hs2 as [Hl2 H2]%StronglySorted_inv.
  rewrite merge_blocks_cons. destruct (same_start b1 b2) eqn:Hst.
  - apply same_start_spec in Hst. apply merged_both; auto.
  - assert (start b1 ≠ start b2) as Hne by (by rewrite <-same_start_spec, Hst).
    destruct (starts_before b1 b2) eqn:Hb.
    + apply merged_left; auto. constructor; [done|].
      eapply Forall_impl; [done|]. intros c. by apply transitivity.
    + assert (before b2 b1) as Hb21.
      { destruct (starts_total b1 b2) as [?|[Hb12|?]]; [done| |done].
        unfold before in Hb12. congruence. }
      apply merged_right; auto. constructor; [done|].
      eapply Forall_impl; [done|]. intros c. by apply transitivity.
Qed.

(** The conditions determine the result. *)
Lemma merged_unique l1 l2 r r' : merged l1 l2 r → merged l1 l2 r' → r = r'.
Proof.
  destruct r as [l|], r' as [l'|]; simpl; try tauto.
  intros (_ & ? & Hm) (_ & ? & Hm'). f_equal. apply blocks_map_inj; congruence.
Qed.

Lemma sum_blocks_comm l1 l2 :
  compatible (blocks_map l1) (blocks_map l2) →
  sum_blocks (blocks_map l1) (blocks_map l2) = sum_blocks (blocks_map l2) (blocks_map l1).
Proof.
  rewrite compatible_lookup. intros Hc. apply map_eq. intros k. unfold sum_blocks.
  rewrite !lookup_union_with. specialize (Hc k).
  destruct (blocks_map l1 !! k) as [b1|] eqn:H1, (blocks_map l2 !! k) as [b2|] eqn:H2; simpl; try done.
  specialize (Hc b1 b2 eq_refl eq_refl). rewrite same_rest_spec in Hc.
  apply blocks_map_start in H1 as [_ ->], H2 as [_ Hst]. unfold start in Hst.
  destruct b1, b2, Hc as (? & ? & ?). simpl in *. simplify_eq.
  unfold add_counts. simpl. by rewrite int_add_comm.
Qed.

Lemma compatible_sum m1 m2 m3 :
  compatible m1 m2 → compatible (sum_blocks m1 m2) m3 ↔ compatible m1 m3 ∧ compatible m2 m3.
Proof.
  rewrite !compatible_lookup. intros Hc. unfold sum_blocks. split.
  - intros H. split; intros k b b3 Hb Hb3; specialize (H k); rewrite lookup_union_with, Hb in H.
    + destruct (m2 !! k) as [b2|] eqn:Hk; exact (H _ b3 eq_refl Hb3).
    + destruct (m1 !! k) as [b1|] eqn:Hk; [|exact (H _ b3 eq_refl Hb3)].
      specialize (Hc k b1 b Hk Hb). specialize (H _ b3 eq_refl Hb3).
      rewrite same_rest_spec in *. simpl in *. intuition congruence.
  - intros [H1 H2] k b b3 Hb Hb3. rewrite lookup_union_with in Hb.
    destruct (m1 !! k) as [b1|] eqn:Hk1, (m2 !! k) as [b2|] eqn:Hk2; simplify_eq/=; [|eauto..].
    specialize (H1 k b1 b3 Hk1 Hb3). done.
Qed.

Lemma sum_blocks_assoc m1 m2 m3 :
  sum_blocks (sum_blocks m1 m2) m3 = sum_blocks m1 (sum_blocks m2 m3).
Proof.
  apply map_eq. intros k. unfold sum_blocks. rewrite !lookup_union_with.
  destruct (m1 !! k), (m2 !! k), (m3 !! k); simpl; try done.
  unfold add_counts. simpl. by rewrite int_add_assoc.
Qed.

Lemma merge_blocks_comm l1 l2 :
  block_sorted l1 → block_sorted l2 → merge_blocks l1 l2 = merge_blocks l2 l1.
Proof.
  intros Hs1 Hs2. apply (merged_unique l1 l2); [by apply merge_blocks_run|].
  pose proof (merge_blocks_run l2 l1 Hs2 Hs1) as Hr. unfold merged in *.
  destruct (merge_blocks l2 l1) as [l|]; [|by rewrite compatible_sym].
  destruct Hr as (Hc & ? & Hm). rewrite compatible_sym, <-(sum_blocks_comm _ _ Hc). done.
Qed.

Lemma merge_blocks_assoc l1 l2 l3 :
  block_sorted l1 → block_sorted l2 → block_sorted l3 →
  merge_blocks l1 l2 ≫= (λ l, merge_blocks l l3) = merge_blocks l2 l3 ≫= merge_blocks l1.
Proof.
  intros Hs1 Hs2 Hs3.
  pose proof (merge_blocks_run l1 l2 Hs1 Hs2) as H12.
  pose proof (merge_blocks_run l2 l3 Hs2 Hs3) as H23.
  destruct (merge_blocks l1 l2) as [l|], (merge_blocks l2 l3) as [l'|]; simpl in *.
  - destruct H12 as (Hc12 & Hs & Hm), H23 as (Hc23 & Hs' & Hm').
    apply (merged_unique l l3); [by apply merge_blocks_run|].
    pose proof (merge_blocks_run l1 l' Hs1 Hs') as Hr.
    assert (compatible (blocks_map l1) (blocks_map l') ↔ compatible (blocks_map l) (blocks_map l3)) as Heq.
    { rewrite Hm, Hm', (compatible_sym _ (sum_blocks _ _)), !compatible_sum by done.
      pose proof (compatible_sym (blocks_map l2) (blocks_map l1)).
      pose proof (compatible_sym (blocks_map l3) (blocks_map l1)). tauto. }
    unfold merged in *. destruct (merge_blocks l1 l') as [k|]; [|by rewrite <-Heq].
    rewrite Heq in Hr. destruct Hr as (? & ? & Hk). split_and!; [done..|].
    by rewrite Hk, Hm, Hm', sum_blocks_assoc.
  - destruct H12 as (Hc12 & Hs & Hm). pose proof (merge_blocks_run l l3 Hs Hs3) as Hr.
    destruct (merge_blocks l l3) as [k|]; [|done]. destruct Hr as (Hc & _).
    rewrite Hm, compatible_sum in Hc by done. tauto.
  - destruct H23 as (Hc23 & Hs & Hm). pose proof (merge_blocks_run l1 l' Hs1 Hs) as Hr.
    destruct (merge_blocks l1 l') as [k|]; [|done]. destruct Hr as (Hc & _).
    rewrite Hm, compatible_sym, compatible_sum in Hc by done.
    destruct H12. rewrite compatible_sym. tauto.
  - done.
Qed.
End merge_theory.

Section merge_claims.
Context {S : Type}.
Implicit Types (p : Profile) (s : S).

(** C17: on profiles as the parser yields them [merge] gives the blocks of either
    profile in the order of their positions, with the counts (64-bit integers)
    of the blocks in both added up, under the name and mode of the first; it
    panics exactly when the profiles disagree about a block. *)
Theorem merge_spec p1 p2 s :
  block_sorted (Blocks p1) → block_sorted (Blocks p2) →
  let m1 := blocks_map (Blocks p1) in let m2 := blocks_map (Blocks p2) in
  (compatible m1 m2 ∧ ∃ bs,
    merge p1 p2 s = (Ret {| FileName := FileName p1; Mode := Mode p1; Blocks := bs |}, s) ∧
    block_sorted bs ∧
    ∀ k, blocks_map bs !! k =
      match m1 !! k, m2 !! k with
      | Some b1, Some b2 => Some (add_counts b1 b2)
      | Some b, None | None, Some b => Some b
      | None, None => None
      end) ∨
  (¬ compatible m1 m2 ∧ merge p1 p2 s = (Panicked PanicString, s)).
Proof.
  intros Hs1 Hs2. cbv zeta. pose proof (merge_blocks_run _ _ Hs1 Hs2) as Hr.
  unfold merge. destruct (merge_blocks (Blocks p1) (Blocks p2)) as [bs|]; [left|by right].
  destruct Hr as (Hc & Hs & Hm). split; [done|]. exists bs. split_and!; [done..|].
  intros k. rewrite Hm. unfold sum_blocks. rewrite lookup_union_with.
  by destruct (_ !! k), (_ !! k).
Qed.

(** C39: the order in which profiles are merged does not show: merging is
    commutative on profiles of the same file and mode, and associative, the
    panics included. *)
Theorem merge_comm_assoc p1 p2 p3 s :
  block_sorted (Blocks p1) → block_sorted (Blocks p2) → block_sorted (Blocks p3) →
  (merge p1 p2 ≫= λ p, merge p p3) s = (merge p2 p3 ≫= merge p1) s ∧
  (FileName p1 = FileName p2 → Mode p1 = Mode p2 → merge p1 p2 s = merge p2 p1 s).
Proof.
  intros Hs1 Hs2 Hs3. split.
  - pose proof (merge_blocks_assoc (Blocks p1) (Blocks p2) (Blocks p3) Hs1 Hs2 Hs3) as Ha.
    unfold merge, mbind, M_bind.
    destruct (merge_blocks (Blocks p1) (Blocks p2)) as [l|];
      destruct (merge_blocks (Blocks p2) (Blocks p3)) as [l'|]; simpl in *.
    + rewrite Ha. by destruct (merge_blocks (Blocks p1) l').
    + by rewrite Ha.
    + by rewrite <-Ha.
    + done.
  - intros Hf Hm. unfold merge. by rewrite merge_blocks_comm, Hf, Hm.
Qed.
End merge_claims.

(** ** What the tool prints *)

(** The sum of a list of profiles: the blocks of every file. *)
Abbreviation tally := (gmap string (list ProfileBlock)).

Definition join_blocks (o : option (list ProfileBlock)) (bs : list ProfileBlock)
    : option (list ProfileBlock) :=
  match o with Some bs0 => merge_blocks bs0 bs | None => Some bs end.

Definition tally_add (p : Profile) (t : tally) : option tally :=
  (λ bs, <[FileName p := bs]> t) <$> join_blocks (t !! FileName p) (Blocks p).

Fixpoint tally_all (ps : list Profile) (t : tally) : option tally :=
  match ps with
  | [] => Some t
  | p :: ps => tally_add p t ≫= tally_all ps
  end.

(** The lines printed for a sum: the files in the order of their names. *)
Definition tally_lines (t : tally) : list string :=
  "mode: atomic" ::
  (merge_sort String.le (map_to_list t).*1 ≫= λ f, block_line f <$> default [] (t !! f)).

Section tally.
Implicit Types (p q : Profile) (t : tally).

Abbreviation sorted_tally t := (map_Forall (λ _ bs, block_sorted bs) t).

Lemma join_blocks_sorted o bs bs' :
  (∀ bs0, o = Some bs0 → block_sorted bs0) → block_sorted bs →
  join_blocks o bs = Some bs' → block_sorted bs'.
Proof.
  destruct o as [bs0|]; simpl; [|congruence]. intros Ho Hbs Hm.
  pose proof (merge_blocks_run bs0 bs (Ho bs0 eq_refl) Hbs) as Hr. rewrite Hm in Hr. apply Hr.
Qed.

Lemma tally_add_sorted t t' p :
  sorted_tally t → block_sorted (Blocks p) → tally_add p t = Some t' → sorted_tally t'.
Proof.
  intros Ht Hp (bs & Hj & ->)%fmap_Some. apply map_Forall_insert_2; [|done].
  eapply join_blocks_sorted; [|exact Hp|exact Hj]. intros bs0. apply Ht.
Qed.

Lemma join_blocks_comm o bs bs' :
  (∀ bs0, o = Some bs0 → block_sorted bs0) → block_sorted bs → block_sorted bs' →
  join_blocks o bs ≫= (λ l, merge_blocks l bs') = join_blocks o bs' ≫= (λ l, merge_blocks l bs).
Proof.
  intros Ho Hs Hs'. destruct o as [bs0|]; simpl; [|by apply merge_blocks_comm].
  specialize (Ho bs0 eq_refl).
  by rewrite !merge_blocks_assoc, (merge_blocks_comm bs bs') by done.
Qed.

(** Profiles can be added in either order. *)
Lemma tally_add_comm t p q :
  sorted_tally t → block_sorted (Blocks p) → block_sorted (Blocks q) →
  tally_add p t ≫= tally_add q = tally_add q t ≫= tally_add p.
Proof.
  intros Ht Hp Hq. unfold tally_add.
  destruct (decide (FileName p = FileName q)) as [Heq|Hne].
  - assert (∀ o f bs, ((λ l, <[f := l]> t) <$> o) ≫=
        (λ t', (λ l', <[f := l']> t') <$> join_blocks (t' !! f) bs) =
      (λ l, <[f := l]> t) <$> (o ≫= λ l, merge_blocks l bs)) as Hsame.
    { intros [l|] f bs; simpl; [|done]. rewrite lookup_insert_eq. simpl.
      destruct (merge_blocks l bs); simpl; [|done]. by rewrite insert_insert_eq. }
    rewrite Heq, !Hsame, join_blocks_comm; [done| |done..]. intros bs0. apply Ht.
  - destruct (join_blocks (t !! FileName p) (Blocks p)) as [l|] eqn:H1,
      (join_blocks (t !! FileName q) (Blocks q)) as [l'|] eqn:H2; simpl;
      rewrite ?lookup_insert_ne by congruence; rewrite ?H1, ?H2; simpl; [|done..].
    by rewrite insert_insert_ne.
Qed.

Lemma tally_all_perm ps ps' : ps ≡ₚ ps' → ∀ t,
  sorted_tally t → Forall (λ p, block_sorted (Blocks p)) ps → tally_all ps t = tally_all ps' t.
Proof.
  induction 1 as [|p ps ps' Hp IH|p q ps|ps ps1 ps2 Hp1 IH1 Hp2 IH2]; intros t Ht Hs; simpl.
  - done.
  - apply Forall_cons in Hs as [Hsp Hs]. destruct (tally_add p t) as [t'|] eqn:Hadd; [|done].
    simpl. apply IH; [|done]. by eapply tally_add_sorted.
  - apply Forall_cons in Hs as [Hsq Hs]. apply Forall_cons in Hs as [Hsp Hs].
    pose proof (tally_add_comm t q p Ht Hsq Hsp) as Hc.
    apply (f_equal (λ o, o ≫= tally_all ps)) in Hc. by rewrite !option_bind_assoc in Hc.
  - rewrite IH1 by done. apply IH2; [done|]. by rewrite <-Hp1.
Qed.
End tally.

Section output.
Implicit Types (out : Stdout) (ps : list Profile) (t : tally).

(** *** Printing *)

Lemma Println_all lines out : for_range lines Println out = (Ret (), out ++ lines).
Proof.
  revert out. induction lines as [|l lines IH]; intros out; simpl; [by rewrite app_nil_r|].
  unfold mbind, M_bind, Println, modify. rewrite IH. by rewrite <-app_assoc.
Qed.

Lemma print_run ps out :
  print ps out = (Ret (), out ++ "mode: atomic" ::
    (ps ≫= λ p, block_line (FileName p) <$> Blocks p)).
Proof.
  unfold print. rewrite (bind_Ret _ _ out () (out ++ ["mode: atomic"])) by done.
  assert (∀ out, for_range ps (λ p, for_range (Blocks p) (λ b, Println (block_line (FileName p) b))) out =
    (Ret (), out ++ (ps ≫= λ p, block_line (FileName p) <$> Blocks p))) as Hloop.
  { clear. induction ps as [|p ps IH]; intros out; simpl; [by rewrite app_nil_r|].
    rewrite (bind_Ret _ _ out () (out ++ (block_line (FileName p) <$> Blocks p))).
    - by rewrite IH, app_assoc.
    - rewrite <-Println_all. clear. revert out.
      induction (Blocks p) as [|b bs IH]; intros out; simpl; [done|].
      unfold mbind, M_bind, Println, modify. apply IH. }
  by rewrite Hloop, <-app_assoc.
Qed.

(** *** Sorting: the file names are distinct, so that any algorithm gives this *)

Lemma byFileName_spec p q : byFileName_le p q ↔ String.le (FileName p) (FileName q).
Proof.
  unfold byFileName_le, String.le, String.ltb, String.leb.
  rewrite (String.compare_antisym (FileName p)).
  destruct (String.compare (FileName q) (FileName p)); simpl; naive_solver.
Qed.

#[global] Instance byFileName_trans : Transitive byFileName_le.
Proof. intros p q r. rewrite !byFileName_spec. apply transitivity. Qed.
#[global] Instance String_le_total : Total String.le.
Proof. intros s1 s2. unfold String.le. destruct (String.leb_total s1 s2) as [->| ->]; auto. Qed.
#[global] Instance byFileName_total : Total byFileName_le.
Proof. intros p q. rewrite !byFileName_spec. apply total. apply _. Qed.

Lemma sort_names ps : FileName <$> sort_byFileName ps = merge_sort String.le (FileName <$> ps).
Proof.
  apply (StronglySorted_unique String.le).
  - apply (StronglySorted_fmap FileName byFileName_le); [|apply (StronglySorted_merge_sort _)].
    intros p q. apply byFileName_spec.
  - apply (StronglySorted_merge_sort _).
  - unfold sort_byFileName. by rewrite !merge_sort_Permutation.
Qed.

(** The profiles of a map whose keys are the names of the files. *)
Definition named (m : gmap string Profile) : Prop := ∀ k p, m !! k = Some p → FileName p = k.

Lemma print_map m es out :
  named m → es ≡ₚ map_to_list m →
  print (sort_byFileName (snd <$> es)) out = (Ret (), out ++ tally_lines (Blocks <$> m)).
Proof.
  intros Hn Hes. rewrite print_run. unfold tally_lines. do 3 f_equal.
  assert (Forall (λ p, (Blocks <$> m) !! FileName p = Some (Blocks p)) (sort_byFileName (snd <$> es))) as Hall.
  { apply Forall_forall. intros p. unfold sort_byFileName. rewrite merge_sort_Permutation, Hes.
    intros ([k p'] & -> & Hk)%list_elem_of_fmap. apply elem_of_map_to_list in Hk. simpl.
    by rewrite (Hn _ _ Hk), lookup_fmap, Hk. }
  assert (merge_sort String.le (map_to_list (Blocks <$> m)).*1 =
    FileName <$> sort_byFileName (snd <$> es)) as ->.
  { rewrite sort_names. apply (sort_unique String.le).
    rewrite map_to_list_fmap, <-list_fmap_compose, Hes, <-list_fmap_compose.
    apply Permutation_refl', list_fmap_ext. intros i [k p] Hk. simpl. symmetry. apply Hn.
    apply elem_of_map_to_list. by eapply list_elem_of_lookup_2. }
  induction Hall as [|p ps Hp Hall IH]; csimpl; [done|]. by rewrite Hp, IH.
Qed.
End output.

Section main_theory.
Context (ParseProfiles : string → ext_error + list Profile).
Implicit Types (out : Stdout) (ps : list Profile) (t : tally) (m : gmap string Profile).

Fixpoint input_all (args : list string) (t : tally) : option tally :=
  match args with
  | [] => Some t
  | input :: args =>
      match ParseProfiles input with
      | inl _ => None
      | inr ps => tally_all ps t ≫= input_all args
      end
  end.

(** A loop on the map computes [r]: the final sum, or a panic. *)
Definition computes (loop : M (Stdout * gmap string Profile) unit)
    (r : tally → option tally) : Prop :=
  ∀ out m, named m →
    match r (Blocks <$> m) with
    | Some t => ∃ m', loop (out, m) = (Ret (), (out, m')) ∧ named m' ∧ Blocks <$> m' = t
    | None => ∃ m', loop (out, m) = (Panicked PanicString, (out, m'))
    end.

Lemma computes_ret : computes (mret ()) Some.
Proof. intros out m Hm. by exists m. Qed.

Lemma computes_bind loop loop' r r' :
  computes loop r → computes loop' r' →
  computes (loop ≫= λ _, loop') (λ t, r t ≫= r').
Proof.
  intros Hl Hl' out m Hm. specialize (Hl out m Hm).
  destruct (r (Blocks <$> m)) as [t|]; simpl.
  - destruct Hl as (m' & Hrun & Hm' & <-). specialize (Hl' out m' Hm').
    by rewrite (bind_Ret _ _ _ _ _ Hrun).
  - destruct Hl as (m' & Hrun). exists m'. by rewrite (bind_Panicked _ _ _ _ _ Hrun).
Qed.

Lemma add_profile_computes p : computes (add_profile p) (tally_add p).
Proof.
  intros out m Hm. unfold tally_add, add_profile. rewrite lookup_fmap.
  rewrite (bind_Ret _ _ (out, m) (out, m) (out, m)) by done. simpl.
  assert (∀ q, FileName q = FileName p → named (<[FileName p := q]> m)) as Hins.
  { intros q Hq k q'. rewrite lookup_insert_Some. intros [[<- <-]|[_ ?]]; auto. }
  destruct (m !! FileName p) as [op|] eqn:Hop; simpl.
  - unfold merge. destruct (merge_blocks (Blocks op) (Blocks p)) as [bs|]; simpl; [|by eexists].
    eexists. split_and!; [done|by apply Hins; simpl; apply Hm|].
    by rewrite fmap_insert.
  - eexists. split_and!; [done|by apply Hins|]. by rewrite fmap_insert.
Qed.

Lemma add_input_computes input :
  computes (add_input ParseProfiles input)
    (λ t, match ParseProfiles input with inl _ => None | inr ps => tally_all ps t end).
Proof.
  unfold add_input. destruct (ParseProfiles input) as [x|ps]; [by intros out m _; exists m|].
  induction ps as [|p ps IH]; simpl; [apply computes_ret|].
  apply computes_bind; [apply add_profile_computes|apply IH].
Qed.

Lemma inputs_compute args : computes (for_range args (add_input ParseProfiles)) (input_all args).
Proof.
  induction args as [|input args IH]; [apply computes_ret|]. simpl. intros out m Hm.
  pose proof (computes_bind _ _ _ _ (add_input_computes input) IH out m Hm) as Hc.
  simpl in Hc. by destruct (ParseProfiles input).
Qed.

Lemma main_run range args out :
  (∀ m, range m ≡ₚ map_to_list m) →
  main ParseProfiles range args out =
    match input_all args ∅ with
    | Some t => (Ret (), out ++ tally_lines t)
    | None => (Panicked PanicString, out)
    end.
Proof.
  intros Hrange. unfold main, with_local.
  assert (named ∅) as Hn by (intros k p; by rewrite lookup_empty).
  pose proof (inputs_compute args out ∅ Hn) as Hc. rewrite fmap_empty in Hc.
  destruct (input_all args ∅) as [t|].
  - destruct Hc as (m & Hrun & Hm & <-). unfold mbind, M_bind. rewrite Hrun. simpl.
    by apply print_map.
  - destruct Hc as (m & Hrun). unfold mbind, M_bind. by rewrite Hrun.
Qed.

(** The parser yields profiles with their blocks in order. *)
Hypothesis parse_sorted : ∀ input ps,
  ParseProfiles input = inr ps → Forall (λ p, block_sorted (Blocks p)) ps.

Lemma tally_all_sorted ps t t' :
  map_Forall (λ _ bs, block_sorted bs) t → Forall (λ p, block_sorted (Blocks p)) ps →
  tally_all ps t = Some t' → map_Forall (λ _ bs, block_sorted bs) t'.
Proof.
  revert t. induction ps as [|p ps IH]; intros t Ht; simpl; [by intros _ [= <-]|].
  intros [Hp Hps]%Forall_cons (t1 & Hadd & Hall)%bind_Some.
  apply (IH t1); [by eapply tally_add_sorted|done..].
Qed.

Lemma tally_all_app ps qs t : tally_all (ps ++ qs) t = tally_all ps t ≫= tally_all qs.
Proof.
  revert t. induction ps as [|p ps IH]; intros t; simpl; [done|].
  destruct (tally_add p t); simpl; [apply IH|done].
Qed.

Lemma input_all_perm args args' : args ≡ₚ args' → ∀ t,
  map_Forall (λ _ bs, block_sorted bs) t → input_all args t = input_all args' t.
Proof.
  induction 1 as [|a args args' Hp IH|a b args|args args1 args2 Hp1 IH1 Hp2 IH2]; intros t Ht; simpl.
  - done.
  - destruct (ParseProfiles a) as [|ps] eqn:Ha; [done|].
    destruct (tally_all ps t) as [t'|] eqn:Hall; [|done]. simpl. apply IH.
    eapply tally_all_sorted; [exact Ht|by eapply parse_sorted|done].
  - destruct (ParseProfiles a) as [x|ps] eqn:Ha, (ParseProfiles b) as [y|qs] eqn:Hb;
      [done|by destruct (tally_all qs t)|by destruct (tally_all ps t)|].
    assert (∀ ps qs, tally_all ps t ≫= (λ t, tally_all qs t ≫= input_all args) =
      tally_all (ps ++ qs) t ≫= input_all args) as Hbind.
    { intros ps' qs'. rewrite tally_all_app. by destruct (tally_all ps' t). }
    rewrite !Hbind, (tally_all_perm (qs ++ ps) (ps ++ qs)); [done|by rewrite (comm (++))|done|].
    apply Forall_app. split; by eapply parse_sorted.
  - by rewrite IH1, IH2.
Qed.

(** The count of a block in a sum, and what one more profile makes of it. *)
Definition count_at (t : tally) (f : string) (k : position) : option Z :=
  Count <$> (t !! f ≫= λ bs, blocks_map bs !! k).

Definition count_step (f : string) (k : position) (c : option Z) (p : Profile) : option Z :=
  match (if decide (FileName p = f) then blocks_map (Blocks p) !! k else None), c with
  | Some b, Some c => Some (int_add c (Count b))
  | Some b, None => Some (Count b)
  | None, c => c
  end.

Lemma tally_add_count p t t' f k :
  map_Forall (λ _ bs, block_sorted bs) t → block_sorted (Blocks p) →
  tally_add p t = Some t' → count_at t' f k = count_step f k (count_at t f k) p.
Proof.
  intros Ht Hp (bs & Hj & ->)%fmap_Some. unfold count_at, count_step.
  case_decide as Hf; [subst|by rewrite lookup_insert_ne].
  rewrite lookup_insert_eq. simpl. destruct (t !! FileName p) as [bs0|] eqn:Hbs0; simplify_eq/=.
  - pose proof (merge_blocks_run bs0 (Blocks p) (Ht _ _ Hbs0) Hp) as Hr. rewrite Hj in Hr.
    destruct Hr as (_ & _ & ->). unfold sum_blocks. rewrite lookup_union_with.
    by destruct (blocks_map bs0 !! k), (blocks_map (Blocks p) !! k).
  - by destruct (blocks_map (Blocks p) !! k).
Qed.

Lemma tally_all_count ps t t' f k :
  map_Forall (λ _ bs, block_sorted bs) t → Forall (λ p, block_sorted (Blocks p)) ps →
  tally_all ps t = Some t' → count_at t' f k = foldl (count_step f k) (count_at t f k) ps.
Proof.
  revert t. induction ps as [|p ps IH]; intros t Ht; simpl; [by intros _ [= <-]|].
  intros [Hp Hps]%Forall_cons (t1 & Hadd & Hall)%bind_Some.
  rewrite <-(tally_add_count p t t1) by done.
  apply IH; [by eapply tally_add_sorted|done..].
Qed.

(** The profiles of an input file. *)
Definition profiles_of (input : string) : list Profile :=
  match ParseProfiles input with inr ps => ps | inl _ => [] end.

Lemma input_all_count args t t' f k :
  map_Forall (λ _ bs, block_sorted bs) t → input_all args t = Some t' →
  map_Forall (λ _ bs, block_sorted bs) t' ∧
  count_at t' f k = foldl (count_step f k) (count_at t f k) (args ≫= profiles_of).
Proof.
  revert t. induction args as [|a args IH]; intros t Ht; simpl; [by intros [= <-]|].
  unfold profiles_of at 1. destruct (ParseProfiles a) as [|ps] eqn:Ha; [done|].
  intros (t1 & Hall & Hin)%bind_Some. rewrite foldl_app.
  assert (map_Forall (λ _ bs, block_sorted bs) t1) as Ht1
    by (eapply tally_all_sorted; [exact Ht|by eapply parse_sorted|done]).
  destruct (IH t1 Ht1 Hin) as [? ->]. split; [done|].
  by rewrite <-(tally_all_count ps t t1) by first [done | by eapply parse_sorted].
Qed.

(** C21: the tool prints, file by file in the order of their names and block by
    block in the order of their positions, the counts of all input profiles
    added up, or it panics and prints nothing. *)
Theorem main_report range args out :
  (∀ m, range m ≡ₚ map_to_list m) →
  main ParseProfiles range args out = (Panicked PanicString, out) ∨
  ∃ t, main ParseProfiles range args out = (Ret (), out ++ tally_lines t) ∧
    (∀ f bs, t !! f = Some bs → block_sorted bs) ∧
    ∀ f k, count_at t f k = foldl (count_step f k) None (args ≫= profiles_of).
Proof.
  intros Hr. rewrite main_run by done.
  destruct (input_all args ∅) as [t|] eqn:Hin; [right|by left].
  exists t. split; [done|]. split.
  - apply (input_all_count args ∅ t "" (0, 0)%Z); [apply map_Forall_empty|done].
  - intros f k. destruct (input_all_count args ∅ t f k) as [_ Hc];
      [apply map_Forall_empty|done|]. unfold count_at in *. by rewrite Hc, lookup_empty.
Qed.

(** C22: the report the tool prints depends neither on the order of the input
    files nor on the order in which Go enumerates the map of profiles; the
    tool panics for one order exactly when it does for all. *)
Theorem main_order_independent range range' args args' out :
  (∀ m, range m ≡ₚ map_to_list m) → (∀ m, range' m ≡ₚ map_to_list m) →
  args ≡ₚ args' →
  main ParseProfiles range args out = main ParseProfiles range' args' out.
Proof.
  intros Hr Hr' Hp. rewrite !main_run by done. by rewrite (input_all_perm args args').
Qed.
End main_theory.

(** ** Two test runs of one package *)

Definition run1 : Profile := MkProfile "p/a.go" "count"
  [MkBlock 3 1 5 2 2 7; MkBlock 9 4 9 30 1 0].
Definition run2 : Profile := MkProfile "p/a.go" "count"
  [MkBlock 3 1 5 2 2 1; MkBlock 6 1 8 2 3 4].
Definition run3 : Profile := MkProfile "p/a.go" "count" [MkBlock 6 1 8 3 3 4].

Definition parse_runs (input : string) : ext_error + list Profile :=
  if decide (input = "one") then inr [run1]
  else if decide (input = "two") then inr [run2; MkProfile "p/0.go" "count" [MkBlock 1 1 2 2 1 5]]
  else inl (ExtError "no such file").

Lemma runs_sorted p : p ∈ [run1; run2; run3] → block_sorted (Blocks p).
Proof.
  intros Hp. repeat (apply elem_of_cons in Hp as [->|Hp]; [repeat constructor|]).
  by apply not_elem_of_nil in Hp.
Qed.

Lemma parse_runs_sorted input ps :
  parse_runs input = inr ps → Forall (λ p, block_sorted (Blocks p)) ps.
Proof. unfold parse_runs. repeat case_decide; intros [= <-]; repeat constructor. Qed.

Lemma merge_spec_witness :
  merge run1 run2 () = (Ret (MkProfile "p/a.go" "count"
    [MkBlock 3 1 5 2 2 8; MkBlock 6 1 8 2 3 4; MkBlock 9 4 9 30 1 0]), ()) ∧
  merge run2 run3 () = (Panicked PanicString, ()).
Proof.
  assert (block_sorted (Blocks run1) ∧ block_sorted (Blocks run2) ∧ block_sorted (Blocks run3))
    as (H1 & H2 & H3) by (split_and!; apply runs_sorted; set_solver).
  split.
  - destruct (merge_spec run1 run2 () H1 H2) as [_|[_ Hm]]; [reflexivity|].
    vm_compute in Hm. discriminate.
  - destruct (merge_spec run2 run3 () H2 H3) as [(_ & bs & Hm & _)|[_ Hm]]; [|exact Hm].
    vm_compute in Hm. discriminate.
Defined.

Lemma merge_comm_assoc_witness :
  merge run1 run2 () = merge run2 run1 ().
Proof.
  apply (merge_comm_assoc run1 run2 run3 ()); [apply runs_sorted; set_solver..|reflexivity|reflexivity].
Defined.

Lemma main_report_witness :
  main parse_runs map_to_list ["one"; "two"] [] = (Ret (), [
    "mode: atomic"; "p/0.go:1.1,2.2 1 5"; "p/a.go:3.1,5.2 2 8"; "p/a.go:6.1,8.2 3 4";
    "p/a.go:9.4,9.30 1 0"]).
Proof.
  destruct (main_report parse_runs parse_runs_sorted map_to_list ["one"; "two"] [] (λ _, reflexivity _))
    as [Hp|_].
  - vm_compute in Hp. discriminate.
  - vm_compute. reflexivity.
Defined.

Lemma main_order_independent_witness :
  main parse_runs map_to_list ["one"; "two"] [] = main parse_runs (λ m, reverse (map_to_list m)) ["two"; "one"] [].
Proof.
  apply (main_order_independent parse_runs parse_runs_sorted);
    [done|intros m; apply reverse_Permutation|constructor].
Defined.
