(* ===== verification/Runner.v ===== *)
(** * The integration test runner ([src/tools/runner/runner.go])

    The tool runs test scripts on a pool of hosts, one after the other or, with
    [-parallel], as many at a time as the pool allows ([Parallel.v] has that
    scheduler). Here: choosing and running tests, the scheduling service, the
    sequential runner and [main], with everything they print. The parser of the
    flags is a package outside the repository: [main] takes what it leaves. *)

From S2P Require Import Prelude Go Strs Nums Env Utf8 Fmt Json Codec Times Floats.

(** ** Data *)

Record test : Set := MkTest { t_name : string; t_hosts : Z }.

#[export] Instance test_eq_dec : EqDecision test.
Proof. solve_decision. Defined.

Record schedule : Set := MkSchedule { Tests : gslice string }.

#[export] Instance schedule_type : JsonType schedule := {|
  zero := MkSchedule zero;
  unmarshal := unmarshal_struct "main.schedule" [field_of "tests" Tests (λ x _, MkSchedule x)];
  marshal s := tests ← marshal (Tests s); Some (JObj [("tests", tests)])
|}.

(** [tests.Less] on two elements *)
Definition Less (t1 t2 : test) : bool :=
  if decide (t_hosts t1 ≠ t_hosts t2) then (t_hosts t1 <? t_hosts t2)%Z
  else String.ltb (t_name t1) (t_name t2).

(** [sort.Sort(sort.Reverse(ts))]: an element may precede another unless it is
    less. *)
Definition reverse_le (t1 t2 : test) : Prop := ¬ (Less t1 t2 = true).
#[export] Instance reverse_le_dec t1 t2 : Decision (reverse_le t1 t2).
Proof. unfold reverse_le. apply _. Defined.

Definition sort_reverse (ts : list test) : list test := merge_sort reverse_le ts.

(** [tests.pick]: the first test that fits in the available hosts, and the tests
    that are left *)
Fixpoint pick (available : Z) (ts : list test) : option (test * list test) :=
  match ts with
  | [] => None
  | t :: ts =>
      if (t_hosts t <=? available)%Z then Some (t, ts)
      else (λ r, (r.1, t :: r.2)) <$> pick available ts
  end.

(** ** The outside *)

(** How a command ended: within the timeout or not. *)
Inductive run_error : Set := CmdError (e : ext_error) | TimedOut.

Definition run_error_text (err : run_error) : string :=
  match err with CmdError e => ext_text e | TimedOut => "timed out" end.

(** What the runner sees of a command: its error, its output so far and the
    nanoseconds it took. *)
Record command_result : Set := MkResult {
  r_err : option run_error;
  r_out : string;
  r_nanos : Z
}.

(** What the runner uses of the system: the environment, running a command for a
    number of seconds, and HTTP (a host with an opaque URL to post to; a URL, a
    content type and a body). *)
Class System (E : Type) := {
  os_Environ : E → list string;
  os_Getenv : E → string → string;
  cmd_Run : string → list string → Z → E → command_result * E;
  client_Do : string → string → E → option ext_error * E;
  http_Post : string → string → string → E → (ext_error + stream) * E
}.

(** The environment and the standard output. *)
Record Tool (E : Type) : Type := MkTool { t_env : E; t_out : string }.
Arguments MkTool {E}.
Arguments t_env {E}.
Arguments t_out {E}.

(** The variables that the flags set, and the escape sequences of
    [ansi.ColorCode]. *)
Class Settings := {
  useScheduler : bool;
  runParallel : bool;
  verbose_flag : bool;
  schedulerHost : string;
  timeout : Z;
  c_start : string;
  c_fail : string;
  c_succ : string;
  c_reset : string
}.

(** [url.QueryEscape] *)
Definition unreserved (c : ascii) : bool :=
  let b := byte c in
  bool_decide ((48 ≤ b ≤ 57) ∨ (65 ≤ b ≤ 90) ∨ (97 ≤ b ≤ 122))%N
  || bool_decide (c = "-"%char ∨ c = "_"%char ∨ c = "."%char ∨ c = "~"%char).

Definition upper_hex (n : N) : string :=
  String (char (if bool_decide (n < 10)%N then 48 + n else 55 + n)) "".

Fixpoint QueryEscape (s : string) : string :=
  match s with
  | "" => ""
  | String c s =>
      (if unreserved c then String c ""
       else if bool_decide (c = " "%char) then "+"
       else "%" +:+ upper_hex (byte c / 16) +:+ upper_hex (byte c mod 16)) +:+ QueryEscape s
  end.

(** ** Running one test *)

(** The environment of the command: [HOSTS] replaced. *)
Fixpoint replace_HOSTS (hosts : list string) (environ : list string) : list string :=
  match environ with
  | [] => []
  | env :: environ =>
      if HasPrefix env "HOSTS" then ("HOSTS=" +:+ Join hosts " ") :: environ
      else env :: replace_HOSTS hosts environ
  end.

(** [float64(nanos) / float64(time.Second)] *)
Definition seconds (nanos : Z) : float := fdiv (of_Z nanos) (of_Z 1000000000).

Inductive schedule_error : Set := PostFailed (e : ext_error) | BadSchedule (e : json_error).

Definition schedule_error_text (err : schedule_error) : string :=
  match err with PostFailed e => ext_text e | BadSchedule e => json_error_text e end.

Section run.
Context {E : Type} `{!System E, !Settings}.
Abbreviation W := (Tool E).

Definition sys {A} (f : E → A * E) : M W A := λ w,
  let '(a, e) := f (t_env w) in (Ret a, MkTool e (t_out w)).

Definition Printf (s : string) : M W unit := modify (λ w, MkTool (t_env w) (t_out w +:+ s)).

Definition updateScheduler (test : string) (duration : float) : M W unit :=
  err ← sys (client_Do schedulerHost ("/record/" +:+ QueryEscape test +:+ "/" +:+ fixed 2 duration));
  match err with
  | Some e => Printf ("Error updating scheduler: " +:+ ext_text e +:+ newline)
  | None => mret ()
  end.

Definition run (verbose : bool) (t : test) (hosts : list string) : M W bool :=
  _ ← Printf (c_start +:+ ">>> Running " +:+ t_name t +:+ " on " +:+ list_text hosts +:+ c_reset +:+ newline);
  w ← get;
  r ← sys (cmd_Run (t_name t) (replace_HOSTS hosts (os_Environ (t_env w))) timeout);
  let err := r_err r in
  let duration := seconds (r_nanos r) in
  _ ← match err with
      | Some err =>
          Printf (c_fail +:+ ">>> Test " +:+ t_name t +:+ " finished after " +:+ fixed 1 duration +:+
                  " secs with error: " +:+ run_error_text err +:+ c_reset +:+ newline)
      | None =>
          Printf (c_succ +:+ ">>> Test " +:+ t_name t +:+ " finished with success after " +:+
                  fixed 1 duration +:+ " secs" +:+ c_reset +:+ newline)
      end;
  _ ← (if bool_decide (err ≠ None) || verbose then Printf (r_out r +:+ newline) else mret ());
  _ ← (if bool_decide (err ≠ None) && useScheduler then updateScheduler (t_name t) duration else mret ());
  mret (bool_decide (err ≠ None)).

(** ** The list of tests *)

Definition schedule_url (e : E) : string :=
  let project := os_Getenv e "CIRCLE_PROJECT_REPONAME" in
  let buildNum := os_Getenv e "CIRCLE_BUILD_NUM" in
  let testRun := project +:+ "-integration-" +:+ buildNum in
  let shardCount := os_Getenv e "CIRCLE_NODE_TOTAL" in
  let shardID := os_Getenv e "CIRCLE_NODE_INDEX" in
  "http://" +:+ schedulerHost +:+ "/schedule/" +:+ testRun +:+ "/" +:+ shardCount +:+ "/" +:+ shardID.

Definition jsonContentType : string := "application/json".

(** Encoding a list of strings does not fail; the status of the answer is not
    looked at. *)
Definition getSchedule (tests : list string) : M W (schedule_error + list string) :=
  w ← get;
  let requestBody := encode_line (JObj [("tests", JArr (JStr <$> tests))]) in
  resp ← sys (http_Post (schedule_url (t_env w)) jsonContentType requestBody);
  match resp with
  | inl e => mret (inl (PostFailed e))
  | inr body =>
      match Decode body (zero (A:=schedule)) with
      | (sched, None) => mret (inr (elems (Tests sched)))
      | (_, Some e) => mret (inl (BadSchedule e))
      end
  end.

(** The number of hosts a test needs, from its name. *)
Definition numHosts (name : string) : M W Z :=
  let parts := Split (TrimSuffix name "_test.sh") "_" in
  last ← or_panic IndexOutOfRange (parts !! (length parts - 1));
  let '(numHosts, err) := Atoi last in
  mret (match err with Some _ => 1%Z | None => numHosts end).

Fixpoint make_tests (testNames : list string) : M W (list test) :=
  match testNames with
  | [] => mret []
  | name :: testNames =>
      n ← numHosts name;
      _ ← Printf ("Test " +:+ name +:+ " needs " +:+ Itoa n +:+ " hosts" +:+ newline);
      ts ← make_tests testNames;
      mret (MkTest name n :: ts)
  end.

Definition getTests (testNames : list string) : M W (schedule_error + list test) :=
  r ← (if useScheduler then getSchedule testNames else mret (inr testNames));
  match r with
  | inl err => mret (inl err)
  | inr testNames => ts ← make_tests testNames; mret (inr ts)
  end.

(** ** Reporting and the sequential runner *)

Definition summary (tests failed : list test) : M W unit :=
  let ran := Itoa (Z.of_nat (length tests)) in
  if decide (0 < length failed) then
    _ ← Printf (c_fail +:+ ">>> Ran " +:+ ran +:+ " tests, " +:+ Itoa (Z.of_nat (length failed)) +:+
                " failed" +:+ c_reset +:+ newline);
    for_range failed (λ test, Printf (c_fail +:+ ">>> Fail " +:+ t_name test +:+ c_reset +:+ newline))
  else Printf (c_succ +:+ ">>> Ran " +:+ ran +:+ " tests, all succeeded" +:+ c_reset +:+ newline).

Fixpoint sequential_go (verbose : bool) (ts : list test) (hosts : list string) (failed : list test)
    : M W (list test) :=
  match ts with
  | [] => mret failed
  | test :: ts =>
      errored ← run verbose test hosts;
      sequential_go verbose ts hosts (if errored : bool then failed ++ [test] else failed)
  end.

Definition sequential (verbose : bool) (ts : list test) (hosts : list string) : M W bool :=
  failed ← sequential_go verbose ts hosts [];
  _ ← summary ts failed;
  mret (bool_decide (0 < length failed)).

(** [main] after the flags are parsed, with the scheduler for [-parallel] as an
    argument. *)
Definition main (parallel : bool → list test → list string → M W bool) (testArgs : list string) : M W unit :=
  w ← get;
  let verbose := verbose_flag || bool_decide (os_Getenv (t_env w) "DEBUG" ≠ "") in
  r ← getTests testArgs;
  match r with
  | inl err =>
      _ ← Printf ("Error parsing tests: " +:+ schedule_error_text err +:+ " (" +:+ list_text testArgs +:+
                  ")" +:+ newline);
      goexit 1
  | inr tests =>
      w ← get;
      let hosts := Fields (os_Getenv (t_env w) "HOSTS") in
      if decide (length hosts = 0) then
        _ ← Printf ("No HOSTS specified." +:+ newline);
        goexit 1
      else
        errored ← (if runParallel then parallel verbose tests hosts else sequential verbose tests hosts);
        if errored : bool then goexit 1 else mret ()
  end.
End run.

(** ** Choosing a test *)

Section choosing.
Implicit Types (t u : test) (ts : list test).

Lemma pick_spec n ts :
  match pick n ts with
  | Some (t, ts') =>
      (t_hosts t ≤ n)%Z ∧
      ∃ l1 l2, ts = l1 ++ t :: l2 ∧ ts' = l1 ++ l2 ∧ Forall (λ u, n < t_hosts u)%Z l1
  | None => Forall (λ u, n < t_hosts u)%Z ts
  end.
Proof.
  induction ts as [|u ts IH]; simpl; [constructor|].
  destruct (Z.leb_spec (t_hosts u) n) as [Hle|Hgt].
  - split; [done|]. exists [], ts. by split_and!.
  - destruct (pick n ts) as [[t ts']|]; simpl.
    + destruct IH as (Ht & l1 & l2 & -> & -> & Hall). split; [done|].
      exists (u :: l1), l2. split_and!; [done..|]. by constructor.
    + by constructor.
Qed.

Lemma pick_perm n ts t ts' : pick n ts = Some (t, ts') → ts ≡ₚ t :: ts' ∧ (t_hosts t ≤ n)%Z.
Proof.
  intros Hp. pose proof (pick_spec n ts) as Hs. rewrite Hp in Hs.
  destruct Hs as (Ht & l1 & l2 & -> & -> & _). by rewrite Permutation_delete_middle.
Qed.

Lemma Less_spec t u :
  Less t u = true ↔ (t_hosts t < t_hosts u)%Z ∨
    (t_hosts t = t_hosts u ∧ String.ltb (t_name t) (t_name u) = true).
Proof. unfold Less. case_decide; rewrite ?Z.ltb_lt; intuition lia. Qed.

Lemma ltb_leb s1 s2 : String.ltb s1 s2 = negb (String.leb s2 s1).
Proof.
  unfold String.ltb, String.leb. rewrite (String.compare_antisym s2).
  by destruct (String.compare s1 s2).
Qed.

Lemma reverse_le_spec t u :
  reverse_le t u ↔ (t_hosts u < t_hosts t)%Z ∨
    (t_hosts t = t_hosts u ∧ String.le (t_name u) (t_name t)).
Proof.
  unfold reverse_le. rewrite Less_spec, ltb_leb. unfold String.le.
  destruct (String.leb (t_name u) (t_name t)); simpl; intuition lia.
Qed.

#[global] Instance reverse_le_trans : Transitive reverse_le.
Proof.
  intros t u v. rewrite !reverse_le_spec. intros [?|[? H1]] [?|[? H2]]; try (left; lia).
  right. split; [lia|]. by transitivity (t_name u).
Qed.
#[global] Instance reverse_le_total : Total reverse_le.
Proof.
  intros t u. rewrite !reverse_le_spec. unfold String.le.
  destruct (Z.lt_total (t_hosts t) (t_hosts u)) as [?|[Heq|?]]; [auto| |auto].
  destruct (String.leb_total (t_name u) (t_name t)) as [->| ->]; rewrite Heq; auto.
Qed.
#[global] Instance reverse_le_antisymm : AntiSymm (=) reverse_le.
Proof.
  intros [s n] [s' n']. rewrite !reverse_le_spec. simpl.
  intros [?|[? H1]] [?|[? H2]]; try lia. f_equal; [|lia]. by apply (anti_symm String.le).
Qed.

(** On the sorted list of tests [pick] takes the test that needs most hosts
    among those that fit, leaves the rest sorted, and finds none only when
    none fits. *)
Theorem pick_largest n ts :
  StronglySorted reverse_le ts →
  match pick n ts with
  | Some (t, ts') =>
      ts ≡ₚ t :: ts' ∧ (t_hosts t ≤ n)%Z ∧ StronglySorted reverse_le ts' ∧
      ∀ u, u ∈ ts → (t_hosts u ≤ n)%Z → (t_hosts u ≤ t_hosts t)%Z
  | None => ∀ u, u ∈ ts → ¬ (t_hosts u ≤ n)%Z
  end.
Proof.
  intros Hs. pose proof (pick_spec n ts) as Hp. destruct (pick n ts) as [[t ts']|].
  - destruct Hp as (Ht & l1 & l2 & -> & -> & Hl1). rewrite Forall_forall in Hl1.
    apply StronglySorted_app in Hs as (H12 & H1 & [H2 H2s]%StronglySorted_cons).
    split_and!; [by rewrite Permutation_delete_middle|done| |].
    + apply StronglySorted_app. split_and!; [|done..]. intros x y Hx Hy.
      apply H12; [done|]. by right.
    + intros u [Hu|[->|Hu]%elem_of_cons]%elem_of_app Hle; [|lia|].
      * specialize (Hl1 u Hu). simpl in Hl1. lia.
      * rewrite Forall_forall in H2. specialize (H2 u Hu). rewrite reverse_le_spec in H2. lia.
  - rewrite Forall_forall in Hp. intros u Hu Hle. specialize (Hp u Hu). simpl in Hp. lia.
Qed.

Lemma sort_reverse_perm ts : sort_reverse ts ≡ₚ ts.
Proof. apply merge_sort_Permutation. Qed.
End choosing.

(** ** The environment of a test *)

Lemma replace_HOSTS_first hosts env1 env env2 :
  Forall (λ e, HasPrefix e "HOSTS" = false) env1 → HasPrefix env "HOSTS" = true →
  replace_HOSTS hosts (env1 ++ env :: env2) = env1 ++ ("HOSTS=" +:+ Join hosts " ") :: env2.
Proof.
  intros H1 He. induction H1 as [|e env1 Hp H1 IH]; simpl; [by rewrite He|]. by rewrite Hp, IH.
Qed.

Lemma Fields_Join hosts :
  Forall (λ h, no_space h = true ∧ h ≠ "") hosts → Fields (Join hosts " ") = hosts.
Proof.
  induction 1 as [|h hosts [Hs Hne] Hall IH]; [done|].
  destruct hosts as [|h' hosts]; [by apply Fields_single|].
  change (Join (h :: h' :: hosts) " ") with (h +:+ String " " (Join (h' :: hosts) " ")).
  by rewrite Fields_word, IH.
Qed.

(** A test whose environment has [HOSTS] as its only variable of that prefix
    gets its own hosts: the variable, split at blanks as a shell does, gives
    them back, and every other variable is passed on. *)
Theorem run_hosts hosts env1 old env2 :
  Forall (λ e, HasPrefix e "HOSTS" = false) env1 →
  Forall (λ h, no_space h = true ∧ h ≠ "") hosts →
  ∃ value, replace_HOSTS hosts (env1 ++ ("HOSTS=" +:+ old) :: env2) =
      env1 ++ ("HOSTS=" +:+ value) :: env2 ∧ Fields value = hosts.
Proof.
  intros H1 Hh. exists (Join hosts " "). split; [|by apply Fields_Join].
  by apply replace_HOSTS_first.
Qed.

(** A variable whose name only starts with HOSTS is replaced instead, if it
    comes first; the test then runs on all hosts. *)
Example replace_HOSTS_other :
  replace_HOSTS ["h1"] ["HOSTS_FILE=/etc/hosts"; "HOSTS=h1 h2"] = ["HOSTS=h1"; "HOSTS=h1 h2"].
Proof. reflexivity. Qed.

(** ** The number of hosts *)

Section numbers.
Context {E : Type}.

Lemma numHosts_run name (e : Tool E) :
  ∃ s, last (Split (TrimSuffix name "_test.sh") "_") = Some s ∧
    numHosts name e = (Ret (match Atoi s with (n, None) => n | (_, Some _) => 1%Z end), e).
Proof.
  unfold numHosts. pose proof (Split_nonempty (TrimSuffix name "_test.sh") "_") as Hne.
  replace (length _ - 1) with (pred (length (Split (TrimSuffix name "_test.sh") "_"))) by lia.
  rewrite <-last_lookup. destruct (last _) as [s|] eqn:Hl; [|by apply last_None in Hl].
  exists s. split; [done|]. cbn [or_panic]. rewrite bind_mret.
  by destruct (Atoi s) as [n [err|]].
Qed.

(** Every test name has a number of hosts, nothing panics: the number that
    ends the name before [_test.sh], which may be negative, or else 1. *)
Theorem numHosts_spec name (e : Tool E) :
  (∃ n, numHosts name e = (Ret n, e)) ∧
  (∀ base n, int64 n → name = base +:+ "_" +:+ Itoa n +:+ "_test.sh" → numHosts name e = (Ret n, e)) ∧
  (∀ base word err, free_of "_" word = true → name = base +:+ "_" +:+ word +:+ "_test.sh" →
     (Atoi word).2 = Some err → numHosts name e = (Ret 1%Z, e)).
Proof.
  destruct (numHosts_run name e) as (s & Hlast & Hrun). rewrite Hrun.
  assert (∀ base word, free_of "_" word = true → name = base +:+ "_" +:+ word +:+ "_test.sh" →
    s = word) as Hs.
  { intros base word Hw ->. revert Hlast.
    change ("_" +:+ word +:+ "_test.sh") with (String "_" (word +:+ "_test.sh")).
    rewrite <-append_cons, <-append_assoc, TrimSuffix_app, Split_app, (Split_free word) by done.
    rewrite last_snoc. by intros [= <-]. }
  split_and!; [by eexists| |].
  - intros base n Hn Heq. rewrite (Hs base (Itoa n)) by (done || by apply free_of_Itoa).
    by rewrite ParseInt_FormatInt.
  - intros base word err Hw Heq Herr. rewrite (Hs base word) by done.
    destruct (Atoi word) as [n x]. simpl in Herr. by subst.
Qed.
End numbers.

(** ** Running the tests one after the other *)

Section sequential.
Context {E : Type} `{!System E, !Settings}.
Abbreviation W := (Tool E).

(** Every test is run on all hosts, in order; [bs] says which ones failed. *)
Inductive runs (verbose : bool) (hosts : list string) : list test → W → list bool → W → Prop :=
  | runs_nil w : runs verbose hosts [] w [] w
  | runs_cons t ts w b w1 bs w2 :
      run verbose t hosts w = (Ret b, w1) → runs verbose hosts ts w1 bs w2 →
      runs verbose hosts (t :: ts) w (b :: bs) w2.

(** Calls of the outside, printing and choices return. *)
Class Returns {A} (m : M W A) : Prop := returns w : ∃ a w', m w = (Ret a, w').

#[local] Instance returns_mret {A} (a : A) : Returns (mret a).
Proof. intros w. by eexists _, _. Qed.
#[local] Instance returns_get : Returns get.
Proof. intros w. by eexists _, _. Qed.
#[local] Instance returns_Printf s : Returns (Printf s).
Proof. intros w. by eexists _, _. Qed.
#[local] Instance returns_sys {A} (f : E → A * E) : Returns (sys f).
Proof. intros w. unfold sys. destruct (f (t_env w)). by eexists _, _. Qed.
#[local] Instance returns_bind {A B} (m : M W A) (f : A → M W B) :
  Returns m → (∀ a, Returns (f a)) → Returns (m ≫= f).
Proof.
  intros Hm Hf w. destruct (Hm w) as (a & w1 & Ha). rewrite (bind_Ret _ _ _ _ _ Ha). apply Hf.
Qed.
#[local] Instance returns_for_range {X} (xs : list X) (f : X → M W unit) :
  (∀ x, Returns (f x)) → Returns (for_range xs f).
Proof. intros Hf. induction xs; apply _. Qed.

Ltac solve_returns :=
  repeat (cbv zeta; lazymatch goal with
    | |- ∀ _, _ => intros ?
    | |- Returns _ => first [apply _ | apply returns_bind | case_match]
    end).

Lemma run_returns verbose t hosts : Returns (run verbose t hosts).
Proof. unfold run, updateScheduler. solve_returns. Qed.

Lemma summary_returns ts failed : Returns (summary ts failed).
Proof. unfold summary. solve_returns. Qed.

Lemma getSchedule_returns names : Returns (getSchedule names).
Proof. unfold getSchedule. solve_returns. Qed.

Definition failures (ts : list test) (bs : list bool) : list test :=
  (filter (λ p, Is_true p.2) (zip ts bs)).*1.

Lemma sequential_go_run verbose ts hosts failed (w : W) :
  ∃ bs w', runs verbose hosts ts w bs w' ∧
    sequential_go verbose ts hosts failed w = (Ret (failed ++ failures ts bs), w').
Proof.
  revert failed w. induction ts as [|t ts IH]; intros failed w; simpl.
  - exists [], w. split; [constructor|]. unfold failures. simpl. by rewrite app_nil_r.
  - destruct (run_returns verbose t hosts w) as (b & w1 & Hr).
    destruct (IH (if b then failed ++ [t] else failed) w1) as (bs & w2 & Hrs & Hgo).
    exists (b :: bs), w2. split; [by econstructor|].
    rewrite (bind_Ret _ _ _ _ _ Hr), Hgo. unfold failures. simpl. rewrite filter_cons. simpl.
    destruct b; simpl; [by rewrite <-app_assoc|done].
Qed.

Lemma failures_existsb verbose hosts ts w bs w' :
  runs verbose hosts ts w bs w' → bool_decide (0 < length (failures ts bs)) = existsb id bs.
Proof.
  induction 1 as [|t ts w b w1 bs w2 Hr Hrs IH]; [done|]. unfold failures in *. simpl.
  rewrite filter_cons. simpl. by destruct b.
Qed.

(** Only the output changes. *)
Lemma make_tests_run names (w : W) :
  ∃ ts w', make_tests names w = (Ret ts, w') ∧ t_env w' = t_env w ∧ t_name <$> ts = names ∧
    Forall (λ t, numHosts (t_name t) w = (Ret (t_hosts t), w)) ts.
Proof.
  revert w. induction names as [|name names IH]; intros w; simpl; [by exists [], w|].
  destruct (numHosts_run name w) as (s & Hl & Hnum). rewrite (bind_Ret _ _ _ _ _ Hnum).
  set (n := match Atoi s with (n, None) => n | (_, Some _) => 1%Z end) in *.
  erewrite bind_Ret by reflexivity. set (w1 := MkTool _ _).
  destruct (IH w1) as (ts & w' & Hts & He & Hn & Hall). rewrite (bind_Ret _ _ _ _ _ Hts).
  exists (MkTest name n :: ts), w'. split_and!; [done..|by csimpl; rewrite Hn|].
  constructor; [done|]. eapply Forall_impl; [exact Hall|]. intros t.
  destruct (numHosts_run (t_name t) w1) as (s1 & Hl1 & ->).
  destruct (numHosts_run (t_name t) w) as (s2 & Hl2 & ->).
  rewrite Hl1 in Hl2. injection Hl2 as <-. by intros [= ->].
Qed.

(** The names of the tests to run: those of the command line, or what the
    scheduling service makes of them. *)
Definition scheduled (names : list string) : M W (schedule_error + list string) :=
  if useScheduler then getSchedule names else mret (inr names).

(** What [main] adds to the output before it exits. *)
Definition complain (s : string) (w : W) : W := MkTool (t_env w) (t_out w +:+ s +:+ newline).

(** C40: a sequential run asks the scheduling service for the names when the
    flags say so, and exits with 1 before any test when that fails; otherwise it
    runs every named test once, in order, each on all hosts, and exits with 1
    exactly when one of them failed. Without hosts it exits with 1 and runs
    nothing. *)
Theorem main_sequential parallel testArgs (w : W) :
  runParallel = false →
  let verbose := verbose_flag || bool_decide (os_Getenv (t_env w) "DEBUG" ≠ "") in
  let result := main parallel testArgs w in
  ∃ r w1, scheduled testArgs w = (Ret r, w1) ∧
    match r with
    | inl err =>
        result = (Exited 1, complain ("Error parsing tests: " +:+ schedule_error_text err +:+
                                      " (" +:+ list_text testArgs +:+ ")") w1)
    | inr names => ∃ ts w2,
        t_name <$> ts = names ∧ Forall (λ t, numHosts (t_name t) w = (Ret (t_hosts t), w)) ts ∧
        t_env w2 = t_env w1 ∧
        let hosts := Fields (os_Getenv (t_env w1) "HOSTS") in
        (hosts = [] → result = (Exited 1, complain "No HOSTS specified." w2)) ∧
        (hosts ≠ [] → ∃ bs w3 w4, runs verbose hosts ts w2 bs w3 ∧
           summary ts (failures ts bs) w3 = (Ret (), w4) ∧
           result = (if existsb id bs then Exited 1 else Ret (), w4))
    end.
Proof.
  intros Hpar. cbv zeta.
  assert (Returns (scheduled testArgs)) as Hs.
  { unfold scheduled. destruct useScheduler; [apply getSchedule_returns|apply _]. }
  destruct (Hs w) as (r & w1 & Hr). exists r, w1. split; [done|].
  unfold main. erewrite bind_Ret by reflexivity. unfold getTests. fold (scheduled testArgs).
  destruct r as [err|names].
  - rewrite bind_assoc, (bind_Ret _ _ _ _ _ Hr), bind_mret. unfold complain. rewrite !append_assoc. reflexivity.
  - destruct (make_tests_run names w1) as (ts & w2 & Hts & He & Hn & Hall).
    exists ts, w2. split; [done|]. split.
    { eapply Forall_impl; [exact Hall|]. intros t.
      destruct (numHosts_run (t_name t) w1) as (s1 & Hl1 & ->).
      destruct (numHosts_run (t_name t) w) as (s2 & Hl2 & ->).
      rewrite Hl1 in Hl2. injection Hl2 as <-. by intros [= ->]. }
    split; [done|].
    rewrite bind_assoc, (bind_Ret _ _ _ _ _ Hr), bind_assoc, (bind_Ret _ _ _ _ _ Hts), bind_mret.
    erewrite bind_Ret by reflexivity. rewrite He. split.
    + intros ->. reflexivity.
    + intros Hh. rewrite decide_False by (by intros ?%nil_length_inv). rewrite Hpar. unfold sequential.
      destruct (sequential_go_run (verbose_flag || bool_decide (os_Getenv (t_env w) "DEBUG" ≠ "")) ts
        (Fields (os_Getenv (t_env w1) "HOSTS")) [] w2) as (bs & w3 & Hrs & Hgo).
      destruct (summary_returns ts (failures ts bs) w3) as ([] & w4 & Hsum).
      exists bs, w3, w4. split; [done|]. split; [done|].
      rewrite bind_assoc, (bind_Ret _ _ _ _ _ Hgo), bind_assoc, (bind_Ret _ _ _ _ _ Hsum), bind_mret.
      simpl. rewrite (failures_existsb _ _ _ _ _ _ Hrs). by destruct (existsb id bs).
Qed.

(** *** The scheduling service *)

(** The names that are posted, and those that come back. *)
Lemma getSchedule_run names shard (w : W) more e :
  Forall valid names → Forall valid shard →
  (http_Post (schedule_url (t_env w)) jsonContentType
     (encode_line (JObj [("tests", JArr (JStr <$> names))])) (t_env w)).1
    = inr (encode_line (JObj [("tests", JArr (JStr <$> shard))]) +:+ more, e) →
  (∃ sched, Decode (encode_line (JObj [("tests", JArr (JStr <$> names))]), None) zero = (sched, None) ∧
     elems (Tests sched) = names) ∧
  (getSchedule names w).1 = Ret (inr shard).
Proof.
  intros Hn Hs Hpost.
  assert (∀ l more e, Forall valid l → ∃ sched : schedule,
    Decode (encode_line (JObj [("tests", JArr (JStr <$> l))]) +:+ more, e) zero = (sched, None) ∧
    elems (Tests sched) = l) as Hdec.
  { clear. intros l more e Hl. unfold Decode. rewrite readValue_encode_line.
    - destruct (unmarshal_slice_list (A:=string) "[]string" (JStr <$> l) l) as [spare Hu].
      { clear. induction l; by constructor. }
      change (unmarshal (JArr (JStr <$> l)) NilSlice = (Slice l spare, None)) in Hu.
      cbn [unmarshal schedule_type zero]. store_members. by eexists.
    - apply numbers_ok_obj. constructor; [|done]. apply numbers_ok_arr. by apply Forall_fmap, Forall_true.
    - apply strings_ok_obj. constructor; [|done]. split; [by apply ascii_only_valid; vm_compute|].
      apply strings_ok_arr. by apply Forall_fmap. }
  split.
  - destruct (Hdec names "" None Hn) as (sched & Hd & He). rewrite append_nil_r in Hd. by exists sched.
  - unfold getSchedule. erewrite bind_Ret by reflexivity. unfold mbind at 1, M_bind at 1, sys.
    destruct (http_Post _ _ _ (t_env w)) as [r e']. simpl in Hpost. subst r.
    destruct (Hdec shard more e Hs) as (sched & -> & He). by rewrite He.
Qed.

(** An answer without the member tests, which is what a failing service might
    say, is an empty schedule: the status is not looked at. *)
Lemma getSchedule_no_tests names (w : W) :
  (∀ url ct body e, (http_Post url ct body e).1 = inr (print (JObj [("error", JStr "oops")]), None)) →
  (getSchedule names w).1 = Ret (inr []).
Proof.
  intros Hpost. unfold getSchedule. erewrite bind_Ret by reflexivity. unfold mbind at 1, M_bind at 1, sys.
  set (body := encode_line _). pose proof (Hpost (schedule_url (t_env w)) jsonContentType body (t_env w)) as Hr.
  destruct (http_Post _ _ _ (t_env w)) as [r e']. simpl in Hr. by subst r.
Qed.
End sequential.

(** ** Examples *)

Definition three_tests : list test := [MkTest "a_test.sh" 1; MkTest "b_2_test.sh" 2; MkTest "c_test.sh" 1].

Lemma pick_largest_witness :
  match pick 1 (sort_reverse three_tests) with
  | Some (t, ts) => t = MkTest "c_test.sh" 1 ∧ (t_hosts t ≤ 1)%Z
  | None => False
  end.
Proof.
  pose proof (pick_largest 1 (sort_reverse three_tests) (StronglySorted_merge_sort reverse_le _)) as Hp.
  change (pick 1 (sort_reverse three_tests)) with
    (Some (MkTest "c_test.sh" 1, [MkTest "b_2_test.sh" 2; MkTest "a_test.sh" 1])) in *.
  simpl in Hp. destruct Hp as (_ & Hle & _). split; [reflexivity|exact Hle].
Defined.

Lemma numHosts_spec_witness :
  numHosts "500_recovery_-2_test.sh" (MkTool () "") = (Ret (-2)%Z, MkTool () "") ∧
  numHosts "200_dns_test.sh" (MkTool () "") = (Ret 1%Z, MkTool () "").
Proof.
  split.
  - apply (numHosts_spec "500_recovery_-2_test.sh" (MkTool () "")) with (base := "500_recovery");
      [vm_compute; split; discriminate|reflexivity].
  - apply (numHosts_spec "200_dns_test.sh" (MkTool () "")) with (base := "200") (word := "dns") (err := ErrSyntax);
      reflexivity.
Defined.

Lemma run_hosts_witness :
  ∃ value, replace_HOSTS ["h1"; "h2"] ["PATH=/bin"; "HOSTS=h1 h2 h3"; "X=1"] =
    ["PATH=/bin"; "HOSTS=" +:+ value; "X=1"] ∧ Fields value = ["h1"; "h2"].
Proof.
  apply (run_hosts ["h1"; "h2"] ["PATH=/bin"] "h1 h2 h3" ["X=1"]);
    repeat constructor; discriminate.
Defined.

(** A system where [c_test.sh] fails after a second and a quarter, and a
    scheduling service that drops the first test. *)
#[export] Instance System_list : System (list string) := {
  os_Environ _ := ["HOSTS=h1 h2"];
  os_Getenv _ name := if decide (name = "HOSTS") then "h1 h2" else "";
  cmd_Run name env timeout e :=
    ({| r_err := if decide (name = "c_test.sh") then Some (CmdError (ExtError "exit status 1")) else None;
        r_out := "output"; r_nanos := 1250000000 |}, e ++ [name]);
  client_Do host opaque e := (None, e ++ [opaque]);
  http_Post url ct body e :=
    match Decode (body, None) (zero (A:=schedule)) with
    | (sched, _) => (inr (encode_line (JObj [("tests", JArr (JStr <$> tail (elems (Tests sched))))]), None), e ++ [url])
    end
}.

Definition settings (scheduler : bool) : Settings := {|
  useScheduler := scheduler; runParallel := false; verbose_flag := false;
  schedulerHost := "scheduler"; timeout := 180;
  c_start := ""; c_fail := ""; c_succ := ""; c_reset := ""
|}.

Lemma main_sequential_witness :
  ∃ out,
    main (H:=settings true) (λ _ _ _, mret false) ["a_test.sh"; "c_test.sh"; "b_2_test.sh"] (MkTool [] "") =
      (Exited 1, MkTool ["http://scheduler/schedule/-integration-//"; "c_test.sh"; "/record/c_test.sh/1.25"; "b_2_test.sh"] out).
Proof.
  destruct (main_sequential (H:=settings true) (λ _ _ _, mret false)
    ["a_test.sh"; "c_test.sh"; "b_2_test.sh"] (MkTool [] "") eq_refl) as (r & w1 & Hr & Hm).
  vm_compute in Hr. injection Hr as <- <-. destruct Hm as (ts & w2 & Hts & Hall & Henv & _ & Hm).
  destruct Hm as (bs & w3 & w4 & _ & _ & Hm); [discriminate|].
  eexists. vm_compute. reflexivity.
Defined.
