(* ===== verification/Parallel.v ===== *)
(** * The parallel scheduler of the test runner ([src/tools/runner/runner.go])

    The function [parallel] as a step relation in which the goroutines of
    running tests interleave with the main loop. Slices share backing arrays,
    and [append] writes into them: the scheduler is written once over an
    interface of slices and instantiated with the slices of Go, arrays in a
    memory, and with plain lists; the two are proved to behave alike. What the
    tests and the summary print is left out here. *)

From S2P Require Import Prelude Go Strs Nums Runner.

(** ** Slices *)

(** What the scheduler does with slices of hosts; [M] is the memory. *)
Class Slices (Mem Sl : Type) := {
  slice_len : Sl → nat;
  slice_to : Sl → nat → Sl;        (* s[:n], n at most the length *)
  slice_from : Sl → nat → Sl;      (* s[n:] *)
  slice_append : Mem → Sl → Sl → Mem * Sl;   (* append(s, s'...) *)
  elems : Mem → Sl → list string
}.

(** *** Slices of Go: a window into an array *)

Record slice : Set := MkSlice { arr : nat; off : nat; slen : nat; scap : nat }.

(** The arrays and the next fresh address; an array never changes its length. *)
Record memory : Set := MkMemory { arrays : gmap nat (list string); fresh_addr : nat }.

Definition slice_elems (h : memory) (s : slice) : list string :=
  take (slen s) (drop (off s) (default [] (arrays h !! arr s))).

(** [append]: in place when the capacity allows, otherwise into a new array,
    whose capacity the runtime chooses. *)
Definition append_slice (grow : nat → nat → nat) (h : memory) (s s' : slice) : memory * slice :=
  let xs := slice_elems h s' in
  let n := slen s + length xs in
  if decide (n ≤ scap s) then
    ({| arrays := alter (list_inserts (off s + slen s) xs) (arr s) (arrays h);
        fresh_addr := fresh_addr h |},
     {| arr := arr s; off := off s; slen := n; scap := scap s |})
  else
    let c := n `max` grow (scap s) n in
    ({| arrays := <[fresh_addr h := slice_elems h s ++ xs ++ replicate (c - n) ""]> (arrays h);
        fresh_addr := S (fresh_addr h) |},
     {| arr := fresh_addr h; off := 0; slen := n; scap := c |}).

Definition GoSlices (grow : nat → nat → nat) : Slices memory slice := {|
  slice_len := slen;
  slice_to s n := {| arr := arr s; off := off s; slen := n; scap := scap s |};
  slice_from s n := {| arr := arr s; off := off s + n; slen := slen s - n; scap := scap s - n |};
  slice_append := append_slice grow;
  elems := slice_elems
|}.

(** *** Lists *)

Definition ListSlices : Slices unit (list string) := {|
  slice_len := length;
  slice_to s n := take n s;
  slice_from s n := drop n s;
  slice_append _ s s' := ((), s ++ s');
  elems _ s := s
|}.

(** ** The parallel scheduler *)

Inductive main_pc : Set :=
  | AtOuter                 (* the condition of the outer loop *)
  | AtInner                 (* the condition of the inner loop *)
  | AtReceive               (* <-resultsChan *)
  | Returned (errored : bool)
  | Crashed (p : panic).

Inductive par_label : Set :=
  | LStart (t : test) (hosts : list string)
  | LFinish (t : test) (errored : bool).

Section parallel.
Context {Mem Sl : Type} {SI : Slices Mem Sl}.

(** A goroutine: running its test, or sending the result it has got. *)
Record worker : Type := MkWorker { w_test : test; w_hosts : Sl; w_errored : option bool }.

Record pstate : Type := MkPState {
  p_ts : list test;
  p_hosts : Sl;
  p_mem : Mem;
  p_outstanding : nat;
  p_failed : list test;
  p_workers : list worker;
  p_pc : main_pc
}.

Inductive par_step : pstate → option par_label → pstate → Prop :=
  (* for len(ts) > 0 || outstanding > 0 *)
  | par_outer ts hs h n failed ws :
      0 < length ts ∨ 0 < n →
      par_step (MkPState ts hs h n failed ws AtOuter) None
               (MkPState ts hs h n failed ws AtInner)
  | par_return hs h failed ws :
      par_step (MkPState [] hs h 0 failed ws AtOuter) None
               (MkPState [] hs h 0 failed ws (Returned (bool_decide (0 < length failed))))
  (* for len(hosts) > 0 { test, ok := ts.pick(len(hosts)) ... *)
  | par_break ts hs h n failed ws :
      slice_len hs = 0 ∨ pick (Z.of_nat (slice_len hs)) ts = None →
      par_step (MkPState ts hs h n failed ws AtInner) None
               (MkPState ts hs h n failed ws AtReceive)
  | par_start ts hs h n failed ws t ts' testHosts :
      0 < slice_len hs →
      pick (Z.of_nat (slice_len hs)) ts = Some (t, ts') →
      (0 ≤ t_hosts t)%Z →
      testHosts = slice_to hs (Z.to_nat (t_hosts t)) →
      par_step (MkPState ts hs h n failed ws AtInner) (Some (LStart t (elems h testHosts)))
               (MkPState ts' (slice_from hs (Z.to_nat (t_hosts t))) h (S n) failed
                         (ws ++ [MkWorker t testHosts None]) AtInner)
  | par_crash ts hs h n failed ws t ts' :
      0 < slice_len hs →
      pick (Z.of_nat (slice_len hs)) ts = Some (t, ts') →
      (t_hosts t < 0)%Z →
      par_step (MkPState ts hs h n failed ws AtInner) None
               (MkPState ts' hs h n failed ws (Crashed SliceOutOfRange))
  (* errored := test.run(testHosts) *)
  | par_finish ts hs h n failed ws1 ws2 t ths errored pc :
      (∀ p, pc ≠ Crashed p) → (∀ b, pc ≠ Returned b) →
      par_step (MkPState ts hs h n failed (ws1 ++ MkWorker t ths None :: ws2) pc)
               (Some (LFinish t errored))
               (MkPState ts hs h n failed (ws1 ++ MkWorker t ths (Some errored) :: ws2) pc)
  (* result := <-resultsChan *)
  | par_receive ts hs h n failed ws1 ws2 t ths (errored : bool) h' hs' :
      slice_append h hs ths = (h', hs') →
      par_step (MkPState ts hs h n failed (ws1 ++ MkWorker t ths (Some errored) :: ws2) AtReceive)
               None
               (MkPState ts hs' h' (pred n) (if errored then failed ++ [t] else failed)
                         (ws1 ++ ws2) AtOuter).

(** [parallel(ts, hosts)], from its first line *)
Definition par_init (ts : list test) (h : Mem) (hosts : Sl) : pstate :=
  MkPState (sort_reverse ts) hosts h 0 [] [] AtOuter.
End parallel.
Arguments worker : clear implicits.
Arguments pstate : clear implicits.
Arguments par_step {Mem Sl} SI.

(** ** Slices of Go behave like lists *)

Section slices.
Context (grow : nat → nat → nat).
Implicit Types (h : memory) (s : slice).

(** The window of a slice, up to its capacity, lies in its array. *)
Definition valid h s : Prop :=
  slen s ≤ scap s ∧ ∃ l, arrays h !! arr s = Some l ∧ off s + scap s ≤ length l.

Definition memory_ok h : Prop := ∀ a, is_Some (arrays h !! a) → a < fresh_addr h.

(** [s] ends before [pool] starts: appending to [pool] leaves [s] alone. *)
Definition apart s pool : Prop := arr s = arr pool → off s + slen s ≤ off pool.

Lemma length_slice_elems h s : valid h s → length (slice_elems h s) = slen s.
Proof.
  intros (Hc & l & Hl & Hlen). unfold slice_elems. rewrite Hl. simpl.
  rewrite length_take, length_drop. lia.
Qed.

Lemma slice_elems_to h s n :
  n ≤ slen s →
  slice_elems h {| arr := arr s; off := off s; slen := n; scap := scap s |} = take n (slice_elems h s).
Proof. intros Hn. unfold slice_elems. simpl. rewrite take_take. f_equal. lia. Qed.

Lemma slice_elems_from h s n :
  n ≤ slen s →
  slice_elems h {| arr := arr s; off := off s + n; slen := slen s - n; scap := scap s - n |} =
    drop n (slice_elems h s).
Proof. intros Hn. unfold slice_elems. simpl. rewrite <-drop_drop, take_drop_commute. do 2 f_equal. lia. Qed.

(** Writing into an array at or after the end of a window. *)
Lemma window_inserts_before (l xs : list string) i o n :
  o + n ≤ i → take n (drop o (list_inserts i xs l)) = take n (drop o l).
Proof.
  intros Hi. apply list_eq. intros j. rewrite !lookup_take. case_decide; [|done].
  rewrite !lookup_drop. apply list_lookup_inserts_lt. lia.
Qed.
Lemma window_inserts_at (l xs : list string) o n :
  o + n + length xs ≤ length l →
  take (n + length xs) (drop o (list_inserts (o + n) xs l)) = take n (drop o l) ++ xs.
Proof.
  intros Hlen. apply list_eq. intros j. rewrite lookup_take, lookup_drop.
  assert (length (take n (drop o l)) = n) as Hn by (rewrite length_take, length_drop; lia).
  case_decide.
  - destruct (decide (j < n)).
    + rewrite lookup_app_l by lia. rewrite list_lookup_inserts_lt by lia.
      by rewrite lookup_take_lt, lookup_drop by done.
    + rewrite lookup_app_r, list_lookup_inserts by lia. rewrite Hn. f_equal. lia.
  - symmetry. apply lookup_ge_None. rewrite length_app. lia.
Qed.

(** [append] gives the elements of both, and leaves every slice that is apart
    from the first as it is. *)
Lemma append_slice_spec h s s' h' r :
  append_slice grow h s s' = (h', r) → memory_ok h → valid h s → valid h s' →
  memory_ok h' ∧ valid h' r ∧ slice_elems h' r = slice_elems h s ++ slice_elems h s' ∧
  ∀ w, valid h w → apart w s →
    slice_elems h' w = slice_elems h w ∧ valid h' w ∧ apart w r.
Proof.
  intros Happ Hok Hs Hs'. pose proof (length_slice_elems h s Hs) as Hlen.
  unfold append_slice in Happ. set (xs := slice_elems h s') in *.
  pose proof Hs as (Hcap & l & Hl & Hoff).
  case_decide as Hfit; simplify_eq/=; split_and!.
  - intros a [l' Ha]. simpl in *. rewrite lookup_alter in Ha. apply Hok. case_decide; [subst; by rewrite Hl|by eexists].
  - split; [done|]. exists (list_inserts (off s + slen s) xs l). simpl.
    by rewrite lookup_alter_eq, Hl, length_inserts.
  - unfold slice_elems at 1 2. simpl. rewrite lookup_alter_eq, Hl. simpl.
    apply window_inserts_at. lia.
  - intros w (Hcw & lw & Hlw & Hoffw) Hap. unfold slice_elems, apart in *. simpl.
    destruct (decide (arr w = arr s)) as [Heq|Hne].
    + rewrite Heq in *. rewrite lookup_alter_eq, Hl. simpl.
      rewrite window_inserts_before by (specialize (Hap eq_refl); lia).
      split_and!; [done| |auto]. split; [done|]. exists (list_inserts (off s + slen s) xs l).
      simpl. rewrite Heq, lookup_alter_eq, Hl, length_inserts. split; [done|]. by simplify_eq.
    + rewrite lookup_alter_ne by done. split_and!; [done| |done]. split; [done|].
      exists lw. simpl. by rewrite lookup_alter_ne by done.
  - intros a [l' Ha]. simpl in *. apply lookup_insert_Some in Ha as [[<- _]|[_ Ha]]; [lia|].
    assert (a < fresh_addr h) by by apply Hok. lia.
  - split; [simpl; lia|]. eexists. simpl. rewrite lookup_insert_eq. split; [done|].
    rewrite !length_app, length_replicate. fold xs. lia.
  - unfold slice_elems at 1. simpl. rewrite lookup_insert_eq. simpl. rewrite drop_0.
    rewrite app_assoc, take_app_le by (rewrite length_app; lia).
    apply take_ge. rewrite length_app. lia.
  - intros w (Hcw & lw & Hlw & Hoffw) _.
    assert (arr w ≠ fresh_addr h) as Hne.
    { intros Heq. assert (arr w < fresh_addr h) by (apply Hok; by eexists). lia. }
    unfold slice_elems, apart. simpl. rewrite lookup_insert_ne by done.
    split_and!; [done| |done]. split; [done|]. exists lw. simpl. by rewrite lookup_insert_ne.
Qed.
End slices.

(** ** The scheduler on slices refines the scheduler on lists *)

Section refinement.
Context (grow : nat → nat → nat).
Abbreviation concrete := (pstate memory slice).
Abbreviation abstract := (pstate unit (list string)).

Record same_worker (h : memory) (pool : slice) (w : worker slice) (a : worker (list string)) : Prop := {
  sw_test : w_test w = w_test a;
  sw_errored : w_errored w = w_errored a;
  sw_hosts : slice_elems h (w_hosts w) = w_hosts a;
  sw_valid : valid h (w_hosts w);
  sw_apart : apart (w_hosts w) pool
}.

Record refines (c : concrete) (a : abstract) : Prop := {
  ref_ts : p_ts c = p_ts a;
  ref_hosts : slice_elems (p_mem c) (p_hosts c) = p_hosts a;
  ref_outstanding : p_outstanding c = p_outstanding a;
  ref_failed : p_failed c = p_failed a;
  ref_pc : p_pc c = p_pc a;
  ref_workers : Forall2 (same_worker (p_mem c) (p_hosts c)) (p_workers c) (p_workers a);
  ref_valid : valid (p_mem c) (p_hosts c);
  ref_memory : memory_ok (p_mem c)
}.

Lemma same_worker_pool h s k w a :
  same_worker h s w a →
  same_worker h {| arr := arr s; off := off s + k; slen := slen s - k; scap := scap s - k |} w a.
Proof.
  intros [???? Hap]. split; [done..|]. intros Heq. specialize (Hap Heq). simpl. lia.
Qed.

Lemma append_workers h s s' h' r ws was :
  append_slice grow h s s' = (h', r) → memory_ok h → valid h s → valid h s' →
  Forall2 (same_worker h s) ws was → Forall2 (same_worker h' r) ws was.
Proof.
  intros Happ Hok Hs Hs' Hws. eapply Forall2_impl; [exact Hws|]. intros w a [? ? Hh Hv Hap].
  destruct (append_slice_spec grow h s s' h' r Happ Hok Hs Hs') as (_ & _ & _ & Hw).
  destruct (Hw _ Hv Hap) as (He & ? & ?). split; [done..| |done|done]. congruence.
Qed.

Lemma refines_step c l c' a :
  refines c a → par_step (GoSlices grow) c l c' →
  ∃ a', refines c' a' ∧ par_step ListSlices a l a'.
Proof.
  intros [Hts Hhs Hn Hf Hpc Hws Hv Hok] Hstep.
  destruct a as [ts' hs' [] n' failed' was pc'].
  destruct Hstep as [ts hs h n failed ws Hg|hs h failed ws|ts hs h n failed ws Hb|
    ts hs h n failed ws t ts1 ths Hl Hp Hnn ->|ts hs h n failed ws t ts1 Hl Hp Hneg|
    ts hs h n failed ws1 ws2 t ths errored pc Hc Hr|
    ts hs h n failed ws1 ws2 t ths errored h1 hs1 Happ]; simpl in *; subst.
  all: pose proof (length_slice_elems h hs Hv) as Hlen.
  - eexists. split; [|by apply par_outer]. by split.
  - eexists. split; [|by apply par_return]. by split.
  - eexists. split; [|apply par_break; simpl; by rewrite Hlen]. by split.
  - destruct (pick_perm _ _ _ _ Hp) as [_ Hfit].
    assert (Z.to_nat (t_hosts t) ≤ slen hs) as Hk by lia.
    rewrite slice_elems_to by done.
    eexists. split; [|eapply (par_start (SI:=ListSlices)); simpl; rewrite ?Hlen; done].
    split; simpl; [done|by rewrite slice_elems_from|done..| | |done].
    + apply Forall2_app; [eapply Forall2_impl; [done|]; intros; by apply same_worker_pool|].
      constructor; [|constructor]. destruct Hv as (Hcap & arr0 & Harr & Hoff).
      split; simpl; [done|done|by rewrite slice_elems_to| |].
      * split; simpl; [lia|]. by exists arr0.
      * intros _. simpl. lia.
    + destruct Hv as (Hcap & arr0 & Harr & Hoff). split; simpl; [lia|]. exists arr0. split; [done|lia].
  - eexists. split; [|eapply (par_crash (SI:=ListSlices)); simpl; by rewrite ?Hlen]. by split.
  - apply Forall2_app_inv_l in Hws as (was1 & was2 & Hws1 & Hws2 & ->).
    apply Forall2_cons_inv_l in Hws2 as ([t' ths' e'] & was3 & Hw & Hws3 & ->).
    destruct Hw as [He1 He2 He3 He4 He5]. simpl in *. subst.
    eexists. split; [|by apply par_finish]. split; simpl; try done.
    apply Forall2_app; [done|]. constructor; [by split|done].
  - apply Forall2_app_inv_l in Hws as (was1 & was2 & Hws1 & Hws2 & ->).
    apply Forall2_cons_inv_l in Hws2 as ([t' ths' e'] & was3 & Hw & Hws3 & ->).
    destruct Hw as [He1 He2 He3 He4 He5]. simpl in *. subst.
    destruct (append_slice_spec grow h hs ths h1 hs1 Happ Hok Hv He4) as (Hok1 & Hv1 & Helems & _).
    eexists. split; [|by apply par_receive]. split; simpl; [done..| |done|done].
    eapply append_workers; [done..|]. by apply Forall2_app.
Qed.

(** The slice [strings.Fields] returns: an array of its own. *)
Definition fields_memory (hosts : list string) : memory := MkMemory {[0 := hosts]} 1.
Definition fields_slice (hosts : list string) : slice :=
  MkSlice 0 0 (length hosts) (length hosts).

Lemma par_init_refines ts hosts :
  refines (par_init ts (fields_memory hosts) (fields_slice hosts)) (par_init ts () hosts).
Proof.
  split; simpl; try done.
  - unfold slice_elems. simpl. by rewrite lookup_singleton_eq, drop_0, firstn_all.
  - split; [done|]. exists hosts. simpl. by rewrite lookup_singleton_eq.
  - intros a [l Hl]. simpl in *. apply lookup_singleton_Some in Hl as [<- _]. lia.
Qed.

Lemma par_simulation ts hosts ls c :
  execution (par_step (GoSlices grow)) (par_init ts (fields_memory hosts) (fields_slice hosts)) ls c →
  ∃ a, execution (par_step ListSlices) (par_init ts () hosts) ls a ∧ refines c a.
Proof.
  intros He. eapply execution_simulation; [|exact He|apply par_init_refines].
  intros c1 l c2 a1 Hr Hs. destruct (refines_step _ _ _ _ Hr Hs) as (a2 & ? & ?). eauto.
Qed.
End refinement.

(** ** What the scheduler does *)

Definition starts (ls : list par_label) : list test :=
  ls ≫= λ l, match l with LStart t _ => [t] | _ => [] end.
Definition finishes (ls : list par_label) : list (test * bool) :=
  ls ≫= λ l, match l with LFinish t errored => [(t, errored)] | _ => [] end.

Lemma starts_app ls ls' : starts (ls ++ ls') = starts ls ++ starts ls'.
Proof. apply bind_app. Qed.
Lemma finishes_app ls ls' : finishes (ls ++ ls') = finishes ls ++ finishes ls'.
Proof. apply bind_app. Qed.

Section termination.
Context {Mem Sl : Type} {SI : Slices Mem Sl}.

Definition worker_weight (w : worker Sl) : nat :=
  match w_errored w with None => 4 | Some _ => 3 end.
Definition pc_weight (pc : main_pc) : nat :=
  match pc with AtOuter => 2 | AtInner => 1 | _ => 0 end.
(** What is left to do: tests to start, goroutines to wait for, and the way of
    the main loop to its next wait. *)
Definition weight (s : pstate Mem Sl) : nat :=
  6 * length (p_ts s) + sum_list_with worker_weight (p_workers s) + pc_weight (p_pc s).

Lemma par_step_weight s l s' : par_step SI s l s' → weight s' < weight s.
Proof.
  destruct 1 as [ | | |ts hs h n failed ws t ts' ths Hl Hp Hnn|ts hs h n failed ws t ts' Hl Hp Hneg| | ];
    unfold weight; simpl; rewrite ?sum_list_with_app; simpl; try lia.
  - destruct (pick_perm _ _ _ _ Hp) as [Hts%Permutation_length _]. simpl in Hts.
    lia.
  - destruct (pick_perm _ _ _ _ Hp) as [Hts%Permutation_length _]. simpl in Hts. lia.
Qed.

(** C24: the parallel runner terminates under every scheduling of its goroutines:
    there is no infinite sequence of steps. *)
Theorem par_terminates : well_founded (λ s' s, ∃ l, par_step SI s l s').
Proof.
  apply (wf_projected lt weight); [|apply lt_wf]. intros s' s [l Hs]. by apply par_step_weight in Hs.
Qed.
End termination.

Section lists.
Abbreviation abstract := (pstate unit (list string)).
Abbreviation step := (par_step ListSlices).
Implicit Types (a : abstract) (ls : list par_label).

(** Where the hosts are: in the pool or with a running test. *)
Definition pool_and_held a : list string :=
  p_hosts a ++ (p_workers a ≫= w_hosts).

Definition running a : list test :=
  p_workers a ≫= λ w, match w_errored w with None => [w_test w] | Some _ => [] end.
Definition sending a : list (test * bool) :=
  p_workers a ≫= λ w, match w_errored w with Some e => [(w_test w, e)] | None => [] end.

Definition errored_tests (rs : list (test * bool)) : list test :=
  rs ≫= λ r, if r.2 : bool then [r.1] else [].

(** Every step keeps the hosts, and its label accounts for the tests. *)
Record accounts a ls a' : Prop := {
  acc_hosts : pool_and_held a' ≡ₚ pool_and_held a;
  acc_crashed p : p_pc a = Crashed p → a' = a;
  acc_starts : (∀ p, p_pc a' ≠ Crashed p) → starts ls ++ p_ts a' ≡ₚ p_ts a;
  acc_ts : p_ts a' ⊆ p_ts a;
  acc_running : (finishes ls).*1 ++ running a' ≡ₚ running a ++ starts ls;
  acc_failed : p_failed a' ++ errored_tests (sending a') ≡ₚ
               p_failed a ++ errored_tests (sending a) ++ errored_tests (finishes ls);
  acc_held t hs : LStart t hs ∈ ls →
    Z.of_nat (length hs) = t_hosts t ∧ hs ⊆+ pool_and_held a;
  acc_workers w : w ∈ p_workers a' →
    (∃ e, MkWorker (w_test w) (w_hosts w) e ∈ p_workers a) ∨ LStart (w_test w) (w_hosts w) ∈ ls
}.

Lemma errored_tests_app rs rs' : errored_tests (rs ++ rs') = errored_tests rs ++ errored_tests rs'.
Proof. apply bind_app. Qed.

Lemma accounts_refl a : accounts a [] a.
Proof.
  split; simpl; rewrite ?app_nil_r; try done.
  - intros t hs H. by apply not_elem_of_nil in H.
  - intros [t hs e] Hw. left. by exists e.
Qed.

Lemma accounts_trans a1 a2 a3 ls ls' :
  accounts a1 ls a2 → accounts a2 ls' a3 → accounts a1 (ls ++ ls') a3.
Proof.
  intros [H1 H2 H3 H4 H5 H6 H7 H8] [K1 K2 K3 K4 K5 K6 K7 K8].
  split; rewrite ?starts_app, ?finishes_app.
  - by rewrite K1.
  - intros p Hp. rewrite <-(H2 p Hp). apply (K2 p). by rewrite (H2 p Hp).
  - intros Hc. rewrite <-H3, <-(K3 Hc), app_assoc; [done|]. intros p Hp.
    apply (Hc p). by rewrite (K2 p Hp).
  - by rewrite K4.
  - rewrite fmap_app, <-app_assoc, K5, app_assoc, H5. by rewrite app_assoc.
  - rewrite K6, errored_tests_app, app_assoc, H6. by rewrite <-!app_assoc.
  - intros t hs [Hin|Hin]%elem_of_app; [auto|]. rewrite <-H1. auto.
  - intros w [(e & He)|?]%K8; rewrite elem_of_app; [|by auto].
    destruct (H8 _ He) as [?|?]; auto.
Qed.

(** Solve what holds by computation of the fields of [accounts]. *)
Ltac account :=
  split; unfold pool_and_held, running, sending, starts, finishes; simpl;
    rewrite ?bind_app; simpl; rewrite ?app_nil_r; try done.

Lemma errored_tests_cons t (errored : bool) rs :
  errored_tests ((t, errored) :: rs) = (if errored then [t] else []) ++ errored_tests rs.
Proof. done. Qed.

Lemma accounts_start ts hs h n failed ws t ts' :
  pick (Z.of_nat (length hs)) ts = Some (t, ts') → (0 ≤ t_hosts t)%Z →
  accounts (MkPState ts hs h n failed ws AtInner)
    [LStart t (take (Z.to_nat (t_hosts t)) hs)]
    (MkPState ts' (drop (Z.to_nat (t_hosts t)) hs) h (S n) failed
      (ws ++ [MkWorker t (take (Z.to_nat (t_hosts t)) hs) None]) AtInner).
Proof.
  intros Hp Hnn. destruct (pick_perm _ _ _ _ Hp) as [Hts Hfit]. account.
  - rewrite <-(take_drop (Z.to_nat (t_hosts t)) hs) at 3.
    rewrite (app_assoc (drop _ _)), (Permutation_app_comm (_ ++ _) (take _ _)).
    by rewrite app_assoc.
  - intros x. rewrite Hts. by right.
  - intros t' hs' [= -> ->]%list_elem_of_singleton. split; [rewrite length_take; simpl in Hfit; lia|].
    apply submseteq_inserts_r, sublist_submseteq, sublist_take.
  - intros w [Hw| ->%list_elem_of_singleton]%elem_of_app.
    + left. exists (w_errored w). by destruct w.
    + right. by left.
Qed.

Lemma accounts_finish ts hs h n failed ws1 ws2 t ths errored pc :
  (∀ p, pc ≠ Crashed p) →
  accounts (MkPState ts hs h n failed (ws1 ++ MkWorker t ths None :: ws2) pc)
    [LFinish t errored]
    (MkPState ts hs h n failed (ws1 ++ MkWorker t ths (Some errored) :: ws2) pc).
Proof.
  intros Hc. account.
  - intros p Hp. by destruct (Hc p).
  - by rewrite <-Permutation_middle.
  - rewrite !errored_tests_app, !errored_tests_cons. destruct errored; simpl; rewrite ?app_nil_r; [|done]. f_equiv.
    by rewrite <-Permutation_middle, Permutation_cons_append.
  - intros t' hs' Hin. apply list_elem_of_singleton in Hin. done.
  - intros w [Hw|[->|Hw]%elem_of_cons]%elem_of_app; left.
    + exists (w_errored w). apply elem_of_app. left. by destruct w.
    + exists None. simpl. apply elem_of_app. right. by left.
    + exists (w_errored w). apply elem_of_app. right. right. by destruct w.
Qed.

Lemma accounts_receive ts hs h h' n failed ws1 ws2 t ths (errored : bool) :
  accounts (MkPState ts hs h n failed (ws1 ++ MkWorker t ths (Some errored) :: ws2) AtReceive) []
    (MkPState ts (hs ++ ths) h' (pred n) (if errored then failed ++ [t] else failed) (ws1 ++ ws2) AtOuter).
Proof.
  account.
  - rewrite <-!app_assoc. apply Permutation_app_head, Permutation_app_swap_app.
  - rewrite !errored_tests_app, !errored_tests_cons. destruct errored; simpl; [|done]. rewrite <-!app_assoc.
    apply Permutation_app_head. exact (Permutation_middle _ _ t).
  - intros t' hs' Hin. by apply not_elem_of_nil in Hin.
  - intros w Hw. left. exists (w_errored w). apply elem_of_app in Hw as [Hw|Hw];
      apply elem_of_app; [left|right; right]; by destruct w.
Qed.

Lemma accounts_step a l a' : step a l a' → accounts a (option_list l) a'.
Proof.
  assert (∀ ts hs h n f ws pc pc', (∀ p, pc ≠ Crashed p) →
    accounts (MkPState ts hs h n f ws pc) [] (MkPState ts hs h n f ws pc')) as Hpc.
  { intros ts hs h n f ws pc pc' Hp. destruct (accounts_refl (MkPState ts hs h n f ws pc)).
    split; try done. intros p Heq. by destruct (Hp p). }
  destruct 1 as [ | | |ts hs h n failed ws t ts' ths Hl Hp Hnn ->|ts hs h n failed ws t ts' Hl Hp Hneg|
    ts hs h n failed ws1 ws2 t ths errored pc Hc Hr|
    ts hs h n failed ws1 ws2 t ths errored h1 hs1 Happ]; simpl; try by apply Hpc.
  - by apply accounts_start.
  - destruct (pick_perm _ _ _ _ Hp) as [Hts Hfit].
    destruct (accounts_refl (MkPState ts hs h n failed ws AtInner)).
    split; try done; simpl.
    + intros Hc. by destruct (Hc SliceOutOfRange).
    + intros x. rewrite Hts. by right.
  - by apply accounts_finish.
  - simpl in Happ. simplify_eq. apply accounts_receive.
Qed.

Lemma par_accounts a ls a' : execution step a ls a' → accounts a ls a'.
Proof.
  apply execution_trace; [exact accounts_refl|exact accounts_step|exact accounts_trans].
Qed.

(** The counter of the main loop counts the goroutines; it waits only when no
    test fits, and not for nothing. *)
Record waiting_ok a : Prop := {
  wait_outstanding : (∀ p, p_pc a ≠ Crashed p) → p_outstanding a = length (p_workers a);
  wait_some : p_pc a = AtInner ∨ p_pc a = AtReceive → p_ts a ≠ [] ∨ p_workers a ≠ [];
  wait_fits : p_pc a = AtReceive →
    p_hosts a = [] ∨ pick (Z.of_nat (length (p_hosts a))) (p_ts a) = None;
  wait_done b : p_pc a = Returned b →
    p_ts a = [] ∧ p_workers a = [] ∧ b = bool_decide (0 < length (p_failed a))
}.

Lemma waiting_ok_step a l a' : waiting_ok a → step a l a' → waiting_ok a'.
Proof.
  intros [H1 H2 H3 H4] Hs.
  destruct Hs as [ts hs h n failed ws Hg|hs h failed ws|ts hs h n failed ws Hb|
    ts hs h n failed ws t ts' ths Hl Hp Hnn ->|ts hs h n failed ws t ts' Hl Hp Hneg|
    ts hs h n failed ws1 ws2 t ths errored pc Hc Hr|
    ts hs h n failed ws1 ws2 t ths errored h1 hs1 Happ]; split; simpl in *; try done.
  - intros _. by apply H1.
  - intros _. rewrite H1 in Hg by done. destruct ts, ws; simpl in *; auto; lia.
  - intros _. by apply H1.
  - by intros [?|?].
  - intros b [= <-]. assert (length ws = 0) by (by rewrite <-H1). by destruct ws.
  - intros _. by apply H1.
  - intros _. by apply H2; left.
  - intros _. destruct Hb as [Hb|Hb]; [left; by apply nil_length_inv|by right].
  - intros _. rewrite length_app, H1 by done. simpl. lia.
  - intros _. right. by destruct ws.
  - intros Hc. by destruct (Hc SliceOutOfRange).
  - by intros [?|?].
  - intros Hp. rewrite H1 by done. rewrite !length_app. done.
  - intros _. right. by destruct ws1.
  - intros b Hb. by destruct (Hr b).
  - intros _. rewrite H1 by done. rewrite !length_app. simpl. lia.
  - by intros [?|?].
Qed.

Lemma par_init_waiting ts hosts : waiting_ok (par_init ts () hosts).
Proof. split; simpl; try done. by intros [?|?]. Qed.

Lemma reachable_waiting ts hosts ls a :
  execution step (par_init ts () hosts) ls a → waiting_ok a.
Proof.
  intros He. eapply execution_invariant; [exact waiting_ok_step|exact He|apply par_init_waiting].
Qed.
End lists.

Section parallel_claims.
Context (grow : nat → nat → nat).
Abbreviation step := (par_step (GoSlices grow)).
Abbreviation init ts hosts := (par_init ts (fields_memory hosts) (fields_slice hosts)).
Implicit Types (c : pstate memory slice) (ls : list par_label).

(** C11: the parallel scheduler, whose slices of hosts share arrays that [append]
    writes into, does exactly what it would do with lists of hosts of their
    own, whatever capacities the runtime chooses. *)
Theorem par_refines ts hosts ls c :
  execution (par_step (GoSlices grow)) (par_init ts (fields_memory hosts) (fields_slice hosts)) ls c →
  ∃ a, execution (par_step ListSlices) (par_init ts () hosts) ls a ∧
    p_ts c = p_ts a ∧ p_failed c = p_failed a ∧ p_pc c = p_pc a ∧
    slice_elems (p_mem c) (p_hosts c) = p_hosts a ∧
    (λ w, (w_test w, slice_elems (p_mem c) (w_hosts w), w_errored w)) <$> p_workers c =
    (λ w, (w_test w, w_hosts w, w_errored w)) <$> p_workers a.
Proof.
  intros (a & He & [? ? ? ? ? Hws ? ?])%par_simulation. exists a. split_and!; try done.
  clear -Hws. induction Hws as [|w w' ws ws' [Ht Herr Hh _ _] Hws IH]; [done|].
  csimpl. by rewrite Ht, Herr, Hh, IH.
Qed.

Lemma held_same h pool ws was :
  Forall2 (same_worker h pool) ws was →
  (ws ≫= λ w, slice_elems h (w_hosts w)) = was ≫= w_hosts.
Proof. induction 1 as [|w w' ws ws' [_ _ Hh _ _] Hws IH]; csimpl; [done|]. by rewrite Hh, IH. Qed.

(** C18: no two tests that run at the same time share a host, and none is lost:
    at every moment the pool and the slices of the running tests together hold
    each of the hosts once, and the slice of a running test still holds the
    hosts the test was started with. *)
Theorem par_hosts_exclusive ts hosts ls c :
  execution (par_step (GoSlices grow)) (par_init ts (fields_memory hosts) (fields_slice hosts)) ls c →
  slice_elems (p_mem c) (p_hosts c) ++
    (p_workers c ≫= λ w, slice_elems (p_mem c) (w_hosts w)) ≡ₚ hosts ∧
  ∀ w, w ∈ p_workers c → LStart (w_test w) (slice_elems (p_mem c) (w_hosts w)) ∈ ls.
Proof.
  intros (a & He & [_ Hhs _ _ _ Hws _ _])%par_simulation. pose proof (par_accounts _ _ _ He) as Hacc.
  split.
  - rewrite Hhs, (held_same _ _ _ _ Hws). etrans; [apply (acc_hosts _ _ _ Hacc)|].
    unfold pool_and_held. simpl. by rewrite app_nil_r.
  - intros w [i Hi]%list_elem_of_lookup.
    destruct (Forall2_lookup_l _ _ _ _ _ Hws Hi) as (w' & Hi' & [Ht _ Hh _ _]).
    rewrite Ht, Hh. apply list_elem_of_lookup_2 in Hi'.
    destruct (acc_workers _ _ _ Hacc w' Hi') as [[e Hin]|?]; [|done].
    by apply not_elem_of_nil in Hin.
Qed.

Lemma errored_existsb rs : bool_decide (0 < length (errored_tests rs)) = existsb snd rs.
Proof.
  unfold errored_tests. induction rs as [|[t []] rs IH]; [done| |done].
  by rewrite bool_decide_true by (csimpl; lia).
Qed.

(** Where the list scheduler stands when it has returned. *)
Lemma returned_accounts ts hosts ls a b :
  execution (par_step ListSlices) (par_init ts () hosts) ls a → p_pc a = Returned b →
  starts ls ≡ₚ ts ∧ (finishes ls).*1 ≡ₚ ts ∧ b = existsb snd (finishes ls).
Proof.
  intros He Hpc. pose proof (par_accounts _ _ _ He) as [_ _ Hst _ Hrun Hfail _ _].
  destruct (wait_done _ (reachable_waiting _ _ _ _ He) b Hpc) as (Hts & Hws & ->).
  rewrite Hpc, Hts, app_nil_r in Hst. unfold running, sending in *. rewrite Hws in Hrun, Hfail.
  simpl in *. rewrite !app_nil_r in *.
  assert (starts ls ≡ₚ ts) as Hs by (rewrite Hst, sort_reverse_perm; done).
  split_and!; [done|by rewrite Hrun|]. rewrite <-errored_existsb.
  by rewrite (Permutation_length Hfail).
Qed.

(** The main goroutine, or one that runs a test, can go on. *)
Lemma par_progress ts hosts h n failed ws pc :
  n = length ws → (∀ b, pc ≠ Returned b) → (∀ p, pc ≠ Crashed p) →
  Forall (λ t, 0 ≤ t_hosts t)%Z ts → (pc = AtReceive → ws ≠ []) →
  ∃ l c', step (MkPState ts hosts h n failed ws pc) l c'.
Proof.
  intros -> Hnr Hnc Hnn Hws. destruct pc as [| | |b|p]; [| | |by destruct (Hnr b)|by destruct (Hnc p)].
  - destruct ts as [|t ts]; [destruct ws as [|w ws]|]; eexists _, _;
      [apply par_return|apply par_outer; simpl; lia|apply par_outer; simpl; lia].
  - destruct (decide (slen hosts = 0)); [eexists _, _; apply par_break; by left|].
    destruct (pick (Z.of_nat (slen hosts)) ts) as [[t ts']|] eqn:Hp;
      [|eexists _, _; apply par_break; by right].
    assert (0 ≤ t_hosts t)%Z.
    { destruct (pick_perm _ _ _ _ Hp) as [Hts _]. rewrite Hts in Hnn. by inv Hnn. }
    eexists _, _. eapply par_start; [|exact Hp|done|done]. simpl. lia.
  - specialize (Hws eq_refl). destruct ws as [|[t ths [e|]] ws]; [done|..].
    + destruct (append_slice grow h hosts ths) as [h' hs'] eqn:Happ.
      eexists _, _. eapply (par_receive _ _ _ _ _ []). exact Happ.
    + eexists _, _. by apply (par_finish _ _ _ _ _ [] _ t ths true).
Qed.

Lemma accounts_crash_free ts hosts ls a p :
  Forall (λ t, 0 ≤ t_hosts t)%Z ts →
  execution (par_step ListSlices) (par_init ts () hosts) ls a → p_pc a ≠ Crashed p.
Proof.
  intros Hnn He.
  eapply (execution_invariant (par_step ListSlices)
    (λ a, Forall (λ t, 0 ≤ t_hosts t)%Z (p_ts a) ∧ ∀ p, p_pc a ≠ Crashed p)) in He; [by apply He| |].
  - clear. intros a l a' [Hnn Hc] Hs.
    assert (Forall (λ t, 0 ≤ t_hosts t)%Z (p_ts a')) as Hnn'.
    { rewrite Forall_forall in *. intros t Ht. apply Hnn. by apply (acc_ts _ _ _ (accounts_step _ _ _ Hs)). }
    split; [done|]. destruct Hs as [ | | | |? ? ? ? ? ? t ts' ? Hp Hneg| | ]; simpl in *; try done.
    destruct (pick_perm _ _ _ _ Hp) as [Hts _]. rewrite Hts in Hnn. inv Hnn. lia.
  - split; [|done]. simpl. by rewrite sort_reverse_perm.
Qed.

Lemma stuck_returned ts hosts ls c a :
  hosts ≠ [] → Forall (λ t, 0 ≤ t_hosts t ≤ Z.of_nat (length hosts))%Z ts →
  execution (par_step ListSlices) (par_init ts () hosts) ls a → refines c a →
  (∀ l c', ¬ par_step (GoSlices grow) c l c') → ∃ b, p_pc a = Returned b.
Proof.
  intros Hne Hfit He [Hts Hhs Hn Hf Hpc Hws _ _] Hstuck.
  assert (Forall (λ t, 0 ≤ t_hosts t)%Z ts) as Hnn by (eapply Forall_impl; [done|]; simpl; lia).
  pose proof (par_accounts _ _ _ He) as Hacc. pose proof (reachable_waiting _ _ _ _ He) as Hwait.
  assert (∀ t, t ∈ p_ts a → t ∈ ts) as Hin.
  { intros t Ht. apply (acc_ts _ _ _ Hacc) in Ht. simpl in Ht. by rewrite sort_reverse_perm in Ht. }
  assert (∀ p, p_pc a ≠ Crashed p) as Hnc by (intros p; by eapply accounts_crash_free).
  assert ((∃ b, p_pc a = Returned b) ∨ ∀ b, p_pc a ≠ Returned b) as [?|Hnr];
    [destruct (p_pc a); eauto|done|exfalso].
  destruct c as [cts chs ch cn cf cws cpc]. simpl in *. subst.
  destruct (par_progress (p_ts a) chs ch (p_outstanding a) (p_failed a) cws (p_pc a))
    as (l & c' & Hs); [..|by apply (Hstuck l c')].
  - rewrite (wait_outstanding _ Hwait) by done. symmetry. by eapply Forall2_length.
  - done.
  - done.
  - rewrite Forall_forall in *. auto.
  - intros Hr ->. apply Forall2_nil_inv_l in Hws as H0.
    pose proof (acc_hosts _ _ _ Hacc) as Hh. unfold pool_and_held in Hh. simpl in Hh.
    rewrite H0 in Hh. simpl in Hh. rewrite !app_nil_r in Hh.
    destruct (wait_some _ Hwait) as [Hsome|Hsome]; [by right| |done].
    destruct (wait_fits _ Hwait Hr) as [Hnil|Hpick].
    + rewrite Hnil in Hh. apply Permutation_nil_l in Hh. done.
    + destruct (p_ts a) as [|t ts'] eqn:Hta; [done|]. simpl in Hpick.
      rewrite Forall_forall in Hfit. specialize (Hfit t (Hin t ltac:(by left))). simpl in Hfit.
      rewrite (Permutation_length Hh) in Hpick.
      rewrite (proj2 (Z.leb_le (t_hosts t) (Z.of_nat (length hosts)))) in Hpick by lia. done.
Qed.

(** C10: when every test needs between none and all of the hosts, the parallel
    runner never gets stuck: it stops only by returning, after it has run every
    test exactly once, and it returns whether one of them failed. *)
Theorem par_completes ts hosts ls c :
  hosts ≠ [] → Forall (λ t, 0 ≤ t_hosts t ≤ Z.of_nat (length hosts))%Z ts →
  execution (par_step (GoSlices grow)) (par_init ts (fields_memory hosts) (fields_slice hosts)) ls c → (∀ l c', ¬ par_step (GoSlices grow) c l c') →
  ∃ b, p_pc c = Returned b ∧ starts ls ≡ₚ ts ∧ (finishes ls).*1 ≡ₚ ts ∧
    b = existsb snd (finishes ls).
Proof.
  intros Hne Hfit He Hstuck. destruct (par_simulation _ _ _ _ _ He) as (a & Hea & Href).
  destruct (stuck_returned ts hosts ls c a Hne Hfit Hea Href Hstuck) as [b Hb].
  exists b. split; [by rewrite (ref_pc _ _ Href)|]. by eapply returned_accounts.
Qed.

(** C25: a test that needs more hosts than there are, or a negative number,
    keeps the parallel runner from ever returning: it waits for a goroutine
    that does not exist, or panics. *)
Theorem par_bad_test ts hosts ls c t b :
  t ∈ ts → (t_hosts t < 0 ∨ Z.of_nat (length hosts) < t_hosts t)%Z →
  execution (par_step (GoSlices grow)) (par_init ts (fields_memory hosts) (fields_slice hosts)) ls c → p_pc c ≠ Returned b.
Proof.
  intros Ht Hbad (a & He & Href)%par_simulation Hpc.
  rewrite (ref_pc _ _ Href) in Hpc. destruct (returned_accounts _ _ _ _ _ He Hpc) as (Hst & _).
  rewrite <-Hst in Ht. unfold starts in Ht. apply list_elem_of_bind in Ht as ([t' hs|] & Ht & Hin).
  - apply list_elem_of_singleton in Ht as <-.
    destruct (acc_held _ _ _ (par_accounts _ _ _ He) _ _ Hin) as [Hlen Hsub%submseteq_length].
    unfold pool_and_held in Hsub. simpl in Hsub. rewrite app_nil_r in Hsub. lia.
  - by apply not_elem_of_nil in Ht.
Qed.
End parallel_claims.

(** ** A run of three tests on three hosts

    The 2-host test and a 1-host test run at once; the last test gets a host
    that was given back. *)

Definition no_grow (old need : nat) : nat := need.

Definition three_hosts : list string := ["h1"; "h2"; "h3"].

Abbreviation go_step := (par_step (GoSlices no_grow)).
Abbreviation go_init ts hosts := (par_init ts (fields_memory hosts) (fields_slice hosts)).

(** The main loop and the goroutines, one step each; [i] is the goroutine. *)
Ltac run_outer := eapply execution_silent; [apply par_outer; simpl; lia|].
Ltac run_start := eapply execution_label; [by eapply par_start; [vm_compute; lia|reflexivity|simpl; lia|reflexivity]|]; simpl.
Ltac run_break := eapply execution_silent; [apply par_break; vm_compute; tauto|].
Ltac run_finish ws b := eapply execution_label;
  [by apply (par_finish (SI:=GoSlices no_grow) _ _ _ _ _ ws _ _ _ b)|]; cbn [app].
Ltac run_receive ws := eapply execution_silent;
  [by eapply (par_receive (SI:=GoSlices no_grow) _ _ _ _ _ ws); reflexivity|]; cbn [app pred].

Definition two_running : list par_label :=
  [LStart (MkTest "b_2_test.sh" 2) ["h1"; "h2"]; LStart (MkTest "c_test.sh" 1) ["h3"]].

Lemma three_running : ∃ c, execution go_step (go_init three_tests three_hosts) two_running c ∧
  p_pc c = AtReceive ∧ length (p_workers c) = 2.
Proof.
  assert (∃ ls c, execution go_step (go_init three_tests three_hosts) ls c ∧
    ls = two_running ∧ p_pc c = AtReceive ∧ length (p_workers c) = 2)
    as (ls & c & He & -> & ?); [|by exists c].
  eexists _, _. split; [unfold par_init|].
  - change (sort_reverse _) with [MkTest "b_2_test.sh" 2; MkTest "c_test.sh" 1; MkTest "a_test.sh" 1].
    run_outer. run_start. run_start. run_break. apply execution_nil.
  - by split_and!.
Qed.

Lemma par_refines_witness :
  ∃ a, execution (par_step ListSlices) (par_init three_tests () three_hosts) two_running a ∧
    p_pc a = AtReceive.
Proof.
  destruct three_running as (c & He & Hpc & _).
  destruct (par_refines no_grow three_tests three_hosts two_running c He)
    as (a & Ha & _ & _ & Hp & _).
  exists a. split; [exact Ha|congruence].
Defined.

Lemma par_hosts_exclusive_witness :
  ∃ c, p_pc c = AtReceive ∧
    slice_elems (p_mem c) (p_hosts c) ++
    (p_workers c ≫= λ w : worker slice, slice_elems (p_mem c) (w_hosts w)) ≡ₚ three_hosts.
Proof.
  destruct three_running as (c & He & Hpc & _). exists c. split; [exact Hpc|].
  exact (proj1 (par_hosts_exclusive no_grow three_tests three_hosts two_running c He)).
Defined.

Definition whole_run : list par_label :=
  two_running ++ [LFinish (MkTest "b_2_test.sh" 2) false; LStart (MkTest "a_test.sh" 1) ["h1"];
    LFinish (MkTest "c_test.sh" 1) true; LFinish (MkTest "a_test.sh" 1) false].

Lemma three_done : ∃ c, execution go_step (go_init three_tests three_hosts) whole_run c ∧
  p_pc c = Returned true.
Proof.
  assert (∃ ls c, execution go_step (go_init three_tests three_hosts) ls c ∧
    ls = whole_run ∧ p_pc c = Returned true) as (ls & c & He & -> & ?); [|by exists c].
  eexists _, _. split; [unfold par_init|].
  - change (sort_reverse _) with [MkTest "b_2_test.sh" 2; MkTest "c_test.sh" 1; MkTest "a_test.sh" 1].
    run_outer. run_start. run_start. run_break.
    run_finish (@nil (worker slice)) false. run_receive (@nil (worker slice)).
    run_outer. run_start. run_break.
    run_finish (@nil (worker slice)) true. run_receive (@nil (worker slice)).
    run_outer. run_break.
    run_finish (@nil (worker slice)) false. run_receive (@nil (worker slice)).
    eapply execution_silent; [apply par_return|]. apply execution_nil.
  - by split.
Qed.

Lemma par_completes_witness :
  ∃ c, execution go_step (go_init three_tests three_hosts) whole_run c ∧
    ∃ b, p_pc c = Returned b ∧ starts whole_run ≡ₚ three_tests ∧ b = existsb snd (finishes whole_run).
Proof.
  destruct three_done as (c & He & Hpc). exists c. split; [exact He|].
  destruct (par_completes no_grow three_tests three_hosts whole_run c) as (b & Hb & Hst & _ & Hbs).
  - discriminate.
  - repeat constructor; vm_compute; discriminate.
  - exact He.
  - intros l c' Hs. destruct Hs; simpl in Hpc; try discriminate. subst. by destruct (H0 true).
  - by exists b.
Defined.

Lemma par_bad_test_witness :
  p_pc (go_init [MkTest "big_4_test.sh" 4] three_hosts) ≠ Returned false.
Proof.
  apply (par_bad_test no_grow [MkTest "big_4_test.sh" 4] three_hosts [] _ (MkTest "big_4_test.sh" 4));
    [by left|right; reflexivity|apply execution_nil].
Defined.

